(* ===== verification/_CoqProject ===== *)
-Q . S2P
Prelude.v
ByteOrder.v
BAddr.v
ParseNumber.v
IpAddr.v
IpAddr6.v
IpProto.v
CString.v
AddrText.v
ReadFile.v
Tun2socksUdp.v
UdpGwProto.v
BAVL.v
SLinkedList.v
LinkedList1.v
SortedTree.v
CAvl.v
TreeIndex.v
BPending.v
ChunkBuffer2.v
FlowInterface.v
TapDevice.v
SendChain.v
FairQueue.v
PacketFlow.v
PacketProtoDecoder.v
BSocksClient.v
Options.v
TcpClient.v
TcpClientFacts.v
SocksUdpGwClient.v
Startup.v
UdpGwClient.v
RedBase64.v
RedMd5.v
RedHttpAuth.v
RedSocks.v
RedPump.v
