(* ===== verification/Prelude.v ===== *)
(** * tun2socks and redsocks: a verification development

    tun2socks (src/core/src/main/jni/badvpn/, built for Android by
    src/core/src/main/jni/Android.mk) reads IP packets from a TUN device.  TCP
    connections found in them are terminated by the lwIP stack and forwarded
    through a SOCKS5 server; UDP datagrams are forwarded through a UDP relay, and
    the replies are wrapped into IP packets again and written to the device.  The
    program is single-threaded and event-driven: a reactor runs a stack of
    pending jobs, and components are joined by flow interfaces whose two ends
    call each other through these jobs.

    redsocks (src/core/src/main/jni/redsocks/) accepts TCP connections that the
    firewall redirected, opens a connection to a SOCKS or HTTP proxy for each,
    authenticates and asks for the original destination, and then relays both
    streams.  It is event-driven on libevent.

    ** Parts and files

    - this file: machine integers, byte strings, bounded loads and stores
      ([mem_read], [mem_write], which fail outside the object), the [ASSERT]
      notation, tactics and hint databases;
    - ByteOrder.v: misc/read_write_int.h, misc/byteorder.h, misc/balign.h,
      misc/bsize.h (little-endian host);
    - BAddr.v: system/BAddr.h (data, construction, comparison);
    - ParseNumber.v, IpAddr.v, IpAddr6.v: misc/parse_number.h with the used part of
      misc/memref.h, misc/ipaddr.h, misc/ipaddr6.h;
    - IpProto.v: misc/ipv4_proto.h, misc/ipv6_proto.h, misc/udp_proto.h;
    - CString.v: the string functions of the C library that the program uses and
      misc/loglevel.h; AddrText.v: parsing and printing of addresses in
      system/BAddr.h, with getaddrinfo as a class [Resolver] whose laws state what
      the manual promises; ReadFile.v: misc/read_file.h;
    - Options.v: parse_arguments and process_arguments of tun2socks/tun2socks.c;
    - Startup.v: main, wait_for_fd, lwip_init_job_hadler, the timers and the
      handlers that end the program, of tun2socks/tun2socks.c;
    - TapDevice.v: tuntap/BTap.c on a given file descriptor, flow/SinglePacketBuffer.c
      and the hand-over to device_read_handler_send;
    - Tun2socksUdp.v: the UDP path of tun2socks/tun2socks.c
      (device_read_handler_send, process_device_udp_packet,
      udpgw_client_handler_received) and the device output of lwIP;
    - BAVL.v: structure/BAVL.h, an AVL tree, on zippers: the path of frames stands
      for the parent pointers, and exchanging two nodes is an exchange on the path;
    - LinkedList1.v: structure/LinkedList1.h on a store of nodes;
    - SortedTree.v, CAvl.v: structure/CAvl_impl.h (the tree of the fair queue) on
      a store of nodes with parent links, and the abstract trees it is related to;
    - TreeIndex.v: a tree of BAVL.v as an index of records, for the two clients
      below;
    - FairQueue.v: flow/PacketPassFairQueue.c, with the tree as an interface that
      CAvl.v implements;
    - UdpGwProto.v, UdpGwClient.v: protocol/udpgw_proto.h and
      udpgw_client/UdpGwClient.c;
    - SocksUdpGwClient.v: tun2socks/SocksUdpGwClient.c (the Android branch) and
      the set-up of the UDP MTU in tun2socks.c;
    - SLinkedList.v, BPending.v: structure/SLinkedList_impl.h on a store of
      nodes, and base/BPending.c on top of it;
    - ChunkBuffer2.v: structure/ChunkBuffer2.h, a ring of packets in a byte array;
    - FlowInterface.v: flow/PacketPassInterface, PacketRecvInterface,
      StreamPassInterface and StreamRecvInterface with their jobs;
    - PacketFlow.v: flow/BufferWriter.c, PacketProtoEncoder.c, PacketBuffer.c and
      PacketProtoFlow.c, composed over the interfaces and the ring;
    - PacketProtoDecoder.v: flow/PacketProtoDecoder.c;
    - BSocksClient.v: socksclient/BSocksClient.c;
    - TcpClient.v, TcpClientFacts.v: the TCP connections of tun2socks/tun2socks.c
      (the client handlers and listener_accept_func) with misc/dead.h, and their
      theorems;
    - SendChain.v: flow/PacketStreamSender.c, flow/PacketPassConnector.c and
      flowextra/PacketPassInactivityMonitor.c, composed as UdpGwClient.c does;
    - RedBase64.v, RedMd5.v, RedHttpAuth.v: base64.c, md5.c and http-auth.c of
      redsocks; RedSocks.v: socks5.c with the helpers of redsocks.c that read and
      write in a dialog; RedPump.v: the relaying of redsocks.c on bufferevents.

    ** How the code is modelled

    A C function is a Rocq function that passes the state of its component and
    returns [None] for a fault: a failed ASSERT, an access outside an object, a
    use of a freed object or a violated contract of the called component.  The
    release build compiles the ASSERTs out; that no run faults shows that none of
    them would fire.  Integers are [Z] with the wrap-around of the C type written
    at the operation.  Calls that leave a component (sockets, lwIP, memory
    allocation) are arguments or outputs of the functions; theorems quantify over
    all answers.  Handlers that run as jobs are functions that return the new job
    stack.  A length that the source keeps in an int is cut to 32 bits there; what
    needs strings shorter than 2 GiB says so ([arg_ok] in Options.v, the sum of the
    lengths in RedHttpAuth.v), and AddrText.v shows what a longer one does.

    What lies outside a component keeps its own rules: lwIP makes the registered
    callbacks also on a pcb that it is closing, and main aborts the connections
    that lwIP has left at shutdown; BFree and the release of I/O objects work
    once, and a pointer to freed memory may be left behind.

    ** What the theorems show

    - memory safety and absence of failed ASSERTs for the UDP path, the decoder,
      the SOCKS client, the TCP connections, the fair queue (also while it is
      freed), the device reader and address parsing, for all inputs and all orders
      of events;
    - start-up and shutdown: the command lines that are accepted are those of a
      grammar, the configuration that results is well formed, and main releases
      what it acquired in an order that leaves no dangling use, whatever fails; the
      two ways in which main can fault are part of the statement;
    - refinements: the job list is a stack, the ring buffer and the packet flow
      are bounded FIFO queues, both AVL trees are sorted lists and the height of
      one is bounded by the logarithm of its size, the table of UDP relay
      connections and that of the UDP gateway client are lists in the order of
      use; for the relay the list also says exactly which datagrams are written
      past the buffer;
    - fairness: the flows of the fair queue that wait get shares that differ by at
      most one packet and the lead one had before, and every packet is sent once;
    - round trips: packet protocol encoder and decoder for every cut of the
      stream, UDP relay and device, datagrams that the relay sends back, numbers
      and IPv4 and IPv6 addresses as text, masks and prefix lengths;
    - functional behaviour: the SOCKS handshake, the addresses and checksums of
      the packets written to the device, the packets handed to the relay;
    - the TCP connections: no byte is lost, duplicated or reordered in either
      direction, the receive window is respected, lwIP is told about aborts
      exactly, buffered data is delivered after a close;
    - the sending chain of the UDP gateway: packets go whole and in order to the
      connected stream, and again from the beginning after a reconnection;
    - redsocks: base 64 round trip, MD5 and digest authentication as in their
      RFCs (RFC 1321 is written down in a module of its own, from the words of the
      RFC and not from the code), the SOCKS5 dialog for every cut of the proxy's stream, and the relaying
      of both streams and their ends through bounded buffers, with the one race
      in which data of the time before the relaying is lost.

    ** Bounds and fuel

    The mutually recursive close functions of a TCP client take a fuel of 4: each
    call closes one of the two sides.  The send loop takes the number of bytes
    left, and every round sends at least one.  The loops that free the relay
    connections take their number.  The loop over the arguments takes their number,
    the loops over a string its length, the loop that reads a file the length of
    the file, and the loops of CAvl.v that climb or descend the number of nodes.
    The base 64 encoder makes at most three rounds per byte and MD5 as many as
    there are blocks; header parameters are read with the length of the text.
    In each case the theorems show that the result is not the one of lacking fuel.
    ChunkBuffer2 assumes 4 * blocks <= INT_MAX, which calc_blocks does not check.

    ** Not modelled

    lwIP, libevent and the other vendored libraries (what redsocks sees of
    bufferevents is in RedSocks.v and RedPump.v); system calls (the reactor,
    sockets; read and write on the TUN device are answers and outputs); the text
    of log and help messages; of redsocks the configuration file, the accepting
    of connections and the reaction to too many of them, the pump on splice, and
    the SOCKS4 and HTTP protocols; the programs that the Android build does not
    contain (ncd, client, server, flooder and others); the Kotlin application. *)

From stdpp Require Export base list numbers option.
From Stdlib Require Export ZArith Lia.

Declare Scope c_scope.
Delimit Scope c_scope with C.
Open Scope Z_scope.

(** [lia] on goals with division and remainder by constants. *)
Ltac dlia := Z.to_euclidean_division_equations; lia.

(** * Machine integers

    A C integer is a [Z]; every operation of the source that can leave the
    width of its type is followed by the wrap-around of that type. *)

Definition UINT8_MAX : Z := 255.
Definition UINT16_MAX : Z := 65535.
Definition UINT32_MAX : Z := 4294967295.
Definition UINT64_MAX : Z := 18446744073709551615.
Definition INT_MAX : Z := 2147483647.

Definition u8 (x : Z) : Z := x mod 256.
Definition u16 (x : Z) : Z := x mod 65536.
Definition u32 (x : Z) : Z := x mod 4294967296.
Definition u64 (x : Z) : Z := x mod 18446744073709551616.

#[global] Arguments u8 : simpl never.
#[global] Arguments u16 : simpl never.
#[global] Arguments u32 : simpl never.
#[global] Arguments u64 : simpl never.

Lemma u8_range x : 0 <= u8 x < 256.
Proof. unfold u8. dlia. Qed.
Lemma u16_range x : 0 <= u16 x < 65536.
Proof. unfold u16. dlia. Qed.
Lemma u32_range x : 0 <= u32 x < 4294967296.
Proof. unfold u32. dlia. Qed.
Lemma u64_range x : 0 <= u64 x < 18446744073709551616.
Proof. unfold u64. dlia. Qed.

Lemma u8_small x : 0 <= x < 256 -> u8 x = x.
Proof. intros. apply Z.mod_small. lia. Qed.
Lemma u16_small x : 0 <= x < 65536 -> u16 x = x.
Proof. intros. apply Z.mod_small. lia. Qed.
Lemma u32_small x : 0 <= x < 4294967296 -> u32 x = x.
Proof. intros. apply Z.mod_small. lia. Qed.
Lemma u64_small x : 0 <= x < 18446744073709551616 -> u64 x = x.
Proof. intros. apply Z.mod_small. lia. Qed.

(** Conversion of a 32-bit pattern to [int]. *)
Definition s32 (x : Z) : Z := if u32 x <? 2147483648 then u32 x else u32 x - 4294967296.
#[global] Arguments s32 : simpl never.

Lemma s32_small x : 0 <= x <= INT_MAX -> s32 x = x.
Proof.
  unfold INT_MAX. intros. unfold s32. rewrite u32_small by lia.
  destruct (Z.ltb_spec x 2147483648); lia.
Qed.

(** [~x] on [uint32_t]. *)
Definition not32 (x : Z) : Z := UINT32_MAX - u32 x.

(** [ASSERT(b)] of misc/debug.h: a failed assertion is a fault. *)
Notation "'ASSERT' b ; k" := (if (b : bool) then k else None)
  (at level 100, b at level 90, k at level 200, right associativity,
   format "'[v' 'ASSERT'  b ; '/' k ']'") : c_scope.
Open Scope c_scope.

(** * Bytes and memory *)

Abbreviation bytes := (list Z).

Definition is_byte (b : Z) : Prop := 0 <= b < 256.
Definition is_bytes (l : bytes) : Prop := Forall is_byte l.

#[export] Instance is_byte_dec b : Decision (is_byte b).
Proof. unfold is_byte. apply _. Defined.
#[export] Instance is_bytes_dec l : Decision (is_bytes l).
Proof. unfold is_bytes. apply _. Defined.

(** The length of a byte string as a C integer. *)
Definition blen (l : bytes) : Z := Z.of_nat (length l).

Lemma blen_nonneg l : 0 <= blen l.
Proof. unfold blen. lia. Qed.
Lemma blen_app l k : blen (l ++ k) = blen l + blen k.
Proof. unfold blen. rewrite length_app. lia. Qed.
Lemma blen_cons x l : blen (x :: l) = 1 + blen l.
Proof. unfold blen. simpl. lia. Qed.
Lemma blen_nil : blen [] = 0.
Proof. reflexivity. Qed.

(** [btake n l] and [bdrop n l]: the first [n] bytes, and what is left when
    the pointer advances by [n]. *)
Definition btake (n : Z) (l : bytes) : bytes := take (Z.to_nat n) l.
Definition bdrop (n : Z) (l : bytes) : bytes := drop (Z.to_nat n) l.

Lemma blen_btake n l : 0 <= n <= blen l -> blen (btake n l) = n.
Proof. unfold blen, btake. intros. rewrite length_take. lia. Qed.
Lemma blen_bdrop n l : 0 <= n <= blen l -> blen (bdrop n l) = blen l - n.
Proof. unfold blen, bdrop. intros. rewrite length_drop. lia. Qed.
Lemma btake_bdrop n l : btake n l ++ bdrop n l = l.
Proof. apply take_drop. Qed.
Lemma btake_app_exact n l k : blen l = n -> btake n (l ++ k) = l.
Proof. unfold blen, btake. intros <-. rewrite Nat2Z.id. apply take_app_length. Qed.
Lemma bdrop_app_exact n l k : blen l = n -> bdrop n (l ++ k) = k.
Proof. unfold blen, bdrop. intros <-. rewrite Nat2Z.id. apply drop_app_length. Qed.
Lemma btake_all l : btake (blen l) l = l.
Proof. unfold btake, blen. rewrite Nat2Z.id. apply take_ge. lia. Qed.
Lemma bdrop_0 l : bdrop 0 l = l.
Proof. reflexivity. Qed.

Lemma is_bytes_app l k : is_bytes (l ++ k) <-> is_bytes l /\ is_bytes k.
Proof. apply Forall_app. Qed.
Lemma is_bytes_btake n l : is_bytes l -> is_bytes (btake n l).
Proof. apply Forall_take. Qed.
Lemma is_bytes_bdrop n l : is_bytes l -> is_bytes (bdrop n l).
Proof. apply Forall_drop. Qed.

(** [mem_read m off len] and [mem_write m off d]: a load of [len] bytes and a
    store of the bytes [d] at offset [off] of the object [m]; [None] when the
    access leaves the object, which in C is undefined behaviour. *)
Definition mem_read (m : bytes) (off len : Z) : option bytes :=
  if (0 <=? off) && (0 <=? len) && (off + len <=? blen m)
  then Some (btake len (bdrop off m)) else None.

Definition mem_write (m : bytes) (off : Z) (d : bytes) : option bytes :=
  if (0 <=? off) && (off + blen d <=? blen m)
  then Some (btake off m ++ d ++ bdrop (off + blen d) m) else None.

#[global] Arguments mem_read : simpl never.
#[global] Arguments mem_write : simpl never.
#[global] Arguments btake : simpl never.
#[global] Arguments bdrop : simpl never.
#[global] Arguments blen : simpl never.

Create HintDb cmem.
Create Rewrite HintDb cmem.
#[export] Hint Rewrite blen_app blen_cons blen_nil : cmem.
#[export] Hint Rewrite blen_btake blen_bdrop using lia : cmem.
#[export] Hint Resolve is_bytes_btake is_bytes_bdrop : cmem.

(** * Proof automation *)

(** Turn the boolean tests of the code into propositions. *)
Ltac zbool :=
  repeat match goal with
  | H : andb _ _ = true |- _ => apply andb_true_iff in H as [? ?]
  | H : andb _ _ = false |- _ => apply andb_false_iff in H
  | H : orb _ _ = false |- _ => apply orb_false_iff in H as [? ?]
  | H : orb _ _ = true |- _ => apply orb_true_iff in H
  | H : negb _ = true |- _ => apply negb_true_iff in H
  | H : negb _ = false |- _ => apply negb_false_iff in H
  | H : (_ <=? _) = true |- _ => apply Z.leb_le in H
  | H : (_ <=? _) = false |- _ => apply Z.leb_gt in H
  | H : (_ <? _) = true |- _ => apply Z.ltb_lt in H
  | H : (_ <? _) = false |- _ => apply Z.ltb_ge in H
  | H : (_ =? _) = true |- _ => apply Z.eqb_eq in H
  | H : (_ =? _) = false |- _ => apply Z.eqb_neq in H
  | H : (_ >? _) = _ |- _ => rewrite Z.gtb_ltb in H
  | H : (_ >=? _) = _ |- _ => rewrite Z.geb_leb in H
  | |- context [_ >? _] => rewrite Z.gtb_ltb
  | |- context [_ >=? _] => rewrite Z.geb_leb
  end.

(** Case analysis on the next boolean test of the goal. *)
Ltac ztest :=
  match goal with
  | |- context [?a <=? ?b] => destruct (Z.leb_spec a b)
  | |- context [?a <? ?b] => destruct (Z.ltb_spec a b)
  | |- context [?a =? ?b] => destruct (Z.eqb_spec a b)
  end.

(** Decide a boolean test of the goal whose outcome is arithmetic. *)
Ltac zdecide :=
  repeat match goal with
  | |- context [?a <=? ?b] =>
      first [ rewrite (proj2 (Z.leb_le a b)) by lia
            | rewrite (proj2 (Z.leb_gt a b)) by lia ]
  | |- context [?a <? ?b] =>
      first [ rewrite (proj2 (Z.ltb_lt a b)) by lia
            | rewrite (proj2 (Z.ltb_ge a b)) by lia ]
  | |- context [?a =? ?b] =>
      first [ rewrite (proj2 (Z.eqb_eq a b)) by lia
            | rewrite (proj2 (Z.eqb_neq a b)) by lia ]
  end; cbn [andb orb negb].

(** * Memory lemmas *)

Lemma mem_read_in m off len : 0 <= off -> 0 <= len -> off + len <= blen m ->
  mem_read m off len = Some (btake len (bdrop off m)).
Proof. intros. unfold mem_read. zdecide. done. Qed.

Lemma mem_read_inv m off len p : mem_read m off len = Some p ->
  0 <= off /\ 0 <= len /\ off + len <= blen m /\ p = btake len (bdrop off m).
Proof. unfold mem_read. repeat ztest; simpl; intros [= <-]; repeat split; lia. Qed.

Lemma mem_read_app l k : mem_read (l ++ k) 0 (blen l) = Some l.
Proof.
  pose proof (blen_nonneg k). pose proof (blen_nonneg l).
  rewrite mem_read_in by (rewrite ?blen_app; lia). by rewrite bdrop_0, btake_app_exact.
Qed.

Lemma btake_app_le n l k : 0 <= n <= blen l -> btake n (l ++ k) = btake n l.
Proof. unfold btake, blen. intros. apply take_app_le. lia. Qed.

Lemma btake_app_ge n l k : blen l <= n -> btake n (l ++ k) = l ++ btake (n - blen l) k.
Proof.
  unfold btake, blen. intros. rewrite take_app, take_ge by lia. do 2 f_equal. lia.
Qed.

Lemma bdrop_app_ge n l k : blen l <= n -> bdrop n (l ++ k) = bdrop (n - blen l) k.
Proof.
  unfold bdrop, blen. intros. rewrite drop_app, drop_ge by lia. simpl. f_equal. lia.
Qed.

Lemma bdrop_app_le n l k : 0 <= n <= blen l -> bdrop n (l ++ k) = bdrop n l ++ k.
Proof. unfold bdrop, blen. intros. apply drop_app_le. lia. Qed.

Lemma bdrop_bdrop n m l : 0 <= n -> 0 <= m -> bdrop n (bdrop m l) = bdrop (m + n) l.
Proof. unfold bdrop. intros. rewrite drop_drop. f_equal. lia. Qed.

Lemma btake_btake n m l : 0 <= n <= m -> btake n (btake m l) = btake n l.
Proof. unfold btake. intros. rewrite take_take. f_equal. lia. Qed.

Lemma btake_plus n m l : 0 <= n -> 0 <= m -> btake (n + m) l = btake n l ++ btake m (bdrop n l).
Proof.
  unfold btake, bdrop. intros. rewrite Z2Nat.inj_add by lia. symmetry. apply take_take_drop.
Qed.

Lemma mem_write_in m off d : 0 <= off -> off + blen d <= blen m ->
  mem_write m off d = Some (btake off m ++ d ++ bdrop (off + blen d) m).
Proof. intros. unfold mem_write. zdecide. done. Qed.

(** A store keeps the size of the object and what precedes it, and the bytes
    stored follow. *)
Lemma mem_write_inv m off d m' : mem_write m off d = Some m' ->
  0 <= off /\ off + blen d <= blen m /\ blen m' = blen m
  /\ m' = btake off m ++ d ++ bdrop (off + blen d) m.
Proof.
  unfold mem_write. pose proof (blen_nonneg d). repeat ztest; simpl; intros [= <-].
  repeat split; try lia. autorewrite with cmem. lia.
Qed.

(** Overwriting the middle of a string. *)
Lemma mem_write_at a b c d off : off = blen a -> blen b = blen d -> mem_write (a ++ b ++ c) off d = Some (a ++ d ++ c).
Proof.
  intros -> Hb. pose proof (blen_nonneg a). pose proof (blen_nonneg b). pose proof (blen_nonneg c).
  rewrite mem_write_in by (rewrite ?blen_app; lia). rewrite btake_app_exact by done.
  by rewrite (app_assoc a b c), (bdrop_app_exact _ (a ++ b)) by (rewrite blen_app; lia).
Qed.

Lemma mem_write_prefix m off d m' : mem_write m off d = Some m' ->
  btake (off + blen d) m' = btake off m ++ d.
Proof.
  intros H. apply mem_write_inv in H as (? & ? & _ & ->). pose proof (blen_nonneg d).
  rewrite app_assoc. apply btake_app_exact. autorewrite with cmem. lia.
Qed.

(** A load that does not overlap a store sees the old bytes. *)
Lemma mem_read_write_disjoint m off d m' off' len' : mem_write m off d = Some m' ->
  off' + len' <= off \/ off + blen d <= off' -> mem_read m' off' len' = mem_read m off' len'.
Proof.
  intros H D. pose proof (mem_write_inv _ _ _ _ H) as (H0 & H1 & HL & E). pose proof (blen_nonneg d).
  unfold mem_read. rewrite HL.
  destruct ((0 <=? off') && (0 <=? len') && (off' + len' <=? blen m)) eqn:B; [|done].
  zbool. f_equal. subst m'. destruct D as [D|D].
  - rewrite bdrop_app_le by (rewrite blen_btake; lia).
    rewrite btake_app_le by (rewrite blen_bdrop; rewrite blen_btake; lia).
    unfold btake, bdrop. rewrite skipn_firstn_comm, take_take. f_equal. lia.
  - rewrite app_assoc, bdrop_app_ge; rewrite blen_app, blen_btake by lia; [|lia].
    rewrite bdrop_bdrop by lia. do 2 f_equal. lia.
Qed.

(** A load of exactly what was stored gives it back. *)
Lemma mem_read_write_same m off d m' : mem_write m off d = Some m' ->
  mem_read m' off (blen d) = Some d.
Proof.
  intros H. pose proof (mem_write_inv _ _ _ _ H) as (H0 & H1 & HL & E). pose proof (blen_nonneg d).
  rewrite mem_read_in by lia. subst m'.
  rewrite bdrop_app_exact by (rewrite blen_btake; lia). by rewrite btake_app_exact.
Qed.

Lemma mem_write_some m off d : 0 <= off -> off + blen d <= blen m ->
  exists m', mem_write m off d = Some m' /\ blen m' = blen m.
Proof.
  intros. destruct (mem_write m off d) as [m'|] eqn:E.
  - exists m'. split; [done|]. by apply mem_write_inv in E as (_ & _ & ? & _).
  - rewrite mem_write_in in E by lia. done.
Qed.

(** Two adjacent loads are one load. *)
Lemma mem_read_join m off n k x y : mem_read m off n = Some x -> mem_read m (off + n) k = Some y ->
  mem_read m off (n + k) = Some (x ++ y).
Proof.
  intros (? & ? & ? & ->)%mem_read_inv (? & ? & ? & ->)%mem_read_inv.
  rewrite mem_read_in by lia. rewrite btake_plus by lia. by rewrite bdrop_bdrop by lia.
Qed.

Lemma bdrop_btake s k l : 0 <= s -> 0 <= k -> bdrop s (btake (s + k) l) = btake k (bdrop s l).
Proof. intros. unfold btake, bdrop. rewrite skipn_firstn_comm. f_equal. lia. Qed.

(** A run that ends where a store begins grows by what is stored. *)
Lemma mem_write_extend m s k d m' : mem_write m (s + k) d = Some m' -> 0 <= s -> 0 <= k ->
  btake (k + blen d) (bdrop s m') = btake k (bdrop s m) ++ d.
Proof.
  intros W ? ?. pose proof (mem_write_prefix _ _ _ _ W) as P. pose proof (mem_write_inv _ _ _ _ W) as (? & ? & ? & _).
  pose proof (blen_nonneg d). rewrite <- bdrop_btake by lia. rewrite Z.add_assoc, P.
  rewrite bdrop_app_le by (rewrite blen_btake; lia). by rewrite bdrop_btake by lia.
Qed.
