(* ===== verification/ByteOrder.v ===== *)
(** Byte order conversion and integer (de)serialisation: misc/byteorder.h,
    misc/read_write_int.h, misc/balign.h and misc/bsize.h.

    The build defines BADVPN_LITTLE_ENDIAN, so the object representation of a
    [uint16_t] or [uint32_t] is its little-endian byte string; [mem16] and
    [mem32] are that representation and [load16], [load32] read it back, which
    is what [memcpy] between a packed struct and a buffer does. *)

From S2P Require Import Prelude.

Definition SIZE_MAX : Z := UINT64_MAX.

(** ** read_write_int.h *)

Definition badvpn_read_le16 (p : bytes) : Z :=
  Z.lor (Z.shiftl (nth 1 p 0) 8) (Z.shiftl (nth 0 p 0) 0).

Definition badvpn_read_be16 (p : bytes) : Z :=
  Z.lor (Z.shiftl (nth 0 p 0) 8) (Z.shiftl (nth 1 p 0) 0).

Definition badvpn_read_le32 (p : bytes) : Z :=
  Z.lor (Z.lor (Z.shiftl (nth 3 p 0) 24) (Z.shiftl (nth 2 p 0) 16))
        (Z.lor (Z.shiftl (nth 1 p 0) 8) (Z.shiftl (nth 0 p 0) 0)).

Definition badvpn_read_be32 (p : bytes) : Z :=
  Z.lor (Z.lor (Z.shiftl (nth 0 p 0) 24) (Z.shiftl (nth 1 p 0) 16))
        (Z.lor (Z.shiftl (nth 2 p 0) 8) (Z.shiftl (nth 3 p 0) 0)).

Definition badvpn_write_le16 (x : Z) : bytes :=
  [u8 (Z.shiftr x 0); u8 (Z.shiftr x 8)].

Definition badvpn_write_be16 (x : Z) : bytes :=
  [u8 (Z.shiftr x 8); u8 (Z.shiftr x 0)].

Definition badvpn_write_le32 (x : Z) : bytes :=
  [u8 (Z.shiftr x 0); u8 (Z.shiftr x 8); u8 (Z.shiftr x 16); u8 (Z.shiftr x 24)].

Definition badvpn_write_be32 (x : Z) : bytes :=
  [u8 (Z.shiftr x 24); u8 (Z.shiftr x 16); u8 (Z.shiftr x 8); u8 (Z.shiftr x 0)].

(** ** Object representations *)

Abbreviation mem16 := badvpn_write_le16.
Abbreviation mem32 := badvpn_write_le32.
Abbreviation load16 := badvpn_read_le16.
Abbreviation load32 := badvpn_read_le32.

#[global] Arguments badvpn_read_le16 : simpl never.
#[global] Arguments badvpn_read_le32 : simpl never.
#[global] Arguments badvpn_read_be16 : simpl never.
#[global] Arguments badvpn_read_be32 : simpl never.

(** ** byteorder.h (BADVPN_LITTLE_ENDIAN) *)

Definition badvpn_reverse16 (x : Z) : Z :=
  load16 [nth 1 (mem16 x) 0; nth 0 (mem16 x) 0].

Definition badvpn_reverse32 (x : Z) : Z :=
  load32 [nth 3 (mem32 x) 0; nth 2 (mem32 x) 0; nth 1 (mem32 x) 0; nth 0 (mem32 x) 0].

Definition hton8 (x : Z) : Z := x.
Definition hton16 (x : Z) : Z := badvpn_reverse16 (u16 x).
Definition hton32 (x : Z) : Z := badvpn_reverse32 (u32 x).
Definition htol16 (x : Z) : Z := u16 x.
Definition ntoh8 (x : Z) : Z := hton8 x.
Definition ntoh16 (x : Z) : Z := hton16 x.
Definition ntoh32 (x : Z) : Z := hton32 x.
Definition htol8 (x : Z) : Z := x.
Definition ltoh8 (x : Z) : Z := htol8 x.
Definition ltoh16 (x : Z) : Z := htol16 x.

#[global] Arguments hton16 : simpl never.
#[global] Arguments hton32 : simpl never.

(** ** balign.h *)

Definition bdivide_up (a b : Z) : Z :=
  let r := a mod b in
  if r >? 0 then a / b + 1 else a / b.

(** ** bsize.h *)

Record bsize_t := { is_overflow : bool; bs_value : Z }.

Definition bsize_fromsize (v : Z) : bsize_t :=
  {| is_overflow := false; bs_value := v |}.
Definition bsize_fromint (v : Z) : bsize_t :=
  {| is_overflow := (v <? 0) || (v >? SIZE_MAX); bs_value := u64 v |}.
Definition bsize_toint (s : bsize_t) : option Z :=
  if is_overflow s || (bs_value s >? INT_MAX) then None else Some (bs_value s).
Definition bsize_add (s1 s2 : bsize_t) : bsize_t :=
  {| is_overflow := is_overflow s1 || is_overflow s2 || (bs_value s2 >? SIZE_MAX - bs_value s1);
     bs_value := u64 (bs_value s1 + bs_value s2) |}.
Definition bsize_max (s1 s2 : bsize_t) : bsize_t :=
  {| is_overflow := is_overflow s1 || is_overflow s2;
     bs_value := (if bs_value s1 >? bs_value s2 then 1 else 0) * bs_value s1
                 + (if bs_value s1 <=? bs_value s2 then 1 else 0) * bs_value s2 |}.
Definition bsize_mul (s1 s2 : bsize_t) : bsize_t :=
  {| is_overflow := is_overflow s1 || is_overflow s2
                    || (negb (bs_value s1 =? 0) && (bs_value s2 >? SIZE_MAX / bs_value s1));
     bs_value := u64 (bs_value s1 * bs_value s2) |}.

(** * Lemmas *)

(** Equality of two byte strings of known length, byte by byte. *)
Ltac bytes_eq := repeat (apply (f_equal2 (@cons Z)); [dlia|]); reflexivity.

(** A byte string of known length is one of bytes. *)
Ltac all_bytes :=
  repeat (apply Forall_cons_2; [first [apply u8_range | assumption | unfold is_byte; lia]|]);
  first [apply Forall_nil_2 | assumption].

(** The disjunction of a number shifted by [n] and an [n]-bit number is a sum. *)
Lemma lor_shiftl_add n a b : 0 <= n -> 0 <= b < 2 ^ n ->
  Z.lor (Z.shiftl a n) b = a * 2 ^ n + b.
Proof.
  intros Hn Hb. rewrite <- Z.shiftl_mul_pow2 by lia.
  rewrite <- Z.add_lor_land. enough (Z.land (Z.shiftl a n) b = 0) by lia.
  apply Z.bits_inj'. intros i Hi. rewrite Z.land_spec, Z.bits_0.
  destruct (Z.ltb_spec i n).
  - rewrite Z.shiftl_spec_low by lia. reflexivity.
  - destruct (Z.eq_dec b 0) as [->|]; [now rewrite Z.bits_0, andb_false_r|].
    rewrite (Z.bits_above_log2 b i), andb_false_r; [reflexivity|lia|].
    apply Z.lt_le_trans with n; [apply Z.log2_lt_pow2; lia|lia].
Qed.

Lemma read_le16_cons a b r : is_byte a -> is_byte b ->
  badvpn_read_le16 (a :: b :: r) = a + 256 * b.
Proof.
  unfold is_byte, badvpn_read_le16. intros. cbn [nth].
  rewrite Z.shiftl_0_r, lor_shiftl_add by lia. lia.
Qed.

Lemma read_be16_cons a b r : is_byte a -> is_byte b ->
  badvpn_read_be16 (a :: b :: r) = 256 * a + b.
Proof.
  unfold is_byte, badvpn_read_be16. intros. cbn [nth].
  rewrite Z.shiftl_0_r, lor_shiftl_add by lia. lia.
Qed.

Lemma read_le32_cons a b c d r : is_byte a -> is_byte b -> is_byte c -> is_byte d ->
  badvpn_read_le32 (a :: b :: c :: d :: r) = a + 256 * b + 65536 * c + 16777216 * d.
Proof.
  unfold is_byte, badvpn_read_le32. intros. cbn [nth].
  rewrite Z.shiftl_0_r, (lor_shiftl_add 8) by lia.
  replace (Z.shiftl d 24) with (Z.shiftl (Z.shiftl d 8) 16) by now rewrite Z.shiftl_shiftl.
  rewrite <- Z.shiftl_lor, (lor_shiftl_add 8) by lia.
  rewrite lor_shiftl_add by lia. lia.
Qed.

Lemma shr8 x : Z.shiftr x 8 = x / 256.
Proof. now rewrite Z.shiftr_div_pow2 by lia. Qed.
Lemma shr16 x : Z.shiftr x 16 = x / 65536.
Proof. now rewrite Z.shiftr_div_pow2 by lia. Qed.
Lemma shr24 x : Z.shiftr x 24 = x / 16777216.
Proof. now rewrite Z.shiftr_div_pow2 by lia. Qed.

Create Rewrite HintDb cbits.
#[export] Hint Rewrite Z.shiftr_0_r shr8 shr16 shr24 : cbits.

Lemma write_le16_length x : blen (badvpn_write_le16 x) = 2.
Proof. reflexivity. Qed.
Lemma write_be16_length x : blen (badvpn_write_be16 x) = 2.
Proof. reflexivity. Qed.
Lemma write_le32_length x : blen (badvpn_write_le32 x) = 4.
Proof. reflexivity. Qed.
#[export] Hint Rewrite write_le16_length write_be16_length write_le32_length : cmem.

Lemma u8_is_byte x : is_byte (u8 x).
Proof. apply u8_range. Qed.
#[export] Hint Resolve u8_is_byte : cmem.

Lemma write_le16_bytes x : is_bytes (badvpn_write_le16 x).
Proof. repeat constructor; apply u8_range. Qed.
Lemma write_be16_bytes x : is_bytes (badvpn_write_be16 x).
Proof. repeat constructor; apply u8_range. Qed.
Lemma write_le32_bytes x : is_bytes (badvpn_write_le32 x).
Proof. repeat constructor; apply u8_range. Qed.
#[export] Hint Resolve write_le16_bytes write_be16_bytes write_le32_bytes : cmem.

(** Storing and reloading an integer gives it back. *)
Lemma load16_mem16 x r : 0 <= x < 65536 -> load16 (mem16 x ++ r) = x.
Proof.
  intros. unfold badvpn_write_le16. cbn [app].
  rewrite read_le16_cons by apply u8_range. autorewrite with cbits. unfold u8. dlia.
Qed.

Lemma load32_mem32 x r : 0 <= x < 4294967296 -> load32 (mem32 x ++ r) = x.
Proof.
  intros. unfold badvpn_write_le32. cbn [app].
  rewrite read_le32_cons by apply u8_range. autorewrite with cbits. unfold u8. dlia.
Qed.

Lemma load16_stored x r : 0 <= x < 65536 ->
  load16 (u8 (Z.shiftr x 0) :: u8 (Z.shiftr x 8) :: r) = x.
Proof. exact (load16_mem16 x r). Qed.

Lemma load32_stored x r : 0 <= x < 4294967296 ->
  load32 (u8 (Z.shiftr x 0) :: u8 (Z.shiftr x 8) :: u8 (Z.shiftr x 16) :: u8 (Z.shiftr x 24) :: r) = x.
Proof. exact (load32_mem32 x r). Qed.

(** Loading a pair or quadruple of bytes and storing it gives the bytes back. *)
Lemma mem16_load16 a b r : is_byte a -> is_byte b -> mem16 (load16 (a :: b :: r)) = [a; b].
Proof.
  intros. rewrite read_le16_cons by done. unfold badvpn_write_le16, is_byte in *.
  autorewrite with cbits. unfold u8. bytes_eq.
Qed.

Lemma mem32_load32 a b c d r : is_byte a -> is_byte b -> is_byte c -> is_byte d ->
  mem32 (load32 (a :: b :: c :: d :: r)) = [a; b; c; d].
Proof.
  intros. rewrite read_le32_cons by done. unfold badvpn_write_le32, is_byte in *.
  autorewrite with cbits. unfold u8. bytes_eq.
Qed.

Lemma load16_range p : is_bytes p -> 0 <= load16 p < 65536.
Proof.
  intros H. destruct p as [|a [|b r]]; [done| |].
  - apply Forall_inv in H. unfold badvpn_read_le16, is_byte in *. cbn [nth].
    rewrite Z.shiftl_0_l, Z.lor_0_l, Z.shiftl_0_r. lia.
  - inversion H as [|?? Ha Hr]; subst. apply Forall_inv in Hr.
    rewrite read_le16_cons by done. unfold is_byte in *. lia.
Qed.

Lemma load32_range a b c d r : is_byte a -> is_byte b -> is_byte c -> is_byte d ->
  0 <= load32 (a :: b :: c :: d :: r) < 4294967296.
Proof. intros. rewrite read_le32_cons by done. unfold is_byte in *. lia. Qed.

Lemma hton16_eq x : 0 <= x < 65536 -> hton16 x = x / 256 + 256 * (x mod 256).
Proof.
  intros. unfold hton16, badvpn_reverse16. rewrite u16_small by lia.
  unfold badvpn_write_le16. cbn [nth].
  rewrite read_le16_cons by apply u8_range. autorewrite with cbits. unfold u8. dlia.
Qed.

Lemma hton16_range x : 0 <= hton16 x < 65536.
Proof.
  unfold hton16. pose proof (u16_range x) as H. revert H. generalize (u16 x). intros y Hy.
  unfold badvpn_reverse16. apply load16_range. repeat constructor; cbn; apply u8_range.
Qed.

Lemma hton16_u16 x : hton16 (u16 x) = hton16 x.
Proof. unfold hton16. f_equal. unfold u16. dlia. Qed.

(** [hton16] is an involution on [uint16_t]. *)
Lemma ntoh16_hton16 x : 0 <= x < 65536 -> ntoh16 (hton16 x) = x.
Proof.
  intros. unfold ntoh16. rewrite (hton16_eq (hton16 x)) by apply hton16_range.
  rewrite hton16_eq by lia. dlia.
Qed.

(** The memory image of a number in network order is its big-endian string. *)
Lemma mem16_hton16 x : 0 <= x < 65536 -> mem16 (hton16 x) = badvpn_write_be16 x.
Proof.
  intros. rewrite hton16_eq by lia. unfold badvpn_write_le16, badvpn_write_be16.
  autorewrite with cbits. unfold u8. bytes_eq.
Qed.

Lemma read_be16_mem16 x r : 0 <= x < 65536 -> badvpn_read_be16 (mem16 x ++ r) = hton16 x.
Proof.
  intros. unfold badvpn_write_le16. cbn [app]. rewrite read_be16_cons by apply u8_range.
  rewrite hton16_eq by lia. autorewrite with cbits. unfold u8. dlia.
Qed.

Lemma bdivide_up_4 a : 0 <= a -> bdivide_up a 4 = (a + 3) / 4.
Proof. intros. unfold bdivide_up. zbool. ztest; dlia. Qed.
