(* ===== verification/BAddr.v ===== *)
(** Socket addresses: system/BAddr.h.

    [BIPAddr] and [BAddr] are the tagged unions of the source; addresses and
    ports are kept in network byte order, as the C fields are.  The order
    [BAddr_CompareOrder] is what the AVL trees of the UDP clients are keyed
    by; it is proved here to be a total order whose equivalence is equality
    on well-formed addresses. *)

From S2P Require Import Prelude ByteOrder.

Inductive BIPAddr :=
| BIPAddr_none
| BIPAddr_ipv4 (ipv4 : Z)
| BIPAddr_ipv6 (ipv6 : bytes).

Inductive BAddr :=
| BAddr_none
| BAddr_ipv4 (ip port : Z)
| BAddr_ipv6 (ip : bytes) (port : Z)
| BAddr_packet (phys_proto interface_index header_type packet_type : Z) (phys_addr : bytes).

#[export] Instance BIPAddr_eq_dec : EqDecision BIPAddr.
Proof. solve_decision. Defined.
#[export] Instance BAddr_eq_dec : EqDecision BAddr.
Proof. solve_decision. Defined.

Definition BADDR_TYPE_NONE : Z := 0.
Definition BADDR_TYPE_IPV4 : Z := 1.
Definition BADDR_TYPE_IPV6 : Z := 2.
Definition BADDR_TYPE_PACKET : Z := 5.

Definition BAddr_type (a : BAddr) : Z :=
  match a with
  | BAddr_none => BADDR_TYPE_NONE
  | BAddr_ipv4 _ _ => BADDR_TYPE_IPV4
  | BAddr_ipv6 _ _ => BADDR_TYPE_IPV6
  | BAddr_packet _ _ _ _ _ => BADDR_TYPE_PACKET
  end.

Definition BAddr_MakeNone : BAddr := BAddr_none.
Definition BAddr_MakeIPv4 (ip port : Z) : BAddr := BAddr_ipv4 ip port.
Definition BAddr_MakeIPv6 (ip : bytes) (port : Z) : BAddr := BAddr_ipv6 (btake 16 ip) port.

Definition BAddr_MakeFromIpaddrAndPort (ipaddr : BIPAddr) (port : Z) : BAddr :=
  match ipaddr with
  | BIPAddr_none => BAddr_MakeNone
  | BIPAddr_ipv4 ip => BAddr_MakeIPv4 ip port
  | BIPAddr_ipv6 ip => BAddr_MakeIPv6 ip port
  end.

Definition BAddr_IsInvalid (a : BAddr) : bool := BAddr_type a =? BADDR_TYPE_NONE.

Definition BAddr_GetPort (a : BAddr) : option Z :=
  match a with
  | BAddr_ipv4 _ port => Some port
  | BAddr_ipv6 _ port => Some port
  | _ => None
  end.

Definition BAddr_GetIPAddr (a : BAddr) : BIPAddr :=
  match a with
  | BAddr_ipv4 ip _ => BIPAddr_ipv4 ip
  | BAddr_ipv6 ip _ => BIPAddr_ipv6 ip
  | _ => BIPAddr_none
  end.

Definition BAddr_SetPort (a : BAddr) (port : Z) : option BAddr :=
  match a with
  | BAddr_ipv4 ip _ => Some (BAddr_ipv4 ip port)
  | BAddr_ipv6 ip _ => Some (BAddr_ipv6 ip port)
  | _ => None
  end.

(** B_COMPARE of misc/compare.h. *)
Definition B_COMPARE (a b : Z) : Z := Z.b2z (a >? b) - Z.b2z (a <? b).

(** [memcmp] over [n] bytes: the sign of the first difference. *)
Fixpoint memcmp (a b : bytes) (n : nat) : Z :=
  match n, a, b with
  | S n', x :: a', y :: b' => if x =? y then memcmp a' b' n' else x - y
  | _, _, _ => 0
  end.

Definition BAddr_Compare (a1 a2 : BAddr) : bool :=
  if negb (BAddr_type a1 =? BAddr_type a2) then false
  else match a1, a2 with
  | BAddr_ipv4 ip1 port1, BAddr_ipv4 ip2 port2 => (ip1 =? ip2) && (port1 =? port2)
  | BAddr_ipv6 ip1 port1, BAddr_ipv6 ip2 port2 =>
      (memcmp ip1 ip2 16 =? 0) && (port1 =? port2)
  | _, _ => false
  end.

Definition BAddr_CompareOrder (a1 a2 : BAddr) : Z :=
  let cmp := B_COMPARE (BAddr_type a1) (BAddr_type a2) in
  if negb (cmp =? 0) then cmp
  else match a1, a2 with
  | BAddr_ipv4 ip1 port1, BAddr_ipv4 ip2 port2 =>
      let cmp := B_COMPARE (ntoh32 ip1) (ntoh32 ip2) in
      if negb (cmp =? 0) then cmp
      else B_COMPARE (ntoh16 port1) (ntoh16 port2)
  | BAddr_ipv6 ip1 port1, BAddr_ipv6 ip2 port2 =>
      let cmp := memcmp ip1 ip2 16 in
      if negb (cmp =? 0) then B_COMPARE cmp 0
      else B_COMPARE (ntoh16 port1) (ntoh16 port2)
  | _, _ => 0
  end.

(** An address as the program builds it: every field within its C type. *)
Definition BAddr_wf (a : BAddr) : Prop :=
  match a with
  | BAddr_none => True
  | BAddr_ipv4 ip port => 0 <= ip < 4294967296 /\ 0 <= port < 65536
  | BAddr_ipv6 ip port => length ip = 16%nat /\ is_bytes ip /\ 0 <= port < 65536
  | BAddr_packet _ _ _ _ _ => False
  end.

#[export] Instance BAddr_wf_dec a : Decision (BAddr_wf a).
Proof. destruct a; simpl; apply _. Defined.

Definition BAddr_is_ip (a : BAddr) : bool :=
  (BAddr_type a =? BADDR_TYPE_IPV4) || (BAddr_type a =? BADDR_TYPE_IPV6).

(** * Lemmas *)

Lemma B_COMPARE_spec a b :
  (a = b /\ B_COMPARE a b = 0) \/ (a < b /\ B_COMPARE a b = -1) \/ (b < a /\ B_COMPARE a b = 1).
Proof.
  unfold B_COMPARE. rewrite Z.gtb_ltb.
  destruct (Z.ltb_spec a b), (Z.ltb_spec b a); simpl; lia.
Qed.

Lemma hton32_inj x y : 0 <= x < 4294967296 -> 0 <= y < 4294967296 -> hton32 x = hton32 y -> x = y.
Proof.
  intros Hx Hy. unfold hton32, badvpn_reverse32. rewrite !u32_small by lia.
  unfold badvpn_write_le32. cbn [nth].
  rewrite !read_le32_cons by apply u8_range. autorewrite with cbits. unfold u8. dlia.
Qed.

Lemma hton16_inj x y : 0 <= x < 65536 -> 0 <= y < 65536 -> hton16 x = hton16 y -> x = y.
Proof.
  intros ?? E. rewrite <- (ntoh16_hton16 x), <- (ntoh16_hton16 y) by lia. now rewrite E.
Qed.

Lemma memcmp_zero a b n : length a = n -> length b = n -> memcmp a b n = 0 <-> a = b.
Proof.
  revert a b. induction n as [|n IH]; intros [|x a] [|y b] Ha Hb; try discriminate;
    simpl in *; [split; auto|].
  ztest; [|split; [lia|by intros [= ??]]].
  subst. rewrite IH by congruence. split; [by intros ->|by intros [= ->]].
Qed.

Lemma memcmp_antisym a b n : length a = n -> length b = n -> memcmp b a n = - memcmp a b n.
Proof.
  revert a b. induction n as [|n IH]; intros [|x a] [|y b] Ha Hb; try discriminate;
    simpl in *; [lia|].
  rewrite (Z.eqb_sym y x). ztest; [apply IH; congruence|lia].
Qed.

Lemma memcmp_trans a b c n : length a = n -> length b = n -> length c = n ->
  memcmp a b n < 0 -> memcmp b c n < 0 -> memcmp a c n < 0.
Proof.
  revert a b c. induction n as [|n IH]; intros [|x a] [|y b] [|z c]; simpl; try done.
  intros [= Ha] [= Hb] [= Hc]. repeat ztest; try lia. now apply (IH a b c).
Qed.

(** Under [BAddr_wf], the order relates two addresses as equal only when they
    are the same address. *)
Lemma BAddr_CompareOrder_zero a1 a2 : BAddr_wf a1 -> BAddr_wf a2 ->
  BAddr_CompareOrder a1 a2 = 0 <-> a1 = a2.
Proof.
  intros H1 H2. unfold BAddr_CompareOrder.
  destruct a1 as [|ip1 p1|ip1 p1|], a2 as [|ip2 p2|ip2 p2|]; simpl in *; try tauto; try (split; done); try (split; [lia|done]).
  - destruct H1, H2.
    destruct (B_COMPARE_spec (ntoh32 ip1) (ntoh32 ip2)) as [[E ->]|[[? ->]|[? ->]]]; simpl;
      [|split; [lia|intros [= -> ->]; lia]..].
    apply hton32_inj in E; [|lia..]. subst.
    destruct (B_COMPARE_spec (ntoh16 p1) (ntoh16 p2)) as [[E ->]|[[? ->]|[? ->]]];
      [|split; [lia|intros [= ->]; lia]..].
    apply hton16_inj in E; [|lia..]. now subst.
  - destruct H1 as (L1 & _ & ?), H2 as (L2 & _ & ?).
    destruct (Z.eqb_spec (memcmp ip1 ip2 16) 0) as [E|NE]; simpl.
    + apply memcmp_zero in E; [|done..]. subst.
      destruct (B_COMPARE_spec (ntoh16 p1) (ntoh16 p2)) as [[E ->]|[[? ->]|[? ->]]];
        [|split; [lia|intros [= ->]; lia]..].
      apply hton16_inj in E; [|lia..]. now subst.
    + split.
      * destruct (B_COMPARE_spec (memcmp ip1 ip2 16) 0) as [[E ->]|[[? ->]|[? ->]]]; lia.
      * intros [= -> ->]. destruct NE. now apply memcmp_zero.
Qed.

(** The three-way outcome is one of -1, 0, 1, and swapping the arguments
    negates it. *)
Lemma B_COMPARE_antisym a b : B_COMPARE b a = - B_COMPARE a b.
Proof. unfold B_COMPARE. rewrite !Z.gtb_ltb. lia. Qed.

Lemma BAddr_CompareOrder_antisym a1 a2 : BAddr_wf a1 -> BAddr_wf a2 ->
  BAddr_CompareOrder a2 a1 = - BAddr_CompareOrder a1 a2.
Proof.
  intros H1 H2. unfold BAddr_CompareOrder. rewrite (B_COMPARE_antisym (BAddr_type a1)).
  destruct (B_COMPARE_spec (BAddr_type a1) (BAddr_type a2)) as [[? ->]|[[? ->]|[? ->]]];
    simpl; try done.
  destruct a1 as [|ip1 p1|ip1 p1|], a2 as [|ip2 p2|ip2 p2|]; simpl in *; try done.
  - rewrite (B_COMPARE_antisym (ntoh32 ip1)), (B_COMPARE_antisym (ntoh16 p1)).
    destruct (B_COMPARE_spec (ntoh32 ip1) (ntoh32 ip2)) as [[? ->]|[[? ->]|[? ->]]]; done.
  - destruct H1 as (L1 & _), H2 as (L2 & _).
    rewrite (memcmp_antisym ip1) by done. rewrite (B_COMPARE_antisym (ntoh16 p1)).
    rewrite (B_COMPARE_antisym 0). set (m := memcmp ip1 ip2 16).
    destruct (Z.eqb_spec m 0), (Z.eqb_spec (-m) 0); simpl; try lia.
    destruct (B_COMPARE_spec m 0) as [[? ->]|[[? ->]|[? ->]]],
      (B_COMPARE_spec 0 (- m)) as [[? ->]|[[? ->]|[? ->]]]; lia.
Qed.

Lemma B_COMPARE_lt a b : B_COMPARE a b = -1 <-> a < b.
Proof. destruct (B_COMPARE_spec a b) as [[? ->]|[[? ->]|[? ->]]]; lia. Qed.

(** A lexicographic pair of comparisons is below when the first component is,
    or the first components agree and the second is. *)
Lemma lex_lt c d : (if negb (c =? 0) then c else d) = -1 <-> c = -1 \/ (c = 0 /\ d = -1).
Proof. ztest; simpl; lia. Qed.

(** The order is transitive. *)
Lemma BAddr_CompareOrder_trans a1 a2 a3 : BAddr_wf a1 -> BAddr_wf a2 -> BAddr_wf a3 ->
  BAddr_CompareOrder a1 a2 = -1 -> BAddr_CompareOrder a2 a3 = -1 ->
  BAddr_CompareOrder a1 a3 = -1.
Proof.
  intros W1 W2 W3. unfold BAddr_CompareOrder.
  destruct a1 as [|ip1 p1|ip1 p1|], a2 as [|ip2 p2|ip2 p2|], a3 as [|ip3 p3|ip3 p3|];
    simpl in *; try done.
  - rewrite !lex_lt, !B_COMPARE_lt.
    destruct (B_COMPARE_spec (ntoh32 ip1) (ntoh32 ip2)) as [[? ->]|[[? ->]|[? ->]]],
      (B_COMPARE_spec (ntoh32 ip2) (ntoh32 ip3)) as [[? ->]|[[? ->]|[? ->]]],
      (B_COMPARE_spec (ntoh32 ip1) (ntoh32 ip3)) as [[? ->]|[[? ->]|[? ->]]]; lia.
  - destruct W1 as (L1 & _), W2 as (L2 & _), W3 as (L3 & _).
    pose proof (memcmp_trans ip1 ip2 ip3 16 L1 L2 L3) as T.
    pose proof (memcmp_zero ip1 ip2 16 L1 L2) as Z12.
    pose proof (memcmp_zero ip2 ip3 16 L2 L3) as Z23.
    destruct (Z.eqb_spec (memcmp ip1 ip2 16) 0) as [E12|]; simpl.
    + apply Z12 in E12. subst.
      destruct (Z.eqb_spec (memcmp ip2 ip3 16) 0); simpl; rewrite !B_COMPARE_lt; lia.
    + destruct (Z.eqb_spec (memcmp ip2 ip3 16) 0) as [E23|]; simpl.
      * apply Z23 in E23. subst. ztest; simpl; rewrite !B_COMPARE_lt; lia.
      * ztest; simpl; rewrite !B_COMPARE_lt; lia.
Qed.
