(* ===== verification/ParseNumber.v ===== *)
(** misc/parse_number.h and the parts of misc/memref.h that parsers use.

    A MemRef is the string it refers to.  Characters are their codes.  The
    integers are uintmax_t (64 bits).  [None] is a failed parse, which the code
    reports by returning 0; an ASSERT is a fault of an outer [option]. *)

From S2P Require Import Prelude ByteOrder.
From Stdlib Require Import Ascii.
Open Scope Z_scope.

Definition ch (a : ascii) : Z := Z.of_N (N_of_ascii a).
Notation "'CHR' a" := (ltac:(let x := eval vm_compute in (ch a) in exact x)) (at level 0, a at level 0, only parsing).

Definition UINTMAX_MAX : Z := UINT64_MAX.

(** ** memref.h *)

Definition MemRef_SubTo (o : bytes) (length : Z) : option bytes :=
  ASSERT (0 <=? length) && (length <=? blen o); Some (btake length o).
Definition MemRef_SubFrom (o : bytes) (offset : Z) : option bytes :=
  ASSERT (0 <=? offset) && (offset <=? blen o); Some (bdrop offset o).

Fixpoint FindChar_from (i : Z) (o : bytes) (c : Z) : option Z :=
  match o with
  | [] => None
  | x :: o => if x =? c then Some i else FindChar_from (i + 1) o c
  end.
Definition MemRef_FindChar (o : bytes) (c : Z) : option Z := FindChar_from 0 o c.

(** ** Digits *)

Definition decode_decimal_digit (c : Z) : Z :=
  if c =? CHR "0" then 0 else if c =? CHR "1" then 1 else if c =? CHR "2" then 2 else if c =? CHR "3" then 3
  else if c =? CHR "4" then 4 else if c =? CHR "5" then 5 else if c =? CHR "6" then 6 else if c =? CHR "7" then 7
  else if c =? CHR "8" then 8 else if c =? CHR "9" then 9 else -1.

Definition decode_hex_digit (c : Z) : Z :=
  if c =? CHR "0" then 0 else if c =? CHR "1" then 1 else if c =? CHR "2" then 2 else if c =? CHR "3" then 3
  else if c =? CHR "4" then 4 else if c =? CHR "5" then 5 else if c =? CHR "6" then 6 else if c =? CHR "7" then 7
  else if c =? CHR "8" then 8 else if c =? CHR "9" then 9
  else if (c =? CHR "A") || (c =? CHR "a") then 10 else if (c =? CHR "B") || (c =? CHR "b") then 11
  else if (c =? CHR "C") || (c =? CHR "c") then 12 else if (c =? CHR "D") || (c =? CHR "d") then 13
  else if (c =? CHR "E") || (c =? CHR "e") then 14 else if (c =? CHR "F") || (c =? CHR "f") then 15
  else -1.

(** ** Parsing *)

Fixpoint no_overflow_loop (n : Z) (str : bytes) : option Z :=
  match str with
  | [] => Some n
  | c :: str => if (c <? CHR "0") || (c >? CHR "9") then None else no_overflow_loop (u64 (10 * n + (c - CHR "0"))) str
  end.
Definition parse__no_overflow (str : bytes) : option Z := no_overflow_loop 0 str.

Fixpoint skip_zeros (str : bytes) : bytes :=
  match str with c :: str' => if c =? CHR "0" then skip_zeros str' else str | [] => [] end.

(** memcmp: the sign of the first difference. *)
Fixpoint memcmp (a b : bytes) : Z :=
  match a, b with
  | x :: a, y :: b => if x =? y then memcmp a b else x - y
  | _, _ => 0
  end.

Definition uintmax_max_str : bytes :=
  [CHR "1"; CHR "8"; CHR "4"; CHR "4"; CHR "6"; CHR "7"; CHR "4"; CHR "4"; CHR "0"; CHR "7";
   CHR "3"; CHR "7"; CHR "0"; CHR "9"; CHR "5"; CHR "5"; CHR "1"; CHR "6"; CHR "1"; CHR "5"].

Definition parse_unsigned_integer (str : bytes) : option Z :=
  if blen str =? 0 then None else
  let str := skip_zeros str in
  if (blen str >? blen uintmax_max_str) || (blen str =? blen uintmax_max_str) && (memcmp str uintmax_max_str >? 0) then None else
  parse__no_overflow str.

Fixpoint hex_loop (n : Z) (str : bytes) : option Z :=
  match str with
  | [] => Some n
  | c :: str =>
      let digit := decode_hex_digit c in
      if digit <? 0 then None else
      if n >? UINTMAX_MAX / 16 then None else
      let n := u64 (n * 16) in
      if digit >? UINTMAX_MAX - n then None else
      hex_loop (u64 (n + digit)) str
  end.
Definition parse_unsigned_hex_integer (str : bytes) : option Z := if blen str =? 0 then None else hex_loop 0 str.

Definition parse_signmag_integer (str : bytes) : option (Z * Z) :=
  let '(sign, str) :=
    match str with
    | c :: str' => if (c =? CHR "+") || (c =? CHR "-") then (1 - 2 * (if c =? CHR "-" then 1 else 0), str') else (1, str)
    | [] => (1, str)
    end in
  mag ← parse_unsigned_integer str;
  Some (sign, mag).

(** ** Generation *)

(** The do-while loops run while digits are left, 20 times at most. *)
Fixpoint repr_size_loop (fuel : nat) (size x : Z) : option Z :=
  match fuel with
  | O => None
  | S fuel =>
      let size := size + 1 in
      let x := x / 10 in
      if x >? 0 then repr_size_loop fuel size x else Some size
  end.
Definition compute_decimal_repr_size (x : Z) : option Z := repr_size_loop 20 0 x.

(** [out] is the memory the digits are written to and [pos] the position in it. *)
Fixpoint repr_loop (fuel : nat) (x : Z) (out : bytes) (pos : Z) : option bytes :=
  match fuel with
  | O => None
  | S fuel =>
      let pos := pos - 1 in
      out ← mem_write out pos [CHR "0" + x mod 10];
      let x := x / 10 in
      if x >? 0 then repr_loop fuel x out pos else Some out
  end.
Definition generate_decimal_repr (x : Z) (out : bytes) (repr_size : Z) : option bytes :=
  size ← compute_decimal_repr_size x;
  ASSERT repr_size =? size;
  repr_loop 20 x out repr_size.

Definition generate_decimal_repr_string (x : Z) (out : bytes) : option (bytes * Z) :=
  repr_size ← compute_decimal_repr_size x;
  out ← generate_decimal_repr x out repr_size;
  out ← mem_write out repr_size [0];
  Some (out, repr_size).

(** * Reference definitions *)

Definition is_digit (c : Z) : bool := (CHR "0" <=? c) && (c <=? CHR "9").

(** The value of a string of decimal digits. *)
Fixpoint dec_value (n : Z) (str : bytes) : Z :=
  match str with [] => n | c :: str => dec_value (10 * n + (c - CHR "0")) str end.

(** The decimal digits of a number; the conversions %u and %d of sprintf on a
    number that is not negative. *)
Fixpoint dec_digits (fuel : nat) (x : Z) (acc : bytes) : bytes :=
  match fuel with
  | O => acc
  | S fuel => let acc := CHR "0" + x mod 10 :: acc in if x / 10 >? 0 then dec_digits fuel (x / 10) acc else acc
  end.
Definition print_dec (x : Z) : bytes := dec_digits 20 x [].

(** ** Values of digit strings *)

Lemma is_digit_spec c : is_digit c = true <-> 48 <= c <= 57.
Proof. unfold is_digit. lia. Qed.

Lemma dec_value_app n l k : dec_value n (l ++ k) = dec_value (dec_value n l) k.
Proof. revert n. induction l; intros n; [done|]. simpl. apply IHl. Qed.

Lemma dec_value_scale n l : dec_value n l = n * 10 ^ Z.of_nat (length l) + dec_value 0 l.
Proof.
  revert n. induction l as [|c l IH]; intros n; [simpl; lia|]. cbn [dec_value length]. rewrite IH, (IH (10 * 0 + _)).
  rewrite Nat2Z.inj_succ, Z.pow_succ_r by lia. lia.
Qed.

Lemma dec_value_bound l : Forall (fun c => is_digit c = true) l -> 0 <= dec_value 0 l < 10 ^ Z.of_nat (length l).
Proof.
  induction 1 as [|c l Hc Hl IH]; [simpl; lia|]. apply is_digit_spec in Hc. cbn [dec_value length].
  rewrite dec_value_scale, Nat2Z.inj_succ, Z.pow_succ_r by lia. nia.
Qed.

Lemma dec_value_mono n l : 0 <= n -> Forall (fun c => is_digit c = true) l -> n <= dec_value n l.
Proof. intros Hn Hl. rewrite dec_value_scale. pose proof (dec_value_bound l Hl). nia. Qed.

Lemma memcmp_digits a b : length a = length b -> Forall (fun c => is_digit c = true) a -> Forall (fun c => is_digit c = true) b ->
  (memcmp a b > 0 <-> dec_value 0 a > dec_value 0 b).
Proof.
  intros Hl Ha. revert b Hl. induction Ha as [|x a Hx Ha IH]; intros [|y b] Hl Hb; try done.
  apply Forall_cons_iff in Hb as [Hy Hb]. injection Hl as Hl. specialize (IH b Hl Hb).
  apply is_digit_spec in Hx, Hy. pose proof (dec_value_bound a Ha). pose proof (dec_value_bound b Hb).
  cbn [memcmp dec_value]. rewrite (dec_value_scale _ a), (dec_value_scale _ b), <- Hl in *.
  destruct (Z.eqb_spec x y) as [->|]; [lia|]. nia.
Qed.

Lemma skip_zeros_spec str : exists k, str = repeat (CHR "0") k ++ skip_zeros str
  /\ match skip_zeros str with c :: _ => c <> CHR "0" | [] => True end.
Proof.
  induction str as [|c str (k & E & H)]; [by exists 0%nat|]. simpl. destruct (Z.eqb_spec c 48) as [->|].
  - exists (S k). simpl. by rewrite <- E.
  - by exists 0%nat.
Qed.

Lemma dec_value_zeros k n l : n = 0 -> dec_value n (repeat (CHR "0") k ++ l) = dec_value 0 l.
Proof. intros ->. by induction k. Qed.

(** The loop accepts exactly the digit strings, and does not wrap around when the
    value is in range. *)
Lemma no_overflow_loop_digits str n : 0 <= n -> Forall (fun c => is_digit c = true) str -> dec_value n str <= UINT64_MAX ->
  no_overflow_loop n str = Some (dec_value n str).
Proof.
  unfold UINT64_MAX. intros Hn Hs. revert n Hn. induction Hs as [|c str Hc Hs IH]; intros n Hn Hv; [done|]. simpl in *.
  apply is_digit_spec in Hc. pose proof (dec_value_mono (10 * n + (c - 48)) str). rewrite u64_small by (specialize (H ltac:(lia) Hs); lia).
  zbool. zdecide. apply IH; [lia|done].
Qed.

Lemma no_overflow_loop_reject str n v : no_overflow_loop n str = Some v -> Forall (fun c => is_digit c = true) str.
Proof.
  revert n. induction str as [|c str IH]; intros n; [constructor|]. simpl. destruct (_ || _) eqn:E; [done|].
  intros H. constructor; [|by eapply IH]. unfold is_digit. apply orb_false_iff in E as [E1 E2]. rewrite Z.gtb_ltb in E2. lia.
Qed.

(** The comparison with the largest number, on strings. *)
Lemma overflow_check s : match s with c :: _ => c <> CHR "0" | [] => True end -> Forall (fun c => is_digit c = true) s ->
  (blen s >? blen uintmax_max_str) || (blen s =? blen uintmax_max_str) && (memcmp s uintmax_max_str >? 0) = false
  <-> dec_value 0 s <= UINT64_MAX.
Proof.
  intros Hz Hs. change UINT64_MAX with (dec_value 0 uintmax_max_str). rewrite !Z.gtb_ltb.
  destruct s as [|c s]; [done|]. apply Forall_cons_iff in Hs as Hcs. destruct Hcs as [Hc Hs'].
  pose proof (dec_value_bound _ Hs) as HB. apply is_digit_spec in Hc.
  pose proof (dec_value_scale (10 * 0 + (c - 48)) s) as Hsc. pose proof (dec_value_bound _ Hs') as HB'.
  unfold blen in *. change (Z.of_nat (length uintmax_max_str)) with 20.
  destruct (Z.lt_total (Z.of_nat (length (c :: s))) 20) as [Hlt|[Heq|Hgt]].
  - zdecide. cbn [orb]. split; [|done]. intros _. transitivity (10 ^ 19); [|by vm_compute].
    transitivity (10 ^ Z.of_nat (length (c :: s))); [lia|]. apply Z.pow_le_mono_r; lia.
  - rewrite Heq. rewrite Z.ltb_irrefl, Z.eqb_refl. cbn [orb andb].
    assert (Hm : memcmp (c :: s) uintmax_max_str > 0 <-> dec_value 0 (c :: s) > dec_value 0 uintmax_max_str).
    { apply memcmp_digits; [simpl in *; lia|done|by repeat constructor]. }
    destruct (Z.ltb_spec 0 (memcmp (c :: s) uintmax_max_str)); split; try done; lia.
  - assert (100000000000000000000 <= dec_value 0 (c :: s)).
    { change 100000000000000000000 with (10 ^ 20). cbn [dec_value]. rewrite Hsc. transitivity (1 * 10 ^ Z.of_nat (length s)); [|nia].
      rewrite Z.mul_1_l. apply Z.pow_le_mono_r; simpl in *; lia. }
    zdecide. split; [done|]. intros. exfalso. change (dec_value 0 uintmax_max_str) with 18446744073709551615 in *. lia.
Qed.

Lemma parse_unsigned_integer_iff str v :
  parse_unsigned_integer str = Some v <->
  str <> [] /\ Forall (fun c => is_digit c = true) str /\ dec_value 0 str = v /\ v <= UINTMAX_MAX.
Proof.
  unfold parse_unsigned_integer, UINTMAX_MAX. destruct (skip_zeros_spec str) as (k & E & Hz).
  set (s := skip_zeros str) in *. clearbody s.
  assert (Hne : blen str =? 0 = false <-> str <> []). { destruct str as [|c str']; [done|]. split; [done|]. intros _. apply Z.eqb_neq. unfold blen. simpl length. lia. }
  assert (Hv : dec_value 0 str = dec_value 0 s) by (rewrite E; by apply dec_value_zeros).
  assert (Hd : Forall (fun c => is_digit c = true) str <-> Forall (fun c => is_digit c = true) s).
  { rewrite E, Forall_app. split; [tauto|]. split; [|done]. clear. induction k; simpl; by constructor. }
  pose proof (overflow_check s Hz) as Hover. cbv zeta. split.
  - destruct (blen str =? 0); [done|]. destruct (_ || _) eqn:Eo; [done|]. intros H. unfold parse__no_overflow in H.
    pose proof (no_overflow_loop_reject _ _ _ H) as Hs. assert (Hle : dec_value 0 s <= UINT64_MAX) by by apply Hover.
    rewrite no_overflow_loop_digits in H by done. injection H as <-. rewrite Hv. by rewrite <- Hne, Hd.
  - intros (H1 & H2 & H3 & H4). rewrite (proj2 Hne) by done. apply Hd in H2. rewrite Hv in H3.
    rewrite (proj2 (Hover H2)) by lia. unfold parse__no_overflow. rewrite no_overflow_loop_digits by (try done; lia). by rewrite H3.
Qed.

(** ** Searching *)

Lemma FindChar_from_app i l k c : Forall (fun x => x <> c) l -> FindChar_from i (l ++ c :: k) c = Some (i + blen l).
Proof.
  intros Hl. revert i. induction Hl as [|x l Hx Hl IH]; intros i; simpl.
  - rewrite Z.eqb_refl. change (blen []) with 0. f_equal. lia.
  - rewrite (proj2 (Z.eqb_neq x c)) by done. rewrite IH, blen_cons. f_equal. lia.
Qed.

Lemma digits_not c l : is_digit c = false -> Forall (fun x => is_digit x = true) l -> Forall (fun x => x <> c) l.
Proof. intros Hc. apply Forall_impl. intros x Hx ->. congruence. Qed.

(** ** Generation *)

Lemma dec_digits_acc fuel x acc : dec_digits fuel x acc = dec_digits fuel x [] ++ acc.
Proof.
  revert x acc. induction fuel as [|fuel IH]; intros x acc; [done|]. simpl. destruct (x / 10 >? 0); [|done].
  rewrite IH, (IH _ [_]). by rewrite <- app_assoc.
Qed.

Lemma dec_digits_spec fuel x : (0 < fuel)%nat -> 0 <= x < 10 ^ Z.of_nat fuel ->
  Forall (fun c => is_digit c = true) (dec_digits fuel x []) /\ dec_value 0 (dec_digits fuel x []) = x
  /\ (1 <= length (dec_digits fuel x []) <= fuel)%nat.
Proof.
  revert x. induction fuel as [|fuel IH]; intros x Hf Hx; [lia|]. simpl.
  assert (Hc : is_digit (48 + x mod 10) = true) by (apply is_digit_spec; dlia).
  destruct (Z.gtb_spec (x / 10) 0) as [Hq|Hq].
  - rewrite Nat2Z.inj_succ, Z.pow_succ_r in Hx by lia.
    assert (Hf' : (0 < fuel)%nat) by (destruct fuel; [simpl in Hx; exfalso; dlia|lia]).
    destruct (IH (x / 10)) as (H1 & H2 & H3); [lia|split; [lia|apply Z.div_lt_upper_bound; lia]|].
    rewrite (dec_digits_acc _ _ [_]). rewrite Forall_app, dec_value_app, H2, length_app. simpl. split_and!; try lia; [done|constructor; [exact Hc|constructor]|dlia].
  - simpl. split_and!; try lia; [constructor; [exact Hc|constructor]|dlia].
Qed.

Lemma print_dec_spec x : 0 <= x <= UINTMAX_MAX ->
  Forall (fun c => is_digit c = true) (print_dec x) /\ dec_value 0 (print_dec x) = x /\ (1 <= length (print_dec x) <= 20)%nat.
Proof. unfold UINTMAX_MAX, UINT64_MAX. intros Hx. apply dec_digits_spec; [lia|]. simpl Z.of_nat. change (10 ^ 20) with 100000000000000000000. lia. Qed.

(** Few digits for small numbers. *)
Lemma dec_digits_short fuel x k : (0 < k)%nat -> 0 <= x < 10 ^ Z.of_nat k -> (length (dec_digits fuel x []) <= k)%nat.
Proof.
  revert x k. induction fuel as [|fuel IH]; intros x k Hk Hx; [simpl; lia|]. simpl.
  destruct (Z.gtb_spec (x / 10) 0) as [Hq|Hq]; [|simpl; lia].
  destruct k as [|k]; [lia|]. rewrite Nat2Z.inj_succ, Z.pow_succ_r in Hx by lia.
  assert (Hk' : (0 < k)%nat) by (destruct k; [simpl in Hx; exfalso; dlia|lia]).
  rewrite (dec_digits_acc _ _ [_]), length_app. simpl length.
  specialize (IH (x / 10) k Hk'). assert (x / 10 < 10 ^ Z.of_nat k) by (apply Z.div_lt_upper_bound; lia). lia.
Qed.

Lemma print_dec_short x k : 1 <= k <= 20 -> 0 <= x < 10 ^ k -> 1 <= blen (print_dec x) <= k.
Proof.
  intros Hk Hx. unfold blen. destruct (dec_digits_spec 20 x) as (_ & _ & H).
  - lia.
  - split; [lia|]. apply (Z.lt_le_trans _ (10 ^ k)); [lia|]. apply Z.pow_le_mono_r; lia.
  - pose proof (dec_digits_short 20 x (Z.to_nat k)) as Hs. rewrite Z2Nat.id in Hs by lia. unfold print_dec. lia.
Qed.

Lemma parse_print_dec x : 0 <= x <= UINTMAX_MAX -> parse_unsigned_integer (print_dec x) = Some x.
Proof.
  intros Hx. destruct (print_dec_spec x Hx) as (H1 & H2 & H3). apply parse_unsigned_integer_iff.
  split_and!; try done; [|lia]. intros E. rewrite E in H3. simpl in H3. lia.
Qed.

Lemma repr_size_loop_spec fuel x size : (0 < fuel)%nat -> 0 <= x < 10 ^ Z.of_nat fuel ->
  repr_size_loop fuel size x = Some (size + blen (dec_digits fuel x [])).
Proof.
  revert x size. induction fuel as [|fuel IH]; intros x size Hf Hx; [lia|]. simpl.
  destruct (Z.gtb_spec (x / 10) 0) as [Hq|Hq]; [|by unfold blen].
  rewrite Nat2Z.inj_succ, Z.pow_succ_r in Hx by lia. 
    assert (Hf' : (0 < fuel)%nat) by (destruct fuel; [simpl in Hx; exfalso; dlia|lia]).
  rewrite IH; [|lia|split; [lia|apply Z.div_lt_upper_bound; lia]].
  rewrite (dec_digits_acc _ _ [_]), blen_app. unfold blen. simpl length. f_equal. lia.
Qed.

(** The loop writes the digits of [x] up to position [pos], and nothing else. *)
Lemma repr_loop_spec fuel x a b c pos : (0 < fuel)%nat -> 0 <= x < 10 ^ Z.of_nat fuel ->
  blen b = blen (dec_digits fuel x []) -> pos = blen a + blen b ->
  repr_loop fuel x (a ++ b ++ c) pos = Some (a ++ dec_digits fuel x [] ++ c).
Proof.
  revert x a b c pos. induction fuel as [|fuel IH]; intros x a b c pos Hf Hx Hb Hpos; [lia|].
  simpl in *. assert (Hlast : exists b' y, b = b' ++ [y]).
  { destruct b as [|y b _] using rev_ind; [|by eexists _, _]. exfalso. unfold blen in Hb. 
    destruct (_ >? _); [rewrite (dec_digits_acc _ _ [_]), length_app in Hb|]; simpl in Hb; lia. }
  destruct Hlast as (b' & y & ->). rewrite blen_app in *. change (blen [y]) with 1 in *.
  pose proof (blen_nonneg a). pose proof (blen_nonneg b'). pose proof (blen_nonneg c).
  assert (E : mem_write (a ++ (b' ++ [y]) ++ c) (pos - 1) [48 + x mod 10] = Some ((a ++ b') ++ [48 + x mod 10] ++ c)).
  { rewrite <- app_assoc. rewrite (app_assoc a b'). apply (mem_write_at _ [y]); [rewrite blen_app; lia|done]. }
  rewrite E. cbn [mbind option_bind]. destruct (Z.gtb_spec (x / 10) 0) as [Hq|Hq].
  - rewrite Nat2Z.inj_succ, Z.pow_succ_r in Hx by lia. 
    assert (Hf' : (0 < fuel)%nat) by (destruct fuel; [simpl in Hx; exfalso; dlia|lia]).
    rewrite (dec_digits_acc _ _ [_]), blen_app in Hb. change (blen [_]) with 1 in Hb.
    rewrite <- app_assoc, (IH _ _ b' ([48 + x mod 10] ++ c)); [|lia|split; [lia|apply Z.div_lt_upper_bound; lia]|lia|lia].
    rewrite (dec_digits_acc _ _ [_]). by rewrite <- !app_assoc.
  - change (blen [_]) with 1 in Hb. destruct b' as [|z b']; [by rewrite app_nil_r|]. rewrite blen_cons in Hb. 
    pose proof (blen_nonneg b'). lia.
Qed.

(** ** Hexadecimal numbers *)

Fixpoint hex_value (n : Z) (str : bytes) : Z :=
  match str with [] => n | c :: str => hex_value (16 * n + decode_hex_digit c) str end.
Definition is_hex_digit (c : Z) : bool := 0 <=? decode_hex_digit c.

Lemma decode_hex_digit_range c : -1 <= decode_hex_digit c <= 15.
Proof. unfold decode_hex_digit. repeat case_match; lia. Qed.

Lemma hex_value_mono n l : 0 <= n -> Forall (fun c => is_hex_digit c = true) l -> n <= hex_value n l.
Proof.
  intros Hn Hl. revert n Hn. induction Hl as [|c l Hc Hl IH]; intros n Hn; [done|]. cbn [hex_value].
  unfold is_hex_digit in Hc. transitivity (16 * n + decode_hex_digit c); [lia|]. apply IH. lia.
Qed.

Lemma hex_loop_iff str n v : 0 <= n <= UINTMAX_MAX ->
  hex_loop n str = Some v <-> Forall (fun c => is_hex_digit c = true) str /\ hex_value n str = v /\ v <= UINTMAX_MAX.
Proof.
  unfold UINTMAX_MAX, UINT64_MAX. revert n. induction str as [|c str IH]; intros n Hn; cbn [hex_loop hex_value].
  { split; [intros [= <-]; split_and!; [constructor|done|lia]|intros (_ & -> & _); done]. }
  pose proof (decode_hex_digit_range c) as Hr. set (d := decode_hex_digit c) in *. cbv zeta.
  unfold UINTMAX_MAX, UINT64_MAX. change (18446744073709551615 / 16) with 1152921504606846975.
  assert (Hno : 18446744073709551615 < 16 * n + d -> 0 <= d ->
    Forall (fun c => is_hex_digit c = true) (c :: str) /\ hex_value (16 * n + d) str = v /\ v <= 18446744073709551615 -> False).
  { intros Hbig Hd (Hf & Hv & Hle). apply Forall_cons_iff in Hf as [_ Hf].
    pose proof (hex_value_mono (16 * n + d) str ltac:(lia) Hf). lia. }
  rewrite Forall_cons_iff. unfold is_hex_digit at 1. fold d. destruct (Z.ltb_spec d 0); [split; [done|lia]|].
  rewrite !Z.gtb_ltb. destruct (Z.ltb_spec 1152921504606846975 n).
  { split; [done|]. intros Hc. exfalso. apply Hno; [lia..|]. by rewrite Forall_cons_iff. }
  rewrite (u64_small (n * 16)) by lia. destruct (Z.ltb_spec (18446744073709551615 - n * 16) d).
  { split; [done|]. intros Hc. exfalso. apply Hno; [lia..|]. by rewrite Forall_cons_iff. }
  rewrite u64_small by lia. replace (n * 16 + d) with (16 * n + d) by lia. rewrite IH by lia.
  assert (0 <=? d = true) by lia. tauto.
Qed.

(** parse_unsigned_integer and parse_unsigned_hex_integer accept exactly the
    non-empty strings of decimal and hexadecimal digits whose value fits 64 bits,
    and return that value: the comparison with the largest number as a string, and
    the tests before each multiplication, detect overflow exactly. *)
Theorem parse_unsigned_integer_correct str v :
  (parse_unsigned_integer str = Some v <->
   str <> [] /\ Forall (fun c => is_digit c = true) str /\ dec_value 0 str = v /\ v <= UINTMAX_MAX)
  /\ (parse_unsigned_hex_integer str = Some v <->
      str <> [] /\ Forall (fun c => is_hex_digit c = true) str /\ hex_value 0 str = v /\ v <= UINTMAX_MAX).
Proof.
  split; [apply parse_unsigned_integer_iff|]. unfold parse_unsigned_hex_integer. destruct str as [|c str].
  { change (blen []) with 0. split; [done|]. by intros [? _]. }
  rewrite (proj2 (Z.eqb_neq (blen (c :: str)) 0)) by (unfold blen; simpl length; lia).
  rewrite hex_loop_iff by (unfold UINTMAX_MAX, UINT64_MAX; lia). split; [|tauto]. by split.
Qed.

(** generate_decimal_repr_string writes, at the start of a buffer of 21 bytes or
    more, the decimal digits of a 64-bit number and a terminator, and
    parse_unsigned_integer reads the number back. *)
Theorem decimal_repr_roundtrip x out : 0 <= x <= UINTMAX_MAX -> 21 <= blen out ->
  exists digits rest, generate_decimal_repr_string x out = Some (digits ++ [0] ++ rest, blen digits)
    /\ compute_decimal_repr_size x = Some (blen digits) /\ blen digits <= 20
    /\ blen (digits ++ [0] ++ rest) = blen out /\ parse_unsigned_integer digits = Some x.
Proof.
  intros Hx Hout. destruct (print_dec_spec x Hx) as (_ & _ & H3). unfold print_dec in *.
  assert (Hr : 0 <= x < 10 ^ Z.of_nat 20).
  { unfold UINTMAX_MAX, UINT64_MAX in Hx. simpl Z.of_nat. change (10 ^ 20) with 100000000000000000000. lia. }
  set (d := dec_digits 20 x []) in *. assert (Hd : blen d <= 20) by (unfold blen; lia). pose proof (blen_nonneg d).
  assert (Es : compute_decimal_repr_size x = Some (blen d)) by (apply repr_size_loop_spec; [lia|done]).
  assert (Hsplit : out = [] ++ btake (blen d) out ++ bdrop (blen d) out) by (simpl; by rewrite btake_bdrop).
  assert (Hlen : blen (btake (blen d) out) = blen d) by (rewrite blen_btake; lia).
  assert (Eg : generate_decimal_repr x out (blen d) = Some (d ++ bdrop (blen d) out)).
  { unfold generate_decimal_repr. rewrite Es. cbn [mbind option_bind]. rewrite Z.eqb_refl, Hsplit at 1.
    apply (repr_loop_spec 20 x []); [lia|done|done|]. rewrite Hlen. done. }
  destruct (bdrop (blen d) out) as [|y rest] eqn:Er.
  { exfalso. assert (blen (bdrop (blen d) out) = 0) by by rewrite Er. rewrite blen_bdrop in *; lia. }
  exists d, rest. unfold generate_decimal_repr_string. rewrite Es. cbn [mbind option_bind]. rewrite Eg. cbn [mbind option_bind].
  rewrite (mem_write_at d [y] rest [0]) by done. simpl. split_and!; try done; [|by apply parse_print_dec].
  rewrite Hsplit. simpl. rewrite !blen_app, !blen_cons, Hlen. done.
Qed.

Lemma decimal_repr_roundtrip_witness : exists digits rest,
  generate_decimal_repr_string UINTMAX_MAX (repeat 0 25) = Some (digits ++ [0] ++ rest, blen digits)
  /\ parse_unsigned_integer digits = Some UINTMAX_MAX.
Proof.
  destruct (decimal_repr_roundtrip UINTMAX_MAX (repeat 0 25)) as (digits & rest & H1 & _ & _ & _ & H2);
    [unfold UINTMAX_MAX, UINT64_MAX; lia|apply Z.leb_le; reflexivity|]. exists digits, rest. split; [exact H1|exact H2].
Defined.
