(* ===== verification/IpAddr.v ===== *)
(** misc/ipaddr.h: IPv4 addresses as text, prefixes and masks.

    An address is a uint32_t in network byte order, whose memory is [mem32].  The
    outer [option] is a fault, the inner one the failure reported by returning 0. *)

From S2P Require Import Prelude ByteOrder ParseNumber.
From Stdlib Require Import Ascii.
Open Scope Z_scope.

Record ipv4_ifaddr := { if4_addr : Z; if4_prefix : Z }.
Definition IPADDR_PRINT_MAX : Z := 19.

(** The inner loop: the position of the first dot, or the length. *)
Fixpoint dot_position (name : bytes) : Z :=
  match name with [] => 0 | c :: name => if c =? CHR "." then 0 else 1 + dot_position name end.

(** [out_addr] is the memory of the result; [fuel] bounds i, which is at most 3. *)
Fixpoint parse_ipv4_loop (fuel : nat) (i : Z) (name out_addr : bytes) : option (option bytes) :=
  match fuel with
  | O => None
  | S fuel =>
      let j := dot_position name in
      if ((j =? blen name) && (i <? 3)) || ((j <? blen name) && (i =? 3)) then Some None else
      if (j <? 1) || (j >? 3) then Some None else
      sub ← MemRef_SubTo name j;
      match parse_unsigned_integer sub with
      | None => Some None
      | Some d =>
          if d >? 255 then Some None else
          out_addr ← mem_write out_addr i [d];
          if i =? 3 then Some (Some out_addr) else
          name ← MemRef_SubFrom name (j + 1);
          parse_ipv4_loop fuel (i + 1) name out_addr
      end
  end.
Definition ipaddr_parse_ipv4_addr (name out_addr : bytes) : option (option Z) :=
  r ← parse_ipv4_loop 4 0 name out_addr; Some (option_map load32 r).

Definition ipaddr_parse_ipv4_prefix (str : bytes) : option Z :=
  d ← parse_unsigned_integer str; if d >? 32 then None else Some d.

Definition ipaddr_parse_ipv4_ifaddr (str out_addr : bytes) : option (option ipv4_ifaddr) :=
  match MemRef_FindChar str (CHR "/") with
  | None => Some None
  | Some slash_pos =>
      addr_str ← MemRef_SubTo str slash_pos;
      addr ← ipaddr_parse_ipv4_addr addr_str out_addr;
      match addr with
      | None => Some None
      | Some addr =>
          prefix_str ← MemRef_SubFrom str (slash_pos + 1);
          Some (prefix ← ipaddr_parse_ipv4_prefix prefix_str; Some {| if4_addr := addr; if4_prefix := prefix |})
      end
  end.

(** t |= 1 << (32 - i - 1) for i = [i], ..., [i + n - 1] *)
Fixpoint mask_loop (n : nat) (i t : Z) : Z :=
  match n with O => t | S n => mask_loop n (i + 1) (Z.lor t (Z.shiftl 1 (32 - i - 1))) end.
Definition ipaddr_ipv4_mask_from_prefix (prefix : Z) : option Z :=
  ASSERT (0 <=? prefix) && (prefix <=? 32);
  Some (hton32 (mask_loop (Z.to_nat prefix) 0 0)).

Fixpoint prefix_loop (n : nat) (i t mask : Z) : option Z :=
  match n with
  | O => None
  | S n =>
      if ntoh32 mask =? t then Some i else
      prefix_loop n (i + 1) (if i <? 32 then Z.lor t (Z.shiftl 1 (32 - i - 1)) else t) mask
  end.
Definition ipaddr_ipv4_prefix_from_mask (mask : Z) : option Z := prefix_loop 33 0 0 mask.

Definition ipaddr_ipv4_ifaddr_from_addr_mask (addr mask : Z) : option ipv4_ifaddr :=
  prefix ← ipaddr_ipv4_prefix_from_mask mask; Some {| if4_addr := addr; if4_prefix := prefix |}.

Definition ipaddr_ipv4_addrs_in_network (addr1 addr2 netprefix : Z) : option bool :=
  mask ← ipaddr_ipv4_mask_from_prefix netprefix;
  Some (Z.land addr1 mask =? Z.land addr2 mask).

(** The string that sprintf writes, without the terminator. *)
Definition ipaddr_print_addr (addr : Z) : bytes :=
  match mem32 addr with
  | [b0; b1; b2; b3] =>
      print_dec b0 ++ [CHR "."] ++ print_dec b1 ++ [CHR "."] ++ print_dec b2 ++ [CHR "."] ++ print_dec b3
  | _ => []
  end.
Definition ipaddr_print_ifaddr (ifaddr : ipv4_ifaddr) : option bytes :=
  ASSERT (0 <=? if4_prefix ifaddr) && (if4_prefix ifaddr <=? 32);
  Some (ipaddr_print_addr (if4_addr ifaddr) ++ [CHR "/"] ++ print_dec (if4_prefix ifaddr)).

(** * Lemmas *)

Lemma print_dec_digits x : 0 <= x <= UINTMAX_MAX -> Forall (fun c => is_digit c = true) (print_dec x).
Proof. intros Hx. by apply print_dec_spec. Qed.

(** The digits of a byte are at most three. *)
Lemma print_dec_byte x : 0 <= x <= 255 -> 1 <= blen (print_dec x) <= 3.
Proof.
  intros Hx. apply print_dec_short; lia.
Qed.

Lemma dot_position_app l k : Forall (fun c => is_digit c = true) l -> dot_position (l ++ k) = blen l + dot_position k.
Proof.
  induction 1 as [|c l Hc Hl IH]; [done|]. apply is_digit_spec in Hc. simpl. rewrite (proj2 (Z.eqb_neq c 46)) by lia.
  rewrite IH, blen_cons. lia.
Qed.

Lemma dot_position_range name : 0 <= dot_position name <= blen name.
Proof. induction name as [|c name IH]; [done|]. simpl. rewrite blen_cons. destruct (_ =? _); lia. Qed.

(** The parser never leaves the string or the address, and always returns. *)
Lemma parse_ipv4_loop_total fuel i name out : (Z.of_nat fuel = 4 - i) -> 0 <= i <= 3 -> blen out = 4 ->
  exists r, parse_ipv4_loop fuel i name out = Some r /\ match r with Some out' => blen out' = 4 | None => True end.
Proof.
  revert i name out. induction fuel as [|fuel IH]; intros i name out Hf Hi Ho; [lia|]. simpl.
  pose proof (dot_position_range name). set (j := dot_position name) in *. 
  destruct ((j =? blen name) && (i <? 3) || (j <? blen name) && (i =? 3)) eqn:E1; [by exists None|].
  destruct ((j <? 1) || (j >? 3)); [by exists None|]. unfold MemRef_SubTo.
  rewrite (proj2 (Z.leb_le 0 j)), (proj2 (Z.leb_le j (blen name))) by lia. cbn [andb mbind option_bind].
  destruct (parse_unsigned_integer _) as [d|]; [|by exists None]. destruct (d >? 255); [by exists None|].
  destruct (mem_write_some out i [d]) as (out' & Ew & Hl); [lia|rewrite blen_cons, blen_nil; lia|]. rewrite Ew. cbn [mbind option_bind].
  destruct (Z.eqb_spec i 3); [exists (Some out'); split; [done|lia]|].
  apply orb_false_iff in E1 as [E1 _]. unfold MemRef_SubFrom. zdecide. cbn [mbind option_bind]. apply IH; lia.
Qed.

(** One number of the text of an address, with what follows it. *)
Lemma parse_ipv4_number fuel i d rest a y c : 0 <= d <= 255 -> 0 <= i < 3 -> i = blen a ->
  parse_ipv4_loop (S fuel) i (print_dec d ++ [CHR "."] ++ rest) (a ++ [y] ++ c)
  = parse_ipv4_loop fuel (i + 1) rest (a ++ [d] ++ c).
Proof.
  intros Hd Hi Ha. pose proof (print_dec_byte d Hd) as Hl. pose proof (blen_nonneg rest).
  assert (Hu : 0 <= d <= UINTMAX_MAX) by (unfold UINTMAX_MAX, UINT64_MAX; lia).
  simpl parse_ipv4_loop. rewrite (dot_position_app _ _ (print_dec_digits d Hu)). simpl dot_position.
  rewrite Z.add_0_r, blen_app, blen_cons. unfold MemRef_SubTo, MemRef_SubFrom. rewrite blen_app, blen_cons.
  zbool. zdecide. cbn [mbind option_bind]. rewrite btake_app_exact, parse_print_dec by done. zbool. zdecide.
  rewrite (mem_write_at a [y] c [d]) by done. cbn [mbind option_bind].
  replace (bdrop (blen (print_dec d) + 1) (print_dec d ++ 46 :: rest)) with rest; [done|].
  rewrite <- (bdrop_bdrop 1) by lia. by rewrite bdrop_app_exact.
Qed.

Lemma parse_ipv4_last fuel d a y : 0 <= d <= 255 -> blen a = 3 ->
  parse_ipv4_loop (S fuel) 3 (print_dec d) (a ++ [y]) = Some (Some (a ++ [d])).
Proof.
  intros Hd Ha. pose proof (print_dec_byte d Hd) as Hl.
  assert (Hu : 0 <= d <= UINTMAX_MAX) by (unfold UINTMAX_MAX, UINT64_MAX; lia).
  assert (Hj : dot_position (print_dec d) = blen (print_dec d)).
  { rewrite <- (app_nil_r (print_dec d)) at 1. rewrite (dot_position_app _ _ (print_dec_digits d Hu)). simpl. lia. }
  simpl parse_ipv4_loop. rewrite Hj. unfold MemRef_SubTo. zbool. zdecide. cbn [mbind option_bind].
  rewrite btake_all, parse_print_dec by done. zbool. zdecide.
  by rewrite (mem_write_at a [y] [] [d]) by done.
Qed.

Lemma mem32_bytes a : 0 <= a < 4294967296 -> exists b0 b1 b2 b3, mem32 a = [b0; b1; b2; b3]
  /\ 0 <= b0 <= 255 /\ 0 <= b1 <= 255 /\ 0 <= b2 <= 255 /\ 0 <= b3 <= 255.
Proof.
  intros _. unfold mem32, badvpn_write_le32. eexists _, _, _, _. split; [reflexivity|].
  repeat split; match goal with |- context [u8 ?x] => pose proof (u8_range x); lia end.
Qed.

(** What the printed length is, and what the parser makes of the text. *)
Lemma ipv4_print_parse a out : 0 <= a < 4294967296 -> blen out = 4 ->
  ipaddr_parse_ipv4_addr (ipaddr_print_addr a) out = Some (Some a) /\ 7 <= blen (ipaddr_print_addr a) <= 15.
Proof.
  intros Ha Ho. destruct (mem32_bytes a Ha) as (b0 & b1 & b2 & b3 & E & H0 & H1 & H2 & H3).
  unfold ipaddr_print_addr. rewrite E. split.
  - unfold ipaddr_parse_ipv4_addr. destruct out as [|y0 [|y1 [|y2 [|y3 [|]]]]]; try (by unfold blen in Ho; simpl in Ho; lia).
    rewrite (parse_ipv4_number 3 0 b0 _ [] y0 [y1; y2; y3]) by (try done; lia).
    rewrite (parse_ipv4_number 2 1 b1 _ [b0] y1 [y2; y3]) by (try done; lia).
    rewrite (parse_ipv4_number 1 2 b2 _ [b0; b1] y2 [y3]) by (try done; lia).
    change (2 + 1) with 3. change ([b0; b1] ++ [b2] ++ [y3]) with ([b0; b1; b2] ++ [y3]).
    rewrite (parse_ipv4_last 0 b3 [b0; b1; b2] y3) by (try done; lia).
    cbn [mbind option_bind option_map]. change ([b0; b1; b2] ++ [b3]) with [b0; b1; b2; b3].
    rewrite <- E. rewrite <- (app_nil_r (mem32 a)). by rewrite load32_mem32.
  - pose proof (print_dec_byte b0 H0). pose proof (print_dec_byte b1 H1). pose proof (print_dec_byte b2 H2). pose proof (print_dec_byte b3 H3).
    rewrite !blen_app, !blen_cons, !blen_nil. lia.
Qed.

(** ** Masks *)

(** The masks, by prefix length, in host order. *)
Definition mask_bits (p : Z) : Z := mask_loop (Z.to_nat p) 0 0.

Lemma mask_loop_snoc n i t : mask_loop (S n) i t = Z.lor (mask_loop n i t) (Z.shiftl 1 (32 - (i + Z.of_nat n) - 1)).
Proof.
  revert i t. induction n as [|n IH]; intros i t; [simpl; by rewrite Z.add_0_r|].
  change (mask_loop (S (S n)) i t) with (mask_loop (S n) (i + 1) (Z.lor t (Z.shiftl 1 (32 - i - 1)))). rewrite IH.
  simpl. do 2 f_equal. lia.
Qed.

Lemma prefix_loop_spec n i mask p : 0 <= i -> Z.of_nat n + i = 33 -> prefix_loop n i (mask_bits i) mask = Some p ->
  i <= p <= 32 /\ ntoh32 mask = mask_bits p.
Proof.
  revert i. induction n as [|n IH]; intros i Hi Hn; [done|]. simpl. destruct (Z.eqb_spec (ntoh32 mask) (mask_bits i)) as [E|E].
  - intros [= <-]. split; [lia|done].
  - destruct (Z.ltb_spec i 32) as [Hlt|Hge].
    + assert (Hm : Z.lor (mask_bits i) (Z.shiftl 1 (32 - i - 1)) = mask_bits (i + 1)).
      { unfold mask_bits. replace (Z.to_nat (i + 1)) with (S (Z.to_nat i)) by lia. rewrite mask_loop_snoc. do 2 f_equal. lia. }
      rewrite Hm. intros H. apply IH in H; [|lia..]. lia.
    + destruct n; [done|lia].
Qed.

Lemma masks_checked : forallb (fun n => let p := Z.of_nat n in
   match ipaddr_ipv4_mask_from_prefix p with
   | Some m => (ntoh32 m =? mask_bits p) && match ipaddr_ipv4_prefix_from_mask m with Some q => q =? p | None => false end
   | None => false
   end) (seq 0 33) = true.
Proof. by vm_compute. Qed.

Lemma ipv4_mask_of_prefix p : 0 <= p <= 32 -> exists m, ipaddr_ipv4_mask_from_prefix p = Some m
  /\ ntoh32 m = mask_bits p /\ ipaddr_ipv4_prefix_from_mask m = Some p.
Proof.
  intros Hp. pose proof masks_checked as Hall. rewrite forallb_forall in Hall. specialize (Hall (Z.to_nat p)).
  rewrite Z2Nat.id in Hall by lia. assert (Hin : In (Z.to_nat p) (seq 0 33)) by (apply in_seq; lia). specialize (Hall Hin). cbv zeta in Hall.
  destruct (ipaddr_ipv4_mask_from_prefix p) as [m|]; [|done]. exists m. apply andb_prop in Hall as [H1 H2].
  destruct (ipaddr_ipv4_prefix_from_mask m) as [q|]; [|done]. apply Z.eqb_eq in H1, H2. by subst.
Qed.

Lemma print_addr_no_slash a : 0 <= a < 4294967296 -> Forall (fun x => x <> CHR "/") (ipaddr_print_addr a).
Proof.
  intros Ha. destruct (mem32_bytes a Ha) as (b0 & b1 & b2 & b3 & E & H0 & H1 & H2 & H3). unfold ipaddr_print_addr. rewrite E.
  assert (Hd : forall b, 0 <= b <= 255 -> Forall (fun x => x <> 47) (print_dec b)).
  { intros b Hb. apply digits_not; [done|]. apply print_dec_digits. unfold UINTMAX_MAX, UINT64_MAX. lia. }
  repeat first [apply Forall_app; split | apply Hd; done | constructor; [lia|constructor]].
Qed.

(** The text of an IPv4 interface address parses back to it and fits, with its
    terminator, the IPADDR_PRINT_MAX bytes that callers provide. *)
Theorem ipv4_ifaddr_roundtrip ifa out : 0 <= if4_addr ifa < 4294967296 -> 0 <= if4_prefix ifa <= 32 -> blen out = 4 ->
  exists text, ipaddr_print_ifaddr ifa = Some text /\ blen text + 1 <= IPADDR_PRINT_MAX
    /\ ipaddr_parse_ipv4_ifaddr text out = Some (Some ifa).
Proof.
  intros Ha Hp Ho. unfold ipaddr_print_ifaddr. zdecide. eexists. split; [done|].
  destruct (ipv4_print_parse _ out Ha Ho) as [Hparse Hlen]. set (t := ipaddr_print_addr (if4_addr ifa)) in *.
  assert (Hpl : 1 <= blen (print_dec (if4_prefix ifa)) <= 2).
  { apply print_dec_short; lia. }
  split; [unfold IPADDR_PRINT_MAX; rewrite !blen_app, blen_cons, blen_nil; lia|].
  unfold ipaddr_parse_ipv4_ifaddr, MemRef_FindChar. simpl app.
  rewrite FindChar_from_app by (by apply print_addr_no_slash). unfold MemRef_SubTo, MemRef_SubFrom. rewrite blen_app, blen_cons.
  zdecide. cbn [mbind option_bind]. rewrite Z.add_0_l, btake_app_exact, Hparse by done. cbn [mbind option_bind].
  rewrite <- (bdrop_bdrop 1) by lia. rewrite bdrop_app_exact by done. change (bdrop 1 (47 :: ?x)) with x.
  unfold ipaddr_parse_ipv4_prefix. rewrite parse_print_dec by (unfold UINTMAX_MAX, UINT64_MAX; lia).
  cbn [mbind option_bind]. zbool. zdecide. cbn [mbind option_bind]. by destruct ifa.
Qed.

Lemma ipv4_ifaddr_roundtrip_witness :
  exists text, ipaddr_print_ifaddr {| if4_addr := 16820416; if4_prefix := 24 |} = Some text
    /\ ipaddr_parse_ipv4_ifaddr text [0; 0; 0; 0] = Some (Some {| if4_addr := 16820416; if4_prefix := 24 |}).
Proof.
  destruct (ipv4_ifaddr_roundtrip {| if4_addr := 16820416; if4_prefix := 24 |} [0; 0; 0; 0]) as (text & H1 & _ & H2);
    [simpl; lia|simpl; lia|reflexivity|]. exists text. split; [exact H1|exact H2].
Defined.

Lemma reverse32_involutive x : 0 <= x < 4294967296 -> badvpn_reverse32 (badvpn_reverse32 x) = x.
Proof.
  intros Hx. destruct (mem32_bytes x Hx) as (b0 & b1 & b2 & b3 & E & H0 & H1 & H2 & H3).
  unfold badvpn_reverse32 at 2. rewrite E. simpl nth. unfold badvpn_reverse32.
  rewrite (mem32_load32 b3 b2 b1 b0 []) by (unfold is_byte; lia). simpl nth.
  rewrite <- E, <- (app_nil_r (mem32 x)). by apply load32_mem32.
Qed.

Lemma reverse32_range x : 0 <= x < 4294967296 -> 0 <= badvpn_reverse32 x < 4294967296.
Proof.
  intros Hx. destruct (mem32_bytes x Hx) as (b0 & b1 & b2 & b3 & E & H0 & H1 & H2 & H3).
  unfold badvpn_reverse32. rewrite E. simpl nth. apply load32_range; unfold is_byte; lia.
Qed.

Lemma hton32_ntoh32 x : 0 <= x < 4294967296 -> hton32 (ntoh32 x) = x.
Proof.
  intros Hx. unfold ntoh32, hton32. rewrite (u32_small x) by lia. rewrite u32_small by (by apply reverse32_range).
  by apply reverse32_involutive.
Qed.

Lemma ipv4_mask_from_prefix_value p : 0 <= p <= 32 -> ipaddr_ipv4_mask_from_prefix p = Some (hton32 (mask_bits p)).
Proof. intros Hp. unfold ipaddr_ipv4_mask_from_prefix. by zdecide. Qed.

Lemma ipv4_prefix_from_mask_value m p : ipaddr_ipv4_prefix_from_mask m = Some p -> 0 <= p <= 32 /\ ntoh32 m = mask_bits p.
Proof. apply (prefix_loop_spec 33 0 m p); lia. Qed.

(** Prefix lengths and masks correspond one to one: the mask of a prefix length
    gives it back, and every mask that has a prefix length is the mask of it. *)
Theorem ipv4_mask_prefix :
  (forall p, 0 <= p <= 32 -> exists m, ipaddr_ipv4_mask_from_prefix p = Some m /\ ipaddr_ipv4_prefix_from_mask m = Some p)
  /\ (forall m p, 0 <= m < 4294967296 -> ipaddr_ipv4_prefix_from_mask m = Some p -> ipaddr_ipv4_mask_from_prefix p = Some m).
Proof.
  split.
  - intros p Hp. destruct (ipv4_mask_of_prefix p Hp) as (m & H1 & _ & H2). by exists m.
  - intros m p Hm [Hp E]%ipv4_prefix_from_mask_value. rewrite ipv4_mask_from_prefix_value by done.
    by rewrite <- E, hton32_ntoh32.
Qed.
