(* ===== verification/IpAddr6.v ===== *)
(** misc/ipaddr6.h: IPv6 addresses as text, prefixes and masks.

    struct ipv6_addr is a string of 16 bytes, written through [mem_write].  The
    outer [option] is a fault (an access outside the string or the address, an
    exhausted loop), the inner one the failure reported by returning 0. *)

From S2P Require Import Prelude ByteOrder ParseNumber.
From Stdlib Require Import Ascii.
Open Scope Z_scope.

Record ipv6_ifaddr := { if6_addr : bytes; if6_prefix : Z }.
Definition IPADDR6_PRINT_MAX : Z := 44.

(** name.ptr[i] *)
Definition char_at (name : bytes) (i : Z) : option Z := if i <? 0 then None else name !! Z.to_nat i.

(** The local variables of ipaddr6_parse_ipv6_addr. *)
Record pstate := {
  out_addr : bytes;
  num_blocks : Z;
  compress_pos : Z;
  block : Z;
  empty : bool }.

Inductive outcome :=
| Return0
| Ipv4_ending (i : Z) (s : pstate)
| Loop_done (s : pstate).

(** Store the current block. *)
Definition store_block (s : pstate) : option pstate :=
  out ← mem_write (out_addr s) (2 * num_blocks s + 0) [Z.shiftr (block s) 8];
  out ← mem_write out (2 * num_blocks s + 1) [Z.land (block s) 255];
  Some {| out_addr := out; num_blocks := num_blocks s + 1; compress_pos := compress_pos s; block := 0; empty := true |}.

(** The first loop. *)
Fixpoint parse6_loop (fuel : nat) (name : bytes) (i : Z) (s : pstate) : option outcome :=
  if negb (i <? blen name) then Some (Loop_done s) else
  match fuel with
  | O => None
  | S fuel =>
      c ← char_at name i;
      if c =? CHR "." then Some (Ipv4_ending i s)
      else if c =? CHR ":" then
        is_double ← (if i + 1 <? blen name then option_map (fun c1 => c1 =? CHR ":") (char_at name (i + 1)) else Some false);
        let go_on (s : pstate) :=
          if (is_double : bool) then
            if negb (compress_pos s =? -1) then Some Return0 else
            parse6_loop fuel name (i + 2)
              {| out_addr := out_addr s; num_blocks := num_blocks s; compress_pos := num_blocks s; block := block s; empty := empty s |}
          else parse6_loop fuel name (i + 1) s in
        if i >? 0 then
          if empty s || (num_blocks s =? 7) then Some Return0 else
          s ← store_block s; go_on s
        else if negb is_double then Some Return0
        else go_on s
      else
        let digit := decode_hex_digit c in
        if digit <? 0 then Some Return0 else
        if block s >? UINT16_MAX / 16 then Some Return0 else
        let b := u16 (block s * 16) in
        if digit >? UINT16_MAX - b then Some Return0 else
        parse6_loop fuel name (i + 1)
          {| out_addr := out_addr s; num_blocks := num_blocks s; compress_pos := compress_pos s; block := u16 (b + digit); empty := false |}
  end.

(** The label ipv4_done: move the blocks after the compression to the end. *)
Definition parse6_finish (out : bytes) (num_blocks compress_pos : Z) : option (option bytes) :=
  if (compress_pos =? -1) && negb (num_blocks =? 8) then Some None else
  let compress_pos := if compress_pos =? -1 then 0 else compress_pos in
  let num_rear := num_blocks - compress_pos in
  rear ← mem_read out (2 * compress_pos) (2 * num_rear);
  out ← mem_write out (2 * (8 - num_rear)) rear;
  ASSERT 0 <=? 8 - num_rear - compress_pos;
  out ← mem_write out (2 * compress_pos) (repeat 0 (Z.to_nat (2 * (8 - num_rear - compress_pos))));
  Some (Some out).

(** Back to the start of the current block. *)
Fixpoint block_start (fuel : nat) (name : bytes) (i : Z) : option Z :=
  c ← char_at name (i - 1);
  if c =? CHR ":" then Some i else
  match fuel with O => None | S fuel => block_start fuel name (i - 1) end.

(** The loop over the IPv4 part; the result is bytes[4] at the end of the string,
    with the last number not stored yet. *)
Fixpoint parse4_loop (rest bytes4 : bytes) (cur_byte byte : Z) (empty : bool) : option (option (bytes * Z * Z * bool)) :=
  match rest with
  | [] => Some (Some (bytes4, cur_byte, byte, empty))
  | c :: rest =>
      if c =? CHR "." then
        if empty || (cur_byte =? 3) then Some None else
        bytes4 ← mem_write bytes4 cur_byte [byte];
        parse4_loop rest bytes4 (cur_byte + 1) 0 true
      else
        if negb empty && (byte =? 0) then Some None else
        let digit := decode_decimal_digit c in
        if digit <? 0 then Some None else
        if byte >? UINT8_MAX / 10 then Some None else
        let b := u8 (byte * 10) in
        if digit >? UINT8_MAX - b then Some None else
        parse4_loop rest bytes4 cur_byte (u8 (b + digit)) false
  end.

(** The label ipv4_ending.  [raw] is the uninitialised array bytes[4]. *)
Definition parse6_ipv4 (name raw : bytes) (i : Z) (s : pstate) : option (option bytes) :=
  if empty s || (num_blocks s =? 0) && (compress_pos s =? -1) then Some None else
  i ← block_start (length name) name i;
  r ← parse4_loop (bdrop i name) raw 0 0 true;
  match r with
  | None => Some None
  | Some (bytes4, cur_byte, byte, empty) =>
      if negb (cur_byte =? 3) || empty then Some None else
      bytes4 ← mem_write bytes4 cur_byte [byte];
      if 8 - num_blocks s <? 2 then Some None else
      out ← mem_write (out_addr s) (2 * num_blocks s) bytes4;
      parse6_finish out (num_blocks s + 2) (compress_pos s)
  end.

Definition ipaddr6_parse_ipv6_addr (name out raw : bytes) : option (option bytes) :=
  r ← parse6_loop (length name) name 0
        {| out_addr := out; num_blocks := 0; compress_pos := -1; block := 0; empty := true |};
  match r with
  | Return0 => Some None
  | Ipv4_ending i s => parse6_ipv4 name raw i s
  | Loop_done s =>
      if negb (empty s) then
        s ← store_block s; parse6_finish (out_addr s) (num_blocks s) (compress_pos s)
      else if negb (num_blocks s =? compress_pos s) then Some None
      else parse6_finish (out_addr s) (num_blocks s) (compress_pos s)
  end.

Definition ipaddr6_parse_ipv6_prefix (str : bytes) : option Z :=
  d ← parse_unsigned_integer str; if d >? 128 then None else Some d.

Definition ipaddr6_parse_ipv6_ifaddr (str out raw : bytes) : option (option ipv6_ifaddr) :=
  match MemRef_FindChar str (CHR "/") with
  | None => Some None
  | Some slash_pos =>
      addr_str ← MemRef_SubTo str slash_pos;
      addr ← ipaddr6_parse_ipv6_addr addr_str out raw;
      match addr with
      | None => Some None
      | Some addr =>
          prefix_str ← MemRef_SubFrom str (slash_pos + 1);
          Some (prefix ← ipaddr6_parse_ipv6_prefix prefix_str; Some {| if6_addr := addr; if6_prefix := prefix |})
      end
  end.

(** ** Printing *)

(** %x of a uint16_t *)
Definition hex_char (d : Z) : Z := if d <? 10 then CHR "0" + d else CHR "a" + (d - 10).
Fixpoint hex_digits (fuel : nat) (x : Z) (acc : bytes) : bytes :=
  match fuel with
  | O => acc
  | S fuel => let acc := hex_char (x mod 16) :: acc in if x / 16 >? 0 then hex_digits fuel (x / 16) acc else acc
  end.
Definition print_hex (x : Z) : bytes := hex_digits 4 x [].

Definition block_at (addr : bytes) (i : nat) : Z := Z.lor (u16 (Z.shiftl (nth (2 * i) addr 0) 8)) (nth (2 * i + 1) addr 0).

(** The search for the longest run of zero blocks; [i] is 8 less the number of
    rounds left. *)
Fixpoint zero_run (n i : nat) (addr : bytes) (largest_start largest_len current_start current_len : nat) : nat * nat :=
  match n with
  | O => (largest_start, largest_len)
  | S n =>
      if (nth (2 * i) addr 0 =? 0) && (nth (2 * i + 1) addr 0 =? 0) then
        let current_len := S current_len in
        if (largest_len <? current_len)%nat then zero_run n (S i) addr current_start current_len current_start current_len
        else zero_run n (S i) addr largest_start largest_len current_start current_len
      else zero_run n (S i) addr largest_start largest_len (S i) 0
  end.

(** The string written to out_buf, without the terminator. *)
Definition ipaddr6_print_addr (addr : bytes) : bytes :=
  let '(largest_start, largest_len) := zero_run 8 0 addr 0 0 0 0 in
  if (1 <? largest_len)%nat then
    concat (map (fun i => print_hex (block_at addr i) ++ [CHR ":"]) (seq 0 largest_start))
    ++ (if (largest_start =? 0)%nat then [CHR ":"] else [])
    ++ concat (map (fun i => [CHR ":"] ++ print_hex (block_at addr i))
                 (seq (largest_start + largest_len) (8 - (largest_start + largest_len))))
    ++ (if (largest_start + largest_len =? 8)%nat then [CHR ":"] else [])
  else
    concat (map (fun i => (if (i =? 0)%nat then [] else [CHR ":"]) ++ print_hex (block_at addr i)) (seq 0 8)).

Definition ipaddr6_print_ifaddr (ifaddr : ipv6_ifaddr) : option bytes :=
  ASSERT (0 <=? if6_prefix ifaddr) && (if6_prefix ifaddr <=? 128);
  Some (ipaddr6_print_addr (if6_addr ifaddr) ++ [CHR "/"] ++ print_dec (if6_prefix ifaddr)).

(** * The parser is safe and always returns *)

(** What holds between the rounds of the first loop: there is a colon before the
    position when a block was stored or the compression was seen. *)
Record parsing (name : bytes) (i : Z) (s : pstate) : Prop := {
  pg_out : blen (out_addr s) = 16;
  pg_num : 0 <= num_blocks s <= 7;
  pg_compress : -1 <= compress_pos s <= num_blocks s;
  pg_colon : num_blocks s = 0 /\ compress_pos s = -1 \/ exists j, 0 <= j < i /\ char_at name j = Some (CHR ":") }.

Definition parsed (name : bytes) (r : outcome) : Prop :=
  match r with
  | Return0 => True
  | Ipv4_ending i s => parsing name i s /\ 0 <= i < blen name
  | Loop_done s => exists i, parsing name i s
  end.

Lemma char_at_some name i : 0 <= i < blen name -> exists c, char_at name i = Some c.
Proof.
  intros Hi. unfold char_at. rewrite (proj2 (Z.ltb_ge i 0)) by lia. unfold blen in Hi.
  destruct (lookup_lt_is_Some_2 name (Z.to_nat i)) as [c Hc]; [lia|]. by exists c.
Qed.

Lemma store_block_total s : blen (out_addr s) = 16 -> 0 <= num_blocks s <= 7 ->
  exists out, store_block s = Some {| out_addr := out; num_blocks := num_blocks s + 1; compress_pos := compress_pos s; block := 0; empty := true |}
    /\ blen out = 16.
Proof.
  intros Ho Hn. unfold store_block.
  destruct (mem_write_some (out_addr s) (2 * num_blocks s + 0) [Z.shiftr (block s) 8]) as (o1 & E1 & L1); [lia|rewrite blen_cons, blen_nil; lia|].
  rewrite E1. cbn [mbind option_bind].
  destruct (mem_write_some o1 (2 * num_blocks s + 1) [Z.land (block s) 255]) as (o2 & E2 & L2); [lia|rewrite blen_cons, blen_nil; lia|].
  rewrite E2. cbn [mbind option_bind]. exists o2. split; [done|lia].
Qed.

Lemma parse6_loop_total fuel : forall name i s, parsing name i s -> 0 <= i -> blen name - i <= Z.of_nat fuel ->
  exists r, parse6_loop fuel name i s = Some r /\ parsed name r.
Proof.
  induction fuel as [|fuel IH]; intros name i s P Hi Hf; simpl;
    (destruct (Z.ltb_spec i (blen name)) as [Hlt|Hge]; cbn [negb]; [|eexists; split; [done|by exists i]]); [lia|].
  destruct (char_at_some name i) as [c Hc]; [lia|]. rewrite Hc. cbn [mbind option_bind]. pose proof P as [P1 P2 P3 P4].
  destruct (c =? 46); [eexists; split; [done|]; split; [done|lia]|].
  destruct (Z.eqb_spec c 58) as [->|Hne].
  - assert (Hd : exists d, (if i + 1 <? blen name then option_map (fun c1 => c1 =? 58) (char_at name (i + 1)) else Some false) = Some d).
    { destruct (Z.ltb_spec (i + 1) (blen name)); [|by eexists]. destruct (char_at_some name (i + 1)) as [c1 ->]; [lia|]. by eexists. }
    destruct Hd as [d ->]. cbn [mbind option_bind].
    assert (Hcol : exists j, 0 <= j < i + 1 /\ char_at name j = Some 58) by (exists i; split; [lia|done]).
    assert (Hcol2 : exists j, 0 <= j < i + 2 /\ char_at name j = Some 58) by (exists i; split; [lia|done]).
    destruct (Z.gtb_spec i 0).
    + destruct (empty s); [by exists Return0|]. destruct (Z.eqb_spec (num_blocks s) 7); [by exists Return0|]. cbn [orb].
      destruct (store_block_total s P1 P2) as (out & -> & Hout). cbn [mbind option_bind]. simpl compress_pos.
      destruct d; [destruct (negb _); [by exists Return0|]|]; (apply IH; [|lia..]); split; simpl; try done; try lia; by right.
    + destruct d; simpl; [|by exists Return0]. destruct (negb _); [by exists Return0|].
      apply IH; [|lia..]. split; simpl; try done; try lia. by right.
  - destruct (_ <? 0); [by exists Return0|]. destruct (_ >? _); [by exists Return0|]. destruct (_ >? _); [by exists Return0|].
    apply IH; [|lia..]. split; simpl; try done. destruct P4 as [?|(j & Hj & Hc')]; [by left|]. right. exists j. split; [lia|done].
Qed.

Lemma parse6_finish_total out n c : blen out = 16 -> 0 <= n <= 8 -> -1 <= c <= n ->
  exists r, parse6_finish out n c = Some r /\ match r with Some o => blen o = 16 | None => True end.
Proof.
  intros Ho Hn Hc. unfold parse6_finish. destruct (_ && _) eqn:E; [by exists None|].
  set (c' := if c =? -1 then 0 else c). assert (Hc' : 0 <= c' <= n) by (unfold c'; destruct (Z.eqb_spec c (-1)); lia). cbv zeta.
  rewrite mem_read_in by lia. cbn [mbind option_bind]. set (rear := btake _ _).
  assert (Hr : blen rear = 2 * (n - c')) by (unfold rear; rewrite blen_btake; [done|rewrite blen_bdrop; lia]).
  destruct (mem_write_some out (2 * (8 - (n - c'))) rear) as (o1 & -> & L1); [lia..|]. cbn [mbind option_bind].
  rewrite (proj2 (Z.leb_le 0 _)) by lia.
  set (z := repeat _ _). assert (Hz : blen z = 2 * (8 - (n - c') - c')) by (unfold z, blen; rewrite repeat_length; lia).
  destruct (mem_write_some o1 (2 * c') z) as (o2 & -> & L2); [lia..|]. exists (Some o2). split; [done|lia].
Qed.

Lemma block_start_total fuel : forall name i j, 0 <= j < i -> i <= blen name -> char_at name j = Some (CHR ":") -> i - j <= Z.of_nat fuel + 1 ->
  exists i', block_start fuel name i = Some i' /\ 0 < i' <= i.
Proof.
  induction fuel as [|fuel IH]; intros name i j Hj Hi Hc Hf; simpl.
  - assert (i - 1 = j) as -> by lia. rewrite Hc. exists i. split; [done|lia].
  - destruct (char_at_some name (i - 1)) as [c Hc1]; [lia|]. rewrite Hc1. cbn [mbind option_bind].
    destruct (Z.eqb_spec c 58); [exists i; split; [done|lia]|].
    assert (j <> i - 1) by (intros ->; congruence).
    destruct (IH name (i - 1) j) as (i' & E & Hi'); [lia|lia|done|lia|]. exists i'. split; [done|lia].
Qed.

Lemma parse4_loop_total rest : forall b4 cur byte e, blen b4 = 4 -> 0 <= cur <= 3 ->
  exists r, parse4_loop rest b4 cur byte e = Some r /\ match r with Some (b4', cur', _, _) => blen b4' = 4 /\ 0 <= cur' <= 3 | None => True end.
Proof.
  induction rest as [|c rest IH]; intros b4 cur byte e Hb Hc; simpl; [by eexists (Some _)|].
  destruct (c =? 46).
  - destruct e; [by exists None|]. destruct (Z.eqb_spec cur 3); [by exists None|]. cbn [orb].
    destruct (mem_write_some b4 cur [byte]) as (b' & -> & L); [lia|rewrite blen_cons, blen_nil; lia|]. cbn [mbind option_bind].
    apply IH; lia.
  - destruct (_ && _); [by exists None|]. destruct (_ <? 0); [by exists None|]. destruct (_ >? _); [by exists None|].
    destruct (_ >? _); [by exists None|]. by apply IH.
Qed.

Lemma ipv6_parse_total name out raw : blen out = 16 -> blen raw = 4 ->
  exists r, ipaddr6_parse_ipv6_addr name out raw = Some r /\ match r with Some addr => blen addr = 16 | None => True end.
Proof.
  intros Ho Hr. unfold ipaddr6_parse_ipv6_addr.
  destruct (parse6_loop_total (length name) name 0 {| out_addr := out; num_blocks := 0; compress_pos := -1; block := 0; empty := true |})
    as (r & -> & Hp); [by split; simpl; try lia; left|lia|unfold blen; lia|]. cbn [mbind option_bind].
  destruct r as [|i s|s]; [by exists None|..].
  - destruct Hp as [[P1 P2 P3 P4] Hi]. unfold parse6_ipv4. destruct (empty s); [by exists None|]. cbn [orb].
    destruct (_ && _) eqn:E; [by exists None|]. destruct P4 as [[P4 P4']|(j & Hj & Hc)]; [exfalso; lia|].
    destruct (block_start_total (length name) name i j) as (i' & -> & Hi'); [lia|lia|done|unfold blen in Hi; lia|]. cbn [mbind option_bind].
    destruct (parse4_loop_total (bdrop i' name) raw 0 0 true) as (r & -> & H4); [done|lia|]. cbn [mbind option_bind].
    destruct r as [[[[b4 cur] byte] e]|]; [|by exists None]. destruct H4 as [H4 Hcur]. destruct (_ || _); [by exists None|].
    destruct (mem_write_some b4 cur [byte]) as (b4' & -> & L4); [lia|rewrite blen_cons, blen_nil; lia|]. cbn [mbind option_bind].
    destruct (Z.ltb_spec (8 - num_blocks s) 2); [by exists None|].
    destruct (mem_write_some (out_addr s) (2 * num_blocks s) b4') as (o2 & -> & L2); [lia..|]. cbn [mbind option_bind].
    apply parse6_finish_total; lia.
  - destruct Hp as [i [P1 P2 P3 P4]]. destruct (negb (empty s)).
    + destruct (store_block_total s P1 P2) as (o2 & -> & L2). cbn [mbind option_bind]. apply parse6_finish_total; simpl; lia.
    + destruct (negb _); [by exists None|]. apply parse6_finish_total; lia.
Qed.

(** ipaddr6_parse_ipv6_addr returns for every string; it never reads outside the
    string, not even when it searches backwards for the start of an IPv4 part, and
    never writes outside the 16 bytes of the address or the 4 bytes of that part. *)
Theorem parse_ipv6_safe name out raw : blen out = 16 -> blen raw = 4 ->
  exists r, ipaddr6_parse_ipv6_addr name out raw = Some r /\ match r with Some addr => blen addr = 16 | None => True end.
Proof. apply ipv6_parse_total. Qed.

(** * Printing and parsing *)

(** ** Numbers *)

Lemma hex_digits_acc fuel x acc : hex_digits fuel x acc = hex_digits fuel x [] ++ acc.
Proof.
  revert x acc. induction fuel as [|fuel IH]; intros x acc; [done|]. simpl. destruct (x / 16 >? 0); [|done].
  rewrite IH, (IH _ [_]). by rewrite <- app_assoc.
Qed.

Lemma hex_value_app n l k : hex_value n (l ++ k) = hex_value (hex_value n l) k.
Proof. revert n. induction l; intros n; [done|]. simpl. apply IHl. Qed.

Lemma hex_char_decode d : 0 <= d <= 15 -> decode_hex_digit (hex_char d) = d /\ is_hex_digit (hex_char d) = true.
Proof.
  intros Hd. assert (d = 0 \/ d = 1 \/ d = 2 \/ d = 3 \/ d = 4 \/ d = 5 \/ d = 6 \/ d = 7 \/ d = 8 \/ d = 9 \/ d = 10 \/ d = 11
    \/ d = 12 \/ d = 13 \/ d = 14 \/ d = 15) as H by lia. repeat destruct H as [->|H]; try (by split); subst; by split.
Qed.

Lemma hex_digits_spec fuel x : (0 < fuel)%nat -> 0 <= x < 16 ^ Z.of_nat fuel ->
  Forall (fun c => is_hex_digit c = true) (hex_digits fuel x []) /\ hex_value 0 (hex_digits fuel x []) = x
  /\ (1 <= length (hex_digits fuel x []) <= fuel)%nat.
Proof.
  revert x. induction fuel as [|fuel IH]; intros x Hf Hx; [lia|]. cbn [hex_digits].
  destruct (hex_char_decode (x mod 16)) as [Hv Hc]; [dlia|].
  destruct (Z.gtb_spec (x / 16) 0) as [Hq|Hq].
  - rewrite Nat2Z.inj_succ, Z.pow_succ_r in Hx by lia.
    assert (Hf' : (0 < fuel)%nat) by (destruct fuel; [simpl in Hx; exfalso; dlia|lia]).
    destruct (IH (x / 16)) as (H1 & H2 & H3); [lia|split; [lia|apply Z.div_lt_upper_bound; lia]|].
    rewrite (hex_digits_acc _ _ [_]). rewrite Forall_app, hex_value_app, H2, length_app. cbn [hex_value length]. rewrite Hv.
    split_and!; try lia; [done|constructor; [exact Hc|constructor]|dlia].
  - cbn [hex_value length]. rewrite Hv. split_and!; try lia; [constructor; [exact Hc|constructor]|dlia].
Qed.

Lemma print_hex_spec x : 0 <= x <= 65535 ->
  Forall (fun c => is_hex_digit c = true) (print_hex x) /\ hex_value 0 (print_hex x) = x /\ 1 <= blen (print_hex x) <= 4.
Proof.
  intros Hx. destruct (hex_digits_spec 4 x) as (H1 & H2 & H3); [lia|change (16 ^ Z.of_nat 4) with 65536; lia|].
  unfold print_hex, blen. split_and!; try done; lia.
Qed.

(** ** Runs of the first loop *)

(** From position [i] with variables [s], the loop gets to [i'] with [s']. *)
Definition steps (name : bytes) (i : Z) (s : pstate) (i' : Z) (s' : pstate) : Prop :=
  forall fuel, blen name - i <= Z.of_nat fuel ->
  exists fuel', blen name - i' <= Z.of_nat fuel' /\ parse6_loop fuel name i s = parse6_loop fuel' name i' s'.

Lemma steps_refl name i s : steps name i s i s.
Proof. intros fuel Hf. by exists fuel. Qed.
Lemma steps_trans name i1 s1 i2 s2 i3 s3 : steps name i1 s1 i2 s2 -> steps name i2 s2 i3 s3 -> steps name i1 s1 i3 s3.
Proof.
  intros H1 H2 fuel Hf. destruct (H1 fuel Hf) as (f2 & Hf2 & E2). destruct (H2 f2 Hf2) as (f3 & Hf3 & E3).
  exists f3. split; [done|]. by rewrite E2.
Qed.

Lemma char_at_app pre c rest : char_at (pre ++ c :: rest) (blen pre) = Some c.
Proof.
  unfold char_at. pose proof (blen_nonneg pre). rewrite (proj2 (Z.ltb_ge _ 0)) by lia. unfold blen. rewrite Nat2Z.id.
  by apply list_lookup_middle.
Qed.

Definition with_block (s : pstate) (b : Z) : pstate :=
  {| out_addr := out_addr s; num_blocks := num_blocks s; compress_pos := compress_pos s; block := b; empty := false |}.

(** One more round of the loop. *)
Ltac loop_round :=
  let fuel := fresh "fuel" in let Hf := fresh "Hf" in
  intros fuel Hf; rewrite ?blen_app, ?blen_cons in Hf;
  repeat match goal with b : bytes |- _ => lazymatch goal with H : 0 <= blen b |- _ => fail | _ => pose proof (blen_nonneg b) end end;
  destruct fuel as [|fuel]; [simpl in Hf; lia|]; exists fuel;
  split; [rewrite ?blen_app, ?blen_cons; lia|]; simpl parse6_loop; rewrite ?blen_app, ?blen_cons, (proj2 (Z.ltb_lt _ _)) by lia;
  cbn [negb]; rewrite char_at_app; cbn [mbind option_bind].

Lemma hex_step pre c rest s : is_hex_digit c = true -> 0 <= block s -> 16 * block s + decode_hex_digit c <= 65535 ->
  steps (pre ++ c :: rest) (blen pre) s (blen pre + 1) (with_block s (16 * block s + decode_hex_digit c)).
Proof.
  intros Hc Hb Hle. loop_round.
  assert (c <> 46 /\ c <> 58) as [H1 H2] by (split; intros ->; done).
  rewrite (proj2 (Z.eqb_neq c 46)), (proj2 (Z.eqb_neq c 58)) by done.
  unfold is_hex_digit in Hc. set (d := decode_hex_digit c) in *. unfold UINT16_MAX. change (65535 / 16) with 4095. zbool.
  rewrite (u16_small (block s * 16)) by lia. zdecide. rewrite u16_small by lia. unfold with_block. do 3 f_equal. lia.
Qed.

Lemma hex_run l : forall pre rest s, l <> [] -> Forall (fun c => is_hex_digit c = true) l -> 0 <= block s -> hex_value (block s) l <= 65535 ->
  steps (pre ++ l ++ rest) (blen pre) s (blen pre + blen l) (with_block s (hex_value (block s) l)).
Proof.
  induction l as [|c l IH]; intros pre rest s Hne Hl Hb Hv; [done|]. apply Forall_cons_iff in Hl as [Hc Hl].
  cbn [hex_value] in Hv. pose proof Hc as Hc'. unfold is_hex_digit in Hc'.
  pose proof (hex_value_mono (16 * block s + decode_hex_digit c) l ltac:(lia) Hl) as Hm.
  pose proof (hex_step pre c (l ++ rest) s Hc Hb ltac:(lia)) as H1.
  destruct l as [|c' l']; [rewrite blen_cons; exact H1|]. eapply steps_trans; [exact H1|].
  specialize (IH (pre ++ [c]) rest (with_block s (16 * block s + decode_hex_digit c))).
  rewrite <- app_assoc, blen_app, (blen_cons c []), (blen_nil) in IH. rewrite (blen_cons c (c' :: l')).
  replace (blen pre + (1 + blen (c' :: l'))) with (blen pre + (1 + 0) + blen (c' :: l')) by lia.
  apply IH; [done|done|simpl; lia|simpl block; lia].
Qed.

(** ** Blocks *)

Definition be16 (v : Z) : bytes := [Z.shiftr v 8; Z.land v 255].
Definition enc (vs : list Z) : bytes := concat (map be16 vs).

Lemma blen_enc vs : blen (enc vs) = 2 * Z.of_nat (length vs).
Proof. unfold enc. induction vs as [|v vs IH]; [done|]. simpl. rewrite !blen_cons. simpl in IH. lia. Qed.
Lemma enc_app vs ws : enc (vs ++ ws) = enc vs ++ enc ws.
Proof. unfold enc. by rewrite map_app, concat_app. Qed.

(** Between two blocks: [vs] are stored, [junk] is the rest of the address. *)
Definition between (vs : list Z) (junk : bytes) (cp : Z) : pstate :=
  {| out_addr := enc vs ++ junk; num_blocks := Z.of_nat (length vs); compress_pos := cp; block := 0; empty := true |}.
(** After the digits of a block. *)
Definition inside (vs : list Z) (junk : bytes) (cp v : Z) : pstate := with_block (between vs junk cp) v.

Lemma store_block_enc vs y0 y1 junk cp v : store_block (inside vs (y0 :: y1 :: junk) cp v) = Some (between (vs ++ [v]) junk cp).
Proof.
  unfold store_block. simpl. rewrite (mem_write_at (enc vs) [y0] (y1 :: junk)) by (rewrite ?blen_enc; done || lia).
  cbn [mbind option_bind]. change (enc vs ++ [Z.shiftr v 8] ++ y1 :: junk) with (enc vs ++ [Z.shiftr v 8] ++ [y1] ++ junk).
  rewrite app_assoc, (mem_write_at (enc vs ++ [Z.shiftr v 8]) [y1] junk)
    by (rewrite ?blen_app, ?blen_enc, ?blen_cons, ?blen_nil; done || lia).
  cbn [mbind option_bind]. unfold between. rewrite enc_app, length_app, <- !app_assoc. simpl. do 2 f_equal. lia.
Qed.

Lemma colon_step pre c rest vs y0 y1 junk cp v : pre <> [] -> c <> CHR ":" -> (length vs < 7)%nat ->
  steps (pre ++ CHR ":" :: c :: rest) (blen pre) (inside vs (y0 :: y1 :: junk) cp v) (blen pre + 1) (between (vs ++ [v]) junk cp).
Proof.
  intros Hpre Hc Hn. assert (0 < blen pre) by (destruct pre; [done|]; rewrite blen_cons; pose proof (blen_nonneg pre); lia).
  loop_round. change (58 =? 46) with false. change (58 =? 58) with true. cbn iota.
  rewrite (proj2 (Z.ltb_lt (blen pre + 1) _)) by lia.
  assert (E1 : char_at (pre ++ 58 :: c :: rest) (blen pre + 1) = Some c).
  { pose proof (char_at_app (pre ++ [58]) c rest) as E. rewrite <- app_assoc, blen_app in E. exact E. }
  rewrite E1. simpl option_map. rewrite (proj2 (Z.eqb_neq c 58)) by done. cbn [mbind option_bind].
  rewrite Z.gtb_ltb, (proj2 (Z.ltb_lt 0 _)) by lia. simpl num_blocks. rewrite (proj2 (Z.eqb_neq _ 7)) by lia. simpl (empty _). cbn [orb].
  rewrite store_block_enc. cbn [mbind option_bind]. done.
Qed.

Lemma double_step pre rest vs y0 y1 junk v : pre <> [] -> (length vs < 7)%nat ->
  steps (pre ++ CHR ":" :: CHR ":" :: rest) (blen pre) (inside vs (y0 :: y1 :: junk) (-1) v) (blen pre + 2)
    (between (vs ++ [v]) junk (Z.of_nat (length (vs ++ [v])))).
Proof.
  intros Hpre Hn. assert (0 < blen pre) by (destruct pre; [done|]; rewrite blen_cons; pose proof (blen_nonneg pre); lia).
  loop_round. change (58 =? 46) with false. change (58 =? 58) with true. cbn iota.
  rewrite (proj2 (Z.ltb_lt (blen pre + 1) _)) by lia.
  assert (E1 : char_at (pre ++ 58 :: 58 :: rest) (blen pre + 1) = Some 58).
  { pose proof (char_at_app (pre ++ [58]) 58 rest) as E. rewrite <- app_assoc, blen_app in E. exact E. }
  rewrite E1. simpl option_map. cbn [mbind option_bind].
  rewrite Z.gtb_ltb, (proj2 (Z.ltb_lt 0 _)) by lia. simpl num_blocks. rewrite (proj2 (Z.eqb_neq _ 7)) by lia. simpl (empty _). cbn [orb].
  rewrite store_block_enc. cbn [mbind option_bind]. done.
Qed.

Lemma double_step_first rest junk : steps (CHR ":" :: CHR ":" :: rest) 0 (between [] junk (-1)) 2 (between [] junk 0).
Proof.
  intros fuel Hf. rewrite !blen_cons in Hf. pose proof (blen_nonneg rest). destruct fuel as [|fuel]; [simpl in Hf; lia|].
  exists fuel. split; [rewrite !blen_cons; lia|]. cbn [parse6_loop]. rewrite !blen_cons.
  rewrite (proj2 (Z.ltb_lt 0 _)) by lia. cbn [negb]. change (char_at (58 :: 58 :: rest) 0) with (Some 58). cbn [mbind option_bind].
  change (58 =? 46) with false. change (58 =? 58) with true. cbn iota. rewrite (proj2 (Z.ltb_lt (0 + 1) _)) by lia.
  change (char_at (58 :: 58 :: rest) (0 + 1)) with (Some 58). done.
Qed.

(** The blocks [vs], separated by colons. *)
Fixpoint join (vs : list Z) : bytes :=
  match vs with
  | [] => []
  | [v] => print_hex v
  | v :: vs => print_hex v ++ CHR ":" :: join vs
  end.

Definition is_block (v : Z) : Prop := 0 <= v <= 65535.

Lemma block_run v pre rest vs junk cp : is_block v ->
  steps (pre ++ print_hex v ++ rest) (blen pre) (between vs junk cp) (blen pre + blen (print_hex v)) (inside vs junk cp v).
Proof.
  intros Hv. destruct (print_hex_spec v Hv) as (H1 & H2 & H3). 
  pose proof (hex_run (print_hex v) pre rest (between vs junk cp)) as H. simpl block in H. rewrite H2 in H.
  apply H; [|done|done|apply Hv]. intros E. rewrite E in H3. change (blen []) with 0 in H3. lia.
Qed.

Lemma print_hex_head v : is_block v -> exists c t, print_hex v = c :: t /\ c <> CHR ":".
Proof.
  intros Hv. destruct (print_hex_spec v Hv) as (H1 & _ & H3). destruct (print_hex v) as [|c t]; [change (blen []) with 0 in H3; lia|].
  exists c, t. split; [done|]. intros ->. by apply Forall_cons_iff in H1 as [? _].
Qed.

Lemma join_head vs : vs <> [] -> Forall is_block vs -> exists c t, join vs = c :: t /\ c <> CHR ":".
Proof.
  intros Hne Hvs. destruct vs as [|v vs]; [done|]. apply Forall_cons_iff in Hvs as [Hv _].
  destruct (print_hex_head v Hv) as (c & t & E & Hc). destruct vs; simpl; rewrite E; by eexists _, _.
Qed.

(** The loop over a sequence of blocks: all but the last are stored. *)
Lemma join_run ws : forall v pre rest vs junk cp, Forall is_block (v :: ws) -> (length vs + length ws <= 7)%nat ->
  2 * Z.of_nat (length ws) <= blen junk ->
  steps (pre ++ join (v :: ws) ++ rest) (blen pre) (between vs junk cp) (blen pre + blen (join (v :: ws)))
    (inside (vs ++ removelast (v :: ws)) (bdrop (2 * Z.of_nat (length ws)) junk) cp (List.last (v :: ws) 0)).
Proof.
  induction ws as [|w ws IH]; intros v pre rest vs junk cp Hvs Hn Hj.
  - simpl. rewrite app_nil_r, bdrop_0. apply block_run. by apply Forall_cons_iff in Hvs as [? _].
  - apply Forall_cons_iff in Hvs as [Hv Hvs]. destruct (join_head (w :: ws) ltac:(done) Hvs) as (c & t & Et & Hc).
    destruct junk as [|y0 [|y1 junk]]; [unfold blen in Hj; simpl in Hj; lia..|].
    change (join (v :: w :: ws)) with (print_hex v ++ 58 :: join (w :: ws)). rewrite <- app_assoc, <- app_comm_cons.
    eapply steps_trans; [by apply block_run|]. 
    assert (Hne : pre ++ print_hex v <> []). { destruct (print_hex_head v Hv) as (? & ? & -> & _). by destruct pre. }
    pose proof (colon_step (pre ++ print_hex v) c (t ++ rest) vs y0 y1 junk cp v Hne Hc ltac:(simpl in Hn; lia)) as H2.
    rewrite <- app_assoc, blen_app in H2. change (c :: t ++ rest) with ((c :: t) ++ rest) in H2. rewrite <- Et in H2.
    eapply steps_trans; [exact H2|].
    specialize (IH w (pre ++ print_hex v ++ [58]) rest (vs ++ [v]) junk cp Hvs).
    rewrite !blen_cons in Hj. simpl length in Hn, Hj. rewrite length_app in IH. simpl length in IH.
    specialize (IH ltac:(lia) ltac:(lia)). rewrite <- !app_assoc in IH.
    change ([58] ++ join (w :: ws) ++ rest) with (58 :: join (w :: ws) ++ rest) in IH. rewrite !blen_app, blen_cons, blen_nil in IH.
    assert (Hl : blen pre + blen (print_hex v ++ 58 :: join (w :: ws)) = blen pre + (blen (print_hex v) + (1 + 0)) + blen (join (w :: ws)))
      by (rewrite blen_app, blen_cons; lia).
    rewrite Hl. change (removelast (v :: w :: ws)) with (v :: removelast (w :: ws)). change (List.last (v :: w :: ws) 0) with (List.last (w :: ws) 0).
    replace (bdrop (2 * Z.of_nat (length (w :: ws))) (y0 :: y1 :: junk)) with (bdrop (2 * Z.of_nat (length ws)) junk).
    2:{ simpl length. replace (2 * Z.of_nat (S (length ws))) with (2 + 2 * Z.of_nat (length ws)) by lia.
        rewrite <- (bdrop_bdrop (2 * Z.of_nat (length ws)) 2) by lia. done. }
    replace (blen pre + blen (print_hex v) + 1) with (blen pre + (blen (print_hex v) + (1 + 0))) by lia. exact IH.
Qed.

(** ** The end of the parser *)

#[local] Arguments join : simpl never.
#[local] Arguments removelast : simpl never.
#[local] Arguments enc : simpl never.

Definition zeros (n : Z) : bytes := repeat 0 (Z.to_nat n).
Lemma blen_zeros n : 0 <= n -> blen (zeros n) = n.
Proof. intros. unfold zeros, blen. rewrite repeat_length. lia. Qed.

(** The blocks behind the compression are moved to the end. *)
Lemma parse6_finish_moves F R J n c : blen (F ++ R ++ J) = 16 -> blen F = 2 * c -> blen R = 2 * (n - c) -> 0 <= c ->
  parse6_finish (F ++ R ++ J) n c = Some (Some (F ++ zeros (16 - blen F - blen R) ++ R)).
Proof.
  intros H16 HF HR Hc. rewrite !blen_app in H16. pose proof (blen_nonneg J). pose proof (blen_nonneg R). unfold parse6_finish.
  rewrite (proj2 (Z.eqb_neq c (-1))) by lia. cbn [andb]. cbv zeta.
  rewrite mem_read_in by (rewrite ?blen_app; lia). cbn [mbind option_bind].
  rewrite (bdrop_app_exact (2 * c) F), (btake_app_exact (2 * (n - c)) R) by done.
  rewrite mem_write_in by (rewrite ?blen_app; lia). cbn [mbind option_bind].
  set (Y := btake (16 - blen F - blen R) (R ++ J)).
  assert (HY : blen Y = 16 - blen F - blen R) by (unfold Y; rewrite blen_btake; [done|rewrite blen_app; lia]).
  assert (E : btake (2 * (8 - (n - c))) (F ++ R ++ J) ++ R ++ bdrop (2 * (8 - (n - c)) + blen R) (F ++ R ++ J) = F ++ Y ++ R).
  { rewrite (btake_app_ge (2 * (8 - (n - c)))) by lia. replace (2 * (8 - (n - c)) - blen F) with (16 - blen F - blen R) by lia. fold Y.
    replace (bdrop (2 * (8 - (n - c)) + blen R) (F ++ R ++ J)) with (@nil Z); [by rewrite app_nil_r, <- app_assoc|].
    symmetry. rewrite <- (app_nil_r (F ++ R ++ J)). apply bdrop_app_exact. rewrite !blen_app. lia. }
  rewrite E. rewrite (proj2 (Z.leb_le 0 _)) by lia.
  fold (zeros (2 * (8 - (n - c) - c))). rewrite (mem_write_at F Y R) by (rewrite ?blen_zeros; lia). cbn [mbind option_bind].
  unfold zeros. do 4 f_equal. f_equal. lia.
Qed.

(** A string that the first loop reads to the end in state [s]. *)
Lemma loop_done name s s' : steps name 0 s (blen name) s' -> parse6_loop (length name) name 0 s = Some (Loop_done s').
Proof.
  intros H. destruct (H (length name)) as (f & _ & ->); [unfold blen; lia|]. by destruct f; simpl; rewrite Z.ltb_irrefl.
Qed.

Definition start (out : bytes) : pstate := between [] out (-1).

Lemma parse_at_block name out raw vs junk cp v :
  steps name 0 (start out) (blen name) (inside vs junk cp v) -> 2 <= blen junk ->
  ipaddr6_parse_ipv6_addr name out raw = parse6_finish (enc (vs ++ [v]) ++ bdrop 2 junk) (Z.of_nat (length (vs ++ [v]))) cp.
Proof.
  intros H Hj. unfold ipaddr6_parse_ipv6_addr. change {| out_addr := out; num_blocks := 0; compress_pos := -1; block := 0; empty := true |} with (start out).
  rewrite (loop_done _ _ _ H). cbn [mbind option_bind negb].
  destruct junk as [|y0 [|y1 junk]]; [unfold blen in Hj; simpl in Hj; lia..|].
  simpl (empty _). cbn [negb]. rewrite store_block_enc. done.
Qed.

Lemma removelast_last (v : Z) ws : removelast (v :: ws) ++ [List.last (v :: ws) 0] = v :: ws.
Proof. symmetry. by apply app_removelast_last. Qed.

Lemma length_removelast (v : Z) ws : length (removelast (v :: ws)) = length ws.
Proof. pose proof (f_equal (@length Z) (removelast_last v ws)) as H. rewrite length_app in H. simpl in H. simpl. lia. Qed.

Lemma parse_full vs out raw : length vs = 8%nat -> Forall is_block vs -> blen out = 16 ->
  ipaddr6_parse_ipv6_addr (join vs) out raw = Some (Some (enc vs)).
Proof.
  intros Hl Hvs Ho. destruct vs as [|v ws]; [done|]. simpl in Hl.
  pose proof (join_run ws v [] [] [] out (-1) Hvs ltac:(simpl; lia) ltac:(lia)) as H. rewrite app_nil_r in H. simpl app in H.
  rewrite (parse_at_block _ out raw _ _ _ _ H) by (rewrite blen_bdrop; lia). rewrite removelast_last.
  rewrite bdrop_bdrop by lia. replace (bdrop (2 * Z.of_nat (length ws) + 2) out) with (@nil Z).
  2:{ symmetry. rewrite <- (app_nil_r out). apply bdrop_app_exact. lia. }
  rewrite app_nil_r. simpl length. rewrite Hl. pose proof (blen_enc (v :: ws)) as He. simpl length in He. rewrite Hl in He.
  pose proof (parse6_finish_moves [] (enc (v :: ws)) [] 8 0) as Hf. rewrite app_nil_r in Hf. simpl app in Hf.
  replace (parse6_finish (enc (v :: ws)) (Z.of_nat 8) (-1)) with (parse6_finish (enc (v :: ws)) 8 0) by done.
  rewrite Hf by (try done; lia). rewrite He. done.
Qed.

(** The loop over the blocks before the compression and the two colons. *)
Lemma front_run fs rest out : Forall is_block fs -> (length fs <= 7)%nat -> blen out = 16 ->
  steps (join fs ++ CHR ":" :: CHR ":" :: rest) 0 (start out) (blen (join fs) + 2)
    (between fs (bdrop (2 * Z.of_nat (length fs)) out) (Z.of_nat (length fs))).
Proof.
  intros Hfs Hn Ho. destruct fs as [|v ws]; [simpl; rewrite bdrop_0; apply double_step_first|].
  simpl length in *. pose proof (join_run ws v [] (58 :: 58 :: rest) [] out (-1) Hfs ltac:(simpl; lia) ltac:(lia)) as H.
  simpl app in H. eapply steps_trans; [exact H|]. clear H.
  assert (Hb : blen (bdrop (2 * Z.of_nat (length ws)) out) = 16 - 2 * Z.of_nat (length ws)) by (rewrite blen_bdrop; lia).
  assert (Hd : bdrop (2 * Z.of_nat (S (length ws))) out = bdrop 2 (bdrop (2 * Z.of_nat (length ws)) out)).
  { rewrite bdrop_bdrop by lia. f_equal. lia. }
  rewrite Hd. destruct (bdrop (2 * Z.of_nat (length ws)) out) as [|y0 [|y1 junk]]; [unfold blen in Hb; simpl in Hb; lia..|].
  assert (Hne : join (v :: ws) <> []) by (destruct (join_head (v :: ws)) as (? & ? & -> & _); done).
  pose proof (double_step (join (v :: ws)) rest (removelast (v :: ws)) y0 y1 junk (List.last (v :: ws) 0) Hne) as H.
  rewrite removelast_last, length_removelast in H. simpl length in H. apply H. lia.
Qed.

Lemma parse_compressed fs rs out raw : Forall is_block fs -> Forall is_block rs -> (length fs + length rs <= 7)%nat -> blen out = 16 ->
  ipaddr6_parse_ipv6_addr (join fs ++ CHR ":" :: CHR ":" :: join rs) out raw
  = Some (Some (enc fs ++ zeros (16 - blen (enc fs) - blen (enc rs)) ++ enc rs)).
Proof.
  intros Hfs Hrs Hn Ho. pose proof (front_run fs (join rs) out Hfs ltac:(lia) Ho) as H.
  pose proof (blen_enc fs) as Ef. pose proof (blen_enc rs) as Er.
  assert (Hb : blen (bdrop (2 * Z.of_nat (length fs)) out) = 16 - 2 * Z.of_nat (length fs)) by (rewrite blen_bdrop; lia).
  set (junk := bdrop (2 * Z.of_nat (length fs)) out) in *. destruct rs as [|r rs].
  - change (join []) with (@nil Z) in *. replace (blen (join fs) + 2) with (blen (join fs ++ 58 :: 58 :: [])) in H by (rewrite blen_app, !blen_cons, blen_nil; lia).
    unfold ipaddr6_parse_ipv6_addr. change {| out_addr := out; num_blocks := 0; compress_pos := -1; block := 0; empty := true |} with (start out).
    rewrite (loop_done _ _ _ H). cbn [mbind option_bind]. simpl (empty _). cbn [negb]. simpl num_blocks. simpl compress_pos.
    rewrite Z.eqb_refl. cbn [negb]. simpl out_addr.
    rewrite (parse6_finish_moves (enc fs) [] junk) by (rewrite ?blen_app, ?blen_nil; simpl; lia). done.
  - set (pre := join fs ++ [58; 58]). assert (Hpre : blen pre = blen (join fs) + 2) by (unfold pre; rewrite blen_app; done).
    pose proof (join_run rs r pre [] fs junk (Z.of_nat (length fs)) Hrs ltac:(simpl in Hn; lia) ltac:(simpl in Hn; lia)) as H2.
    rewrite app_nil_r, Hpre in H2. unfold pre in H2 at 1. rewrite <- app_assoc in H2. simpl ([58; 58] ++ _) in H2.
    pose proof (steps_trans _ _ _ _ _ _ _ H H2) as H3.
    replace (blen (join fs) + 2 + blen (join (r :: rs))) with (blen (join fs ++ 58 :: 58 :: join (r :: rs))) in H3 by (rewrite blen_app, !blen_cons; lia).
    rewrite (parse_at_block _ out raw _ _ _ _ H3) by (rewrite blen_bdrop; simpl in Hn; lia).
    rewrite <- app_assoc, removelast_last, enc_app, <- app_assoc, length_app.
    apply parse6_finish_moves; [|lia..]. rewrite !blen_app, !blen_bdrop by (rewrite ?blen_bdrop; simpl in Hn; lia).
    rewrite ?blen_bdrop by (simpl in Hn; lia). simpl in *. lia.
Qed.

(** ** What the printer writes *)

Definition zero_block (addr : bytes) (j : nat) : Prop := nth (2 * j) addr 0 = 0 /\ nth (2 * j + 1) addr 0 = 0.

Lemma zero_run_spec n : forall i addr ls ll cs cl, (ls + ll <= i)%nat -> (cs + cl = i)%nat ->
  (forall j, (ls <= j < ls + ll)%nat -> zero_block addr j) -> (forall j, (cs <= j < cs + cl)%nat -> zero_block addr j) ->
  let '(st, ln) := zero_run n i addr ls ll cs cl in
  (st + ln <= i + n)%nat /\ forall j, (st <= j < st + ln)%nat -> zero_block addr j.
Proof.
  induction n as [|n IH]; intros i addr ls ll cs cl H1 H2 Hl Hc; [simpl; split; [lia|done]|]. cbn [zero_run].
  destruct (_ && _) eqn:E.
  - assert (Hz : zero_block addr i) by (unfold zero_block; lia).
    assert (Hc' : forall j, (cs <= j < cs + S cl)%nat -> zero_block addr j).
    { intros j Hj. destruct (decide (j = i)) as [->|]; [done|]. apply Hc. lia. }
    replace (i + S n)%nat with (S i + n)%nat by lia. destruct (ll <? S cl)%nat; apply IH; try done; lia.
  - replace (i + S n)%nat with (S i + n)%nat by lia. apply IH; try done; lia.
Qed.

Definition blocks (addr : bytes) (a n : nat) : list Z := map (block_at addr) (seq a n).

Lemma block_at_value addr i : is_bytes addr -> (2 * i + 1 < length addr)%nat ->
  exists h l, nth (2 * i) addr 0 = h /\ nth (2 * i + 1) addr 0 = l /\ 0 <= h < 256 /\ 0 <= l < 256 /\ block_at addr i = h * 256 + l.
Proof.
  intros Hb Hi. eexists _, _. split; [done|]. split; [done|]. unfold is_bytes in Hb. rewrite List.Forall_forall in Hb.
  assert (H1 : is_byte (nth (2 * i) addr 0)) by (apply Hb, nth_In; lia).
  assert (H2 : is_byte (nth (2 * i + 1) addr 0)) by (apply Hb, nth_In; lia).
  unfold is_byte in *. split; [done|]. split; [done|]. unfold block_at.
  rewrite u16_small by (rewrite Z.shiftl_mul_pow2 by lia; lia). by rewrite lor_shiftl_add by lia.
Qed.

Lemma be16_value h l : 0 <= h < 256 -> 0 <= l < 256 -> be16 (h * 256 + l) = [h; l].
Proof.
  intros Hh Hl. unfold be16. rewrite Z.shiftr_div_pow2 by lia. change 255 with (Z.ones 8). rewrite Z.land_ones by lia.
  change (2 ^ 8) with 256. f_equal; [dlia|]. f_equal. dlia.
Qed.

Lemma blocks_ok addr a n : is_bytes addr -> (2 * (a + n) <= length addr)%nat -> Forall is_block (blocks addr a n).
Proof.
  intros Hb Hl. apply Forall_forall. intros v (i & <- & Hi)%in_map_iff. apply in_seq in Hi.
  destruct (block_at_value addr i Hb ltac:(lia)) as (h & l & _ & _ & Hh & Hl' & ->). unfold is_block. lia.
Qed.

Lemma enc_blocks addr a n : is_bytes addr -> (2 * (a + n) <= length addr)%nat ->
  enc (blocks addr a n) = take (2 * n) (drop (2 * a) addr).
Proof.
  intros Hb. revert a. induction n as [|n IH]; intros a Hl; [done|].
  change (blocks addr a (S n)) with ([block_at addr a] ++ blocks addr (S a) n). rewrite enc_app, IH by lia.
  destruct (block_at_value addr a Hb ltac:(lia)) as (h & l & E1 & E2 & Hh & Hl' & ->).
  change (enc [h * 256 + l]) with (be16 (h * 256 + l) ++ []). rewrite app_nil_r, be16_value by done.
  assert (Hn : forall i, (i < length addr)%nat -> drop i addr = nth i addr 0 :: drop (S i) addr).
  { intros i Hi. apply drop_S. destruct (lookup_lt_is_Some_2 addr i Hi) as [x Hx]. rewrite Hx. f_equal. symmetry.
    by apply nth_lookup_Some. }
  rewrite (Hn (2 * a)%nat), (Hn (S (2 * a))) by lia. replace (S (2 * a)) with (2 * a + 1)%nat by lia. rewrite E1, E2.
  replace (S (2 * a + 1)) with (2 * S a)%nat by lia. replace (2 * S n)%nat with (S (S (2 * n))) by lia. done.
Qed.

Lemma zero_blocks addr a n : is_bytes addr -> (2 * (a + n) <= length addr)%nat ->
  (forall j, (a <= j < a + n)%nat -> zero_block addr j) -> enc (blocks addr a n) = zeros (2 * Z.of_nat n).
Proof.
  intros Hb Hl Hz. assert (E : blocks addr a n = repeat 0 n).
  { revert a Hl Hz. induction n as [|n IH]; intros a Hl Hz; [done|].
    change (blocks addr a (S n)) with (block_at addr a :: blocks addr (S a) n). simpl repeat. f_equal; [|apply IH; [lia|intros; apply Hz; lia]].
    destruct (Hz a ltac:(lia)) as [Z1 Z2]. unfold block_at. by rewrite Z1, Z2. }
  rewrite E. unfold zeros. replace (Z.to_nat (2 * Z.of_nat n)) with (2 * n)%nat by lia. clear.
  induction n as [|n IH]; [done|]. change (repeat 0 (S n)) with ([0] ++ repeat 0 n). rewrite enc_app, IH.
  by replace (2 * S n)%nat with (S (S (2 * n))) by lia.
Qed.

Lemma concat_front vs : concat (map (fun v => print_hex v ++ [CHR ":"]) vs) ++ (if (length vs =? 0)%nat then [CHR ":"] else [])
  = join vs ++ [CHR ":"].
Proof.
  destruct vs as [|v vs]; [done|]. simpl Nat.eqb. cbn iota. rewrite app_nil_r. revert v.
  induction vs as [|w vs IH]; intros v; [simpl; by rewrite app_nil_r|].
  change (concat (map (fun v => print_hex v ++ [58]) (v :: w :: vs)))
    with ((print_hex v ++ [58]) ++ concat (map (fun v => print_hex v ++ [58]) (w :: vs))).
  rewrite IH. change (join (v :: w :: vs)) with (print_hex v ++ 58 :: join (w :: vs)). rewrite <- !app_assoc. done.
Qed.

Lemma concat_rear vs : concat (map (fun v => [CHR ":"] ++ print_hex v) vs) ++ (if (length vs =? 0)%nat then [CHR ":"] else [])
  = CHR ":" :: join vs.
Proof.
  destruct vs as [|v vs]; [done|]. simpl Nat.eqb. cbn iota. rewrite app_nil_r. revert v.
  induction vs as [|w vs IH]; intros v; [simpl; by rewrite app_nil_r|].
  change (concat (map (fun v => [58] ++ print_hex v) (v :: w :: vs)))
    with (([58] ++ print_hex v) ++ concat (map (fun v => [58] ++ print_hex v) (w :: vs))).
  rewrite IH. change (join (v :: w :: vs)) with (print_hex v ++ 58 :: join (w :: vs)). done.
Qed.

(** The text is a list of blocks, or two lists around a double colon. *)
Lemma print_addr_shape addr : is_bytes addr -> length addr = 16%nat ->
  (exists vs, length vs = 8%nat /\ Forall is_block vs /\ ipaddr6_print_addr addr = join vs /\ addr = enc vs)
  \/ (exists fs rs, Forall is_block fs /\ Forall is_block rs /\ (length fs + length rs <= 6)%nat
      /\ ipaddr6_print_addr addr = join fs ++ CHR ":" :: CHR ":" :: join rs
      /\ addr = enc fs ++ zeros (16 - blen (enc fs) - blen (enc rs)) ++ enc rs).
Proof.
  intros Hb Hl. pose proof (zero_run_spec 8 0 addr 0 0 0 0) as Hz. unfold ipaddr6_print_addr.
  destruct (zero_run 8 0 addr 0 0 0 0) as [st ln]. destruct Hz as [Hle Hz]; [lia|lia|intros; lia|intros; lia|].
  destruct (Nat.ltb_spec 1 ln) as [Hln|Hln].
  - right. exists (blocks addr 0 st), (blocks addr (st + ln) (8 - (st + ln))).
    assert (Hlen : forall a n, length (blocks addr a n) = n) by (intros; unfold blocks; by rewrite length_map, length_seq).
    split_and!.
    + apply blocks_ok; [done|lia].
    + apply blocks_ok; [done|lia].
    + rewrite !Hlen. lia.
    + pose proof (concat_front (blocks addr 0 st)) as H1. pose proof (concat_rear (blocks addr (st + ln) (8 - (st + ln)))) as H2.
      rewrite Hlen in H1, H2. unfold blocks in H1, H2. rewrite map_map in H1, H2.
      replace (8 - (st + ln) =? 0)%nat with (st + ln =? 8)%nat in H2
        by (destruct (Nat.eqb_spec (st + ln) 8), (Nat.eqb_spec (8 - (st + ln)) 0); lia).
      rewrite H2, app_assoc, H1, <- app_assoc. done.
    + rewrite !blen_enc, !Hlen.
      replace (16 - 2 * Z.of_nat st - 2 * Z.of_nat (8 - (st + ln))) with (2 * Z.of_nat ln) by lia.
      rewrite <- (zero_blocks addr st ln) by (try done; lia). rewrite !enc_blocks by (try done; lia).
      replace (2 * (st + ln))%nat with (2 * st + 2 * ln)%nat by lia. rewrite <- drop_drop. rewrite (firstn_all2 (n := 2 * (8 - (st + ln)))).
      * rewrite take_drop. simpl. by rewrite drop_0, take_drop.
      * rewrite !length_drop. lia.
  - left. exists (blocks addr 0 8). split_and!; [done|apply blocks_ok; [done|lia]| |].
    + unfold blocks. simpl. rewrite !app_nil_r. done.
    + rewrite enc_blocks by (try done; lia). simpl. rewrite drop_0, firstn_all2 by lia. done.
Qed.

Lemma blen_join v vs : Forall is_block (v :: vs) -> blen (join (v :: vs)) <= 4 + 5 * Z.of_nat (length vs).
Proof.
  revert v. induction vs as [|w vs IH]; intros v Hv; apply Forall_cons_iff in Hv as [Hv Hvs];
    destruct (print_hex_spec v Hv) as (_ & _ & H); [change (join [v]) with (print_hex v); simpl; lia|].
  change (join (v :: w :: vs)) with (print_hex v ++ 58 :: join (w :: vs)). rewrite blen_app, blen_cons.
  change (length (w :: vs)) with (S (length vs)). specialize (IH w Hvs). lia.
Qed.

Lemma ipv6_print_parse addr out raw : is_bytes addr -> length addr = 16%nat -> blen out = 16 ->
  ipaddr6_parse_ipv6_addr (ipaddr6_print_addr addr) out raw = Some (Some addr) /\ blen (ipaddr6_print_addr addr) <= 39.
Proof.
  intros Hb Hl Ho. destruct (print_addr_shape addr Hb Hl) as [(vs & H8 & Hvs & Ep & Ea)|(fs & rs & Hfs & Hrs & Hn & Ep & Ea)]; rewrite Ep.
  - split; [by rewrite (parse_full vs), <- Ea|]. destruct vs as [|v vs]; [done|]. pose proof (blen_join v vs Hvs) as H.
    simpl in H8. lia.
  - split; [rewrite (parse_compressed fs rs), <- Ea by (try done; lia); done|]. rewrite blen_app, !blen_cons.
    assert (Hj : forall vs, Forall is_block vs -> blen (join vs) <= 5 * Z.of_nat (length vs)).
    { intros [|v vs] Hvs; [done|]. pose proof (blen_join v vs Hvs). simpl length. lia. }
    pose proof (Hj fs Hfs). pose proof (Hj rs Hrs). lia.
Qed.

(** The text has neither a slash nor a terminator in it. *)
Lemma join_chars vs : Forall is_block vs -> Forall (fun c => c <> CHR "/") (join vs).
Proof.
  assert (Hp : forall v, is_block v -> Forall (fun c => c <> 47) (print_hex v)).
  { intros v Hv. destruct (print_hex_spec v Hv) as (H & _). revert H. apply Forall_impl. by intros c Hc ->. }
  induction 1 as [|v vs Hv Hvs IH]; [constructor|]. destruct vs as [|w vs]; [by apply Hp|].
  change (join (v :: w :: vs)) with (print_hex v ++ 58 :: join (w :: vs)). apply Forall_app. split; [by apply Hp|]. by constructor.
Qed.

Lemma print_addr6_no_slash addr : is_bytes addr -> length addr = 16%nat -> Forall (fun c => c <> CHR "/") (ipaddr6_print_addr addr).
Proof.
  intros Hb Hl. destruct (print_addr_shape addr Hb Hl) as [(vs & _ & Hvs & -> & _)|(fs & rs & Hfs & Hrs & _ & -> & _)];
    [by apply join_chars|]. apply Forall_app. split; [by apply join_chars|]. constructor; [done|]. constructor; [done|]. by apply join_chars.
Qed.



Lemma parse_ipv6_safe_witness : exists r,
  ipaddr6_parse_ipv6_addr [CHR ":"; CHR ":"; CHR "1"; CHR "."; CHR "2"] (repeat 0 16) (repeat 0 4) = Some r.
Proof.
  destruct (parse_ipv6_safe [CHR ":"; CHR ":"; CHR "1"; CHR "."; CHR "2"] (repeat 0 16) (repeat 0 4)) as (r & H & _);
    [reflexivity|reflexivity|]. exists r. exact H.
Defined.

(** * Masks and networks *)

(** t |= 1 << (8 - i - 1) for i = 0, ..., [n] - 1 *)
Fixpoint high_bits (n : nat) (t : Z) : Z :=
  match n with O => t | S n => Z.lor (high_bits n t) (Z.shiftl 1 (8 - Z.of_nat n - 1)) end.

Fixpoint set_bits (n : nat) (i : Z) (mask : bytes) (quot : Z) : option bytes :=
  match n with
  | O => Some mask
  | S n => b ← mem_read mask quot 1;
           mask ← mem_write mask quot [Z.lor (nth 0 b 0) (Z.shiftl 1 (8 - i - 1))];
           set_bits n (i + 1) mask quot
  end.

Definition ipaddr6_ipv6_mask_from_prefix (prefix : Z) (out_mask : bytes) : option bytes :=
  ASSERT (0 <=? prefix) && (prefix <=? 128);
  let quot := prefix / 8 in
  let rem := prefix mod 8 in
  mask ← (if quot >? 0 then mem_write out_mask 0 (repeat UINT8_MAX (Z.to_nat quot)) else Some out_mask);
  mask ← (if 16 - quot >? 0 then mem_write mask quot (repeat 0 (Z.to_nat (16 - quot))) else Some mask);
  set_bits (Z.to_nat rem) 0 mask quot.

(** The first loop of prefix_from_mask; the rest of the mask is returned too. *)
Fixpoint skip_ones (prefix : Z) (mask : bytes) : Z * bytes :=
  match mask with
  | b :: mask' => if b =? UINT8_MAX then skip_ones (prefix + 8) mask' else (prefix, mask)
  | [] => (prefix, [])
  end.
Fixpoint bits_loop (n : nat) (j t b : Z) : option Z :=
  match n with
  | O => None
  | S n => if b =? t then Some j else bits_loop n (j + 1) (if j <? 8 then Z.lor t (Z.shiftl 1 (8 - j - 1)) else t) b
  end.
Definition ipaddr6_ipv6_prefix_from_mask (mask : bytes) : option Z :=
  let '(prefix, rest) := skip_ones 0 mask in
  match rest with
  | [] => Some prefix
  | b :: rest =>
      j ← bits_loop 9 0 0 b;
      if forallb (fun x => x =? 0) rest then Some (prefix + j) else None
  end.

Definition ipaddr6_ipv6_ifaddr_from_addr_mask (addr mask : bytes) : option ipv6_ifaddr :=
  prefix ← ipaddr6_ipv6_prefix_from_mask mask; Some {| if6_addr := addr; if6_prefix := prefix |}.

Definition ipaddr6_ipv6_addrs_in_network (addr1 addr2 : bytes) (netprefix : Z) : option bool :=
  ASSERT (0 <=? netprefix) && (netprefix <=? 128);
  let quot := netprefix / 8 in
  let rem := netprefix mod 8 in
  if negb (memcmp (btake quot addr1) (btake quot addr2) =? 0) then Some false else
  if rem =? 0 then Some true else
  let t := high_bits (Z.to_nat rem) 0 in
  b1 ← mem_read addr1 quot 1;
  b2 ← mem_read addr2 quot 1;
  Some (Z.land (nth 0 b1 0) t =? Z.land (nth 0 b2 0) t).

(** The mask of a prefix of [q] bytes and [r] bits. *)
Definition mask_of (q r : nat) : bytes :=
  repeat 255 q ++ (if (q <? 16)%nat then high_bits r 0 :: repeat 0 (15 - q) else []).

Lemma set_bits_spec n : forall i a y c, set_bits n (Z.of_nat i) (a ++ [high_bits i y] ++ c) (blen a) = Some (a ++ [high_bits (i + n) y] ++ c).
Proof.
  induction n as [|n IH]; intros i a y c; [simpl; by rewrite Nat.add_0_r|]. cbn [set_bits].
  pose proof (blen_nonneg a). pose proof (blen_nonneg c).
  rewrite mem_read_in by (rewrite ?blen_app, ?blen_cons, ?blen_nil; lia). cbn [mbind option_bind].
  rewrite bdrop_app_exact by done. change (nth 0 (btake 1 ([high_bits i y] ++ c)) 0) with (high_bits i y).
  rewrite (mem_write_at a [high_bits i y] c) by done. cbn [mbind option_bind].
  change (Z.lor (high_bits i y) (Z.shiftl 1 (8 - Z.of_nat i - 1))) with (high_bits (S i) y).
  replace (Z.of_nat i + 1) with (Z.of_nat (S i)) by lia. rewrite IH. by rewrite Nat.add_succ_r.
Qed.

Lemma mask_from_prefix_value q r out : blen out = 16 -> (r < 8)%nat -> (8 * q + r <= 128)%nat ->
  ipaddr6_ipv6_mask_from_prefix (8 * Z.of_nat q + Z.of_nat r) out = Some (mask_of q r).
Proof.
  intros Ho Hr Hq. unfold ipaddr6_ipv6_mask_from_prefix. zdecide.
  replace ((8 * Z.of_nat q + Z.of_nat r) / 8) with (Z.of_nat q) by dlia.
  replace ((8 * Z.of_nat q + Z.of_nat r) mod 8) with (Z.of_nat r) by dlia.
  rewrite !Nat2Z.id. unfold UINT8_MAX.
  assert (Hrep : forall x n, blen (repeat x n) = Z.of_nat n) by (intros; unfold blen; by rewrite repeat_length).
  assert (E1 : (if Z.of_nat q >? 0 then mem_write out 0 (repeat 255 q) else Some out) = Some (repeat 255 q ++ bdrop (Z.of_nat q) out)).
  { rewrite Z.gtb_ltb. destruct (Z.ltb_spec 0 (Z.of_nat q)).
    - rewrite mem_write_in by (rewrite ?Hrep; lia). rewrite Hrep. done.
    - assert (q = 0%nat) as -> by lia. done. }
  rewrite E1. cbn [mbind option_bind]. unfold mask_of. rewrite Z.gtb_ltb. destruct (Nat.ltb_spec q 16) as [Hlt|Hge].
  - rewrite (proj2 (Z.ltb_lt _ _)) by lia.
    rewrite <- (app_nil_r (bdrop _ _)), (mem_write_at _ (bdrop (Z.of_nat q) out) []) by (rewrite ?Hrep, ?blen_bdrop; lia).
    cbn [mbind option_bind]. rewrite app_nil_r. replace (Z.to_nat (16 - Z.of_nat q)) with (S (15 - q)) by lia.
    change (repeat 0 (S (15 - q))) with ([high_bits 0 0] ++ repeat 0 (15 - q)).
    pose proof (set_bits_spec r 0 (repeat 255 q) 0 (repeat 0 (15 - q))) as Hs. rewrite Hrep in Hs. exact Hs.
  - assert (q = 16%nat) as -> by lia. assert (r = 0%nat) as -> by lia. rewrite (proj2 (Z.ltb_ge _ _)) by lia. cbn [mbind option_bind].
    assert (Ed : bdrop (Z.of_nat 16) out = []) by (rewrite <- (app_nil_r out); by apply bdrop_app_exact). by rewrite Ed.
Qed.

(** ** From the mask to the prefix *)

Lemma skip_ones_spec mask : forall p, exists q, skip_ones p mask = (p + 8 * Z.of_nat q, drop q mask)
  /\ mask = repeat 255 q ++ drop q mask /\ match drop q mask with b :: _ => b <> 255 | [] => True end.
Proof.
  induction mask as [|b mask IH]; intros p; [exists 0%nat; split_and!; [simpl; f_equal; lia|done..]|]. simpl. unfold UINT8_MAX.
  destruct (Z.eqb_spec b 255) as [->|Hne].
  - destruct (IH (p + 8)) as (q & E & Em & Hb). exists (S q). rewrite E. split_and!; [f_equal; lia| |done].
    simpl. by rewrite <- Em.
  - exists 0%nat. split_and!; [simpl; f_equal; lia|done..].
Qed.

Lemma bits_loop_spec n : forall j b p, Z.of_nat n + Z.of_nat j = 9 -> bits_loop n (Z.of_nat j) (high_bits j 0) b = Some p ->
  exists r, p = Z.of_nat r /\ (r <= 8)%nat /\ b = high_bits r 0.
Proof.
  induction n as [|n IH]; intros j b p Hn; [done|]. cbn [bits_loop]. destruct (Z.eqb_spec b (high_bits j 0)) as [E|E].
  - intros [= <-]. exists j. split_and!; [done|lia|done].
  - destruct (Z.ltb_spec (Z.of_nat j) 8).
    + change (Z.lor (high_bits j 0) (Z.shiftl 1 (8 - Z.of_nat j - 1))) with (high_bits (S j) 0).
      replace (Z.of_nat j + 1) with (Z.of_nat (S j)) by lia. apply IH. lia.
    + destruct n; [done|lia].
Qed.

Lemma forallb_zeros l : forallb (fun x => x =? 0) l = true -> l = repeat 0 (length l).
Proof. induction l as [|x l IH]; [done|]. simpl. intros [->%Z.eqb_eq H]%andb_prop. f_equal. by apply IH. Qed.

Lemma prefix_from_mask_value mask p : length mask = 16%nat -> ipaddr6_ipv6_prefix_from_mask mask = Some p ->
  exists q r, p = 8 * Z.of_nat q + Z.of_nat r /\ (r < 8)%nat /\ (8 * q + r <= 128)%nat /\ mask = mask_of q r.
Proof.
  intros Hl. unfold ipaddr6_ipv6_prefix_from_mask, mask_of. destruct (skip_ones_spec mask 0) as (q & -> & Em & Hb).
  pose proof (f_equal (@length Z) Em) as Hlen. rewrite length_app, repeat_length, Hl in Hlen.
  destruct (drop q mask) as [|b rest].
  - intros [= <-]. exists q, 0%nat. simpl in Hlen. assert (q = 16%nat) as -> by lia. split_and!; [lia|lia|lia|exact Em].
  - destruct (bits_loop 9 0 0 b) as [j|] eqn:Ej; [|done]. cbn [mbind option_bind]. destruct (forallb _ rest) eqn:Ez; [|done].
    intros [= <-]. destruct (bits_loop_spec 9 0 b j eq_refl Ej) as (r & -> & Hr & ->). exists q, r. simpl in Hlen.
    assert (r <> 8%nat) by (intros ->; by apply Hb). split_and!; [lia|lia|lia|]. rewrite (proj2 (Nat.ltb_lt q 16)) by lia.
    rewrite Em at 1. do 2 f_equal. rewrite (forallb_zeros rest Ez) at 1. f_equal. lia.
Qed.

Lemma prefix_of_mask q r : (r < 8)%nat -> (8 * q + r <= 128)%nat ->
  ipaddr6_ipv6_prefix_from_mask (mask_of q r) = Some (8 * Z.of_nat q + Z.of_nat r).
Proof.
  intros Hr Hq.
  assert (Hall : forallb (fun n => match ipaddr6_ipv6_prefix_from_mask (mask_of (n / 8) (n mod 8)) with Some p => p =? Z.of_nat n | None => false end)
    (seq 0 129) = true) by by vm_compute.
  rewrite forallb_forall in Hall. specialize (Hall (8 * q + r)%nat). assert (Hin : In (8 * q + r)%nat (seq 0 129)) by (apply in_seq; lia).
  specialize (Hall Hin). replace ((8 * q + r) / 8)%nat with q in Hall by (apply Nat.div_unique with r; lia).
  replace ((8 * q + r) mod 8)%nat with r in Hall by (apply Nat.mod_unique with q; lia).
  destruct (ipaddr6_ipv6_prefix_from_mask (mask_of q r)) as [p|]; [|done]. apply Z.eqb_eq in Hall. f_equal. lia.
Qed.

(** Prefix lengths and masks of IPv6 correspond one to one. *)
Theorem ipv6_mask_prefix :
  (forall p out, 0 <= p <= 128 -> blen out = 16 ->
     exists m, ipaddr6_ipv6_mask_from_prefix p out = Some m /\ ipaddr6_ipv6_prefix_from_mask m = Some p)
  /\ (forall m p out, length m = 16%nat -> blen out = 16 -> ipaddr6_ipv6_prefix_from_mask m = Some p ->
       ipaddr6_ipv6_mask_from_prefix p out = Some m).
Proof.
  split.
  - intros p out Hp Ho.
    assert (exists q r : nat, p = 8 * Z.of_nat q + Z.of_nat r /\ (r < 8)%nat /\ (8 * q + r <= 128)%nat) as (q & r & -> & Hr & Hq).
    { exists (Z.to_nat (p / 8)), (Z.to_nat (p mod 8)). split_and!; dlia. }
    exists (mask_of q r). split; [by apply mask_from_prefix_value|by apply prefix_of_mask].
  - intros m p out Hm Ho (q & r & -> & Hr & Hq & ->)%prefix_from_mask_value; [|done]. by apply mask_from_prefix_value.
Qed.

(** ** Networks *)

(** The reference definition, which ipaddr.h uses for IPv4: both addresses are
    equal under the mask. *)
Fixpoint masked_equal (m a b : bytes) : bool :=
  match m, a, b with
  | z :: m, x :: a, y :: b => (Z.land x z =? Z.land y z) && masked_equal m a b
  | _, _, _ => true
  end.

Lemma land_byte x : is_byte x -> Z.land x 255 = x.
Proof. unfold is_byte. intros H. change 255 with (Z.ones 8). rewrite Z.land_ones by lia. apply Z.mod_small. lia. Qed.

Lemma masked_equal_zeros n : forall a b, masked_equal (repeat 0 n) a b = true.
Proof. induction n as [|n IH]; intros a b; [done|]. destruct a, b; try done. simpl. rewrite !Z.land_0_r. apply IH. Qed.

Lemma masked_equal_ones q m : forall a b, is_bytes a -> is_bytes b -> length a = length b -> (q <= length a)%nat ->
  masked_equal (repeat 255 q ++ m) a b = (memcmp (take q a) (take q b) =? 0) && masked_equal m (drop q a) (drop q b).
Proof.
  induction q as [|q IH]; intros a b Ha Hb Hl Hq; [done|]. destruct a as [|x a], b as [|y b]; simpl in Hl, Hq; try lia.
  apply Forall_cons_iff in Ha as [Hx Ha]. apply Forall_cons_iff in Hb as [Hy Hb]. simpl. rewrite !land_byte by done.
  rewrite IH by (done || lia). destruct (Z.eqb_spec x y); [done|]. simpl. rewrite (proj2 (Z.eqb_neq (x - y) 0)) by lia. done.
Qed.

(** ipaddr6_ipv6_addrs_in_network, which compares whole bytes and the bits of one
    more, says whether the addresses are equal under the mask of the prefix. *)
Theorem ipv6_addrs_in_network_mask a b p out : is_bytes a -> is_bytes b -> length a = 16%nat -> length b = 16%nat ->
  0 <= p <= 128 -> blen out = 16 ->
  exists m, ipaddr6_ipv6_mask_from_prefix p out = Some m
    /\ ipaddr6_ipv6_addrs_in_network a b p = Some (masked_equal m a b).
Proof.
  intros Ha Hb La Lb Hp Ho.
  assert (exists q r : nat, p = 8 * Z.of_nat q + Z.of_nat r /\ (r < 8)%nat /\ (8 * q + r <= 128)%nat) as (q & r & -> & Hr & Hq).
  { exists (Z.to_nat (p / 8)), (Z.to_nat (p mod 8)). split_and!; dlia. }
  exists (mask_of q r). split; [by apply mask_from_prefix_value|]. unfold ipaddr6_ipv6_addrs_in_network. zdecide.
  replace ((8 * Z.of_nat q + Z.of_nat r) / 8) with (Z.of_nat q) by dlia.
  replace ((8 * Z.of_nat q + Z.of_nat r) mod 8) with (Z.of_nat r) by dlia.
  unfold mask_of. rewrite masked_equal_ones by (done || lia). unfold btake. rewrite !Nat2Z.id.
  destruct (memcmp _ _ =? 0); cbn [negb andb]; [|done]. destruct (Z.eqb_spec (Z.of_nat r) 0) as [Hr0|Hr0].
  - assert (r = 0%nat) as -> by lia. destruct (q <? 16)%nat; [|done]. 
    change (high_bits 0 0 :: repeat 0 (15 - q)) with (repeat 0 (S (15 - q))). by rewrite masked_equal_zeros.
  - rewrite (proj2 (Nat.ltb_lt q 16)) by lia.
    assert (Hd : forall l : bytes, length l = 16%nat -> exists x k, drop q l = x :: k /\ mem_read l (Z.of_nat q) 1 = Some [x]).
    { intros l Hl. rewrite mem_read_in by (unfold blen; lia). unfold bdrop. rewrite Nat2Z.id.
      destruct (drop q l) as [|x k] eqn:E; [|by exists x, k]. apply (f_equal length) in E. rewrite length_drop in E. simpl in E. lia. }
    destruct (Hd a La) as (x & ka & -> & ->), (Hd b Lb) as (y & kb & -> & ->). cbn [mbind option_bind nth masked_equal].
    by rewrite masked_equal_zeros, andb_true_r.
Qed.

Lemma ipv6_addrs_in_network_mask_witness :
  let a := [254; 128; 0; 0; 0; 0; 0; 0; 2; 17; 0; 0; 0; 0; 0; 1] in
  exists m, ipaddr6_ipv6_mask_from_prefix 65 (repeat 0 16) = Some m /\ ipaddr6_ipv6_addrs_in_network a a 65 = Some (masked_equal m a a).
Proof.
  intros a. assert (Ha : is_bytes a). { unfold is_bytes, is_byte, a. repeat (constructor; [lia|]). constructor. }
  apply (ipv6_addrs_in_network_mask a a 65 (repeat 0 16)); [exact Ha|exact Ha|reflexivity|reflexivity|lia|reflexivity].
Defined.
