(* ===== verification/IpProto.v ===== *)
(** IPv4, IPv6 and UDP headers: misc/ipv4_proto.h, misc/ipv6_proto.h,
    misc/udp_proto.h.

    A packet in memory is the byte string a pointer/length pair of the source
    designates.  The three checkers return [None] when they would touch memory
    outside that string, [Some None] when they return 0, and [Some (Some r)]
    when they return 1 with the header and the payload in [r].  The checksums read
    the payload by the length they are given, and fail outside it. *)

From S2P Require Import Prelude ByteOrder.

Definition IPV4_PROTOCOL_UDP : Z := 17.
Definition IPV6_NEXT_UDP : Z := 17.

(** ** Headers (packed structs) *)

Record ipv4_header := {
  version4_ihl4 : Z;
  ds : Z;
  total_length : Z;
  identification : Z;
  flags3_fragmentoffset13 : Z;
  ttl : Z;
  protocol : Z;
  ip_checksum : Z;
  source_address : Z;
  destination_address : Z }.

Definition sizeof_ipv4_header : Z := 20.

(** The object representation of the struct, and its inverse: what [memcpy]
    between the struct and a buffer does. *)
Definition ipv4_header_mem (h : ipv4_header) : bytes :=
  [version4_ihl4 h; ds h] ++ mem16 (total_length h) ++ mem16 (identification h)
  ++ mem16 (flags3_fragmentoffset13 h) ++ [ttl h; protocol h] ++ mem16 (ip_checksum h)
  ++ mem32 (source_address h) ++ mem32 (destination_address h).

Definition ipv4_header_load (p : bytes) : ipv4_header :=
  {| version4_ihl4 := nth 0 p 0;
     ds := nth 1 p 0;
     total_length := load16 (drop 2 p);
     identification := load16 (drop 4 p);
     flags3_fragmentoffset13 := load16 (drop 6 p);
     ttl := nth 8 p 0;
     protocol := nth 9 p 0;
     ip_checksum := load16 (drop 10 p);
     source_address := load32 (drop 12 p);
     destination_address := load32 (drop 16 p) |}.

Definition set_ip_checksum (c : Z) (h : ipv4_header) : ipv4_header :=
  {| version4_ihl4 := version4_ihl4 h; ds := ds h; total_length := total_length h;
     identification := identification h; flags3_fragmentoffset13 := flags3_fragmentoffset13 h;
     ttl := ttl h; protocol := protocol h; ip_checksum := c;
     source_address := source_address h; destination_address := destination_address h |}.

Record ipv6_header := {
  version4_tc4 : Z;
  tc4_fl4 : Z;
  fl : Z;
  payload_length : Z;
  next_header : Z;
  hop_limit : Z;
  source_address6 : bytes;
  destination_address6 : bytes }.

Definition sizeof_ipv6_header : Z := 40.

Definition ipv6_header_mem (h : ipv6_header) : bytes :=
  [version4_tc4 h; tc4_fl4 h] ++ mem16 (fl h) ++ mem16 (payload_length h)
  ++ [next_header h; hop_limit h] ++ source_address6 h ++ destination_address6 h.

Definition ipv6_header_load (p : bytes) : ipv6_header :=
  {| version4_tc4 := nth 0 p 0;
     tc4_fl4 := nth 1 p 0;
     fl := load16 (drop 2 p);
     payload_length := load16 (drop 4 p);
     next_header := nth 6 p 0;
     hop_limit := nth 7 p 0;
     source_address6 := btake 16 (drop 8 p);
     destination_address6 := btake 16 (drop 24 p) |}.

Record udp_header := {
  source_port : Z;
  dest_port : Z;
  udp_len : Z;
  udp_cksum : Z }.

Definition sizeof_udp_header : Z := 8.

Definition udp_header_mem (h : udp_header) : bytes :=
  mem16 (source_port h) ++ mem16 (dest_port h) ++ mem16 (udp_len h) ++ mem16 (udp_cksum h).

Definition udp_header_load (p : bytes) : udp_header :=
  {| source_port := load16 p; dest_port := load16 (drop 2 p);
     udp_len := load16 (drop 4 p); udp_cksum := load16 (drop 6 p) |}.

Definition set_udp_cksum (c : Z) (h : udp_header) : udp_header :=
  {| source_port := source_port h; dest_port := dest_port h;
     udp_len := udp_len h; udp_cksum := c |}.

Definition IPV4_GET_VERSION (h : ipv4_header) : Z :=
  Z.shiftr (Z.land (version4_ihl4 h) 240) 4.
Definition IPV4_GET_IHL (h : ipv4_header) : Z :=
  Z.shiftr (Z.land (version4_ihl4 h) 15) 0.
Definition IPV4_MAKE_VERSION_IHL (size : Z) : Z := size / 4 + Z.shiftl 4 4.

(** ** Checksums *)

(** The summing loops: [t += badvpn_read_be16(data + 2*i)] on a [uint32_t]. *)
Fixpoint sum_be16 (t : Z) (data : bytes) : Z :=
  match data with
  | a :: b :: rest => sum_be16 (u32 (t + badvpn_read_be16 [a; b])) rest
  | _ => t
  end.

(** [while (t >> 16) { t = (t & 0xFFFF) + (t >> 16); }].  Two rounds always
    suffice for a [uint32_t] ([fold16_done]), so three units of fuel do. *)
Fixpoint fold16_loop (fuel : nat) (t : Z) : Z :=
  match fuel with
  | O => t
  | S fuel' =>
      if Z.shiftr t 16 =? 0 then t
      else fold16_loop fuel' (u32 (Z.land t 65535 + Z.shiftr t 16))
  end.

Definition fold16 (t : Z) : Z := fold16_loop 3 t.

Definition ipv4_checksum (header : ipv4_header) (extra : bytes) : Z :=
  let t := sum_be16 0 (ipv4_header_mem header) in
  let t := sum_be16 t extra in
  let t := fold16 t in
  hton16 (u16 (not32 t)).

(** The loop of udp_checksum_summer: [n] words are left, from the [i]th on. *)
Fixpoint summer_loop (n : nat) (data : bytes) (i t : Z) : option Z :=
  match n with
  | O => Some t
  | S n => w ← mem_read data (2 * i) 2; summer_loop n data (i + 1) (u32 (t + badvpn_read_be16 w))
  end.

Definition udp_checksum_summer (data : bytes) (len : Z) : option Z :=
  ASSERT len mod 2 =? 0;
  summer_loop (Z.to_nat (len / 2)) data 0 0.

(** The payload, padded to an even length, which both UDP checksums add. *)
Definition udp_checksum_payload (t : Z) (payload : bytes) (payload_len : Z) : option Z :=
  if payload_len mod 2 =? 0
  then s ← udp_checksum_summer payload payload_len; Some (u32 (t + s))
  else
    s ← udp_checksum_summer payload (payload_len - 1);
    let t := u32 (t + s) in
    last ← mem_read payload (payload_len - 1) 1;
    let x := hton16 (u16 (Z.shiftl (nth 0 last 0) 8)) in
    s ← udp_checksum_summer (mem16 x) 2;
    Some (u32 (t + s)).

(** The folding loop, the complement and the zero test, on [uint32_t]. *)
Definition udp_checksum_finish (t : Z) : Z :=
  let t := fold16 t in
  let t := not32 t in
  let t := if t =? 0 then UINT16_MAX else t in
  hton16 (u16 t).

(** The parameter payload_len is an [uint16_t]. *)
Definition udp_checksum (header : udp_header) (payload : bytes) (payload_len source_addr dest_addr : Z) : option Z :=
  let payload_len := u16 payload_len in
  s ← udp_checksum_summer (mem32 source_addr) 4;
  let t := u32 (0 + s) in
  s ← udp_checksum_summer (mem32 dest_addr) 4;
  let t := u32 (t + s) in
  s ← udp_checksum_summer (mem16 (hton16 IPV4_PROTOCOL_UDP)) 2;
  let t := u32 (t + s) in
  s ← udp_checksum_summer (mem16 (hton16 (u16 (sizeof_udp_header + payload_len)))) 2;
  let t := u32 (t + s) in
  s ← udp_checksum_summer (udp_header_mem header) sizeof_udp_header;
  let t := u32 (t + s) in
  t ← udp_checksum_payload t payload payload_len;
  Some (udp_checksum_finish t).

Definition udp_ip6_checksum (header : udp_header) (payload : bytes) (payload_len : Z) (source_addr dest_addr : bytes) : option Z :=
  let payload_len := u16 payload_len in
  s ← udp_checksum_summer source_addr 16;
  let t := u32 (0 + s) in
  s ← udp_checksum_summer dest_addr 16;
  let t := u32 (t + s) in
  s ← udp_checksum_summer (mem32 (hton32 (sizeof_udp_header + payload_len))) 4;
  let t := u32 (t + s) in
  s ← udp_checksum_summer (mem32 (hton32 IPV6_NEXT_UDP)) 4;
  let t := u32 (t + s) in
  s ← udp_checksum_summer (udp_header_mem header) sizeof_udp_header;
  let t := u32 (t + s) in
  t ← udp_checksum_payload t payload payload_len;
  Some (udp_checksum_finish t).

(** ** Checkers *)

Definition ipv4_check (data : bytes) : option (option (ipv4_header * bytes)) :=
  let data_len := blen data in
  if data_len <? sizeof_ipv4_header then Some None else
  p ← mem_read data 0 sizeof_ipv4_header;
  let out_header := ipv4_header_load p in
  if negb (IPV4_GET_VERSION out_header =? 4) then Some None else
  let header_len := u16 (IPV4_GET_IHL out_header * 4) in
  if header_len <? sizeof_ipv4_header then Some None else
  if header_len >? data_len then Some None else
  let total_length := ntoh16 (total_length out_header) in
  if total_length <? header_len then Some None else
  if total_length >? data_len then Some None else
  let checksum_in_packet := ip_checksum out_header in
  extra ← mem_read data sizeof_ipv4_header (header_len - sizeof_ipv4_header);
  let checksum_computed := ipv4_checksum (set_ip_checksum (hton16 0) out_header) extra in
  if negb (checksum_in_packet =? checksum_computed) then Some None else
  payload ← mem_read data header_len (total_length - header_len);
  Some (Some (out_header, payload)).

Definition ipv6_check (data : bytes) : option (option (ipv6_header * bytes)) :=
  let data_len := blen data in
  if data_len <? sizeof_ipv6_header then Some None else
  p ← mem_read data 0 sizeof_ipv6_header;
  let out_header := ipv6_header_load p in
  if negb (Z.shiftr (ntoh8 (version4_tc4 out_header)) 4 =? 6) then Some None else
  let payload_length := ntoh16 (payload_length out_header) in
  if payload_length >? data_len - sizeof_ipv6_header then Some None else
  payload ← mem_read data sizeof_ipv6_header payload_length;
  Some (Some (out_header, payload)).

Definition udp_check (data : bytes) : option (option (udp_header * bytes)) :=
  let data_len := blen data in
  if data_len <? sizeof_udp_header then Some None else
  p ← mem_read data 0 sizeof_udp_header;
  let out_header := udp_header_load p in
  let data_len := data_len - sizeof_udp_header in
  let udp_length := ntoh16 (udp_len out_header) in
  if udp_length <? sizeof_udp_header then Some None else
  if udp_length >? sizeof_udp_header + data_len then Some None else
  let data_len := udp_length - sizeof_udp_header in
  payload ← mem_read data sizeof_udp_header data_len;
  Some (Some (out_header, payload)).

(** * Lemmas *)

(** ** Ones-complement sums *)

(** The mathematical sum of the big-endian 16-bit words of a byte string. *)
Fixpoint wsum (data : bytes) : Z :=
  match data with
  | a :: b :: rest => 256 * a + b + wsum rest
  | _ => 0
  end.

(** Induction over a byte string two bytes at a time. *)
Lemma bytes_pair_ind (P : bytes -> Prop) :
  P [] -> (forall a, P [a]) -> (forall a b r, P r -> P (a :: b :: r)) -> forall l, P l.
Proof.
  intros H0 H1 H2 l. enough (P l /\ forall a, P (a :: l)) by tauto.
  induction l as [|b l [IH1 IH2]]; split; auto.
Qed.

Lemma wsum_bounds l : is_bytes l -> 0 <= 2 * wsum l <= 65535 * blen l.
Proof.
  induction l as [|a|a b r IH] using bytes_pair_ind; intros H; simpl; [done| |].
  - unfold blen. simpl. lia.
  - inversion H as [|?? Ha Hr]; subst. inversion Hr; subst. unfold is_byte in *.
    rewrite !blen_cons. specialize (IH ltac:(assumption)). lia.
Qed.

Lemma sum_be16_wsum t l : is_bytes l -> 0 <= t -> t + wsum l < 4294967296 ->
  sum_be16 t l = t + wsum l.
Proof.
  revert t. induction l as [|a|a b r IH] using bytes_pair_ind; intros t H Ht Hb; simpl in *; try lia.
  inversion H as [|?? Ha Hr]; subst. inversion Hr; subst.
  pose proof (wsum_bounds r ltac:(assumption)).
  rewrite read_be16_cons by assumption. unfold is_byte in *.
  rewrite u32_small by lia. rewrite IH by (assumption || lia). lia.
Qed.

Lemma wsum_app l k : Nat.even (length l) = true -> wsum (l ++ k) = wsum l + wsum k.
Proof. induction l as [|a|a b r IH] using bytes_pair_ind; simpl; intros; try done; rewrite ?IH by done; lia. Qed.

Lemma wsum_mem16 x : 0 <= x < 65536 -> wsum (mem16 x) = hton16 x.
Proof.
  intros. rewrite <- (read_be16_mem16 x []) by done. unfold badvpn_write_le16. cbn [app].
  rewrite read_be16_cons by apply u8_range. simpl. lia.
Qed.

(** One round of the folding loop keeps the sum modulo [0xFFFF] and shrinks it. *)
Lemma fold16_round t : 0 <= t < 4294967296 ->
  u32 (Z.land t 65535 + Z.shiftr t 16) = t mod 65536 + t / 65536.
Proof.
  intros. change 65535 with (Z.ones 16). rewrite Z.land_ones, Z.shiftr_div_pow2 by lia.
  change (2 ^ 16) with 65536. apply u32_small. dlia.
Qed.

Lemma fold16_loop_done fuel t : 0 <= t < 65536 -> fold16_loop fuel t = t.
Proof.
  intros. destruct fuel; simpl; [done|].
  rewrite Z.shiftr_div_pow2, Z.div_small by (change (2 ^ 16) with 65536; lia). done.
Qed.

Lemma fold16_loop_S fuel t : 65536 <= t < 4294967296 ->
  fold16_loop (S fuel) t = fold16_loop fuel (t mod 65536 + t / 65536).
Proof.
  intros. simpl. rewrite fold16_round by lia.
  destruct (Z.eqb_spec (Z.shiftr t 16) 0) as [E|]; [|done].
  rewrite Z.shiftr_div_pow2 in E by lia. change (2 ^ 16) with 65536 in E. dlia.
Qed.

(** The folding loop stops after at most two rounds: with any fuel of two or
    more the result is below [2^16], congruent to the input modulo [0xFFFF],
    and zero only for the input zero. *)
Lemma fold16_loop_spec n t : 0 <= t < 4294967296 ->
  let r := fold16_loop (S (S n)) t in
  0 <= r < 65536 /\ r mod 65535 = t mod 65535 /\ (r = 0 <-> t = 0).
Proof.
  intros Ht. cbv zeta. destruct (Z.lt_ge_cases t 65536).
  { rewrite fold16_loop_done by lia. repeat split; lia. }
  rewrite fold16_loop_S by lia. set (t1 := t mod 65536 + t / 65536).
  assert (t1 mod 65535 = t mod 65535 /\ 0 < t1 <= 131070) as [E1 B1] by (subst t1; dlia).
  destruct (Z.lt_ge_cases t1 65536).
  { rewrite fold16_loop_done by lia. repeat split; lia. }
  rewrite fold16_loop_S by lia. set (t2 := t1 mod 65536 + t1 / 65536).
  assert (t2 mod 65535 = t1 mod 65535 /\ 0 < t2 < 65536) as [E2 B2] by (subst t2; dlia).
  rewrite fold16_loop_done by lia. repeat split; lia.
Qed.

Lemma fold16_spec t : 0 <= t < 4294967296 ->
  0 <= fold16 t < 65536 /\ fold16 t mod 65535 = t mod 65535 /\ (fold16 t = 0 <-> t = 0).
Proof. apply (fold16_loop_spec 1). Qed.

(** The final word of a non-zero multiple of [0xFFFF] is all ones. *)
Lemma fold16_multiple t : 0 < t < 4294967296 -> t mod 65535 = 0 -> fold16 t = 65535.
Proof.
  intros Ht Hm. destruct (fold16_spec t ltac:(lia)) as (? & E & Z0).
  rewrite Hm in E. assert (fold16 t <> 0) by (rewrite Z0; lia). dlia.
Qed.

(** Adding the complement of the folded sum makes the total fold to all ones. *)
Lemma fold16_complement t : 0 <= t -> t + 65535 < 4294967296 ->
  fold16 (t + (65535 - fold16 t)) = 65535.
Proof.
  intros. destruct (fold16_spec t ltac:(lia)) as (? & E & Z0).
  apply fold16_multiple; [|dlia].
  destruct (Z.eq_dec t 0) as [->|]; [change (fold16 0) with 0|]; lia.
Qed.

Lemma u16_not32 t : 0 <= t < 65536 -> u16 (not32 t) = 65535 - t.
Proof. intros. unfold not32. rewrite u32_small by lia. unfold u16, UINT32_MAX. dlia. Qed.

(** ** Header images *)

Definition is_u8 (x : Z) : Prop := 0 <= x < 256.
Definition is_u16 (x : Z) : Prop := 0 <= x < 65536.
Definition is_u32 (x : Z) : Prop := 0 <= x < 4294967296.

Definition ipv4_header_wf (h : ipv4_header) : Prop :=
  is_u8 (version4_ihl4 h) /\ is_u8 (ds h) /\ is_u16 (total_length h) /\ is_u16 (identification h)
  /\ is_u16 (flags3_fragmentoffset13 h) /\ is_u8 (ttl h) /\ is_u8 (protocol h)
  /\ is_u16 (ip_checksum h) /\ is_u32 (source_address h) /\ is_u32 (destination_address h).

Definition udp_header_wf (h : udp_header) : Prop :=
  is_u16 (source_port h) /\ is_u16 (dest_port h) /\ is_u16 (udp_len h) /\ is_u16 (udp_cksum h).

Definition ipv6_header_wf (h : ipv6_header) : Prop :=
  is_u8 (version4_tc4 h) /\ is_u8 (tc4_fl4 h) /\ is_u16 (fl h) /\ is_u16 (payload_length h)
  /\ is_u8 (next_header h) /\ is_u8 (hop_limit h)
  /\ (length (source_address6 h) = 16%nat /\ is_bytes (source_address6 h))
  /\ (length (destination_address6 h) = 16%nat /\ is_bytes (destination_address6 h)).

Lemma ipv4_header_mem_len h : blen (ipv4_header_mem h) = 20.
Proof. reflexivity. Qed.
Lemma udp_header_mem_len h : blen (udp_header_mem h) = 8.
Proof. reflexivity. Qed.
Lemma ipv6_header_mem_len h : ipv6_header_wf h -> blen (ipv6_header_mem h) = 40.
Proof.
  intros (_ & _ & _ & _ & _ & _ & (L1 & _) & (L2 & _)). unfold ipv6_header_mem.
  autorewrite with cmem. unfold blen. rewrite L1, L2. reflexivity.
Qed.
#[export] Hint Rewrite ipv4_header_mem_len udp_header_mem_len : cmem.

Lemma ipv4_header_load_mem h r : ipv4_header_wf h ->
  ipv4_header_load (ipv4_header_mem h ++ r) = h.
Proof.
  intros (? & ? & ? & ? & ? & ? & ? & ? & ? & ?). unfold is_u8, is_u16, is_u32 in *.
  destruct h. unfold ipv4_header_load. cbn in *. f_equal;
    (apply load16_stored || apply load32_stored); lia.
Qed.

Lemma udp_header_load_mem h r : udp_header_wf h -> udp_header_load (udp_header_mem h ++ r) = h.
Proof.
  intros (? & ? & ? & ?). unfold is_u16 in *. destruct h. unfold udp_header_load. cbn in *.
  f_equal; apply load16_stored; lia.
Qed.

Lemma ipv6_header_load_mem h r : ipv6_header_wf h ->
  ipv6_header_load (ipv6_header_mem h ++ r) = h.
Proof.
  intros (? & ? & ? & ? & ? & ? & (L1 & ?) & (L2 & ?)). unfold is_u8, is_u16 in *.
  destruct h as [a b c d e f s t]. cbn in *. unfold ipv6_header_load, ipv6_header_mem.
  cbn [version4_tc4 tc4_fl4 fl payload_length next_header hop_limit source_address6
       destination_address6 app badvpn_write_le16 drop nth]. f_equal.
  - apply load16_stored. lia.
  - apply load16_stored. lia.
  - rewrite <- app_assoc. apply btake_app_exact. unfold blen. lia.
  - do 15 (destruct s as [|? s]; [discriminate L1|]). destruct s as [|? [|]]; try discriminate L1.
    cbn [app drop]. apply btake_app_exact. unfold blen. lia.
Qed.

Lemma ipv4_get_ihl_range h : is_u8 (version4_ihl4 h) -> 0 <= IPV4_GET_IHL h < 16.
Proof.
  intros. unfold IPV4_GET_IHL. rewrite Z.shiftr_0_r. change 15 with (Z.ones 4).
  rewrite Z.land_ones by lia. apply Z.mod_pos_bound. lia.
Qed.

Lemma is_bytes_nth n l : is_bytes l -> is_u8 (nth n l 0).
Proof.
  intros H. destruct (nth_in_or_default n l 0) as [Hi | ->]; [|unfold is_u8; lia].
  exact (proj1 (List.Forall_forall _ _) H _ Hi).
Qed.

(** ** The checkers never read outside the packet *)

(** Walk down a checker: a rejecting branch is not a fault, and a read is in
    bounds by the tests that precede it. *)
Ltac check_safe :=
  repeat match goal with
  | |- (if ?b then Some None else _) <> None => destruct b eqn:?; [done|]
  | |- context [mem_read ?m ?o ?l ≫= _] =>
      rewrite (mem_read_in m o l) by (zbool; lia); cbn [mbind option_bind]
  end; try done.

Lemma ipv4_check_safe data : ipv4_check data <> None.
Proof. unfold ipv4_check, sizeof_ipv4_header. check_safe. Qed.

Lemma ipv6_check_safe data : ipv6_check data <> None.
Proof.
  unfold ipv6_check, sizeof_ipv6_header. check_safe.
  set (h := ipv6_header_load _) in *. pose proof (hton16_range (payload_length h)). unfold ntoh16 in *.
  check_safe.
Qed.

Lemma udp_check_safe data : udp_check data <> None.
Proof. unfold udp_check, sizeof_udp_header. check_safe. Qed.

#[global] Arguments ipv4_header_mem : simpl never.
#[global] Arguments ipv6_header_mem : simpl never.
#[global] Arguments udp_header_mem : simpl never.

(** ** Checksums are valid ones-complement checksums *)

(** The sum of a header word by word, with the checksum word singled out. *)
Lemma wsum_ipv4_checksum h c : 0 <= c < 65536 ->
  wsum (ipv4_header_mem (set_ip_checksum c h))
  = wsum (ipv4_header_mem (set_ip_checksum 0 h)) + hton16 c.
Proof.
  intros. rewrite <- (wsum_mem16 c) by done. unfold ipv4_header_mem, set_ip_checksum.
  cbn -[Z.mul Z.shiftr]. change (u8 (Z.shiftr 0 0)) with 0. change (u8 (Z.shiftr 0 8)) with 0. lia.
Qed.

Lemma wsum_udp_checksum h c : 0 <= c < 65536 ->
  wsum (udp_header_mem (set_udp_cksum c h)) = wsum (udp_header_mem (set_udp_cksum 0 h)) + hton16 c.
Proof.
  intros. rewrite <- (wsum_mem16 c) by done. unfold udp_header_mem, set_udp_cksum.
  cbn -[Z.mul Z.shiftr]. change (u8 (Z.shiftr 0 0)) with 0. change (u8 (Z.shiftr 0 8)) with 0. lia.
Qed.

Lemma ipv4_header_mem_bytes h : is_u8 (version4_ihl4 h) -> is_u8 (ds h) -> is_u8 (ttl h) ->
  is_u8 (protocol h) -> is_bytes (ipv4_header_mem h).
Proof.
  intros. unfold ipv4_header_mem, badvpn_write_le16, badvpn_write_le32. cbn [app]. all_bytes.
Qed.

Lemma udp_header_mem_bytes h : is_bytes (udp_header_mem h).
Proof. unfold udp_header_mem, badvpn_write_le16. cbn [app]. all_bytes. Qed.

(** RFC 791/1071: with the computed checksum stored in the header, the
    ones-complement sum over the whole header is all ones. *)
Lemma ipv4_checksum_valid h extra : ipv4_header_wf h -> is_bytes extra -> blen extra <= 40 ->
  let c := ipv4_checksum (set_ip_checksum 0 h) extra in
  fold16 (wsum (ipv4_header_mem (set_ip_checksum c h)) + wsum extra) = 65535.
Proof.
  intros (? & ? & _ & _ & _ & ? & ? & _) He Hl. cbv zeta. unfold ipv4_checksum.
  assert (Hh : is_bytes (ipv4_header_mem (set_ip_checksum 0 h)))
    by (apply ipv4_header_mem_bytes; done).
  pose proof (wsum_bounds _ Hh) as Bh. rewrite ipv4_header_mem_len in Bh.
  pose proof (wsum_bounds _ He) as Be.
  rewrite (sum_be16_wsum 0) by (done || lia). rewrite sum_be16_wsum by (done || lia).
  set (S0 := 0 + _ + _). destruct (fold16_spec S0) as (Bf & _); [subst S0; lia|].
  rewrite u16_not32 by lia. rewrite wsum_ipv4_checksum by apply hton16_range.
  fold (ntoh16 (hton16 (65535 - fold16 S0))). rewrite ntoh16_hton16 by lia.
  replace (_ + _ + wsum extra) with (S0 + (65535 - fold16 S0)) by (subst S0; lia).
  apply fold16_complement; subst S0; lia.
Qed.

(** ** The values of the UDP checksums

    What the checksum functions return for a payload of the whole length: their
    reads are in bounds. *)

Definition summer_value (data : bytes) : Z := sum_be16 0 data.

Definition payload_value (t : Z) (payload : bytes) : Z :=
  let payload_len := u16 (blen payload) in
  if payload_len mod 2 =? 0
  then u32 (t + summer_value (btake payload_len payload))
  else
    let t := u32 (t + summer_value (btake (payload_len - 1) payload)) in
    let x := hton16 (u16 (Z.shiftl (nth (Z.to_nat (payload_len - 1)) payload 0) 8)) in
    u32 (t + summer_value (mem16 x)).

Definition udp_checksum_value (header : udp_header) (payload : bytes) (source_addr dest_addr : Z) : Z :=
  let t := u32 (0 + summer_value (mem32 source_addr)) in
  let t := u32 (t + summer_value (mem32 dest_addr)) in
  let t := u32 (t + summer_value (mem16 (hton16 IPV4_PROTOCOL_UDP))) in
  let t := u32 (t + summer_value
                      (mem16 (hton16 (u16 (sizeof_udp_header + u16 (blen payload)))))) in
  let t := u32 (t + summer_value (udp_header_mem header)) in
  udp_checksum_finish (payload_value t payload).

Definition udp_ip6_checksum_value (header : udp_header) (payload : bytes)
    (source_addr dest_addr : bytes) : Z :=
  let t := u32 (0 + summer_value (btake 16 source_addr)) in
  let t := u32 (t + summer_value (btake 16 dest_addr)) in
  let t := u32 (t + summer_value
                      (mem32 (hton32 (sizeof_udp_header + u16 (blen payload))))) in
  let t := u32 (t + summer_value (mem32 (hton32 IPV6_NEXT_UDP))) in
  let t := u32 (t + summer_value (udp_header_mem header)) in
  udp_checksum_finish (payload_value t payload).

Lemma summer_loop_value data n : forall i t, 0 <= i -> 2 * i + 2 * Z.of_nat n <= blen data ->
  summer_loop n data i t = Some (sum_be16 t (btake (2 * Z.of_nat n) (bdrop (2 * i) data))).
Proof.
  induction n as [|n IH]; intros i t Hi Hn; [done|]. cbn [summer_loop].
  rewrite mem_read_in by lia. cbn [mbind option_bind]. rewrite IH by lia. f_equal.
  set (d := bdrop (2 * i) data). assert (Hd : blen d = blen data - 2 * i) by (unfold d; rewrite blen_bdrop; lia).
  destruct d as [|a [|b r]] eqn:Ed; [rewrite ?blen_cons, blen_nil in Hd; lia..|].
  assert (Er : bdrop (2 * (i + 1)) data = r).
  { change r with (drop 2 (a :: b :: r)). rewrite <- Ed. unfold d, bdrop. rewrite drop_drop. f_equal. lia. }
  rewrite Er. change (btake 2 (a :: b :: r)) with [a; b].
  assert (Et : btake (2 * Z.of_nat (S n)) (a :: b :: r) = a :: b :: btake (2 * Z.of_nat n) r).
  { unfold btake. replace (Z.to_nat (2 * Z.of_nat (S n))) with (S (S (Z.to_nat (2 * Z.of_nat n)))) by lia. done. }
  by rewrite Et.
Qed.

Lemma summer_ok data len : 0 <= len <= blen data -> len mod 2 = 0 -> udp_checksum_summer data len = Some (summer_value (btake len data)).
Proof.
  intros Hl He. unfold udp_checksum_summer, summer_value. rewrite He. cbn [Z.eqb].
  rewrite summer_loop_value by dlia. rewrite bdrop_0. do 3 f_equal. dlia.
Qed.

Lemma summer_whole data len : blen data = len -> len mod 2 = 0 -> udp_checksum_summer data len = Some (summer_value data).
Proof. intros <- He. rewrite summer_ok by (pose proof (blen_nonneg data); done || lia). by rewrite btake_all. Qed.

Lemma u16_blen l : 0 <= u16 (blen l) <= blen l.
Proof. pose proof (blen_nonneg l). unfold u16. dlia. Qed.

Lemma payload_ok t payload : udp_checksum_payload t payload (u16 (blen payload)) = Some (payload_value t payload).
Proof.
  pose proof (u16_blen payload) as Hl. unfold udp_checksum_payload, payload_value. cbv zeta. set (n := u16 (blen payload)) in *.
  destruct (Z.eqb_spec (n mod 2) 0) as [E|E]; [by rewrite summer_ok|].
  rewrite summer_ok by dlia. cbn [mbind option_bind]. rewrite mem_read_in by dlia. cbn [mbind option_bind].
  rewrite (summer_whole (mem16 _) 2) by done. cbn [mbind option_bind]. do 6 f_equal.
  unfold btake, bdrop. change (Z.to_nat 1) with 1%nat. replace (nth 0 (take 1 (drop (Z.to_nat (n - 1)) payload)) 0) with (nth 0 (drop (Z.to_nat (n - 1)) payload) 0)
    by (by destruct (drop _ payload)).
  by rewrite nth_skipn, Nat.add_0_r.
Qed.

Lemma udp_checksum_ok h payload src dst : udp_checksum h payload (blen payload) src dst = Some (udp_checksum_value h payload src dst).
Proof.
  unfold udp_checksum, udp_checksum_value. rewrite !(summer_whole (mem32 _) 4), !(summer_whole (mem16 _) 2), (summer_whole (udp_header_mem h)) by done.
  cbn [mbind option_bind]. by rewrite payload_ok.
Qed.

Lemma udp_ip6_checksum_ok h payload src dst : 16 <= blen src -> 16 <= blen dst ->
  udp_ip6_checksum h payload (blen payload) src dst = Some (udp_ip6_checksum_value h payload src dst).
Proof.
  intros Hs Hd. unfold udp_ip6_checksum, udp_ip6_checksum_value.
  rewrite !(summer_whole (mem32 _) 4), (summer_whole (udp_header_mem h)), (summer_ok src), (summer_ok dst) by done.
  cbn [mbind option_bind]. by rewrite payload_ok.
Qed.

(** The payload as the checksum sees it: padded with a zero byte to an even
    number of bytes. *)
Definition pad16 (payload : bytes) : bytes :=
  if Nat.even (length payload) then payload else payload ++ [0].

Lemma even_blen l : (blen l mod 2 =? 0) = Nat.even (length l).
Proof.
  unfold blen. destruct (Nat.even (length l)) eqn:E.
  - apply Nat.even_spec in E as [k ->]. apply Z.eqb_eq. dlia.
  - assert (Nat.odd (length l) = true) as O by (unfold Nat.odd; now rewrite E).
    apply Nat.odd_spec in O as [k ->]. apply Z.eqb_neq. dlia.
Qed.

Lemma udp_checksum_payload_sum t payload : is_bytes payload -> blen payload < 65536 ->
  0 <= t < 1073741824 -> payload_value t payload = t + wsum (pad16 payload).
Proof.
  intros Hp Hl Ht. unfold payload_value, pad16, summer_value.
  rewrite u16_small by (pose proof (blen_nonneg payload); lia). rewrite even_blen.
  destruct (Nat.even (length payload)) eqn:E.
  - rewrite btake_all. pose proof (wsum_bounds _ Hp).
    rewrite sum_be16_wsum by (done || lia). apply u32_small. lia.
  - destruct payload as [|x l] using rev_ind; [done|]. clear IHl.
    apply is_bytes_app in Hp as [Hp1 Hp2]. apply Forall_inv in Hp2 as Hx.
    pose proof (wsum_bounds _ Hp1) as Bl. rewrite blen_app, blen_cons, blen_nil in *.
    replace (blen l + (1 + 0) - 1) with (blen l) by lia.
    rewrite btake_app_exact by done.
    rewrite sum_be16_wsum by (done || lia). rewrite (u32_small (t + (0 + wsum l))) by lia.
    unfold blen. rewrite Nat2Z.id, app_nth2, Nat.sub_diag by lia. cbn [nth].
    unfold is_byte in Hx.
    assert (Z.shiftl x 8 = 256 * x) as -> by (rewrite Z.shiftl_mul_pow2 by lia; change (2 ^ 8) with 256; lia).
    rewrite (u16_small (256 * x)), mem16_hton16 by lia.
    rewrite length_app in E. simpl in E. rewrite Nat.add_1_r, Nat.even_succ in E.
    assert (Nat.even (length l) = true) as El
      by (unfold Nat.odd in E; now destruct (Nat.even (length l))).
    rewrite <- app_assoc, wsum_app by done. cbn [app wsum].
    unfold badvpn_write_be16. autorewrite with cbits. cbn [sum_be16].
    rewrite read_be16_cons by apply u8_range.
    replace (u8 (256 * x / 256)) with x by (unfold u8; dlia).
    replace (u8 (256 * x)) with 0 by (unfold u8; dlia).
    rewrite (u32_small (0 + (256 * x + 0))) by lia. rewrite u32_small; lia.
Qed.

(** The zero test of the checksum functions is made on the 32-bit complement
    of a 16-bit number, so it never holds. *)
Lemma udp_checksum_finish_eq t : 0 <= t < 4294967296 ->
  udp_checksum_finish t = hton16 (65535 - fold16 t).
Proof.
  intros Ht. unfold udp_checksum_finish. destruct (fold16_spec t Ht) as (B & _).
  assert (not32 (fold16 t) <> 0) as N by (unfold not32; rewrite u32_small by lia; unfold UINT32_MAX; lia).
  apply Z.eqb_neq in N. rewrite N, u16_not32 by lia. done.
Qed.

Lemma summer_wsum l : is_bytes l -> blen l <= 131072 -> summer_value l = wsum l.
Proof. intros. pose proof (wsum_bounds l ltac:(done)). unfold summer_value. rewrite sum_be16_wsum; lia || done. Qed.

Lemma wsum_mem16_hton16 v : 0 <= v < 65536 -> wsum (mem16 (hton16 v)) = v.
Proof. intros. rewrite wsum_mem16 by apply hton16_range. now apply ntoh16_hton16. Qed.

Lemma wsum_mem32_hton32 v : 0 <= v < 65536 -> wsum (mem32 (hton32 v)) = v.
Proof.
  intros. unfold hton32, badvpn_reverse32. rewrite u32_small by lia.
  rewrite (mem32_load32 _ _ _ _ []) by apply u8_range. unfold badvpn_write_le32. cbn -[Z.mul Z.shiftr].
  autorewrite with cbits. unfold u8. dlia.
Qed.

(** The ones-complement sum a receiver computes over the pseudo-header, the
    UDP header and the padded payload. *)
Definition udp_sum (addrs : bytes) (h : udp_header) (payload : bytes) : Z :=
  wsum addrs + IPV4_PROTOCOL_UDP + (sizeof_udp_header + blen payload)
  + wsum (udp_header_mem h) + wsum (pad16 payload).

Lemma pad16_bytes payload : is_bytes payload -> is_bytes (pad16 payload).
Proof.
  intros. unfold pad16. case_match; [done|]. apply is_bytes_app. split; [done|].
  apply Forall_cons_2; [unfold is_byte; lia|]. constructor.
Qed.

Lemma pad16_len payload : blen (pad16 payload) <= blen payload + 1.
Proof. unfold pad16. case_match; rewrite ?blen_app, ?blen_cons, ?blen_nil; lia. Qed.

Lemma udp_sum_bounds addrs h payload : is_bytes addrs -> blen addrs <= 32 ->
  is_bytes payload -> blen payload < 65528 -> 0 <= udp_sum addrs h payload < 3000000000.
Proof.
  intros Ha La Hp Lp. pose proof (wsum_bounds _ Ha).
  pose proof (wsum_bounds _ (udp_header_mem_bytes h)) as Bh. rewrite udp_header_mem_len in Bh.
  pose proof (wsum_bounds _ (pad16_bytes _ Hp)). pose proof (pad16_len payload).
  pose proof (blen_nonneg payload).
  unfold udp_sum, IPV4_PROTOCOL_UDP, sizeof_udp_header. lia.
Qed.

Lemma udp_checksum_eq h payload src dst : is_bytes payload -> blen payload < 65528 ->
  udp_checksum_value h payload src dst
  = hton16 (65535 - fold16 (udp_sum (mem32 src ++ mem32 dst) h payload)).
Proof.
  intros Hp Lp. unfold udp_checksum_value.
  pose proof (blen_nonneg payload).
  pose proof (wsum_bounds _ (write_le32_bytes src)) as Bs. rewrite write_le32_length in Bs.
  pose proof (wsum_bounds _ (write_le32_bytes dst)) as Bd. rewrite write_le32_length in Bd.
  pose proof (wsum_bounds _ (udp_header_mem_bytes h)) as Bh. rewrite udp_header_mem_len in Bh.
  rewrite !summer_wsum by (apply write_le32_bytes || apply write_le16_bytes ||
    apply udp_header_mem_bytes || (autorewrite with cmem; lia)).
  rewrite !wsum_mem16_hton16 by (unfold IPV4_PROTOCOL_UDP; lia || apply u16_range).
  rewrite (u16_small (blen payload)) by lia.
  rewrite (u16_small (sizeof_udp_header + _)) by (unfold sizeof_udp_header; lia).
  unfold udp_sum. rewrite wsum_app by done.
  unfold IPV4_PROTOCOL_UDP, sizeof_udp_header in *.
  repeat (match goal with |- context [u32 (?a + ?b)] =>
    lazymatch a with context [u32] => fail | _ => rewrite (u32_small (a + b)) by lia end end).
  rewrite udp_checksum_payload_sum by (done || lia).
  pose proof (wsum_bounds _ (pad16_bytes _ Hp)). pose proof (pad16_len payload).
  rewrite udp_checksum_finish_eq by lia. do 3 f_equal; lia.
Qed.

Lemma udp_ip6_checksum_eq h payload src dst : is_bytes payload -> blen payload < 65528 ->
  is_bytes src -> length src = 16%nat -> is_bytes dst -> length dst = 16%nat ->
  udp_ip6_checksum_value h payload src dst
  = hton16 (65535 - fold16 (udp_sum (src ++ dst) h payload)).
Proof.
  intros Hp Lp Hs Ls Hd Ld. unfold udp_ip6_checksum_value.
  assert (btake 16 src = src) as -> by (unfold btake; rewrite take_ge; [done|lia]).
  assert (btake 16 dst = dst) as -> by (unfold btake; rewrite take_ge; [done|lia]).
  pose proof (blen_nonneg payload).
  pose proof (wsum_bounds _ Hs) as Bs. pose proof (wsum_bounds _ Hd) as Bd.
  unfold blen in Bs, Bd. rewrite Ls in Bs. rewrite Ld in Bd.
  pose proof (wsum_bounds _ (udp_header_mem_bytes h)) as Bh. rewrite udp_header_mem_len in Bh.
  rewrite (u16_small (blen payload)) by lia.
  rewrite !summer_wsum by (done || apply write_le32_bytes || apply udp_header_mem_bytes
    || (autorewrite with cmem; lia) || (unfold blen; lia)).
  rewrite !wsum_mem32_hton32 by (unfold IPV6_NEXT_UDP, sizeof_udp_header; lia).
  unfold udp_sum. rewrite wsum_app by (rewrite Ls; done).
  unfold IPV4_PROTOCOL_UDP, IPV6_NEXT_UDP, sizeof_udp_header in *.
  repeat (match goal with |- context [u32 (?a + ?b)] =>
    lazymatch a with context [u32] => fail | _ => rewrite (u32_small (a + b)) by lia end end).
  rewrite udp_checksum_payload_sum by (done || lia).
  pose proof (wsum_bounds _ (pad16_bytes _ Hp)). pose proof (pad16_len payload).
  rewrite udp_checksum_finish_eq by lia. do 3 f_equal; lia.
Qed.

(** With the stored checksum, the receiver's sum folds to all ones. *)
Lemma udp_sum_valid addrs h payload : is_bytes addrs -> blen addrs <= 32 ->
  is_bytes payload -> blen payload < 65528 ->
  let c := hton16 (65535 - fold16 (udp_sum addrs (set_udp_cksum 0 h) payload)) in
  fold16 (udp_sum addrs (set_udp_cksum c h) payload) = 65535.
Proof.
  intros Ha La Hp Lp. cbv zeta.
  pose proof (udp_sum_bounds addrs (set_udp_cksum 0 h) payload Ha La Hp Lp) as B.
  set (S0 := udp_sum addrs (set_udp_cksum 0 h) payload) in *.
  destruct (fold16_spec S0 ltac:(lia)) as (Bf & _).
  assert (E : forall c, 0 <= c < 65536 ->
    udp_sum addrs (set_udp_cksum c h) payload = S0 + hton16 c).
  { intros c Hc. subst S0. unfold udp_sum. rewrite wsum_udp_checksum by done. lia. }
  rewrite E by apply hton16_range. change (hton16 (hton16 ?x)) with (ntoh16 (hton16 x)).
  rewrite ntoh16_hton16 by lia. apply fold16_complement; lia.
Qed.
