(* ===== verification/CString.v ===== *)
(** C strings: what the program uses of string.h and stdlib.h, and
    misc/loglevel.h.

    A C string is the list of its character codes, without the terminator.  The
    result of [strtol] is the number and the rest of the string that endptr points
    to.  LONG_MAX is a parameter: long has 32 bits on some of the targets and 64
    on others, and atoi truncates it to int. *)

From S2P Require Import Prelude ByteOrder ParseNumber.
From Stdlib Require Import Ascii String.
#[local] Abbreviation length := Datatypes.length.
#[local] Abbreviation concat := List.concat.
Open Scope Z_scope.

(** String literals. *)
Definition cstr (s : String.string) : bytes := map ch (String.list_ascii_of_string s).
#[global] Arguments cstr s%_string.

Definition strcmp_eq (a b : bytes) : bool := bool_decide (a = b).

(** The string in a buffer: the characters before the first terminator.  Without
    one, [None]: strlen reads past the buffer. *)
Fixpoint c_str (buf : bytes) : option bytes :=
  match buf with
  | [] => None
  | c :: buf => if c =? 0 then Some [] else cons c <$> c_str buf
  end.

Definition no_nul (s : bytes) : Prop := Forall (fun c => c <> 0) s.

Definition isspace (c : Z) : bool := (c =? 32) || ((9 <=? c) && (c <=? 13)).

Fixpoint skip_space (s : bytes) : bytes :=
  match s with c :: s' => if isspace c then skip_space s' else s | [] => [] end.

Fixpoint digits_from (n : Z) (s : bytes) : Z * bytes :=
  match s with
  | c :: s' => if is_digit c then digits_from (10 * n + (c - CHR "0")) s' else (n, s)
  | [] => (n, [])
  end.

Section Long.
Context (LONG_MAX : Z).

Definition clamp_long (x : Z) : Z := Z.max (- LONG_MAX - 1) (Z.min LONG_MAX x).

(** strtol(str, &endptr, 10). *)
Definition strtol (str : bytes) : Z * bytes :=
  let s := skip_space str in
  let '(neg, s) := match s with
                   | c :: s' => if c =? CHR "-" then (true, s') else if c =? CHR "+" then (false, s') else (false, s)
                   | [] => (false, s)
                   end in
  match s with
  | c :: _ => if is_digit c then let '(n, rest) := digits_from 0 s in (clamp_long (if neg : bool then - n else n), rest) else (0, str)
  | [] => (0, str)
  end.

(** atoi of the C libraries of the targets: strtol converted to int. *)
Definition atoi (str : bytes) : Z := s32 (strtol str).1.

(** ** misc/loglevel.h *)

Definition BLOG_ERROR : Z := 1.
Definition BLOG_WARNING : Z := 2.
Definition BLOG_NOTICE : Z := 3.
Definition BLOG_INFO : Z := 4.
Definition BLOG_DEBUG : Z := 5.

Definition parse_loglevel (str : bytes) : Z :=
  if strcmp_eq str (cstr "none") then 0 else
  if strcmp_eq str (cstr "error") then BLOG_ERROR else
  if strcmp_eq str (cstr "warning") then BLOG_WARNING else
  if strcmp_eq str (cstr "notice") then BLOG_NOTICE else
  if strcmp_eq str (cstr "info") then BLOG_INFO else
  if strcmp_eq str (cstr "debug") then BLOG_DEBUG else
  let '(res, endptr) := strtol str in
  if negb (bool_decide (str = [])) && bool_decide (endptr = []) && (res >=? 0) && (res <=? BLOG_DEBUG) then res else -1.

(** * Lemmas *)

Lemma strcmp_eq_refl s : strcmp_eq s s = true.
Proof. unfold strcmp_eq. by rewrite bool_decide_eq_true_2. Qed.

Lemma strcmp_eq_ne a b : a <> b -> strcmp_eq a b = false.
Proof. unfold strcmp_eq. intros. by rewrite bool_decide_eq_false_2. Qed.

Lemma c_str_app s rest : no_nul s -> c_str (s ++ 0 :: rest) = Some s.
Proof. induction 1 as [|c s Hc Hs IH]; [done|]. simpl. rewrite (proj2 (Z.eqb_neq c 0)) by done. by rewrite IH. Qed.

(** A string copied into a buffer with its terminator is read back from it. *)
Lemma c_str_copied buf s : no_nul s -> blen s < blen buf ->
  exists b, mem_write buf 0 s = Some b /\ exists b', mem_write b (blen s) [0] = Some b' /\ c_str b' = Some s.
Proof.
  intros Hs Hl. pose proof (blen_nonneg s). assert (Hd : 1 <= blen (bdrop (blen s) buf)) by (rewrite blen_bdrop; lia).
  destruct (bdrop (blen s) buf) as [|y tl] eqn:E; [change (blen []) with 0 in Hd; lia|].
  exists (s ++ y :: tl). split; [rewrite mem_write_in by lia; cbn; by rewrite ?Z.add_0_l, E|].
  exists (s ++ 0 :: tl). split; [|by apply c_str_app]. by apply (mem_write_at s [y] tl [0]).
Qed.

Lemma digits_from_all n s : Forall (fun c => is_digit c = true) s -> digits_from n s = (dec_value n s, []).
Proof. intros Hs. revert n. induction Hs as [|c s Hc Hs IH]; intros n; [done|]. simpl. by rewrite Hc, IH. Qed.

Lemma digit_head c s : Forall (fun c => is_digit c = true) (c :: s) -> isspace c = false /\ c <> CHR "-" /\ c <> CHR "+".
Proof.
  intros [Hc _]%Forall_cons_iff. apply is_digit_spec in Hc. split; [unfold isspace; lia|lia].
Qed.

(** A string of digits is read as its value. *)
Lemma strtol_digits s : s <> [] -> Forall (fun c => is_digit c = true) s -> dec_value 0 s <= LONG_MAX ->
  strtol s = (dec_value 0 s, []).
Proof.
  intros Hne Hs Hv. destruct s as [|c s]; [done|]. destruct (digit_head c s Hs) as (H1 & H2 & H3).
  pose proof (dec_value_bound _ Hs) as [H0 _]. unfold strtol. cbn [skip_space]. rewrite H1.
  rewrite (proj2 (Z.eqb_neq _ _) H2), (proj2 (Z.eqb_neq _ _) H3), (proj1 (proj1 (Forall_cons_iff _ _ _) Hs)).
  rewrite (digits_from_all _ _ Hs). unfold clamp_long. f_equal. lia.
Qed.

Lemma strtol_print x : 0 <= x <= LONG_MAX -> x <= UINTMAX_MAX -> strtol (print_dec x) = (x, []).
Proof.
  intros Hx Hu. destruct (print_dec_spec x ltac:(lia)) as (H1 & H2 & H3). rewrite strtol_digits; try done; rewrite ?H2; try lia; [done|].
  intros E. rewrite E in H3. simpl in H3. lia.
Qed.

Lemma parse_loglevel_range str : -1 <= parse_loglevel str <= 5.
Proof.
  unfold parse_loglevel, BLOG_ERROR, BLOG_WARNING, BLOG_NOTICE, BLOG_INFO, BLOG_DEBUG.
  destruct (strtol str) as [res rest]. repeat (destruct (strcmp_eq _ _); [lia|]).
  destruct (_ && _ && _ && _) eqn:E; [|lia]. rewrite !andb_true_iff in E. lia.
Qed.
End Long.
