(* ===== verification/AddrText.v ===== *)
(** Text of socket addresses: BIPAddr_Resolve, BAddr_Parse2, BIPAddr_Print and
    BAddr_Print of system/BAddr.h.

    getaddrinfo is a parameter: from the family, the flag AI_NUMERICHOST and a
    string to the bytes of the first address it finds.  The local buffers are
    arguments, since their contents are not initialised.  On a failure the source
    has already set the type of the address, which no caller reads.  Lengths of
    strings are cut to an int, as the code does. *)

From S2P Require Import Prelude ByteOrder BAddr ParseNumber IpAddr IpAddr6 CString.
From Stdlib Require Import Ascii String.
#[local] Abbreviation length := Datatypes.length.
#[local] Abbreviation concat := List.concat.
Open Scope Z_scope.

Definition BADDR_MAX_ADDR_LEN : Z := 128.
Definition BADDR_MAX_PRINT_LEN : Z := 120.

(** What getaddrinfo promises: an address of the family that was asked for. *)
Class Resolver := {
  getaddrinfo : bool -> bool -> bytes -> option bytes;
  getaddrinfo_length (v6 numeric : bool) s a : getaddrinfo v6 numeric s = Some a -> length a = (if v6 then 16 else 4)%nat;
  getaddrinfo_bytes v6 numeric s a : getaddrinfo v6 numeric s = Some a -> is_bytes a }.

(** Numeric addresses are not looked up but parsed. *)
Class NumericResolver `{Resolver} := {
  getaddrinfo_ipv4 numeric ip : 0 <= ip < 4294967296 -> getaddrinfo false numeric (ipaddr_print_addr ip) = Some (mem32 ip);
  getaddrinfo_ipv6 numeric vs : length vs = 8%nat -> Forall is_block vs -> getaddrinfo true numeric (join vs) = Some (enc vs) }.

Section Text.
Context (LONG_MAX : Z) `{Resolver}.

(** The copy of a part of a string into a local buffer, with a terminator. *)
Definition copy_part (buf str : bytes) (start len : Z) : option bytes :=
  part ← mem_read str start len;
  buf ← mem_write buf 0 part;
  mem_write buf len [0].

(** The test of the brackets around an IPv6 address. *)
Definition bracketed (str : bytes) (len : Z) : option bool :=
  if len >=? 1 then
    c ← char_at str 0;
    if c =? CHR "[" then d ← char_at str (len - 1); Some (d =? CHR "]") else Some false
  else Some false.

Definition BIPAddr_Resolve (addr_str str : bytes) (noresolve : bool) : option (option BIPAddr) :=
  let len := s32 (blen str) in
  v6 ← bracketed str len;
  let addr_start := if v6 : bool then 1 else 0 in
  let addr_len := if v6 then len - 2 else len in
  if addr_len >? BADDR_MAX_ADDR_LEN then Some None else
  addr_str ← copy_part addr_str str addr_start addr_len;
  host ← c_str addr_str;
  match getaddrinfo v6 noresolve host with
  | None => Some None
  | Some a => Some (Some (if v6 then BIPAddr_ipv6 a else BIPAddr_ipv4 (load32 a)))
  end.

(** The loops that find the end of the address: the index of [c] at or after
    [i], or the length. *)
Fixpoint find_from (fuel : nat) (str : bytes) (len c i : Z) : option Z :=
  if i <? len then
    x ← char_at str i;
    if x =? c then Some i else match fuel with O => None | S fuel => find_from fuel str len c (i + 1) end
  else Some i.

(** The first half of BAddr_Parse2: the family and where address and port are. *)
Record parts := { p_v6 : bool; addr_start : Z; addr_len : Z; port_start : Z; port_len : Z }.

Definition split_address (str : bytes) : option (option parts) :=
  let len := s32 (blen str) in
  if (len <? 1) || (len >? 1000) then Some None else
  c ← char_at str 0;
  if c =? CHR "[" then
    i ← find_from (length str) str len (CHR "]") 1;
    if i >=? len then Some None else
    if i + 1 >=? len then Some None else
    c ← char_at str (i + 1);
    if negb (c =? CHR ":") then Some None else
    Some (Some {| p_v6 := true; addr_start := 1; addr_len := i - 1; port_start := i + 2; port_len := len - (i + 2) |})
  else
    i ← find_from (length str) str len (CHR ":") 0;
    if i >=? len then Some None else
    Some (Some {| p_v6 := false; addr_start := 0; addr_len := i; port_start := i + 1; port_len := len - (i + 1) |}).

(** The port: strtol accepts leading blanks and a sign. *)
Definition parse_port (port_str : bytes) : option Z :=
  let '(conv_res, err) := strtol LONG_MAX port_str in
  if bool_decide (port_str = []) || negb (bool_decide (err = [])) then None else
  if (conv_res <? 0) || (conv_res >? UINT16_MAX) then None else Some conv_res.

(** [name] is the buffer for the name, of name_len bytes, or NULL. *)
Definition BAddr_Parse2 (addr_str port_str str : bytes) (name : option bytes) (noresolve : bool)
    : option (option (BAddr * option bytes)) :=
  p ← split_address str;
  match p with
  | None => Some None
  | Some p =>
      if addr_len p >=? 128 then Some None else
      addr_str ← copy_part addr_str str (addr_start p) (addr_len p);
      if port_len p >=? 6 then Some None else
      port_str ← copy_part port_str str (port_start p) (port_len p);
      host ← c_str addr_str;
      port_text ← c_str port_str;
      match parse_port port_text with
      | None => Some None
      | Some port =>
          match getaddrinfo (p_v6 p) noresolve host with
          | None => Some None
          | Some a =>
              let addr := if p_v6 p then BAddr_ipv6 a (hton16 port) else BAddr_ipv4 (load32 a) (hton16 port) in
              match name with
              | None => Some (Some (addr, None))
              | Some buf =>
                  if blen host >=? blen buf then Some None else
                  buf ← mem_write buf 0 (host ++ [0]);
                  Some (Some (addr, Some buf))
              end
          end
      end
  end.

Definition BAddr_Parse (addr_str port_str str : bytes) (name : option bytes) := BAddr_Parse2 addr_str port_str str name false.
End Text.

(** %d, and %02x of a byte. *)
Definition print_int (x : Z) : bytes := if x <? 0 then CHR "-" :: print_dec (- x) else print_dec x.
Definition print_hex2 (x : Z) : bytes := [hex_char (x / 16); hex_char (x mod 16)].

Definition BADDR_PACKET_HEADER_TYPE_ETHERNET : Z := 1.

(** The string that sprintf writes, without the terminator. *)
Definition BIPAddr_Print (a : BIPAddr) : option bytes :=
  match a with
  | BIPAddr_none => Some (cstr "(none)")
  | BIPAddr_ipv4 ip =>
      match mem32 ip with
      | [b0; b1; b2; b3] => Some (print_dec b0 ++ [CHR "."] ++ print_dec b1 ++ [CHR "."] ++ print_dec b2 ++ [CHR "."] ++ print_dec b3)
      | _ => None
      end
  | BIPAddr_ipv6 ip =>
      ptr ← mem_read ip 0 16;
      let x i := print_hex (badvpn_read_be16 (bdrop i ptr)) in
      Some (x 0 ++ [CHR ":"] ++ x 2 ++ [CHR ":"] ++ x 4 ++ [CHR ":"] ++ x 6 ++ [CHR ":"]
            ++ x 8 ++ [CHR ":"] ++ x 10 ++ [CHR ":"] ++ x 12 ++ [CHR ":"] ++ x 14)
  end.

Definition BAddr_Print (a : BAddr) : option bytes :=
  match a with
  | BAddr_none => Some (cstr "(none)")
  | BAddr_ipv4 ip port => out ← BIPAddr_Print (BIPAddr_ipv4 ip); Some (out ++ [CHR ":"] ++ print_dec (ntoh16 port))
  | BAddr_ipv6 ip port => out ← BIPAddr_Print (BIPAddr_ipv6 ip); Some (out ++ [CHR ":"] ++ print_dec (ntoh16 port))
  | BAddr_packet phys_proto interface_index header_type packet_type phys_addr =>
      ASSERT header_type =? BADDR_PACKET_HEADER_TYPE_ETHERNET;
      addr ← mem_read phys_addr 0 6;
      let x i := print_hex2 (nth i addr 0) in
      Some (cstr "proto=" ++ print_dec phys_proto ++ cstr ",ifindex=" ++ print_int interface_index ++ cstr ",htype=eth,ptype="
            ++ print_int packet_type ++ cstr ",addr=" ++ x 0%nat ++ [CHR ":"] ++ x 1%nat ++ [CHR ":"] ++ x 2%nat ++ [CHR ":"]
            ++ x 3%nat ++ [CHR ":"] ++ x 4%nat ++ [CHR ":"] ++ x 5%nat)
  end.

(** * Lemmas *)

Lemma geb_false x y : x < y -> (x >=? y) = false.
Proof. lia. Qed.

(** A length that is not negative as an int is no longer than the string. *)
Lemma int_length str : 0 <= s32 (blen str) -> s32 (blen str) <= blen str.
Proof.
  pose proof (blen_nonneg str). unfold s32, u32. destruct (_ <? _) eqn:E; dlia.
Qed.

Lemma find_from_total fuel str len c i : 0 <= i -> len <= blen str -> (Z.to_nat (len - i) <= fuel)%nat ->
  exists r, find_from fuel str len c i = Some r /\ i <= r.
Proof.
  intros Hi Hlen. revert i Hi. induction fuel as [|fuel IH]; intros i Hi Hf; simpl; (destruct (Z.ltb_spec i len) as [Hl|Hl]; [|eexists; split; [done|lia]]).
  - lia.
  - destruct (char_at_some str i) as [x ->]; [lia|]. cbn [mbind option_bind]. destruct (Z.eqb_spec x c); [eexists; split; [done|lia]|].
    destruct (IH (i + 1)) as (r & -> & Hr); [lia..|]. exists r. split; [done|lia].
Qed.

Lemma find_from_app pre l c k fuel len : Forall (fun x => x <> c) l -> (length l <= fuel)%nat -> len = blen (pre ++ l ++ c :: k) ->
  find_from fuel (pre ++ l ++ c :: k) len c (blen pre) = Some (blen pre + blen l).
Proof.
  intros Hl. revert pre fuel. induction Hl as [|x l Hx Hl IH]; intros pre fuel Hf Hlen; rewrite !blen_app, ?blen_cons in Hlen.
  - assert (Hc : char_at (pre ++ [] ++ c :: k) (blen pre) = Some c) by apply char_at_app. cbn [app] in *.
    pose proof (blen_nonneg k). change (blen []) with 0 in *.
    destruct fuel; simpl; rewrite (proj2 (Z.ltb_lt _ _)), Hc by lia; cbn [mbind option_bind]; rewrite Z.eqb_refl; f_equal; lia.
  - assert (Hc : char_at (pre ++ (x :: l) ++ c :: k) (blen pre) = Some x) by apply char_at_app. simpl in Hf.
    pose proof (blen_nonneg l). pose proof (blen_nonneg k).
    destruct fuel as [|fuel]; [lia|]. cbn [find_from app] in *. rewrite (proj2 (Z.ltb_lt _ _)), Hc by lia. cbn [mbind option_bind].
    rewrite (proj2 (Z.eqb_neq x c)) by done. specialize (IH (pre ++ [x]) fuel ltac:(lia)). rewrite <- app_assoc in IH. cbn [app] in IH.
    replace (blen pre + 1) with (blen (pre ++ [x])) by (by rewrite blen_app). rewrite IH by (rewrite !blen_app, !blen_cons, blen_app, blen_cons; lia).
    f_equal. rewrite blen_app, !blen_cons. change (blen []) with 0. lia.
Qed.

Lemma no_nul_part str off len part : no_nul str -> mem_read str off len = Some part -> no_nul part /\ blen part = len.
Proof.
  intros Hn E. apply mem_read_inv in E as (? & ? & ? & ->). split; [by apply Forall_take, Forall_drop|].
  rewrite blen_btake; rewrite ?blen_bdrop; lia.
Qed.

Lemma copy_part_spec buf str start len : no_nul str -> 0 <= start -> 0 <= len -> start + len <= blen str -> len < blen buf ->
  exists part b, mem_read str start len = Some part /\ copy_part buf str start len = Some b /\ c_str b = Some part.
Proof.
  intros Hn H0 H1 H2 H3. unfold copy_part. rewrite (mem_read_in _ _ _ H0 H1 H2). cbn [mbind option_bind].
  set (part := btake len (bdrop start str)).
  destruct (no_nul_part str start len part Hn (mem_read_in _ _ _ H0 H1 H2)) as [Hp Hl].
  destruct (c_str_copied buf part Hp ltac:(lia)) as (b & -> & b' & Hb & Hc). rewrite Hl in Hb. exists part, b'. by split_and!.
Qed.

Lemma split_address_total str : exists r, split_address str = Some r
  /\ match r with
     | None => True
     | Some p => 0 <= addr_start p /\ 0 <= addr_len p /\ addr_start p + addr_len p <= blen str
                 /\ 0 <= port_start p /\ 0 <= port_len p /\ port_start p + port_len p <= blen str
     end.
Proof.
  unfold split_address. destruct (_ || _) eqn:E; [by exists None|]. apply orb_false_iff in E as [E _]. apply Z.ltb_ge in E.
  pose proof (int_length str ltac:(lia)) as Hi0. set (len := s32 (blen str)) in *.
  destruct (char_at_some str 0) as [c ->]; [lia|]. cbn [mbind option_bind]. destruct (c =? 91).
  - destruct (find_from_total (length str) str len 93 1) as (i & -> & Hi); [lia..|unfold blen in *; lia|]. cbn [mbind option_bind].
    destruct (Z.geb_spec i len); [by exists None|]. destruct (Z.geb_spec (i + 1) len); [by exists None|].
    destruct (char_at_some str (i + 1)) as [d ->]; [lia|]. cbn [mbind option_bind]. destruct (negb _); [by exists None|].
    eexists. split; [done|]. simpl. lia.
  - destruct (find_from_total (length str) str len 58 0) as (i & -> & Hi); [lia..|unfold blen in *; lia|]. cbn [mbind option_bind].
    destruct (Z.geb_spec i len); [by exists None|]. eexists. split; [done|]. simpl. lia.
Qed.

Lemma parse_port_range m s port : parse_port m s = Some port -> 0 <= port < 65536.
Proof.
  unfold parse_port. destruct (strtol m s) as [v r]. destruct (_ || _); [done|]. destruct (_ || _) eqn:E; [done|]. intros [= <-].
  unfold UINT16_MAX in E. lia.
Qed.

Lemma load32_address a : length a = 4%nat -> is_bytes a -> 0 <= load32 a < 4294967296 /\ mem32 (load32 a) = a.
Proof.
  intros Hl Hb. destruct a as [|w [|x [|y [|z [|]]]]]; try done. unfold is_bytes in Hb. rewrite !Forall_cons_iff in Hb.
  destruct Hb as (? & ? & ? & ? & _). split; [by apply load32_range|]. by apply mem32_load32.
Qed.

Section Theorems.
Context (LONG_MAX : Z) `{Resolver}.

Lemma resolved_wf (v6 numeric : bool) host a port : getaddrinfo v6 numeric host = Some a -> 0 <= port < 65536 ->
  BAddr_wf (if v6 then BAddr_ipv6 a (hton16 port) else BAddr_ipv4 (load32 a) (hton16 port)).
Proof.
  intros E Hp. pose proof (getaddrinfo_length _ _ _ _ E). pose proof (getaddrinfo_bytes _ _ _ _ E). destruct v6; simpl.
  - split_and!; try done; apply hton16_range.
  - split; [by apply load32_address|apply hton16_range].
Qed.

Lemma parse2_safe str addr_str port_str name numeric : no_nul str -> blen addr_str = 128 -> blen port_str = 6 ->
  exists r, BAddr_Parse2 LONG_MAX addr_str port_str str name numeric = Some r
    /\ match r with Some (a, _) => BAddr_wf a /\ BAddr_is_ip a = true | None => True end.
Proof.
  intros Hn Ha Hp.
  unfold BAddr_Parse2. destruct (split_address_total str) as ([p|] & -> & Hr); cbn [mbind option_bind]; [|by exists None].
  destruct Hr as (H1 & H2 & H3 & H4 & H5 & H6).
  destruct (Z.geb_spec (addr_len p) 128); [by exists None|].
  destruct (copy_part_spec addr_str str (addr_start p) (addr_len p)) as (host & b & _ & -> & Hb); try done; [lia|]. cbn [mbind option_bind].
  destruct (Z.geb_spec (port_len p) 6); [by exists None|].
  destruct (copy_part_spec port_str str (port_start p) (port_len p)) as (text & b' & _ & -> & Hb'); try done; [lia..|]. cbn [mbind option_bind].
  rewrite Hb, Hb'. cbn [mbind option_bind]. destruct (parse_port _ _) as [port|] eqn:Ep; [|by exists None].
  destruct (getaddrinfo _ _ _) as [a|] eqn:Eg; [|by exists None].
  pose proof (resolved_wf _ _ _ _ _ Eg (parse_port_range _ _ _ Ep)) as Hwf.
  assert (Hip : BAddr_is_ip (if p_v6 p then BAddr_ipv6 a (hton16 port) else BAddr_ipv4 (load32 a) (hton16 port)) = true) by by destruct (p_v6 p).
  destruct name as [buf|]; [|eexists; split; [done|]; by split].
  destruct (Z.geb_spec (blen host) (blen buf)); [by exists None|].
  rewrite mem_write_in by (rewrite ?blen_app; change (blen [0]) with 1; lia). cbn [mbind option_bind]. eexists. split; [done|]. by split.
Qed.

Lemma bracketed_total str len : len <= blen str -> exists v6, bracketed str len = Some v6 /\ (v6 = true -> 2 <= len).
Proof.
  intros Hlen. unfold bracketed. destruct (Z.geb_spec len 1) as [H1|]; [|by exists false].
  destruct (char_at_some str 0) as [c Ec]; [lia|]. rewrite Ec. cbn [mbind option_bind].
  destruct (Z.eqb_spec c 91) as [->|]; [|by exists false]. destruct (char_at_some str (len - 1)) as [d Ed]; [lia|]. rewrite Ed. cbn [mbind option_bind].
  eexists. split; [done|]. intros ->%Z.eqb_eq. destruct (Z.eq_dec len 1) as [E1|]; [|lia]. rewrite E1 in Ed. change (1 - 1) with 0 in Ed.
  rewrite Ec in Ed. by injection Ed.
Qed.

Lemma resolve_safe str ip_str numeric : no_nul str -> 0 <= s32 (blen str) -> blen ip_str = BADDR_MAX_ADDR_LEN + 1 ->
  exists r, BIPAddr_Resolve ip_str str numeric = Some r
    /\ match r with
       | Some (BIPAddr_ipv4 ip) => 0 <= ip < 4294967296
       | Some (BIPAddr_ipv6 ip) => length ip = 16%nat /\ is_bytes ip
       | Some BIPAddr_none => False
       | None => True
       end.
Proof.
  intros Hn Hpos Hi. pose proof (int_length str Hpos) as Hlen. unfold BIPAddr_Resolve, BADDR_MAX_ADDR_LEN in *. set (len := s32 (blen str)) in *.
  destruct (bracketed_total str len) as (v6 & -> & Hv); [done|]. cbn [mbind option_bind].
  match goal with |- context [?x >? 128] => destruct (Z.gtb_spec x 128) as [|Hle]; [by exists None|] end.
  destruct (copy_part_spec ip_str str (if v6 then 1 else 0) (if v6 then len - 2 else len)) as (host & b & _ & -> & Hb);
    [done|destruct v6; try specialize (Hv eq_refl); lia..|]. cbn [mbind option_bind].
  rewrite Hb. cbn [mbind option_bind]. destruct (getaddrinfo _ _ _) as [a|] eqn:Eg; [|by exists None]. eexists. split; [done|].
  pose proof (getaddrinfo_length _ _ _ _ Eg). pose proof (getaddrinfo_bytes _ _ _ _ Eg). destruct v6; [done|by apply load32_address].
Qed.

(** A length that is negative as an int passes the test of the length, and is
    then the size of a copy. *)
Lemma resolve_negative str ip_str numeric : s32 (blen str) < 0 -> BIPAddr_Resolve ip_str str numeric = None.
Proof.
  intros Hneg. unfold BIPAddr_Resolve, bracketed, BADDR_MAX_ADDR_LEN, copy_part. rewrite geb_false by lia. cbn [mbind option_bind].
  destruct (Z.gtb_spec (s32 (blen str)) 128); [lia|]. unfold mem_read. by rewrite (proj2 (Z.leb_gt 0 (s32 (blen str)))) by lia.
Qed.

(** C38. Parsing an address, whatever the string, the contents of the buffers and
    the answers of getaddrinfo: BAddr_Parse2 copies only within its buffers of
    128 and 6 bytes and that of the caller, reads nothing outside the string, and
    what it returns is an IPv4 or IPv6 address.  The same holds of
    BIPAddr_Resolve and its buffer of 129 bytes exactly when the length of the
    string is not negative as an int; a negative one, of a string of 2 GiB or
    more, becomes the size of a memcpy. *)
Theorem address_parsing_safe str addr_str port_str ip_str name numeric :
  no_nul str -> blen addr_str = 128 -> blen port_str = 6 -> blen ip_str = BADDR_MAX_ADDR_LEN + 1 ->
  (exists r, BAddr_Parse2 LONG_MAX addr_str port_str str name numeric = Some r
     /\ match r with Some (a, _) => BAddr_wf a /\ BAddr_is_ip a = true | None => True end)
  /\ (s32 (blen str) < 0 -> BIPAddr_Resolve ip_str str numeric = None)
  /\ (0 <= s32 (blen str) -> exists r, BIPAddr_Resolve ip_str str numeric = Some r
     /\ match r with
        | Some (BIPAddr_ipv4 ip) => 0 <= ip < 4294967296
        | Some (BIPAddr_ipv6 ip) => length ip = 16%nat /\ is_bytes ip
        | Some BIPAddr_none => False
        | None => True
        end).
Proof. intros Hn Ha Hp Hi. split_and!; [by apply parse2_safe|by apply resolve_negative|intros Hs; by apply resolve_safe]. Qed.
End Theorems.

(** ** Text that is parsed back *)

Section Roundtrip.
Context (LONG_MAX : Z) `{NumericResolver} (long_port : UINT16_MAX <= LONG_MAX).

Lemma print_port port : 0 <= port < 65536 ->
  Forall (fun c => is_digit c = true) (print_dec port) /\ 1 <= blen (print_dec port) <= 5 /\ parse_port LONG_MAX (print_dec port) = Some port.
Proof.
  unfold UINT16_MAX in long_port. intros Hp. pose proof (print_dec_short port 5 ltac:(lia) ltac:(lia)) as Hl.
  split_and!; [apply print_dec_digits; unfold UINTMAX_MAX, UINT64_MAX; lia|lia..|].
  unfold parse_port. rewrite strtol_print by (unfold UINTMAX_MAX, UINT64_MAX; lia).
  rewrite bool_decide_eq_false_2 by (intros E; rewrite E in Hl; change (blen []) with 0 in Hl; lia).
  rewrite bool_decide_eq_true_2 by done. unfold UINT16_MAX. cbn [orb negb].
  by rewrite (proj2 (Z.ltb_ge _ _)), Z.gtb_ltb, (proj2 (Z.ltb_ge _ _)) by lia.
Qed.

Lemma digits_no_nul s : Forall (fun c => is_digit c = true) s -> no_nul s.
Proof. by apply digits_not. Qed.

(** The second half of BAddr_Parse2, once address and port are found. *)
Lemma parse2_found addr_str port_str str v6 pre host mid port a numeric :
  blen addr_str = 128 -> blen port_str = 6 -> 0 <= port < 65536 -> no_nul str -> blen host <= 127 ->
  str = pre ++ host ++ mid ++ print_dec port ->
  split_address str = Some (Some {| p_v6 := v6; addr_start := blen pre; addr_len := blen host;
     port_start := blen pre + blen host + blen mid; port_len := blen str - (blen pre + blen host + blen mid) |}) ->
  getaddrinfo v6 numeric host = Some a ->
  BAddr_Parse2 LONG_MAX addr_str port_str str None numeric
  = Some (Some (if v6 then BAddr_ipv6 a (hton16 port) else BAddr_ipv4 (load32 a) (hton16 port), None)).
Proof.
  intros Ha Hp Hport Hn Hh Estr Esp Eg. destruct (print_port port Hport) as (Hd & Hl & Epp).
  pose proof (blen_nonneg pre). pose proof (blen_nonneg host). pose proof (blen_nonneg mid).
  assert (Hlen : blen str = blen pre + blen host + blen mid + blen (print_dec port)) by (rewrite Estr, !blen_app; lia).
  unfold BAddr_Parse2. rewrite Esp. cbn [mbind option_bind addr_len addr_start port_start port_len p_v6].
  rewrite geb_false by lia.
  destruct (copy_part_spec addr_str str (blen pre) (blen host)) as (h & b & Eh & -> & Hb); try done; [lia..|]. cbn [mbind option_bind].
  rewrite geb_false by lia.
  destruct (copy_part_spec port_str str (blen pre + blen host + blen mid) (blen str - (blen pre + blen host + blen mid)))
    as (t & b' & Et & -> & Hb'); try done; [lia..|]. cbn [mbind option_bind].
  assert (h = host) as ->.
  { rewrite mem_read_in in Eh by lia. injection Eh as <-. rewrite Estr, bdrop_app_exact by done. by apply btake_app_exact. }
  assert (t = print_dec port) as ->.
  { rewrite mem_read_in in Et by lia. injection Et as <-. rewrite Estr at 2. rewrite !app_assoc, bdrop_app_exact by (rewrite !blen_app; lia).
    replace (blen str - _) with (blen (print_dec port)) by lia. apply btake_all. }
  rewrite Hb, Hb'. cbn [mbind option_bind]. by rewrite Epp, Eg.
Qed.

(** a.b.c.d:port *)
Lemma parse2_ipv4 addr_str port_str host port a numeric :
  blen addr_str = 128 -> blen port_str = 6 -> 0 <= port < 65536 -> 1 <= blen host <= 127 -> no_nul host ->
  Forall (fun c => c <> CHR ":") host -> Forall (fun c => c <> CHR "[") host -> getaddrinfo false numeric host = Some a ->
  BAddr_Parse2 LONG_MAX addr_str port_str (host ++ [CHR ":"] ++ print_dec port) None numeric
  = Some (Some (BAddr_ipv4 (load32 a) (hton16 port), None)).
Proof.
  intros Ha Hp Hport Hl Hn Hc Hb Eg. destruct (print_port port Hport) as (Hd & Hdl & _).
  set (str := host ++ [58] ++ print_dec port).
  assert (Hlen : blen str = blen host + 1 + blen (print_dec port)) by (unfold str; rewrite !blen_app; change (blen [58]) with 1; lia).
  eapply (parse2_found addr_str port_str str false [] host [58] port); try done; [|lia|].
  { apply Forall_app. split; [done|]. apply Forall_app. split; [by repeat constructor|]. by apply digits_no_nul. }
  change (blen []) with 0. change (blen [58]) with 1. unfold split_address.
  rewrite s32_small by (unfold INT_MAX; lia). rewrite (proj2 (Z.ltb_ge _ _)), Z.gtb_ltb, (proj2 (Z.ltb_ge _ _)) by lia. cbn [orb].
  destruct host as [|c host]; [change (blen []) with 0 in Hl; lia|]. apply Forall_cons_iff in Hb as [Hb _].
  change (char_at str 0) with (Some c). cbn [mbind option_bind]. rewrite (proj2 (Z.eqb_neq _ _) Hb).
  assert (Hff : find_from (length str) str (blen str) 58 0 = Some (blen (c :: host))).
  { apply (find_from_app [] (c :: host) 58 (print_dec port)); [done| |done]. unfold str. rewrite length_app. lia. }
  rewrite Hff. cbn [mbind option_bind]. rewrite geb_false by lia. do 3 f_equal; lia.
Qed.

(** [addr]:port *)
Lemma parse2_ipv6 addr_str port_str host port a numeric :
  blen addr_str = 128 -> blen port_str = 6 -> 0 <= port < 65536 -> blen host <= 127 -> no_nul host ->
  Forall (fun c => c <> CHR "]") host -> getaddrinfo true numeric host = Some a ->
  BAddr_Parse2 LONG_MAX addr_str port_str ([CHR "["] ++ host ++ cstr "]:" ++ print_dec port) None numeric
  = Some (Some (BAddr_ipv6 a (hton16 port), None)).
Proof.
  intros Ha Hp Hport Hl Hn Hc Eg. destruct (print_port port Hport) as (Hd & Hdl & _). change (cstr "]:") with [93; 58].
  set (str := [91] ++ host ++ [93; 58] ++ print_dec port). pose proof (blen_nonneg host).
  assert (Hlen : blen str = 1 + blen host + 2 + blen (print_dec port)).
  { unfold str. rewrite !blen_app. change (blen [91]) with 1. change (blen [93; 58]) with 2. lia. }
  eapply (parse2_found addr_str port_str str true [91] host [93; 58] port); try done.
  { apply Forall_app. split; [by repeat constructor|]. apply Forall_app. split; [done|]. apply Forall_app. split; [by repeat constructor|].
    by apply digits_no_nul. }
  change (blen [91]) with 1. change (blen [93; 58]) with 2. unfold split_address.
  rewrite s32_small by (unfold INT_MAX; lia). rewrite (proj2 (Z.ltb_ge _ _)), Z.gtb_ltb, (proj2 (Z.ltb_ge _ _)) by lia. cbn [orb].
  change (char_at str 0) with (Some 91). cbn [mbind option_bind]. rewrite Z.eqb_refl.
  assert (Hff : find_from (length str) str (blen str) 93 1 = Some (1 + blen host)).
  { apply (find_from_app [91] host 93 (58 :: print_dec port)); [done| |done]. unfold str. rewrite !length_app. lia. }
  rewrite Hff. cbn [mbind option_bind]. rewrite !geb_false by lia.
  assert (Hca : char_at str (1 + blen host + 1) = Some 58).
  { replace (1 + blen host + 1) with (blen ([91] ++ host ++ [93])) by (rewrite !blen_app; change (blen [91]) with 1; change (blen [93]) with 1; lia).
    replace str with (([91] ++ host ++ [93]) ++ 58 :: print_dec port) by (unfold str; by rewrite <- !app_assoc). apply char_at_app. }
  rewrite Hca. cbn [mbind option_bind]. rewrite Z.eqb_refl. cbn [negb]. do 3 f_equal; lia.
Qed.
End Roundtrip.

(** ** Printing *)

Lemma print_ipv4 ip : BIPAddr_Print (BIPAddr_ipv4 ip) = Some (ipaddr_print_addr ip).
Proof. unfold BIPAddr_Print, ipaddr_print_addr, mem32, badvpn_write_le32. done. Qed.

Lemma read_block ip i : is_bytes ip -> (2 * i + 1 < length ip)%nat -> badvpn_read_be16 (bdrop (2 * Z.of_nat i) ip) = block_at ip i.
Proof.
  intros Hb Hi. unfold badvpn_read_be16, block_at, bdrop. rewrite Z.shiftl_0_r. replace (Z.to_nat (2 * Z.of_nat i)) with (2 * i)%nat by lia.
  rewrite !nth_skipn, Nat.add_0_r. rewrite u16_small; [done|].
  assert (H : is_byte (nth (2 * i) ip 0)) by (unfold is_bytes in Hb; rewrite List.Forall_forall in Hb; apply Hb, nth_In; lia).
  unfold is_byte in H. rewrite Z.shiftl_mul_pow2 by lia. lia.
Qed.

Lemma print_ipv6 ip : length ip = 16%nat -> is_bytes ip ->
  exists vs, length vs = 8%nat /\ Forall is_block vs /\ enc vs = ip /\ BIPAddr_Print (BIPAddr_ipv6 ip) = Some (join vs).
Proof.
  intros Hl Hb. exists (blocks ip 0 8). split; [done|]. split; [apply blocks_ok; [done|simpl; lia]|].
  split; [rewrite enc_blocks by (try done; simpl; lia); apply take_ge; simpl; lia|].
  unfold BIPAddr_Print. rewrite mem_read_in by (unfold blen; lia). cbn [mbind option_bind].
  rewrite bdrop_0. replace 16 with (blen ip) by (unfold blen; lia). rewrite btake_all.
  assert (Hx : forall i, (i < 8)%nat -> badvpn_read_be16 (bdrop (2 * Z.of_nat i) ip) = block_at ip i) by (intros; apply read_block; [done|lia]).
  change (blocks ip 0 8) with (block_at ip <$> seq 0 8). cbn [seq fmap list_fmap].
  rewrite <- !Hx by lia. done.
Qed.

Lemma join_no v6c vs : decode_hex_digit v6c = -1 -> v6c <> CHR ":" -> Forall is_block vs -> Forall (fun c => c <> v6c) (join vs).
Proof.
  intros Hd Hc. assert (Hp : forall v, is_block v -> Forall (fun c => c <> v6c) (print_hex v)).
  { intros v Hv. destruct (print_hex_spec v Hv) as (H & _). revert H. apply Forall_impl. intros c H ->. unfold is_hex_digit in H. by rewrite Hd in H. }
  induction 1 as [|v vs Hv Hvs IH]; [constructor|]. destruct vs as [|w vs]; [by apply Hp|].
  change (join (v :: w :: vs)) with (print_hex v ++ 58 :: join (w :: vs)). apply Forall_app. split; [by apply Hp|]. by constructor.
Qed.

Lemma print_addr_no a c : is_digit c = false -> c <> CHR "." -> 0 <= a < 4294967296 -> Forall (fun x => x <> c) (ipaddr_print_addr a).
Proof.
  intros Hc Hdot Ha. destruct (mem32_bytes a Ha) as (b0 & b1 & b2 & b3 & E & H0 & H1 & H2 & H3). unfold ipaddr_print_addr. rewrite E.
  assert (Hd : forall b, 0 <= b <= 255 -> Forall (fun x => x <> c) (print_dec b)).
  { intros b Hb. apply digits_not; [done|]. apply print_dec_digits. unfold UINTMAX_MAX, UINT64_MAX. lia. }
  repeat first [apply Forall_app; split | apply Hd; done | constructor; [done|constructor]].
Qed.

(** The first block of an IPv6 address is taken for the name of an IPv4 host, and
    the rest is too long for a port. *)
Lemma bare_ipv6_rejected m `{Resolver} addr_str port_str vs port numeric :
  length vs = 8%nat -> Forall is_block vs -> 0 <= port < 65536 -> blen addr_str = 128 -> blen port_str = 6 ->
  BAddr_Parse2 m addr_str port_str (join vs ++ [CHR ":"] ++ print_dec port) None numeric = Some None.
Proof.
  intros Hl Hvs Hport Ha Hp. destruct vs as [|v [|w vs]]; [done..|].
  assert (Hint : 0 <= blen (join (v :: w :: vs) ++ [58] ++ print_dec port) <= INT_MAX).
  { pose proof (blen_join v (w :: vs) Hvs). pose proof (print_dec_short port 5 ltac:(lia) ltac:(lia)).
    pose proof (blen_nonneg (join (v :: w :: vs))). rewrite !blen_app. change (blen [58]) with 1. simpl in *. unfold INT_MAX. lia. }
  assert (Hn : no_nul (join (v :: w :: vs) ++ [58] ++ print_dec port)).
  { apply Forall_app. split; [by apply (join_no 0)|]. constructor; [done|]. apply digits_not; [done|].
    apply print_dec_digits. unfold UINTMAX_MAX, UINT64_MAX. lia. }
  apply Forall_cons_iff in Hvs as [Hv Hvs].
  destruct (print_hex_spec v Hv) as (Hh & _ & Hlen). pose proof Hvs as Hrest.
  set (rest := join (w :: vs) ++ [58] ++ print_dec port).
  assert (E : join (v :: w :: vs) ++ [58] ++ print_dec port = print_hex v ++ 58 :: rest) by (unfold rest; cbn [join]; by rewrite <- app_assoc).
  rewrite E in *. clear E. set (str := print_hex v ++ 58 :: rest).
  assert (Hstr : blen str = blen (print_hex v) + 1 + blen rest) by (unfold str; rewrite blen_app, blen_cons; lia).
  assert (Hr : 6 <= blen rest).
  { unfold rest. rewrite blen_app. change (58 :: print_dec port) with ([58] ++ print_dec port).
    do 5 (destruct vs as [|?x vs]; [simpl in Hl; lia|]). rewrite !Forall_cons_iff in Hrest. destruct Hrest as (W & W1 & W2 & W3 & W4 & W5 & _).
    destruct (print_hex_spec _ W) as (_ & _ & ?), (print_hex_spec _ W1) as (_ & _ & ?), (print_hex_spec _ W2) as (_ & _ & ?).
    change (join (w :: x :: x0 :: x1 :: x2 :: x3 :: vs))
      with (print_hex w ++ 58 :: print_hex x ++ 58 :: print_hex x0 ++ 58 :: join (x1 :: x2 :: x3 :: vs)).
    repeat (rewrite blen_app || rewrite blen_cons).
    pose proof (blen_nonneg (join (x1 :: x2 :: x3 :: vs))). pose proof (blen_nonneg (print_dec port)). change (blen []) with 0. lia. }
  unfold BAddr_Parse2, split_address. rewrite s32_small by done. destruct (_ || _) eqn:Eb; [done|]. apply orb_false_iff in Eb as [_ Eb].
  destruct (print_hex v) as [|c t] eqn:Ev; [change (blen []) with 0 in Hlen; lia|].
  change (char_at str 0) with (Some c). cbn [mbind option_bind]. apply Forall_cons_iff in Hh as Hh'. destruct Hh' as [Hc _].
  destruct (Z.eqb_spec c 91) as [->|_]; [done|].
  assert (Hff : find_from (length str) str (blen str) 58 0 = Some (blen (c :: t))).
  { apply (find_from_app [] (c :: t) 58 rest); [|unfold str; rewrite length_app; lia|done].
    revert Hh. apply Forall_impl. by intros x Hx ->. }
  rewrite Hff. cbn [mbind option_bind]. rewrite geb_false by lia. cbn [mbind option_bind addr_len addr_start port_len port_start p_v6].
  rewrite geb_false by lia.
  destruct (copy_part_spec addr_str str 0 (blen (c :: t))) as (h & b & _ & -> & _); try done; [lia..|]. cbn [mbind option_bind].
  destruct (Z.geb_spec (blen str - (blen (c :: t) + 1)) 6); [done|lia].
Qed.

Lemma hton16_ntoh16 p : 0 <= p < 65536 -> hton16 (ntoh16 p) = p.
Proof. apply ntoh16_hton16. Qed.

(** C37. The text of an IPv4 address parses back to the address; an IPv6 address does
    in brackets, as BAddr_Parse2 documents, but not as BAddr_Print writes it,
    without brackets.  The text fits the buffers that the callers have. *)
Theorem address_text_roundtrip m `{NumericResolver} a addr_str port_str numeric :
  UINT16_MAX <= m -> BAddr_wf a -> blen addr_str = 128 -> blen port_str = 6 ->
  match a with
  | BAddr_ipv4 ip port => exists text, BAddr_Print a = Some text /\ blen text < BADDR_MAX_PRINT_LEN
      /\ BAddr_Parse2 m addr_str port_str text None numeric = Some (Some (a, None))
  | BAddr_ipv6 ip port => exists host text, BIPAddr_Print (BIPAddr_ipv6 ip) = Some host /\ BAddr_Print a = Some text /\ blen text < BADDR_MAX_PRINT_LEN
      /\ BAddr_Parse2 m addr_str port_str ([CHR "["] ++ host ++ cstr "]:" ++ print_dec (ntoh16 port)) None numeric = Some (Some (a, None))
      /\ BAddr_Parse2 m addr_str port_str text None numeric = Some None
  | _ => True
  end.
Proof.
  intros Hm Hwf Ha Hp. destruct a as [|ip port|ip port|]; try done; simpl in Hwf; unfold BADDR_MAX_PRINT_LEN.
  - destruct Hwf as [Hip Hport]. assert (Hq : 0 <= ntoh16 port < 65536) by apply hton16_range. destruct (print_port m Hm _ Hq) as (_ & Hl & _).
    destruct (ipv4_print_parse ip [0; 0; 0; 0] Hip eq_refl) as [_ Hlen].
    exists (ipaddr_print_addr ip ++ [58] ++ print_dec (ntoh16 port)). unfold BAddr_Print. rewrite print_ipv4. cbn [mbind option_bind].
    split; [done|]. split; [rewrite !blen_app; change (blen [58]) with 1; lia|].
    rewrite (parse2_ipv4 m Hm _ _ _ _ (mem32 ip)); try done; try (by apply print_addr_no); try lia; [|by apply getaddrinfo_ipv4].
    rewrite hton16_ntoh16 by done. pose proof (load32_mem32 ip [] Hip) as E. rewrite app_nil_r in E. by rewrite E.
  - destruct Hwf as (Hl & Hb & Hport). assert (Hq : 0 <= ntoh16 port < 65536) by apply hton16_range. destruct (print_port m Hm _ Hq) as (_ & Hpl & _).
    destruct (print_ipv6 ip Hl Hb) as (vs & H8 & Hvs & Ee & Ep). exists (join vs), (join vs ++ [58] ++ print_dec (ntoh16 port)).
    assert (Hlen : blen (join vs) <= 39) by (destruct vs as [|v vs]; [done|]; pose proof (blen_join v vs Hvs); simpl in H8; lia).
    unfold BAddr_Print. rewrite Ep. cbn [mbind option_bind]. split_and!; try done.
    + rewrite !blen_app. change (blen [58]) with 1. lia.
    + rewrite (parse2_ipv6 m Hm _ _ _ _ ip); try done; try (by apply join_no); try lia; [by rewrite hton16_ntoh16|]. rewrite <- Ee. by apply getaddrinfo_ipv6.
    + by apply bare_ipv6_rejected.
Qed.

(** * A resolver for numeric addresses *)

Definition numeric_lookup (v6 numeric : bool) (s : bytes) : option bytes :=
  let r := if v6 then default None (ipaddr6_parse_ipv6_addr s (repeat 0 16) (repeat 0 4))
           else mem32 <$> default None (ipaddr_parse_ipv4_addr s (repeat 0 4)) in
  match r with
  | Some a => if bool_decide (length a = if v6 then 16 else 4)%nat && bool_decide (is_bytes a) then Some a else None
  | None => None
  end.

#[export, refine] Instance numeric_resolver : Resolver := {| getaddrinfo := numeric_lookup |}.
Proof.
  all: intros v6 numeric s a; unfold numeric_lookup; destruct (if v6 then _ else _) as [x|]; [|done];
    destruct (_ && _) eqn:E; [|done]; intros [= <-]; apply andb_true_iff in E as [E1 E2]; by apply bool_decide_eq_true in E1, E2.
Defined.

#[export] Instance numeric_resolver_parses : NumericResolver.
Proof.
  split.
  - intros numeric ip Hip. simpl. unfold numeric_lookup. rewrite (proj1 (ipv4_print_parse ip (repeat 0 4) Hip eq_refl)).
    cbn [default from_option id fmap option_fmap option_map]. rewrite bool_decide_eq_true_2 by done.
    by rewrite bool_decide_eq_true_2 by apply write_le32_bytes.
  - intros numeric vs Hl Hvs. simpl. unfold numeric_lookup. rewrite parse_full by done. cbn [default from_option id].
    rewrite bool_decide_eq_true_2; [rewrite bool_decide_eq_true_2; [done|]|].
    + unfold enc, is_bytes. rewrite List.Forall_forall. intros b (l & Hl' & Hb)%in_concat. apply in_map_iff in Hl' as (v & <- & Hv).
      rewrite List.Forall_forall in Hvs. specialize (Hvs v Hv). unfold is_block in Hvs.
      destruct Hb as [<-|[<-|[]]]; unfold is_byte; [rewrite Z.shiftr_div_pow2 by lia; dlia|].
      change 255 with (Z.ones 8). rewrite Z.land_ones by lia. change (2 ^ 8) with 256. dlia.
    + do 9 (destruct vs as [|? vs]; try done).
Qed.

Lemma address_text_roundtrip_witness :
  exists text, BAddr_Print (BAddr_ipv4 16777343 20480) = Some text /\ blen text < BADDR_MAX_PRINT_LEN
    /\ BAddr_Parse2 INT_MAX (repeat 0 128) (repeat 0 6) text None true = Some (Some (BAddr_ipv4 16777343 20480, None)).
Proof.
  exact (address_text_roundtrip INT_MAX (BAddr_ipv4 16777343 20480) (repeat 0 128) (repeat 0 6) true
           ltac:(done) ltac:(done) eq_refl eq_refl).
Defined.

Lemma address_parsing_safe_witness :
  0 <= s32 (blen (cstr "[fe80::1]:443")) /\
  (exists r, BAddr_Parse2 INT_MAX (repeat 0 128) (repeat 0 6) (cstr "[fe80::1]:443") None true = Some r
     /\ match r with Some (a, _) => BAddr_wf a /\ BAddr_is_ip a = true | None => True end)
  /\ exists r, BIPAddr_Resolve (repeat 0 129) (cstr "[fe80::1]:443") true = Some r
     /\ match r with
        | Some (BIPAddr_ipv4 ip) => 0 <= ip < 4294967296
        | Some (BIPAddr_ipv6 ip) => length ip = 16%nat /\ is_bytes ip
        | Some BIPAddr_none => False
        | None => True
        end.
Proof.
  split; [done|].
  destruct (address_parsing_safe INT_MAX (cstr "[fe80::1]:443") (repeat 0 128) (repeat 0 6) (repeat 0 129) None true) as (H1 & _ & H2);
    [by repeat constructor|done..|].
  split; [exact H1|]. by apply H2.
Defined.

(** Blanks and a sign are accepted in front of a port. *)
Example port_of_strtol :
  BAddr_Parse2 INT_MAX (repeat 0 128) (repeat 0 6) (cstr "127.0.0.1: +80") None true = Some (Some (BAddr_ipv4 16777343 (hton16 80), None)).
Proof. reflexivity. Qed.
