(* ===== verification/ReadFile.v ===== *)
(** misc/read_file.h: a file is read into a buffer that doubles.

    The file system is a parameter: what a path opens, how many bytes an fread
    returns, whether it fails, and which allocations succeed.  The bytes of a new
    buffer are arbitrary. *)

From S2P Require Import Prelude.
Open Scope Z_scope.

Definition SIZE_MAX : Z := UINT64_MAX.

Record file_system := {
  fopen : bytes -> option bytes;        (* the contents behind a path *)
  fread_size : Z -> bytes -> Z;         (* how much of the rest is returned for a request *)
  fread_fails : bytes -> bool;          (* an error with that much left *)
  malloc_ok : Z -> bool;
  malloc_byte : Z -> Z }.               (* the contents of fresh memory *)

Section Read.
Context (fs : file_system).

(** [n] bytes of fresh memory, the first of them at offset [at]. *)
Definition fresh (at_ n : Z) : bytes := map (fun i => malloc_byte fs (at_ + Z.of_nat i)) (seq 0 (Z.to_nat n)).

(** fread(p, 1, size, f): the bytes and the rest of the file; at least one byte
    unless the request or the rest is empty. *)
Definition fread (size : Z) (rest : bytes) : bytes * bytes :=
  let n := Z.min (Z.max 1 (fread_size fs size rest)) (Z.min size (blen rest)) in
  (btake n rest, bdrop n rest).

Fixpoint read_loop (fuel : nat) (buf : bytes) (buf_len : Z) (rest : bytes) : option (option bytes) :=
  match fuel with
  | O => None
  | S fuel =>
      let buf_size := blen buf in
      grown ← (if buf_len =? buf_size then
                 if 2 >? SIZE_MAX / buf_size then Some None else
                 let newsize := 2 * buf_size in
                 if malloc_ok fs newsize then Some (Some (buf ++ fresh buf_size (newsize - buf_size))) else Some None
               else Some (Some buf));
      match grown with
      | None => Some None
      | Some buf =>
          let buf_size := blen buf in
          if fread_fails fs rest then Some None else
          let '(d, rest) := fread (buf_size - buf_len) rest in
          buf ← mem_write buf buf_len d;
          if blen d =? 0 then Some (Some (btake buf_len buf)) else
          read_loop fuel buf (buf_len + blen d) rest
      end
  end.

Definition read_file (file : bytes) : option (option bytes) :=
  match fopen fs file with
  | None => Some None
  | Some contents =>
      if negb (malloc_ok fs 128) then Some None else
      read_loop (S (length contents)) (fresh 0 128) 0 contents
  end.

(** * Correctness *)

Lemma blen_fresh at_ n : 0 <= n -> blen (fresh at_ n) = n.
Proof. intros. unfold blen, fresh. rewrite length_map, length_seq. lia. Qed.

Lemma fread_spec size rest d rest' : 0 < size -> fread size rest = (d, rest') ->
  rest = d ++ rest' /\ blen d <= size /\ (blen d = 0 <-> rest = []).
Proof.
  unfold fread. intros Hs [= <- <-]. pose proof (blen_nonneg rest). set (n := Z.min _ _).
  rewrite btake_bdrop. split; [done|]. rewrite blen_btake by (unfold n; lia). split; [unfold n; lia|]. split.
  - intros E. destruct rest as [|x rest]; [done|]. exfalso. unfold n in E. rewrite blen_cons in E. pose proof (blen_nonneg rest). lia.
  - intros ->. unfold n. change (blen []) with 0. lia.
Qed.

(** The part of the buffer that is filled, after a write behind it. *)
Lemma filled_write buf pre d buf' : btake (blen pre) buf = pre -> mem_write buf (blen pre) d = Some buf' -> btake (blen (pre ++ d)) buf' = pre ++ d.
Proof. intros Hp E. rewrite blen_app, (mem_write_prefix _ _ _ _ E). by rewrite Hp. Qed.

(** Every allocation and every fread succeeds. *)
Definition no_failures : Prop := (forall n, malloc_ok fs n = true) /\ forall r, fread_fails fs r = false.

Lemma read_loop_spec fuel : forall buf pre rest, (length rest < fuel)%nat -> 128 <= blen buf -> blen pre <= blen buf -> btake (blen pre) buf = pre ->
  exists r, read_loop fuel buf (blen pre) rest = Some r /\ (r = None \/ r = Some (pre ++ rest))
    /\ (no_failures -> blen (pre ++ rest) <= SIZE_MAX / 2 -> r = Some (pre ++ rest)).
Proof.
  induction fuel as [|fuel IH]; intros buf pre rest Hf Hb Hp Hpre; [lia|]. cbn [read_loop]. pose proof (blen_nonneg pre).
  set (grown := if blen pre =? blen buf then _ else _).
  assert (Hg : exists g, grown = Some g /\ match g with
    | Some b => 128 <= blen b /\ blen pre < blen b /\ btake (blen pre) b = pre
    | None => ~ (no_failures /\ blen (pre ++ rest) <= SIZE_MAX / 2) end).
  { unfold grown. destruct (Z.eqb_spec (blen pre) (blen buf)) as [E|E]; [|eexists; split; [done|]; split_and!; try done; lia].
    assert (Hs : (2 >? SIZE_MAX / blen buf) = true -> SIZE_MAX / 2 < blen buf).
    { rewrite Z.gtb_lt. intros H2. apply Z.div_lt_upper_bound; [lia|]. pose proof (Z.mul_succ_div_gt SIZE_MAX (blen buf) ltac:(lia)). nia. }
    destruct (2 >? _); [|destruct (malloc_ok fs _) eqn:Em].
    - exists None. split; [done|]. intros [_ H1]. specialize (Hs eq_refl). rewrite blen_app in H1. pose proof (blen_nonneg rest). lia.
    - eexists. split; [done|]. cbv beta iota. rewrite blen_app, blen_fresh by lia. split_and!; try lia. rewrite btake_app_le by lia. by rewrite Hpre.
    - exists None. split; [done|]. intros [[Hm _] _]. by rewrite Hm in Em. }
  destruct Hg as ([b|] & -> & Hg); cbn [mbind option_bind].
  2: { exists None. split_and!; [done|by left|]. intros H1 H2. destruct Hg. by split. }
  destruct Hg as (G1 & G2 & G3). destruct (fread_fails fs rest) eqn:Ef.
  { exists None. split_and!; [done|by left|]. intros [_ H1]. by rewrite H1 in Ef. }
  destruct (fread (blen b - blen pre) rest) as [d rest'] eqn:Er. apply fread_spec in Er as (-> & Hd & H0); [|lia].
  pose proof (blen_nonneg d). destruct (mem_write_some b (blen pre) d) as (b' & Eb & Lb); [lia..|]. rewrite Eb. cbn [mbind option_bind].
  pose proof (filled_write _ _ _ _ G3 Eb) as Hfill. destruct (Z.eqb_spec (blen d) 0) as [E|E].
  - destruct d; [|rewrite blen_cons in E; pose proof (blen_nonneg d); lia]. rewrite app_nil_r in Hfill. rewrite Hfill.
    rewrite (proj1 H0) by done. rewrite app_nil_r. eexists. split; [done|]. split; [by right|done].
  - rewrite <- blen_app. rewrite app_assoc. apply IH; [|lia|rewrite blen_app; lia|done].
    rewrite length_app in Hf. unfold blen in E. lia.
Qed.

Lemma read_file_result file :
  exists r, read_file file = Some r
    /\ match fopen fs file with
       | None => r = None
       | Some contents => (r = None \/ r = Some contents) /\ (no_failures -> blen contents <= SIZE_MAX / 2 -> r = Some contents)
       end.
Proof.
  unfold read_file. destruct (fopen fs file) as [contents|]; [|by exists None].
  destruct (malloc_ok fs 128) eqn:Em; cbn [negb]; [|exists None; split; [done|]; split; [by left|]; intros [Hm _]; by rewrite Hm in Em].
  apply (read_loop_spec (S (length contents)) (fresh 0 128) []); [lia|rewrite blen_fresh; lia| |done]. rewrite blen_fresh by lia. done.
Qed.

(** read_file returns the contents of the file or fails, however fread cuts it;
    it does not fail when no allocation and no read does.  It never writes outside
    the buffer. *)
Theorem read_file_contents file :
  exists r, read_file file = Some r
    /\ match fopen fs file with
       | None => r = None
       | Some contents => (r = None \/ r = Some contents) /\ (no_failures -> blen contents <= SIZE_MAX / 2 -> r = Some contents)
       end.
Proof. apply read_file_result. Qed.
End Read.
