(* ===== verification/Tun2socksUdp.v ===== *)
(** The packet path of tun2socks.c between the TUN device and the UDP relay:
    [process_device_udp_packet], [device_read_handler_send],
    [netif_input_func], [common_netif_output] and
    [udpgw_client_handler_received].

    A fault ([None]) is an access outside an object or a failed ASSERT. *)

From S2P Require Import Prelude ByteOrder BAddr IpProto.

(** The globals of tun2socks.c this path reads.  [udpgw_remote_server_addr],
    [netif_ip6addr] and [opt_dnsgw] say whether the option pointer is set. *)
Record udp_env := {
  udpgw_remote_server_addr : bool;
  netif_ip6addr : bool;
  opt_dnsgw : bool;
  udp_mtu : Z;
  device_mtu : Z }.

(** ** DNS query recognition *)

Definition sizeof_DnsHeader : Z := 12.

(** The bit fields of DnsHeader as the compiler lays them out (low bit first). *)
Definition dns_qr (d : bytes) : Z := Z.shiftr (Z.land (nth 2 d 0) 128) 7.
Definition dns_rcode (d : bytes) : Z := Z.land (nth 3 d 0) 15.
Definition dns_ans_count (d : bytes) : Z := load16 (drop 6 d).
Definition dns_auth_count (d : bytes) : Z := load16 (drop 8 d).

Definition is_dns_query (d : bytes) : bool :=
  (dns_qr d =? 0) && (dns_rcode d =? 0) && (dns_ans_count d =? 0) && (dns_auth_count d =? 0).

(** ** From the device to the relay *)

Record submit := { sub_local : BAddr; sub_remote : BAddr; sub_is_dns : bool; sub_data : bytes }.

(** The part after the switch: the length check and the call to
    SocksUdpGwClient_SubmitPacket. *)
Definition submit_packet (env : udp_env) (local remote : BAddr) (is_dns : bool) (data : bytes)
    : option (option submit) :=
  if blen data >? udp_mtu env then Some None
  else Some (Some {| sub_local := local; sub_remote := remote;
                     sub_is_dns := is_dns; sub_data := data |}).

Definition process_udp_ipv4 (env : udp_env) (data : bytes) : option (option submit) :=
  if blen data <? sizeof_ipv4_header then Some None else
  proto ← mem_read data 9 1;
  if negb (nth 0 proto 0 =? IPV4_PROTOCOL_UDP) then Some None else
  r ← ipv4_check data;
  match r with None => Some None | Some (ipv4_header, data) =>
  r ← udp_check data;
  match r with None => Some None | Some (udp_header, data) =>
  let checksum_in_packet := udp_cksum udp_header in
  let udp_header := set_udp_cksum 0 udp_header in
  checksum_computed ← udp_checksum udp_header data (blen data)
        (source_address ipv4_header) (destination_address ipv4_header);
  if negb (checksum_in_packet =? checksum_computed) then Some None else
  let local_addr := BAddr_MakeIPv4 (source_address ipv4_header) (source_port udp_header) in
  let remote_addr := BAddr_MakeIPv4 (destination_address ipv4_header) (dest_port udp_header) in
  let is_dns := opt_dnsgw env && (dest_port udp_header =? hton16 53) in
  if is_dns then
    if blen data <? sizeof_DnsHeader then submit_packet env local_addr remote_addr false data
    else header ← mem_read data 0 sizeof_DnsHeader;
         submit_packet env local_addr remote_addr (is_dns_query header) data
  else submit_packet env local_addr remote_addr false data
  end end.

Definition process_udp_ipv6 (env : udp_env) (data : bytes) : option (option submit) :=
  if negb (netif_ip6addr env) then Some None else
  if blen data <? sizeof_ipv6_header then Some None else
  proto ← mem_read data 6 1;
  if negb (nth 0 proto 0 =? IPV6_NEXT_UDP) then Some None else
  r ← ipv6_check data;
  match r with None => Some None | Some (ipv6_header, data) =>
  r ← udp_check data;
  match r with None => Some None | Some (udp_header, data) =>
  let checksum_in_packet := udp_cksum udp_header in
  let udp_header := set_udp_cksum 0 udp_header in
  checksum_computed ← udp_ip6_checksum udp_header data (blen data)
        (source_address6 ipv6_header) (destination_address6 ipv6_header);
  if negb (checksum_in_packet =? checksum_computed) then Some None else
  let local_addr := BAddr_MakeIPv6 (source_address6 ipv6_header) (source_port udp_header) in
  let remote_addr := BAddr_MakeIPv6 (destination_address6 ipv6_header) (dest_port udp_header) in
  submit_packet env local_addr remote_addr false data
  end end.

(** The version field of the first byte, 0 if there is none. *)
Definition ip_version_of (data : bytes) : option Z :=
  if blen data >? 0 then first ← data !! 0%nat; Some (Z.shiftr first 4) else Some 0.

Definition process_device_udp_packet (env : udp_env) (data : bytes) : option (option submit) :=
  if negb (udpgw_remote_server_addr env) then Some None else
  ip_version ← ip_version_of data;
  if ip_version =? 4 then process_udp_ipv4 env data
  else if ip_version =? 6 then process_udp_ipv6 env data
  else Some None.

(** ** Into lwIP *)

Inductive netif_input_action := To_ip_input | To_ip6_input | Pbuf_freed.

Definition netif_input_func (env : udp_env) (payload : bytes) : option netif_input_action :=
  ip_version ← ip_version_of payload;
  Some (if ip_version =? 4 then To_ip_input
        else if (ip_version =? 6) && netif_ip6addr env then To_ip6_input
        else Pbuf_freed).

(** What happens to a packet read from the device.  [pbuf_alloc_ok] is the
    outcome of lwIP's allocator for a length. *)
Inductive device_action :=
| Udp_submitted (s : submit)
| Dropped_too_large
| Dropped_no_pbuf
| Lwip_input (a : netif_input_action) (payload : bytes).

Definition device_read_handler_send (env : udp_env) (pbuf_alloc_ok : Z -> bool) (data : bytes)
    : option device_action :=
  r ← process_device_udp_packet env data;
  match r with
  | Some s => Some (Udp_submitted s)
  | None =>
      if blen data >? UINT16_MAX then Some Dropped_too_large
      else if negb (pbuf_alloc_ok (blen data)) then Some Dropped_no_pbuf
      else a ← netif_input_func env data; Some (Lwip_input a data)
  end.

(** ** From lwIP to the device *)

(** The copying loop over the chunks of a pbuf chain: [None] inside is the
    jump to [out]. *)
Fixpoint copy_chunks (mtu : Z) (device_write_buf : bytes) (len : Z) (p : list bytes)
    : option (option (bytes * Z)) :=
  match p with
  | [] => Some (Some (device_write_buf, len))
  | chunk :: next =>
      if blen chunk >? mtu - len then Some None else
      buf ← mem_write device_write_buf len chunk;
      copy_chunks mtu buf (len + blen chunk) next
  end.

(** [p] is the chain of payload chunks; the result is the packet handed to
    BTap_Send, if any. *)
Definition common_netif_output (env : udp_env) (quitting : bool) (device_write_buf : bytes)
    (p : list bytes) : option (option bytes) :=
  if quitting then Some None else
  match p with
  | [] => None
  | [chunk] => if blen chunk >? device_mtu env then Some None else Some (Some chunk)
  | _ =>
      r ← copy_chunks (device_mtu env) device_write_buf 0 p;
      match r with
      | None => Some None
      | Some (buf, len) => pkt ← mem_read buf 0 len; Some (Some pkt)
      end
  end.

(** ** From the relay to the device *)

Definition build_ipv4_udp (remote_ip remote_port local_ip local_port : Z) (data : bytes)
    : option (ipv4_header * udp_header) :=
  let iph := {| version4_ihl4 := IPV4_MAKE_VERSION_IHL sizeof_ipv4_header;
                ds := hton8 0;
                total_length := hton16 (sizeof_ipv4_header + sizeof_udp_header + blen data);
                identification := hton16 0;
                flags3_fragmentoffset13 := hton16 0;
                ttl := hton8 64;
                protocol := hton8 IPV4_PROTOCOL_UDP;
                ip_checksum := hton16 0;
                source_address := remote_ip;
                destination_address := local_ip |} in
  let iph := set_ip_checksum (ipv4_checksum iph []) iph in
  let udph := {| source_port := remote_port; dest_port := local_port;
                 udp_len := hton16 (sizeof_udp_header + blen data);
                 udp_cksum := hton16 0 |} in
  checksum ← udp_checksum udph data (blen data) (source_address iph) (destination_address iph);
  Some (iph, set_udp_cksum checksum udph).

Definition build_ipv6_udp (remote_ip : bytes) (remote_port : Z) (local_ip : bytes)
    (local_port : Z) (data : bytes) : option (ipv6_header * udp_header) :=
  source ← mem_read remote_ip 0 16;
  destination ← mem_read local_ip 0 16;
  let iph := {| version4_tc4 := hton8 (Z.shiftl 6 4);
                tc4_fl4 := hton8 0;
                fl := hton16 0;
                payload_length := hton16 (sizeof_udp_header + blen data);
                next_header := hton8 IPV6_NEXT_UDP;
                hop_limit := hton8 64;
                source_address6 := source;
                destination_address6 := destination |} in
  let udph := {| source_port := remote_port; dest_port := local_port;
                 udp_len := hton16 (sizeof_udp_header + blen data);
                 udp_cksum := hton16 0 |} in
  checksum ← udp_ip6_checksum udph data (blen data) (source_address6 iph) (destination_address6 iph);
  Some (iph, set_udp_cksum checksum udph).

(** Write the two headers and the payload to device_write_buf and send. *)
Definition send_from_write_buf (device_write_buf iph udph data : bytes) : option (option bytes) :=
  buf ← mem_write device_write_buf 0 iph;
  buf ← mem_write buf (blen iph) udph;
  buf ← mem_write buf (blen iph + blen udph) data;
  pkt ← mem_read buf 0 (blen iph + blen udph + blen data);
  Some (Some pkt).

Definition udpgw_client_handler_received (env : udp_env) (device_write_buf : bytes)
    (local_addr remote_addr : BAddr) (data : bytes) : option (option bytes) :=
  if negb (udpgw_remote_server_addr env) then None else
  match local_addr, remote_addr with
  | BAddr_ipv4 local_ip local_port, BAddr_ipv4 remote_ip remote_port =>
      if (blen data >? UINT16_MAX - (sizeof_ipv4_header + sizeof_udp_header))
         || (blen data >? device_mtu env - (sizeof_ipv4_header + sizeof_udp_header))
      then Some None else
      '(iph, udph) ← build_ipv4_udp remote_ip remote_port local_ip local_port data;
      send_from_write_buf device_write_buf (ipv4_header_mem iph) (udp_header_mem udph) data
  | BAddr_ipv6 local_ip local_port, BAddr_ipv6 remote_ip remote_port =>
      if negb (netif_ip6addr env) then Some None else
      if (blen data >? UINT16_MAX - sizeof_udp_header)
         || (blen data >? device_mtu env - (sizeof_ipv6_header + sizeof_udp_header))
      then Some None else
      '(iph, udph) ← build_ipv6_udp remote_ip remote_port local_ip local_port data;
      send_from_write_buf device_write_buf (ipv6_header_mem iph) (udp_header_mem udph) data
  | _, _ => None
  end.

(** * Lemmas *)

#[global] Arguments ipv4_checksum : simpl never.
#[global] Arguments udp_checksum_value : simpl never.
#[global] Arguments udp_ip6_checksum_value : simpl never.
#[global] Arguments udp_checksum : simpl never.
#[global] Arguments udp_ip6_checksum : simpl never.

Lemma submit_packet_safe env l r i d : submit_packet env l r i d <> None.
Proof. unfold submit_packet. by case_match. Qed.

(** The addresses of a header that was read from a packet. *)
Lemma ipv6_check_addresses data h p : ipv6_check data = Some (Some (h, p)) ->
  blen (source_address6 h) = 16 /\ blen (destination_address6 h) = 16.
Proof.
  unfold ipv6_check. destruct (blen data <? sizeof_ipv6_header); [done|].
  destruct (mem_read data 0 sizeof_ipv6_header) as [q|] eqn:Eq; [|done]. cbn [mbind option_bind].
  destruct (negb _); [done|]. destruct (_ >? _); [done|]. destruct (mem_read data sizeof_ipv6_header _) as [pl|]; [|done]. intros [= <- <-].
  apply mem_read_inv in Eq as (_ & _ & Hl & ->). unfold sizeof_ipv6_header in *. set (q := btake 40 (bdrop 0 data)).
  assert (Hq : length q = 40%nat).
  { unfold q. assert (H : blen (btake 40 (bdrop 0 data)) = 40) by (rewrite bdrop_0, blen_btake; lia). unfold blen in H. lia. }
  unfold ipv6_header_load. cbn [source_address6 destination_address6]. unfold blen, btake. rewrite !length_take, !length_drop. lia.
Qed.

Lemma ip_version_total data : exists v, ip_version_of data = Some v.
Proof. unfold ip_version_of. destruct data as [|b d]; [by exists 0|]. destruct (_ >? _); by eexists. Qed.

(** Walk down the two packet parsers. *)
Ltac parse_safe :=
  repeat match goal with
  | |- submit_packet _ _ _ _ _ <> None => apply submit_packet_safe
  | |- (if ?b then _ else _) <> None => destruct b eqn:?; try done
  | |- context [ipv4_check ?d ≫= _] =>
      destruct (ipv4_check d) as [[[??]|]|] eqn:?; [| |by destruct (ipv4_check_safe d)]; simpl; try done
  | |- context [ipv6_check ?d ≫= _] =>
      destruct (ipv6_check d) as [[[??]|]|] eqn:?; [| |by destruct (ipv6_check_safe d)]; simpl; try done
  | |- context [udp_check ?d ≫= _] =>
      destruct (udp_check d) as [[[??]|]|] eqn:?; [| |by destruct (udp_check_safe d)]; simpl; try done
  | |- context [udp_checksum ?h ?d (blen ?d) ?x ?y ≫= _] => rewrite udp_checksum_ok; cbn [mbind option_bind]
  | E : ipv6_check _ = Some (Some (?h, _)) |- context [udp_ip6_checksum ?u ?d (blen ?d) (source_address6 ?h) _ ≫= _] =>
      rewrite udp_ip6_checksum_ok by (destruct (ipv6_check_addresses _ _ _ E); lia); cbn [mbind option_bind]
  | |- context [mem_read ?m ?o ?l ≫= _] =>
      rewrite (mem_read_in m o l) by (zbool; lia); cbn [mbind option_bind]
  end.

Lemma process_udp_ipv4_safe env data : process_udp_ipv4 env data <> None.
Proof. unfold process_udp_ipv4, sizeof_ipv4_header, sizeof_DnsHeader. parse_safe. Qed.

Lemma process_udp_ipv6_safe env data : process_udp_ipv6 env data <> None.
Proof. unfold process_udp_ipv6, sizeof_ipv6_header. parse_safe. Qed.

(** Every submission made by the parsers, with what the checks established. *)
Definition submit_ok (env : udp_env) (data : bytes) (s : submit) : Prop :=
  blen (sub_data s) <= udp_mtu env
  /\ BAddr_is_ip (sub_local s) = true /\ BAddr_is_ip (sub_remote s) = true
  /\ BAddr_type (sub_local s) = BAddr_type (sub_remote s)
  /\ (exists off, mem_read data off (blen (sub_data s)) = Some (sub_data s)).

Lemma mem_read_sub data off len p off' len' p' :
  mem_read data off len = Some p -> mem_read p off' len' = Some p' ->
  mem_read data (off + off') len' = Some p'.
Proof.
  intros (? & ? & ? & ->)%mem_read_inv (? & ? & L & ->)%mem_read_inv.
  rewrite blen_btake in L by (rewrite blen_bdrop; lia).
  rewrite mem_read_in by lia. f_equal. unfold btake, bdrop.
  rewrite skipn_firstn_comm, take_take, drop_drop. f_equal; [lia|]. f_equal. lia.
Qed.

Lemma mem_read_len data off len p : mem_read data off len = Some p -> blen p = len.
Proof. intros (? & ? & ? & ->)%mem_read_inv. rewrite blen_btake; [done|]. rewrite blen_bdrop; lia. Qed.

(** Inversion of a checker that accepted. *)
Ltac inv_check H :=
  repeat match type of H with
  | (if ?b then _ else _) = _ => destruct b eqn:?; try discriminate H
  | (mem_read ?m ?o ?l ≫= _) = _ => destruct (mem_read m o l) as [?p|] eqn:?; try discriminate H;
      cbn [mbind option_bind] in H
  | (udp_checksum ?h ?d ?n ?x ?y ≫= _) = _ => destruct (udp_checksum h d n x y) as [?c|] eqn:?; try discriminate H;
      cbn [mbind option_bind] in H
  | (udp_ip6_checksum ?h ?d ?n ?x ?y ≫= _) = _ => destruct (udp_ip6_checksum h d n x y) as [?c|] eqn:?; try discriminate H;
      cbn [mbind option_bind] in H
  end.

Lemma ipv4_check_payload data h p : ipv4_check data = Some (Some (h, p)) ->
  exists off, mem_read data off (blen p) = Some p.
Proof.
  unfold ipv4_check. intros H. inv_check H. injection H as <- <-.
  eexists. erewrite mem_read_len by eassumption. eassumption.
Qed.

Lemma ipv6_check_payload data h p : ipv6_check data = Some (Some (h, p)) ->
  exists off, mem_read data off (blen p) = Some p.
Proof.
  unfold ipv6_check. intros H. inv_check H. injection H as <- <-.
  eexists. erewrite mem_read_len by eassumption. eassumption.
Qed.

Lemma udp_check_payload data h p : udp_check data = Some (Some (h, p)) ->
  exists off, mem_read data off (blen p) = Some p.
Proof.
  unfold udp_check. intros H. inv_check H. injection H as <- <-.
  eexists. erewrite mem_read_len by eassumption. eassumption.
Qed.

Lemma submit_packet_inv env l r i d s : submit_packet env l r i d = Some (Some s) ->
  blen d <= udp_mtu env /\ s = {| sub_local := l; sub_remote := r; sub_is_dns := i; sub_data := d |}.
Proof. unfold submit_packet. case_match eqn:E; [done|]. intros [= <-]. zbool. split; [lia|done]. Qed.

Lemma process_udp_ipv4_submit env data s : process_udp_ipv4 env data = Some (Some s) ->
  submit_ok env data s.
Proof.
  unfold process_udp_ipv4. intros H. inv_check H.
  destruct (ipv4_check data) as [[[ih ip]|]|] eqn:E4; try discriminate H. simpl in H.
  destruct (udp_check ip) as [[[uh up]|]|] eqn:EU; try discriminate H. simpl in H.
  destruct (ipv4_check_payload _ _ _ E4) as [o1 R1], (udp_check_payload _ _ _ EU) as [o2 R2].
  inv_check H; apply submit_packet_inv in H as [? ->]; (repeat split; [done..|]);
    eexists; eapply mem_read_sub; eassumption.
Qed.

Lemma process_udp_ipv6_submit env data s : process_udp_ipv6 env data = Some (Some s) ->
  submit_ok env data s.
Proof.
  unfold process_udp_ipv6. intros H. inv_check H.
  destruct (ipv6_check data) as [[[ih ip]|]|] eqn:E6; try discriminate H. simpl in H.
  destruct (udp_check ip) as [[[uh up]|]|] eqn:EU; try discriminate H. simpl in H.
  destruct (ipv6_check_payload _ _ _ E6) as [o1 R1], (udp_check_payload _ _ _ EU) as [o2 R2].
  inv_check H; apply submit_packet_inv in H as [? ->]; (repeat split; [done..|]);
    eexists; eapply mem_read_sub; eassumption.
Qed.

(** ** The write buffer *)

Lemma send_from_write_buf_ok buf iph udph data :
  blen iph + blen udph + blen data <= blen buf ->
  send_from_write_buf buf iph udph data = Some (Some (iph ++ udph ++ data)).
Proof.
  intros L. pose proof (blen_nonneg iph). pose proof (blen_nonneg udph). pose proof (blen_nonneg data).
  unfold send_from_write_buf.
  destruct (mem_write buf 0 iph) as [b1|] eqn:E1; [|rewrite mem_write_in in E1 by lia; done].
  pose proof (mem_write_inv _ _ _ _ E1) as (_ & _ & L1 & _). apply mem_write_prefix in E1. simpl.
  destruct (mem_write b1 _ udph) as [b2|] eqn:E2; [|rewrite mem_write_in in E2 by lia; done].
  pose proof (mem_write_inv _ _ _ _ E2) as (_ & _ & L2 & _). apply mem_write_prefix in E2. simpl.
  destruct (mem_write b2 _ data) as [b3|] eqn:E3; [|rewrite mem_write_in in E3 by lia; done].
  pose proof (mem_write_inv _ _ _ _ E3) as (_ & _ & L3 & _). apply mem_write_prefix in E3. simpl.
  rewrite mem_read_in by lia. simpl. rewrite bdrop_0, E3, E2.
  replace (0 + blen iph) with (blen iph) in E1 by lia. rewrite E1.
  by rewrite <- !app_assoc.
Qed.

(** ** The checkers accept what the builders produce *)

Lemma ipv4_check_built h payload : ipv4_header_wf h ->
  version4_ihl4 h = 69 -> 20 + blen payload < 65536 ->
  total_length h = hton16 (20 + blen payload) ->
  ip_checksum h = ipv4_checksum (set_ip_checksum 0 h) [] ->
  ipv4_check (ipv4_header_mem h ++ payload) = Some (Some (h, payload)).
Proof.
  intros W V L T C. pose proof (blen_nonneg payload). unfold ipv4_check, sizeof_ipv4_header.
  rewrite blen_app, ipv4_header_mem_len. zdecide.
  rewrite (mem_read_app (ipv4_header_mem h) payload : mem_read _ 0 20 = _). cbn [mbind option_bind].
  pose proof (ipv4_header_load_mem h [] W) as LM. rewrite app_nil_r in LM. rewrite LM.
  unfold IPV4_GET_VERSION, IPV4_GET_IHL. rewrite V. change (Z.shiftr (Z.land 69 240) 4) with 4.
  change (u16 (Z.shiftr (Z.land 69 15) 0 * 4)) with 20.
  rewrite T, ntoh16_hton16 by lia. zbool. zdecide.
  rewrite (mem_read_in _ 20 (20 - 20)) by (autorewrite with cmem; lia). cbn [mbind option_bind].
  change (btake (20 - 20) (bdrop 20 (ipv4_header_mem h ++ payload))) with (@nil Z).
  change (hton16 0) with 0. rewrite <- C, Z.eqb_refl. cbn [negb].
  rewrite mem_read_in by (autorewrite with cmem; lia). cbn [mbind option_bind].
  rewrite bdrop_app_exact by done. replace (20 + blen payload - 20) with (blen payload) by lia.
  by rewrite btake_all.
Qed.

Lemma ipv6_check_built h payload : ipv6_header_wf h -> version4_tc4 h = 96 ->
  blen payload < 65536 -> payload_length h = hton16 (blen payload) ->
  ipv6_check (ipv6_header_mem h ++ payload) = Some (Some (h, payload)).
Proof.
  intros W V L T. pose proof (blen_nonneg payload). unfold ipv6_check, sizeof_ipv6_header.
  pose proof (ipv6_header_mem_len h W) as LH.
  rewrite blen_app, LH. zdecide.
  pose proof (mem_read_app (ipv6_header_mem h) payload) as R. rewrite LH in R. rewrite R. cbn [mbind option_bind].
  pose proof (ipv6_header_load_mem h [] W) as LM. rewrite app_nil_r in LM. rewrite LM. rewrite V. change (Z.shiftr (ntoh8 96) 4) with 6.
  rewrite T, ntoh16_hton16 by lia. zbool. zdecide.
  rewrite mem_read_in by (rewrite ?blen_app; lia). cbn [mbind option_bind].
  rewrite bdrop_app_exact by done. by rewrite btake_all.
Qed.

Lemma udp_check_built h data : udp_header_wf h -> 8 + blen data < 65536 ->
  udp_len h = hton16 (8 + blen data) ->
  udp_check (udp_header_mem h ++ data) = Some (Some (h, data)).
Proof.
  intros W L T. pose proof (blen_nonneg data). unfold udp_check, sizeof_udp_header.
  rewrite blen_app, udp_header_mem_len. zdecide.
  rewrite (mem_read_app (udp_header_mem h) data : mem_read _ 0 8 = _). cbn [mbind option_bind].
  pose proof (udp_header_load_mem h [] W) as LM. rewrite app_nil_r in LM. rewrite LM.
  rewrite T, ntoh16_hton16 by lia. zbool. zdecide.
  rewrite mem_read_in by (autorewrite with cmem; lia). cbn [mbind option_bind].
  rewrite bdrop_app_exact by done. replace (8 + blen data - 8) with (blen data) by lia.
  by rewrite btake_all.
Qed.

Lemma ipv4_checksum_range h e : is_u16 (ipv4_checksum h e).
Proof. apply hton16_range. Qed.
Lemma udp_checksum_range h d x y : is_u16 (udp_checksum_value h d x y).
Proof. apply hton16_range. Qed.
Lemma udp_ip6_checksum_range h d x y : is_u16 (udp_ip6_checksum_value h d x y).
Proof. apply hton16_range. Qed.
#[local] Hint Resolve ipv4_checksum_range udp_checksum_range udp_ip6_checksum_range : core.

Lemma is_u16_hton16 x : is_u16 (hton16 x).
Proof. apply hton16_range. Qed.
#[local] Hint Resolve is_u16_hton16 : core.

Lemma build_ipv4_udp_wf rip rport lip lport data iph udph :
  is_u32 rip -> is_u16 rport -> is_u32 lip -> is_u16 lport ->
  build_ipv4_udp rip rport lip lport data = Some (iph, udph) ->
  ipv4_header_wf iph /\ udp_header_wf udph.
Proof.
  intros ? ? ? ?. unfold build_ipv4_udp. rewrite udp_checksum_ok. intros [= <- <-]. unfold ipv4_header_wf, udp_header_wf. simpl.
  change (IPV4_MAKE_VERSION_IHL sizeof_ipv4_header) with 69.
  unfold hton8, IPV4_PROTOCOL_UDP, is_u8. intuition (auto; lia).
Qed.

Lemma build_ipv6_udp_wf rip rport lip lport data iph udph :
  length rip = 16%nat -> is_bytes rip -> is_u16 rport ->
  length lip = 16%nat -> is_bytes lip -> is_u16 lport ->
  build_ipv6_udp rip rport lip lport data = Some (iph, udph) ->
  ipv6_header_wf iph /\ udp_header_wf udph
  /\ source_address6 iph = rip /\ destination_address6 iph = lip.
Proof.
  intros Lr ? ? Ll ? ?. unfold build_ipv6_udp.
  assert (forall l : bytes, length l = 16%nat -> mem_read l 0 16 = Some l) as T.
  { intros l Hl. rewrite mem_read_in by (unfold blen; lia). rewrite bdrop_0. unfold btake. rewrite take_ge; [done|lia]. }
  rewrite !T by done. cbn [mbind option_bind]. rewrite udp_ip6_checksum_ok by (simpl; unfold blen; lia). intros [= <- <-].
  unfold ipv6_header_wf, udp_header_wf. simpl. change (Z.shiftl 6 4) with 96.
  unfold hton8, IPV6_NEXT_UDP, is_u8. intuition (auto; lia).
Qed.

Lemma build_ipv4_udp_total rip rport lip lport data : exists iph udph, build_ipv4_udp rip rport lip lport data = Some (iph, udph).
Proof. unfold build_ipv4_udp. rewrite udp_checksum_ok. by eexists _, _. Qed.

Lemma build_ipv6_udp_total rip rport lip lport data : length rip = 16%nat -> length lip = 16%nat ->
  exists iph udph, build_ipv6_udp rip rport lip lport data = Some (iph, udph).
Proof.
  intros Lr Ll. unfold build_ipv6_udp. rewrite !mem_read_in by (unfold blen; lia). cbn [mbind option_bind].
  rewrite udp_ip6_checksum_ok by (simpl; rewrite bdrop_0, blen_btake; unfold blen; lia). by eexists _, _.
Qed.

Lemma build_ipv4_udp_fields rip rport lip lport data iph udph :
  build_ipv4_udp rip rport lip lport data = Some (iph, udph) ->
  (version4_ihl4 iph = 69 /\ protocol iph = 17
   /\ total_length iph = hton16 (28 + blen data)
   /\ ip_checksum iph = ipv4_checksum (set_ip_checksum 0 iph) []
   /\ source_address iph = rip /\ destination_address iph = lip)
  /\ source_port udph = rport /\ dest_port udph = lport /\ udp_len udph = hton16 (8 + blen data)
  /\ udp_cksum udph = udp_checksum_value (set_udp_cksum 0 udph) data rip lip.
Proof. unfold build_ipv4_udp. rewrite udp_checksum_ok. intros [= <- <-]. repeat split; reflexivity. Qed.

Lemma build_ipv6_udp_fields rip rport lip lport data iph udph :
  build_ipv6_udp rip rport lip lport data = Some (iph, udph) ->
  (version4_tc4 iph = 96 /\ next_header iph = 17
   /\ payload_length iph = hton16 (8 + blen data))
  /\ source_port udph = rport /\ dest_port udph = lport /\ udp_len udph = hton16 (8 + blen data)
  /\ udp_cksum udph = udp_ip6_checksum_value (set_udp_cksum 0 udph) data
                        (source_address6 iph) (destination_address6 iph).
Proof.
  unfold build_ipv6_udp. intros H.
  destruct (mem_read rip 0 16) as [source|] eqn:E1; [|done]. destruct (mem_read lip 0 16) as [destination|] eqn:E2; [|done]. cbn [mbind option_bind] in H.
  rewrite udp_ip6_checksum_ok in H by (simpl; erewrite mem_read_len by eassumption; lia). injection H as <- <-. repeat split; reflexivity.
Qed.

Lemma process_udp_ipv4_built env iph udph data : ipv4_header_wf iph -> udp_header_wf udph ->
  version4_ihl4 iph = 69 -> protocol iph = 17 -> 28 + blen data < 65536 ->
  total_length iph = hton16 (28 + blen data) -> udp_len udph = hton16 (8 + blen data) ->
  ip_checksum iph = ipv4_checksum (set_ip_checksum 0 iph) [] ->
  udp_cksum udph = udp_checksum_value (set_udp_cksum 0 udph) data
                     (source_address iph) (destination_address iph) ->
  blen data <= udp_mtu env ->
  exists is_dns,
  process_udp_ipv4 env (ipv4_header_mem iph ++ udp_header_mem udph ++ data)
  = Some (Some {| sub_local := BAddr_ipv4 (source_address iph) (source_port udph);
                  sub_remote := BAddr_ipv4 (destination_address iph) (dest_port udph);
                  sub_is_dns := is_dns; sub_data := data |}).
Proof.
  intros W1 W2 V P L T TU C CU M. pose proof (blen_nonneg data). unfold process_udp_ipv4. cbv zeta.
  assert (LU : blen (udp_header_mem udph ++ data) = 8 + blen data) by now autorewrite with cmem.
  rewrite ipv4_check_built; [|done|done|lia|rewrite T; f_equal; lia|done].
  rewrite blen_app, ipv4_header_mem_len, LU. unfold sizeof_ipv4_header. zdecide.
  rewrite mem_read_in by (autorewrite with cmem; lia). cbn [mbind option_bind].
  change (nth 0 _ 0) with (protocol iph). rewrite P.
  change (negb (17 =? IPV4_PROTOCOL_UDP)) with false. cbn [mbind option_bind].
  rewrite udp_check_built by (done || lia). cbn [mbind option_bind]. rewrite udp_checksum_ok. cbn [mbind option_bind].
  rewrite CU, Z.eqb_refl. cbn [negb].
  assert (S : forall b, submit_packet env
     (BAddr_MakeIPv4 (source_address iph) (source_port (set_udp_cksum 0 udph)))
     (BAddr_MakeIPv4 (destination_address iph) (dest_port (set_udp_cksum 0 udph))) b data
     = Some (Some {| sub_local := BAddr_ipv4 (source_address iph) (source_port udph);
                  sub_remote := BAddr_ipv4 (destination_address iph) (dest_port udph);
                  sub_is_dns := b; sub_data := data |})).
  { intros b. unfold submit_packet. zbool. zdecide. done. }
  unfold sizeof_DnsHeader. case_match; [|eauto]. ztest; [eauto|].
  rewrite mem_read_in by lia. simpl. eauto.
Qed.

Lemma process_udp_ipv6_built env iph udph data : ipv6_header_wf iph -> udp_header_wf udph ->
  netif_ip6addr env = true ->
  version4_tc4 iph = 96 -> next_header iph = 17 -> 8 + blen data < 65536 ->
  payload_length iph = hton16 (8 + blen data) -> udp_len udph = hton16 (8 + blen data) ->
  udp_cksum udph = udp_ip6_checksum_value (set_udp_cksum 0 udph) data
                     (source_address6 iph) (destination_address6 iph) ->
  blen data <= udp_mtu env ->
  process_udp_ipv6 env (ipv6_header_mem iph ++ udp_header_mem udph ++ data)
  = Some (Some {| sub_local := BAddr_ipv6 (source_address6 iph) (source_port udph);
                  sub_remote := BAddr_ipv6 (destination_address6 iph) (dest_port udph);
                  sub_is_dns := false; sub_data := data |}).
Proof.
  intros W1 W2 I6 V P L T TU CU M. pose proof (blen_nonneg data). unfold process_udp_ipv6.
  rewrite I6. cbn [negb].
  assert (LU : blen (udp_header_mem udph ++ data) = 8 + blen data) by now autorewrite with cmem.
  rewrite ipv6_check_built; [|done|done|lia|rewrite T; f_equal; lia].
  pose proof (ipv6_header_mem_len iph W1) as LH.
  rewrite blen_app, LH, LU. unfold sizeof_ipv6_header. zdecide.
  rewrite mem_read_in by (try rewrite (blen_app (ipv6_header_mem iph)), LH, LU; lia). cbn [mbind option_bind].
  change (nth 0 _ 0) with (next_header iph). rewrite P.
  change (negb (17 =? IPV6_NEXT_UDP)) with false. cbn [mbind option_bind].
  rewrite udp_check_built by (done || lia). cbn [mbind option_bind].
  destruct W1 as (_ & _ & _ & _ & _ & _ & (L1 & _) & (L2 & _)). rewrite udp_ip6_checksum_ok by (unfold blen; lia). cbn [mbind option_bind].
  rewrite CU, Z.eqb_refl. cbn [negb]. unfold submit_packet. zbool. zdecide.
  unfold BAddr_MakeIPv6. unfold btake. rewrite !take_ge by lia. done.
Qed.

(** ** The relay handler *)

(** The packet the handler sends, when it sends one. *)
Lemma handler_received_ipv4 env buf lip lport rip rport data :
  udpgw_remote_server_addr env = true -> blen buf = device_mtu env ->
  blen data <= 65507 -> blen data <= device_mtu env - 28 ->
  udpgw_client_handler_received env buf (BAddr_ipv4 lip lport) (BAddr_ipv4 rip rport) data
  = '(iph, udph) ← build_ipv4_udp rip rport lip lport data;
    Some (Some (ipv4_header_mem iph ++ udp_header_mem udph ++ data)).
Proof.
  intros HU HB L1 L2. unfold udpgw_client_handler_received. rewrite HU. cbn [negb].
  unfold UINT16_MAX, sizeof_ipv4_header, sizeof_udp_header. zbool. zdecide.
  destruct (build_ipv4_udp _ _ _ _ _) as [[iph udph]|]; [|done]. cbn [mbind option_bind].
  rewrite send_from_write_buf_ok; [done|]. autorewrite with cmem. lia.
Qed.

Lemma handler_received_ipv6 env buf lip lport rip rport data iph udph :
  udpgw_remote_server_addr env = true -> netif_ip6addr env = true -> blen buf = device_mtu env ->
  blen data <= 65527 -> blen data <= device_mtu env - 48 ->
  build_ipv6_udp rip rport lip lport data = Some (iph, udph) -> ipv6_header_wf iph ->
  udpgw_client_handler_received env buf (BAddr_ipv6 lip lport) (BAddr_ipv6 rip rport) data
  = Some (Some (ipv6_header_mem iph ++ udp_header_mem udph ++ data)).
Proof.
  intros HU H6 HB L1 L2 EB W. unfold udpgw_client_handler_received. rewrite HU, H6, EB. cbn [negb mbind option_bind].
  unfold UINT16_MAX, sizeof_ipv6_header, sizeof_udp_header. zbool. zdecide.
  rewrite send_from_write_buf_ok; [done|]. rewrite ipv6_header_mem_len, udp_header_mem_len by done. lia.
Qed.

Lemma process_device_udp_packet_safe env data : process_device_udp_packet env data <> None.
Proof.
  unfold process_device_udp_packet. case_match; [done|]. destruct (ip_version_total data) as [v ->]. cbn [mbind option_bind]. case_match.
  - apply process_udp_ipv4_safe.
  - case_match; [apply process_udp_ipv6_safe|done].
Qed.

(** The copying loop lays the chunks end to end, up to the device MTU. *)
Lemma copy_chunks_spec mtu p : forall buf len, blen buf = mtu -> 0 <= len <= mtu ->
  exists r, copy_chunks mtu buf len p = Some r /\
  if len + blen (concat p) <=? mtu
  then exists buf', r = Some (buf', len + blen (concat p)) /\ blen buf' = mtu
                    /\ btake (len + blen (concat p)) buf' = btake len buf ++ concat p
  else r = None.
Proof.
  induction p as [|c p IH]; intros buf len Hb Hl; simpl.
  - eexists; split; [done|]. rewrite blen_nil. zdecide. exists buf.
    rewrite !Z.add_0_r, !app_nil_r. done.
  - rewrite blen_app. pose proof (blen_nonneg c). pose proof (blen_nonneg (concat p)).
    zbool. destruct (Z.ltb_spec (mtu - len) (blen c)); [eexists; split; [done|]; zdecide; done|].
    destruct (mem_write buf len c) as [b|] eqn:E; [|rewrite mem_write_in in E by lia; done].
    pose proof (mem_write_inv _ _ _ _ E) as (_ & _ & Lb & _). apply mem_write_prefix in E. simpl.
    destruct (IH b (len + blen c)) as (r & -> & Hr); [lia|lia|].
    eexists; split; [done|]. rewrite !Z.add_assoc in *. ztest; [|done].
    destruct Hr as (b' & -> & ? & Eb). exists b'. rewrite Eb, E, app_assoc. done.
Qed.

(** * Properties *)

(** C35. No packet read from the device, whatever its bytes and its length (none at all
    too), makes the packet path read outside it: the version field of the first
    byte, the headers, the options, the DNS header, and the payload that the
    checksums add up. *)
Theorem device_read_memory_safe env pbuf_alloc_ok data :
  device_read_handler_send env pbuf_alloc_ok data <> None.
Proof.
  unfold device_read_handler_send. pose proof (process_device_udp_packet_safe env data).
  destruct (process_device_udp_packet env data) as [[s|]|]; simpl; [done| |done].
  unfold netif_input_func. destruct (ip_version_total data) as [v ->]. by repeat case_match.
Qed.

(** What is submitted to the relay meets the preconditions
    SocksUdpGwClient_SubmitPacket asserts: IP addresses of one family, a
    payload within udp_mtu, and the payload is a contiguous part of the packet. *)
Theorem device_submit_contract env data s :
  process_device_udp_packet env data = Some (Some s) ->
  udpgw_remote_server_addr env = true /\ submit_ok env data s.
Proof.
  unfold process_device_udp_packet. destruct (udpgw_remote_server_addr env); [|done].
  cbn [negb]. destruct (ip_version_total data) as [v ->]. cbn [mbind option_bind]. intros H. split; [done|].
  repeat case_match; try done; [by apply process_udp_ipv4_submit|by apply process_udp_ipv6_submit].
Qed.

(** C29. A datagram the relay delivers is written to the device as a packet that,
    read back, parses to the same payload with the two endpoints exchanged. *)
Theorem relay_device_roundtrip env buf local remote data pkt :
  BAddr_wf local -> BAddr_wf remote -> blen buf = device_mtu env -> blen data <= udp_mtu env ->
  udpgw_client_handler_received env buf local remote data = Some (Some pkt) ->
  exists is_dns, process_device_udp_packet env pkt
  = Some (Some {| sub_local := remote; sub_remote := local; sub_is_dns := is_dns; sub_data := data |}).
Proof.
  intros WL WR HB HM H. pose proof (blen_nonneg data).
  assert (HU : udpgw_remote_server_addr env = true)
    by (unfold udpgw_client_handler_received in H; by destruct (udpgw_remote_server_addr env)).
  destruct local as [|lip lp|lip lp|], remote as [|rip rp|rip rp|];
    try (unfold udpgw_client_handler_received in H; rewrite HU in H; discriminate H).
  - assert (blen data <= 65507 /\ blen data <= device_mtu env - 28) as [L1 L2].
    { unfold udpgw_client_handler_received in H. rewrite HU in H. cbn [negb] in H.
      case_match eqn:E; [done|]. unfold UINT16_MAX, sizeof_ipv4_header, sizeof_udp_header in E. zbool. lia. }
    rewrite handler_received_ipv4 in H by done.
    destruct (build_ipv4_udp rip rp lip lp data) as [[iph udph]|] eqn:EB; [|done]. cbn [mbind option_bind] in H.
    apply (inj Some), (inj Some) in H. subst pkt. destruct WL, WR. destruct (build_ipv4_udp_wf rip rp lip lp data iph udph) as [W1 W2];
      [assumption..|].
    unfold process_device_udp_packet. rewrite HU. cbn [negb].
    apply build_ipv4_udp_fields in EB as ((V & P & T & C & ES & ED) & EP & EQ & TU & CU).
    rewrite <- ES, <- ED in CU. subst rip lip rp lp.
    assert (ip_version_of (ipv4_header_mem iph ++ udp_header_mem udph ++ data) = Some 4) as ->
      by (unfold ip_version_of; rewrite blen_app, ipv4_header_mem_len; pose proof
            (blen_nonneg (udp_header_mem udph ++ data)); zbool; zdecide;
          change ((ipv4_header_mem iph ++ udp_header_mem udph ++ data) !! 0%nat) with (Some (version4_ihl4 iph)); by rewrite V).
    cbn [mbind option_bind]. apply process_udp_ipv4_built; done || lia.
  - destruct (netif_ip6addr env) eqn:H6;
      [|unfold udpgw_client_handler_received in H; rewrite HU, H6 in H; discriminate H].
    assert (blen data <= 65527 /\ blen data <= device_mtu env - 48) as [L1 L2].
    { unfold udpgw_client_handler_received in H. rewrite HU, H6 in H. cbn [negb] in H.
      case_match eqn:E; [done|]. unfold UINT16_MAX, sizeof_ipv6_header, sizeof_udp_header in E. zbool. lia. }
    destruct WL as (LL & BL & PL), WR as (LR & BR & PR).
    destruct (build_ipv6_udp_total rip rp lip lp data) as (iph & udph & EB); [done..|].
    destruct (build_ipv6_udp_wf _ _ _ _ _ _ _ LR BR PR LL BL PL EB) as (W1 & W2 & ES & ED).
    rewrite (handler_received_ipv6 _ _ _ _ _ _ _ iph udph) in H by done.
    apply (inj Some), (inj Some) in H. subst pkt.
    unfold process_device_udp_packet. rewrite HU. cbn [negb]. exists false.
    apply build_ipv6_udp_fields in EB as ((V & P & T) & EP & EQ & TU & CU). subst rip lip rp lp.
    assert (ip_version_of (ipv6_header_mem iph ++ udp_header_mem udph ++ data) = Some 6) as ->
      by (unfold ip_version_of; rewrite blen_app, ipv6_header_mem_len by done; pose proof
            (blen_nonneg (udp_header_mem udph ++ data)); zbool; zdecide;
          change ((ipv6_header_mem iph ++ udp_header_mem udph ++ data) !! 0%nat) with (Some (version4_tc4 iph)); by rewrite V).
    cbn [mbind option_bind]. apply process_udp_ipv6_built; done || lia.
Qed.

(** The relay handler never faults on addresses of one family when the write
    buffer has the device MTU, and what it sends fits the device. *)
Theorem relay_handler_safe env buf local remote data :
  udpgw_remote_server_addr env = true -> blen buf = device_mtu env ->
  BAddr_wf local -> BAddr_wf remote ->
  BAddr_is_ip local = true -> BAddr_type local = BAddr_type remote ->
  exists r, udpgw_client_handler_received env buf local remote data = Some r
    /\ forall pkt, r = Some pkt -> blen pkt <= device_mtu env.
Proof.
  intros HU HB WL WR IP ET.
  destruct local as [|lip lp|lip lp|], remote as [|rip rp|rip rp|]; try discriminate.
  - destruct (decide (blen data <= 65507 /\ blen data <= device_mtu env - 28)) as [[L1 L2]|N].
    + rewrite handler_received_ipv4 by done. destruct (build_ipv4_udp_total rip rp lip lp data) as (iph & udph & ->). cbn [mbind option_bind].
      eexists; split; [done|]. intros pkt H. apply (inj Some) in H. subst pkt.
      autorewrite with cmem. lia.
    + exists None. split; [|done]. unfold udpgw_client_handler_received. rewrite HU. cbn [negb].
      case_match eqn:E; [done|]. unfold UINT16_MAX, sizeof_ipv4_header, sizeof_udp_header in E. zbool. lia.
  - destruct (netif_ip6addr env) eqn:H6;
      [|exists None; unfold udpgw_client_handler_received; rewrite HU, H6; done].
    destruct (decide (blen data <= 65527 /\ blen data <= device_mtu env - 48)) as [[L1 L2]|N].
    + destruct WL as (LL & BL & PL), WR as (LR & BR & PR).
      destruct (build_ipv6_udp_total rip rp lip lp data) as (iph & udph & EB); [done..|].
      destruct (build_ipv6_udp_wf _ _ _ _ _ _ _ LR BR PR LL BL PL EB) as (W1 & _).
      rewrite (handler_received_ipv6 _ _ _ _ _ _ _ iph udph) by done.
      eexists; split; [done|]. intros pkt H. apply (inj Some) in H. subst pkt.
      rewrite !blen_app, ipv6_header_mem_len, udp_header_mem_len by done. lia.
    + exists None. split; [|done]. unfold udpgw_client_handler_received. rewrite HU, H6. cbn [negb].
      case_match eqn:E; [done|]. unfold UINT16_MAX, sizeof_ipv6_header, sizeof_udp_header in E. zbool. lia.
Qed.

(** The IPv4 packets written to the device carry a valid IP header checksum
    and a valid UDP checksum: the ones-complement sums a receiver computes
    over the header, and over pseudo-header, UDP header and payload, are all
    ones. *)
Theorem relay_ipv4_checksums_valid rip rport lip lport data iph udph :
  is_u32 rip -> is_u16 rport -> is_u32 lip -> is_u16 lport ->
  is_bytes data -> blen data <= 65507 ->
  build_ipv4_udp rip rport lip lport data = Some (iph, udph) ->
  fold16 (wsum (ipv4_header_mem iph)) = 65535
  /\ fold16 (udp_sum (mem32 (source_address iph) ++ mem32 (destination_address iph)) udph data) = 65535.
Proof.
  intros Hr Hrp Hl Hlp Hd Ld EB.
  destruct (build_ipv4_udp_wf rip rport lip lport data iph udph) as [W1 W2]; [assumption..|].
  apply build_ipv4_udp_fields in EB as ((_ & _ & _ & C & ES & ED) & _ & _ & _ & CU). split.
  - pose proof (ipv4_checksum_valid iph [] W1 ltac:(constructor) ltac:(rewrite blen_nil; lia)) as V.
    cbv zeta in V. rewrite <- C in V. rewrite Z.add_0_r in V. destruct iph. exact V.
  - rewrite ES, ED. rewrite udp_checksum_eq in CU by (done || lia).
    assert (B : is_bytes (mem32 rip ++ mem32 lip)) by (apply is_bytes_app; auto with cmem).
    pose proof (udp_sum_valid (mem32 rip ++ mem32 lip) udph data B
      ltac:(autorewrite with cmem; lia) Hd ltac:(lia)) as V.
    cbv zeta in V. rewrite <- CU in V. destruct udph. exact V.
Qed.

(** lwIP's output, one chunk or a chain of them, is handed to the device as
    the concatenation of its chunks when that fits the device MTU and is
    dropped otherwise; the copy into the write buffer never overruns it. *)
Theorem netif_output_spec env buf p : p <> [] -> 0 <= device_mtu env -> blen buf = device_mtu env ->
  common_netif_output env false buf p
  = Some (if blen (concat p) <=? device_mtu env then Some (concat p) else None).
Proof.
  intros Hp Hm HB. unfold common_netif_output.
  destruct p as [|c [|c' p]]; [done| |].
  - simpl. rewrite app_nil_r. zbool. repeat ztest; done || lia.
  - destruct (copy_chunks_spec (device_mtu env) (c :: c' :: p) buf 0 HB ltac:(lia)) as (r & -> & Hr).
    cbn [mbind option_bind]. rewrite Z.add_0_l in Hr.
    pose proof (blen_nonneg (concat (c :: c' :: p))). ztest; [|by subst].
    destruct Hr as (b & -> & Lb & E). rewrite mem_read_in by lia. simpl.
    rewrite bdrop_0. change (btake 0 buf) with (@nil Z) in E. simpl in E. by rewrite E.
Qed.

(** The UDP checksum never comes out as all ones: the branch that replaces a
    zero checksum by 0xFFFF tests a 32-bit complement and is dead, so where
    RFC 768 asks for 0xFFFF the functions return 0, "no checksum". *)
Theorem udp_checksum_never_all_ones h payload src dst :
  is_bytes payload -> blen payload < 65528 ->
  udp_checksum_value h payload src dst <> UINT16_MAX
  /\ (udp_checksum_value h payload src dst = 0
      <-> fold16 (udp_sum (mem32 src ++ mem32 dst) h payload) = UINT16_MAX).
Proof.
  intros Hp Lp. rewrite udp_checksum_eq by done.
  assert (B : is_bytes (mem32 src ++ mem32 dst)) by (apply is_bytes_app; auto with cmem).
  pose proof (udp_sum_bounds _ h payload B ltac:(autorewrite with cmem; lia) Hp Lp) as BS.
  destruct (fold16_spec (udp_sum (mem32 src ++ mem32 dst) h payload) ltac:(lia)) as (F & _ & Z0).
  pose proof (wsum_bounds _ B). pose proof (wsum_bounds _ (udp_header_mem_bytes h)).
  pose proof (wsum_bounds _ (pad16_bytes _ Hp)). pose proof (blen_nonneg payload).
  assert (fold16 (udp_sum (mem32 src ++ mem32 dst) h payload) <> 0)
    by (rewrite Z0; unfold udp_sum, IPV4_PROTOCOL_UDP, sizeof_udp_header; lia).
  unfold UINT16_MAX. split.
  - intros E. change 65535 with (hton16 65535) in E at 2. apply hton16_inj in E; lia.
  - split; intros E.
    + change 0 with (hton16 0) in E. apply hton16_inj in E; lia.
    + rewrite E. reflexivity.
Qed.

(** * Witnesses *)

Definition ex_env : udp_env :=
  {| udpgw_remote_server_addr := true; netif_ip6addr := true; opt_dnsgw := true;
     udp_mtu := 1472; device_mtu := 1500 |}.
Definition ex_local : BAddr := BAddr_ipv4 16777226 13568.
Definition ex_remote : BAddr := BAddr_ipv4 134744072 13568.
Definition ex_pkt : bytes :=
  match udpgw_client_handler_received ex_env (repeat 0 1500) ex_local ex_remote [1; 2; 3] with
  | Some (Some p) => p | _ => [] end.
Definition ex_submit : submit :=
  {| sub_local := ex_remote; sub_remote := ex_local; sub_is_dns := false; sub_data := [1; 2; 3] |}.

Lemma device_submit_contract_witness : submit_ok ex_env ex_pkt ex_submit.
Proof. apply (device_submit_contract ex_env ex_pkt ex_submit). vm_compute. reflexivity. Defined.

Lemma relay_device_roundtrip_witness :
  exists is_dns, process_device_udp_packet ex_env ex_pkt
  = Some (Some {| sub_local := ex_remote; sub_remote := ex_local;
                  sub_is_dns := is_dns; sub_data := [1; 2; 3] |}).
Proof.
  apply (relay_device_roundtrip ex_env (repeat 0 1500)); vm_compute; repeat split; discriminate || reflexivity.
Defined.

Lemma relay_handler_safe_witness :
  exists r, udpgw_client_handler_received ex_env (repeat 0 1500) ex_local ex_remote [1; 2; 3] = Some r
    /\ forall pkt, r = Some pkt -> blen pkt <= device_mtu ex_env.
Proof. apply relay_handler_safe; vm_compute; repeat split; discriminate || reflexivity. Defined.

Definition ex_none : ipv4_header * udp_header := (ipv4_header_load [], udp_header_load []).
Definition ex_hdrs : ipv4_header * udp_header :=
  default ex_none (build_ipv4_udp 134744072 13568 16777226 13568 [1; 2; 3]).

Lemma relay_ipv4_checksums_valid_witness : fold16 (wsum (ipv4_header_mem (fst ex_hdrs))) = 65535.
Proof.
  refine (proj1 (relay_ipv4_checksums_valid 134744072 13568 16777226 13568 [1; 2; 3]
                   (fst ex_hdrs) (snd ex_hdrs) _ _ _ _ _ _ _));
    [split; lia..| | |].
  - repeat constructor; vm_compute; discriminate.
  - vm_compute. discriminate.
  - vm_compute. reflexivity.
Defined.

Lemma netif_output_spec_witness :
  common_netif_output ex_env false (repeat 0 1500) [[69; 1]; [2]] = Some (Some [69; 1; 2]).
Proof. apply (netif_output_spec ex_env (repeat 0 1500)); vm_compute; discriminate || reflexivity. Defined.

Lemma udp_checksum_never_all_ones_witness :
  udp_checksum_value {| source_port := 0; dest_port := 0; udp_len := 0; udp_cksum := 0 |} [255; 228] 0 0 = 0.
Proof.
  apply (udp_checksum_never_all_ones _ [255; 228] 0 0).
  - repeat constructor; vm_compute; discriminate.
  - vm_compute. reflexivity.
  - vm_compute. reflexivity.
Defined.
