(* ===== verification/UdpGwProto.v ===== *)
(** protocol/udpgw_proto.h: the sizes and addresses in the packets of the UDP
    clients, shared by the SOCKS relay client and the gateway client. *)

From S2P Require Import Prelude ByteOrder BAddr IpProto.
Open Scope Z_scope.

Definition sizeof_socks_udp_header : Z := 4.
Definition sizeof_udpgw_addr_ipv4 : Z := 6.
Definition sizeof_udpgw_addr_ipv6 : Z := 18.

Definition udpgw_compute_mtu (dgram_mtu : Z) : Z :=
  let bs := bsize_add (bsize_fromsize sizeof_socks_udp_header)
              (bsize_add (bsize_max (bsize_fromsize sizeof_udpgw_addr_ipv4) (bsize_fromsize sizeof_udpgw_addr_ipv6))
                 (bsize_fromint dgram_mtu)) in
  match bsize_toint bs with Some s => s | None => -1 end.

(** The bytes of struct udpgw_addr_ipv4 and struct udpgw_addr_ipv6. *)
Definition udpgw_addr_mem (remote : BAddr) : bytes :=
  match remote with
  | BAddr_ipv4 ip port => mem32 ip ++ mem16 port
  | BAddr_ipv6 ip port => ip ++ mem16 port
  | _ => []
  end.

Definition is_ip (a : BAddr) : bool := (BAddr_type a =? BADDR_TYPE_IPV4) || (BAddr_type a =? BADDR_TYPE_IPV6).

Lemma blen_addr r : BAddr_wf r -> is_ip r = true ->
  blen (udpgw_addr_mem r) = if BAddr_type r =? BADDR_TYPE_IPV4 then 6 else 18.
Proof.
  destruct r as [|ip port|ip port|]; try done. intros (Hl & _ & _) _. simpl. unfold blen. rewrite length_app, Hl. done.
Qed.

(** Storing a string right behind what was stored. *)
Lemma write_behind m d off m1 : btake off m1 = m -> blen m = off -> 0 <= off -> off + blen d <= blen m1 ->
  exists m2, mem_write m1 off d = Some m2 /\ blen m2 = blen m1 /\ btake (off + blen d) m2 = m ++ d.
Proof.
  intros Hm Hl Ho Hd. destruct (mem_write_some m1 off d) as (m2 & E & HL); [lia|done|].
  exists m2. split_and!; [done..|]. by rewrite (mem_write_prefix _ _ _ _ E), Hm.
Qed.

Lemma parse_ipv4 ip port data : 0 <= ip < 4294967296 -> 0 <= port < 65536 ->
  let a := mem32 ip ++ mem16 port in
  mem_read (a ++ data) 0 6 = Some a /\ load32 a = ip /\ load16 (drop 4 a) = port /\ bdrop 6 (a ++ data) = data.
Proof.
  intros Hi Hp a. assert (Hl : blen a = 6) by done. split_and!.
  - rewrite <- Hl. apply mem_read_app.
  - by apply load32_mem32.
  - change (drop 4 a) with (mem16 port ++ []). by apply load16_mem16.
  - by apply bdrop_app_exact.
Qed.

Lemma parse_ipv6 ip port data : length ip = 16%nat -> 0 <= port < 65536 ->
  let a := ip ++ mem16 port in
  mem_read (a ++ data) 0 18 = Some a /\ btake 16 a = ip /\ load16 (drop 16 a) = port /\ bdrop 18 (a ++ data) = data.
Proof.
  intros Hi Hp a. assert (Hl : blen a = 18). { unfold a, blen. rewrite length_app, Hi. done. } split_and!.
  - rewrite <- Hl. apply mem_read_app.
  - apply btake_app_exact. unfold blen. by rewrite Hi.
  - unfold a. rewrite <- Hi, drop_app_length. change (mem16 port) with (mem16 port ++ []). by apply load16_mem16.
  - by apply bdrop_app_exact.
Qed.

Lemma udpgw_compute_mtu_value mtu : 0 <= mtu -> mtu <= INT_MAX - 22 -> udpgw_compute_mtu mtu = mtu + 22.
Proof.
  unfold INT_MAX. intros H1 H2. unfold udpgw_compute_mtu, bsize_toint, bsize_add, bsize_max, bsize_fromsize, bsize_fromint,
    sizeof_socks_udp_header, sizeof_udpgw_addr_ipv4, sizeof_udpgw_addr_ipv6, SIZE_MAX, UINT64_MAX, INT_MAX, u64 in *.
  cbn [is_overflow bs_value]. simpl ((if 6 >? 18 then 1 else 0) * 6 + (if 6 <=? 18 then 1 else 0) * 18).
  rewrite !(Z.mod_small mtu), !(Z.mod_small (18 + mtu)), !(Z.mod_small (4 + (18 + mtu))) by lia. zbool. zdecide. lia.
Qed.
