(* ===== verification/BAVL.v ===== *)
(** structure/BAVL.h: the AVL tree in which the UDP clients find their
    connections.

    A tree is a value of type [tree]; a pointer to a node inside it is the
    subtree at that node with the list of its ancestors, innermost first
    ([ctx]), which plays the part of the parent links.  The functions follow the
    C code: the search from the root, _BAVL_rotate, _BAVL_rebalance going up the
    parents, and the exchange of a node with two children with the largest node
    of its left subtree.  [None] is a failed ASSERT or a null dereference.
    BAVL_COUNT is not defined by the program. *)

From S2P Require Import Prelude BAddr.
From Stdlib Require Import Sorting.Sorted.

(** What the header of the comparator type demands, for the values [ok]. *)
Class Comparator {V : Type} (ok : V -> Prop) (cmp : V -> V -> Z) : Prop := {
  cmp_range a b : ok a -> ok b -> cmp a b = -1 \/ cmp a b = 0 \/ cmp a b = 1;
  cmp_antisym a b : ok a -> ok b -> cmp b a = - cmp a b;
  cmp_trans a b c : ok a -> ok b -> ok c -> cmp a b = -1 -> cmp b c = -1 -> cmp a c = -1;
  cmp_same a b c : ok a -> ok b -> ok c -> cmp a b = 0 -> cmp a c = cmp b c }.

Definition BAVL_MAX (a b : Z) : Z := if a >? b then a else b.
Definition BAVL_OPTNEG (a : Z) (neg : bool) : Z := if neg then - a else a.

Section BAVL.
Context {A V : Type} (value : A -> V) (comparator : V -> V -> Z).

(** A node with its balance factor and its two links. *)
Inductive tree := Null | Node (n : A) (balance : Z) (link0 link1 : tree).

Definition link (l r : tree) (side : bool) : tree := if side then r else l.

(** One ancestor: its node and balance factor, on which of its links the way
    goes down, and the other link. *)
Record frame := { f_node : A; f_balance : Z; f_side : bool; f_other : tree }.
Abbreviation ctx := (list frame).

(** The ancestor with [t] at the link on the way. *)
Definition fill (f : frame) (t : tree) : tree :=
  if f_side f then Node (f_node f) (f_balance f) (f_other f) t
  else Node (f_node f) (f_balance f) t (f_other f).

(** The whole tree, seen from a subtree and its ancestors. *)
Fixpoint plug (t : tree) (c : ctx) : tree :=
  match c with [] => t | f :: c => plug (fill f t) c end.

Definition set_balance (t : tree) (b : Z) : option tree :=
  match t with Null => None | Node n _ l r => Some (Node n b l r) end.

Definition _BAVL_compare_values (v1 v2 : V) : option Z :=
  let res := comparator v1 v2 in
  ASSERT (res =? -1) || (res =? 0) || (res =? 1); Some res.

(** The node that takes the place of [r]. *)
Definition _BAVL_rotate (r : tree) (dir : bool) : option tree :=
  match r with
  | Null => None
  | Node n b l0 l1 =>
      match link l0 l1 (negb dir) with
      | Null => None
      | Node nn nb nl0 nl1 =>
          if dir then Some (Node nn nb nl0 (Node n b nl1 l1))
          else Some (Node nn nb (Node n b l0 nl0) nl1)
      end
  end.

(** The body of _BAVL_rebalance: the subtree that takes the place of [node] and
    by how much its height changed. *)
Definition rebalance_node (node : tree) (side : bool) (deltac : Z) : option (tree * Z) :=
  match node with
  | Null => None
  | Node n balance l0 l1 =>
      ASSERT (balance >=? -1) && (balance <=? 1);
      let delta := BAVL_MAX deltac (BAVL_OPTNEG balance side) - BAVL_MAX 0 (BAVL_OPTNEG balance side) in
      ASSERT (delta >=? -1) && (delta <=? 1);
      let balance := balance - BAVL_OPTNEG deltac side in
      let node := Node n balance l0 l1 in
      if (balance =? 2) || (balance =? -2) then
        let bside := balance =? 2 in
        let bsidef := if bside then 1 else -1 in
        match link l0 l1 bside with
        | Null => None
        | Node cn cb cl0 cl1 =>
            let child b := Node cn b cl0 cl1 in
            let node_with b c := if bside then Node n b l0 c else Node n b c l1 in
            if cb * bsidef =? 1 then
              t ← _BAVL_rotate (node_with 0 (child 0)) (negb bside);
              let delta := delta - 1 in
              ASSERT (delta >=? -1) && (delta <=? 1); Some (t, delta)
            else if cb * bsidef =? 0 then
              t ← _BAVL_rotate (node_with (1 * bsidef) (child (-1 * bsidef))) (negb bside);
              ASSERT (delta >=? -1) && (delta <=? 1); Some (t, delta)
            else if cb * bsidef =? -1 then
              match link cl0 cl1 (negb bside) with
              | Null => None
              | Node gn gb gl0 gl1 =>
                  let gchild := Node gn 0 gl0 gl1 in
                  let cb := BAVL_MAX 0 (- gb * bsidef) * bsidef in
                  let nb := - BAVL_MAX 0 (gb * bsidef) * bsidef in
                  c ← _BAVL_rotate (if bside then Node cn cb gchild cl1 else Node cn cb cl0 gchild) bside;
                  t ← _BAVL_rotate (node_with nb c) (negb bside);
                  let delta := delta - 1 in
                  ASSERT (delta >=? -1) && (delta <=? 1); Some (t, delta)
              end
            else None
        end
      else ASSERT (delta >=? -1) && (delta <=? 1); Some (node, delta)
  end.

(** [node] is at the end of [c], and the height of its subtree on [side] changed
    by [deltac]. *)
Fixpoint _BAVL_rebalance (node : tree) (c : ctx) (side : bool) (deltac : Z) : option tree :=
  ASSERT (deltac >=? -1) && (deltac <=? 1);
  if deltac =? 0 then Some (plug node c) else
  '(node, delta) ← rebalance_node node side deltac;
  match c with
  | [] => Some node
  | f :: c => _BAVL_rebalance (fill f node) c (f_side f) delta
  end.

(** The search of BAVL_Insert: the node where [v] is found, or the leaf link
    where it belongs. *)
Inductive place := Found (c : A) | Leaf (c : A) (side : bool) (up : ctx).

Fixpoint insert_place (v : V) (t : tree) (up : ctx) : option place :=
  match t with
  | Null => None
  | Node n b l0 l1 =>
      comp ← _BAVL_compare_values v (value n);
      if comp =? 0 then Some (Found n) else
      let side := comp =? 1 in
      let up := {| f_node := n; f_balance := b; f_side := side; f_other := link l0 l1 (negb side) |} :: up in
      if side
      then match l1 with Null => Some (Leaf n side up) | _ => insert_place v l1 up end
      else match l0 with Null => Some (Leaf n side up) | _ => insert_place v l0 up end
  end.

(** The new tree, the result and what is stored in [ref]. *)
Definition BAVL_Insert (root : tree) (node : A) : option (tree * bool * option A) :=
  match root with
  | Null => Some (Node node 0 Null Null, true, None)
  | _ =>
      p ← insert_place (value node) root [];
      match p with
      | Found c => Some (root, false, Some c)
      | Leaf _ _ [] => None
      | Leaf c side (f :: up) =>
          t ← _BAVL_rebalance (fill f (Node node 0 Null Null)) up side 1;
          Some (t, true, Some c)
      end
  end.

(** The largest node of a subtree, its left link, and the way to it. *)
Fixpoint _BAVL_subtree_max (t : tree) (up : ctx) : option (A * tree * ctx) :=
  match t with
  | Null => None
  | Node n b l0 l1 =>
      match l1 with
      | Null => Some (n, l0, up)
      | _ => _BAVL_subtree_max l1 ({| f_node := n; f_balance := b; f_side := true; f_other := l0 |} :: up)
      end
  end.

(** _BAVL_replace_subtree of a node by its only child, and the rebalancing. *)
Definition remove_node (child : tree) (up : ctx) : option tree :=
  match up with
  | [] => Some child
  | f :: up => _BAVL_rebalance (fill f child) up (f_side f) (-1)
  end.

(** The node to remove is the root of [t], with the ancestors [c].  When it is
    exchanged with the largest node of its left subtree, only the nodes change
    places, not the balance factors. *)
Definition BAVL_Remove (t : tree) (c : ctx) : option tree :=
  match t with
  | Null => None
  | Node n b l0 l1 =>
      match l0, l1 with
      | Node _ _ _ _, Node _ _ _ _ =>
          '(m, child, up) ← _BAVL_subtree_max l0 [];
          remove_node child (up ++ {| f_node := m; f_balance := b; f_side := false; f_other := l1 |} :: c)
      | Null, _ => remove_node l1 c
      | _, Null => remove_node l0 c
      end
  end.

Definition BAVL_IsEmpty (t : tree) : bool := match t with Null => true | _ => false end.

Fixpoint BAVL_Lookup (t : tree) (v : V) : option (option A) :=
  match t with
  | Null => Some None
  | Node n _ l0 l1 =>
      comp ← _BAVL_compare_values v (value n);
      if comp =? 0 then Some (Some n) else
      match (if comp =? 1 then l1 else l0) with
      | Null => Some (Some n)
      | _ => if comp =? 1 then BAVL_Lookup l1 v else BAVL_Lookup l0 v
      end
  end.

Fixpoint BAVL_LookupExact (t : tree) (v : V) : option (option A) :=
  match t with
  | Null => Some None
  | Node n _ l0 l1 =>
      comp ← _BAVL_compare_values v (value n);
      if comp =? 0 then Some (Some n)
      else if comp =? 1 then BAVL_LookupExact l1 v else BAVL_LookupExact l0 v
  end.

Fixpoint BAVL_GetFirst (t : tree) : option A :=
  match t with
  | Null => None
  | Node n _ Null _ => Some n
  | Node _ _ l0 _ => BAVL_GetFirst l0
  end.

Fixpoint BAVL_GetLast (t : tree) : option A :=
  match t with
  | Null => None
  | Node n _ _ Null => Some n
  | Node _ _ _ l1 => BAVL_GetLast l1
  end.

(** The first ancestor whose link on the way is not [side]. *)
Fixpoint climb (c : ctx) (side : bool) : option A :=
  match c with
  | [] => None
  | f :: c => if bool_decide (f_side f = side) then climb c side else Some (f_node f)
  end.

Definition BAVL_GetNext (t : tree) (c : ctx) : option A :=
  match t with
  | Null => None
  | Node _ _ _ Null => climb c true
  | Node _ _ _ l1 => BAVL_GetFirst l1
  end.

Definition BAVL_GetPrev (t : tree) (c : ctx) : option A :=
  match t with
  | Null => None
  | Node _ _ Null _ => climb c false
  | Node _ _ l0 _ => BAVL_GetLast l0
  end.

(** _BAVL_assert_recurser: the height of a verified subtree. *)
Fixpoint _BAVL_assert_recurser (t : tree) : option Z :=
  match t with
  | Null => Some 0
  | Node n balance l0 l1 =>
      ASSERT balance >=? -1;
      ASSERT balance <=? 1;
      ASSERT match l0 with Null => true | Node m _ _ _ => comparator (value m) (value n) =? -1 end;
      height_left ← _BAVL_assert_recurser l0;
      ASSERT match l1 with Null => true | Node m _ _ _ => comparator (value m) (value n) =? 1 end;
      height_right ← _BAVL_assert_recurser l1;
      ASSERT balance =? height_right - height_left;
      Some (BAVL_MAX height_left height_right + 1)
  end.

(** * Order, heights and balance *)

Fixpoint inorder (t : tree) : list A :=
  match t with Null => [] | Node n _ l r => inorder l ++ n :: inorder r end.

Fixpoint height (t : tree) : Z :=
  match t with Null => 0 | Node _ _ l r => 1 + Z.max (height l) (height r) end.

Fixpoint balanced (t : tree) : Prop :=
  match t with
  | Null => True
  | Node _ b l r => balanced l /\ balanced r /\ b = height r - height l /\ -1 <= b <= 1
  end.

Lemma height_nonneg t : 0 <= height t.
Proof. induction t; simpl; lia. Qed.

Definition before (f : frame) : list A := if f_side f then inorder (f_other f) ++ [f_node f] else [].
Definition after (f : frame) : list A := if f_side f then [] else f_node f :: inorder (f_other f).

Fixpoint befores (c : ctx) : list A := match c with [] => [] | f :: c => befores c ++ before f end.
Fixpoint afters (c : ctx) : list A := match c with [] => [] | f :: c => after f ++ afters c end.

Lemma inorder_fill f t : inorder (fill f t) = before f ++ inorder t ++ after f.
Proof.
  unfold fill, before, after. destruct (f_side f); simpl; [|done]. by rewrite app_nil_r, <- app_assoc.
Qed.

Lemma inorder_plug t c : inorder (plug t c) = befores c ++ inorder t ++ afters c.
Proof.
  revert t. induction c as [|f c IH]; intros t; simpl; [by rewrite app_nil_r|].
  rewrite IH, inorder_fill. by rewrite <- !app_assoc.
Qed.

(** The subtree below [c] has height [h] and everything above is balanced. *)
Fixpoint balanced_ctx (c : ctx) (h : Z) : Prop :=
  match c with
  | [] => True
  | f :: c =>
      balanced (f_other f)
      /\ f_balance f = BAVL_OPTNEG (height (f_other f) - h) (f_side f) /\ -1 <= f_balance f <= 1
      /\ balanced_ctx c (1 + Z.max h (height (f_other f)))
  end.

Lemma balanced_plug t c : balanced (plug t c) <-> balanced t /\ balanced_ctx c (height t).
Proof.
  revert t. induction c as [|f c IH]; intros t; simpl; [tauto|]. rewrite IH. unfold fill, BAVL_OPTNEG.
  destruct (f_side f); simpl.
  - replace (1 + Z.max (height (f_other f)) (height t)) with (1 + Z.max (height t) (height (f_other f))) by lia.
    replace (- (height (f_other f) - height t)) with (height t - height (f_other f)) by lia. tauto.
  - tauto.
Qed.

(** ** Rebalancing *)

(** The heights of the subtrees of a node before the one on [side] changed by
    [deltac]. *)
Definition old_height (l0 l1 : tree) (side : bool) (deltac : Z) : Z :=
  1 + Z.max (height l0 - if side then 0 else deltac) (height l1 - if side then deltac else 0).

Definition rebalanced (node : tree) (old : Z) (r : option (tree * Z)) : Prop :=
  exists t delta, r = Some (t, delta) /\ balanced t /\ inorder t = inorder node
                  /\ height t = old + delta /\ -1 <= delta <= 1.

Ltac solve_rebalanced :=
  destruct_and?; do 2 eexists; split; [reflexivity|]; unfold BAVL_MAX; simpl; split_and!; try done; try lia;
  rewrite <- ?app_assoc; simpl; rewrite <- ?app_assoc; done.

Lemma rebalance_node_spec n b l0 l1 (side : bool) deltac :
  balanced l0 -> balanced l1 -> deltac = 1 \/ deltac = -1 -> -1 <= b <= 1 ->
  b = (height l1 - if side then deltac else 0) - (height l0 - if side then 0 else deltac) ->
  rebalanced (Node n b l0 l1) (old_height l0 l1 side deltac) (rebalance_node (Node n b l0 l1) side deltac).
Proof.
  intros H0 H1 Hd Hb E. pose proof (height_nonneg l0). pose proof (height_nonneg l1). unfold old_height.
  assert (b = -1 \/ b = 0 \/ b = 1) as Hb' by lia.
  destruct side, Hd as [-> | ->], Hb' as [-> |[-> | ->]]; simpl in *; try solve_rebalanced.
  1, 4: destruct l1 as [|cn cb cl0 cl1]; simpl in *; [lia|].
  3, 4: destruct l0 as [|cn cb cl0 cl1]; simpl in *; [lia|].
  all: assert (cb = -1 \/ cb = 0 \/ cb = 1) as [-> |[-> | ->]] by lia; simpl; try solve_rebalanced.
  1, 2: destruct cl0 as [|gn gb gl0 gl1]; simpl in *; [lia|].
  3, 4: destruct cl1 as [|gn gb gl0 gl1]; simpl in *; [lia|].
  all: assert (gb = -1 \/ gb = 0 \/ gb = 1) as [-> |[-> | ->]] by lia; simpl; solve_rebalanced.
Qed.

Lemma balanced_plug_zero c n b l0 l1 (side : bool) :
  balanced l0 -> balanced l1 -> -1 <= b <= 1 ->
  b = (height l1 - if side then 0 else 0) - (height l0 - if side then 0 else 0) ->
  balanced_ctx c (old_height l0 l1 side 0) -> balanced (plug (Node n b l0 l1) c).
Proof.
  intros ? ? ? ? Hc. apply balanced_plug. unfold old_height in Hc. simpl. destruct side; rewrite !Z.sub_0_r in *;
    (split; [|done]); split_and!; done || lia.
Qed.

Lemma _BAVL_rebalance_spec c : forall n b l0 l1 (side : bool) deltac,
  balanced l0 -> balanced l1 -> -1 <= deltac <= 1 -> -1 <= b <= 1 ->
  b = (height l1 - if side then deltac else 0) - (height l0 - if side then 0 else deltac) ->
  balanced_ctx c (old_height l0 l1 side deltac) ->
  exists t, _BAVL_rebalance (Node n b l0 l1) c side deltac = Some t /\ balanced t
            /\ inorder t = inorder (plug (Node n b l0 l1) c).
Proof.
  induction c as [|f c IH]; intros n b l0 l1 side deltac H0 H1 Hd Hb E Hc; cbn [_BAVL_rebalance];
    replace ((deltac >=? -1) && (deltac <=? 1)) with true by lia;
    (destruct (Z.eqb_spec deltac 0) as [->|Hne];
     [eexists; split; [done|]; split; [|done]; by apply balanced_plug_zero with side|]);
    destruct (rebalance_node_spec n b l0 l1 side deltac H0 H1 ltac:(lia) Hb E) as (t & delta & Er & Hbt & Hi & Hh & Hdl);
    rewrite Er; cbn [mbind option_bind].
  - by exists t.
  - simpl in Hc. destruct Hc as (Ho & Hfb & Hfr & Hc).
    assert (Hpl : inorder (plug (fill f t) c) = inorder (plug (Node n b l0 l1) (f :: c))).
    { change (plug (Node n b l0 l1) (f :: c)) with (plug (fill f (Node n b l0 l1)) c).
      by rewrite !inorder_plug, !inorder_fill, Hi. }
    rewrite <- Hpl. unfold fill, BAVL_OPTNEG in *.
    destruct (f_side f); apply IH; try done; unfold old_height; try lia;
      eapply eq_ind; [exact Hc| |exact Hc|]; f_equal; lia.
Qed.

(** ** Search order *)

Context (ok : V -> Prop) `{!Comparator ok comparator}.

Definition lt (a b : A) : Prop := comparator (value a) (value b) = -1.
Definition sorted (t : tree) : Prop := StronglySorted lt (inorder t) /\ Forall (fun a => ok (value a)) (inorder t).

Lemma compare_values_eq v1 v2 : ok v1 -> ok v2 -> _BAVL_compare_values v1 v2 = Some (comparator v1 v2).
Proof.
  intros H1 H2. unfold _BAVL_compare_values. destruct (cmp_range v1 v2 H1 H2) as [-> |[-> | ->]]; done.
Qed.

Lemma sorted_app l k :
  StronglySorted lt (l ++ k) <->
  StronglySorted lt l /\ StronglySorted lt k /\ Forall (fun a => Forall (lt a) k) l.
Proof.
  induction l as [|x l IH]; simpl.
  - split; [intros; split_and!; auto using SSorted_nil|tauto].
  - rewrite Forall_cons_iff. split.
    + intros H. inversion H as [|? ? Hs Hf]; subst. apply IH in Hs as (? & ? & ?). apply Forall_app in Hf as [? ?].
      split_and!; try done. by constructor.
    + intros (H & Hk & Hx & Hf). inversion H; subst. constructor; [by apply IH|]. by apply Forall_app.
Qed.

Lemma sorted_node n b l r :
  sorted (Node n b l r) <->
  sorted l /\ sorted r /\ ok (value n) /\ Forall (fun a => lt a n) (inorder l) /\ Forall (lt n) (inorder r)
  /\ Forall (fun a => Forall (lt a) (inorder r)) (inorder l).
Proof.
  unfold sorted. simpl. rewrite sorted_app, Forall_app, Forall_cons_iff. split.
  - intros [(Hl & Hr & Hlr) (Hol & Hon & Hor)]. inversion Hr; subst.
    split_and!; try done; (eapply Forall_impl; [|exact Hlr]); simpl; intros a Ha; by inversion Ha.
  - intros ([? ?] & [? ?] & ? & HL & ? & HLR). split_and!; try done; [by constructor|].
    apply Forall_forall. intros a Ha. constructor; [by eapply Forall_forall in HL|by eapply Forall_forall in HLR].
Qed.

Lemma plug_app t k c : plug t (k ++ c) = plug (plug t k) c.
Proof. revert t. induction k as [|f k IH]; intros t; simpl; [done|]. apply IH. Qed.
Lemma befores_app k c : befores (k ++ c) = befores c ++ befores k.
Proof. induction k as [|f k IH]; simpl; [by rewrite app_nil_r|]. by rewrite IH, app_assoc. Qed.
Lemma afters_app k c : afters (k ++ c) = afters k ++ afters c.
Proof. induction k as [|f k IH]; simpl; [done|]. by rewrite IH, app_assoc. Qed.

Definition below (v : V) (l : list A) : Prop := Forall (fun a => comparator (value a) v = -1) l.
Definition above (v : V) (l : list A) : Prop := Forall (fun a => comparator v (value a) = -1) l.

(** The leaf link where [v] belongs in [t]. *)
Definition leaf_of (v : V) (t : tree) (f : frame) (k : ctx) : Prop :=
  plug Null (f :: k) = t /\ below v (befores (f :: k)) /\ above v (afters (f :: k)).

Lemma leaf_of_grow v t f k g :
  leaf_of v t f k -> below v (before g) -> above v (after g) -> leaf_of v (fill g t) f (k ++ [g]).
Proof.
  intros (Hp & Hb & Ha) Hg1 Hg2. unfold leaf_of. change (f :: k ++ [g]) with ((f :: k) ++ [g]).
  rewrite plug_app, befores_app, afters_app, Hp. unfold below, above in *. simpl befores at 1. simpl afters at 2.
  rewrite app_nil_r. split; [done|]. by rewrite !Forall_app.
Qed.

Lemma below_trans v w l : ok v -> ok w -> Forall (fun a => ok (value a)) l ->
  below w l -> comparator w v = -1 -> below v l.
Proof.
  unfold below. intros Hv Hw Hok Hl E. rewrite Forall_forall in *. intros a Ha. eapply (cmp_trans _ w); auto.
Qed.
Lemma above_trans v w l : ok v -> ok w -> Forall (fun a => ok (value a)) l ->
  above w l -> comparator v w = -1 -> above v l.
Proof.
  unfold above. intros Hv Hw Hok Hl E. rewrite Forall_forall in *. intros a Ha. eapply (cmp_trans _ w); auto.
Qed.

Lemma insert_place_spec v t : ok v -> sorted t -> t <> Null -> forall up,
  (exists n, insert_place v t up = Some (Found n) /\ In n (inorder t) /\ comparator v (value n) = 0)
  \/ (exists f k, insert_place v t up = Some (Leaf (f_node f) (f_side f) (f :: k ++ up)) /\ leaf_of v t f k).
Proof.
  intros Hv. induction t as [|n b l IHl r IHr]; intros Hs Hne up; [done|].
  apply sorted_node in Hs as (Hl & Hr & Hn & Hln & Hnr & _). cbn [insert_place].
  rewrite compare_values_eq by done. simpl.
  destruct (cmp_range v (value n) Hv Hn) as [E|[E|E]]; rewrite E; simpl.
  - set (g := {| f_node := n; f_balance := b; f_side := false; f_other := r |}).
    assert (Hg : above v (after g)).
    { constructor; [done|]. by eapply (above_trans v (value n)); try apply Hr. }
    destruct l as [|ln lb ll lr].
    { right. exists g, []. split; [done|]. split; [done|]. cbn [befores afters app]. rewrite app_nil_r. split; [constructor|exact Hg]. }
    destruct (IHl Hl ltac:(done) (g :: up)) as [(m & E1 & Hm & E2)|(f & k & E1 & Hlf)]; rewrite E1.
    + left. exists m. split_and!; [done| |done]. apply in_app_iff. left. exact Hm.
    + right. exists f, (k ++ [g]). rewrite <- app_assoc. split; [done|]. by apply (leaf_of_grow _ _ f k g Hlf); [constructor|].
  - left. exists n. split_and!; [done| |done]. apply in_app_iff. simpl. auto.
  - set (g := {| f_node := n; f_balance := b; f_side := true; f_other := l |}).
    assert (Hnv : comparator (value n) v = -1) by (rewrite (cmp_antisym v) by done; lia).
    assert (Hg : below v (before g)).
    { unfold below, before. simpl. rewrite Forall_app. split; [|by constructor].
      by eapply (below_trans v (value n)); try apply Hl. }
    destruct r as [|rn rb rl rr].
    { right. exists g, []. split; [done|]. split; [done|]. cbn [befores afters app]. split; [exact Hg|constructor]. }
    destruct (IHr Hr ltac:(done) (g :: up)) as [(m & E1 & Hm & E2)|(f & k & E1 & Hlf)]; rewrite E1.
    + left. exists m. split_and!; [done| |done]. apply in_app_iff. right. right. exact Hm.
    + right. exists f, (k ++ [g]). rewrite <- app_assoc. split; [done|]. by apply (leaf_of_grow _ _ f k g Hlf); [|constructor].
Qed.

(** Inserting a node between what is below and what is above it. *)
Lemma sorted_insert l k a :
  StronglySorted lt (l ++ k) -> Forall (fun a => ok (value a)) (l ++ k) -> ok (value a) ->
  below (value a) l -> above (value a) k ->
  StronglySorted lt (l ++ a :: k) /\ Forall (fun a => ok (value a)) (l ++ a :: k).
Proof.
  intros Hs Hok Ha Hl Hk. apply sorted_app in Hs as (Hsl & Hsk & Hlk). apply Forall_app in Hok as [Hol Hok].
  split; [|by apply Forall_app; split; [|constructor]]. apply sorted_app. split_and!; [done|by constructor|].
  unfold below in Hl. rewrite Forall_forall in *. intros x Hx. constructor; [by apply Hl|by apply Hlk].
Qed.

Lemma BAVL_Insert_spec t a :
  balanced t -> sorted t -> ok (value a) ->
  (exists n, BAVL_Insert t a = Some (t, false, Some n) /\ In n (inorder t) /\ comparator (value a) (value n) = 0)
  \/ (exists t' ref l k, BAVL_Insert t a = Some (t', true, ref) /\ inorder t = l ++ k /\ inorder t' = l ++ a :: k
        /\ below (value a) l /\ above (value a) k /\ balanced t' /\ sorted t').
Proof.
  intros Hb Hs Ha. unfold BAVL_Insert. destruct t as [|n b l r].
  { right. eexists _, _, [], []. split; [done|]. simpl. split_and!; try done; [by constructor..|].
    split; by repeat constructor. }
  set (t := Node n b l r) in *.
  destruct (insert_place_spec (value a) t Ha Hs ltac:(done) []) as [(m & E1 & Hm & E2)|(f & k & E1 & Hp & Hbe & Haf)];
    rewrite E1; cbn [mbind option_bind].
  { left. by exists m. }
  right. rewrite app_nil_r. rewrite <- Hp in Hb, Hs |- *. clearbody t. clear n b l r t Hp E1.
  apply balanced_plug in Hb as [_ Hc]. simpl in Hc. destruct Hc as (Ho & Hfb & Hfr & Hc).
  pose proof (height_nonneg (f_other f)) as Hh0.
  assert (exists t', _BAVL_rebalance (fill f (Node a 0 Null Null)) k (f_side f) 1 = Some t' /\ balanced t'
            /\ inorder t' = inorder (plug (fill f (Node a 0 Null Null)) k)) as (t' & Et & Hbt & Hit).
  { unfold fill, BAVL_OPTNEG in *. destruct (f_side f); apply _BAVL_rebalance_spec; simpl; try done; try lia;
      unfold old_height; simpl; (eapply eq_ind; [exact Hc|f_equal; lia]). }
  rewrite Et. simpl. exists t', (Some (f_node f)), (befores (f :: k)), (afters (f :: k)).
  assert (Hi : inorder t' = befores (f :: k) ++ a :: afters (f :: k)).
  { rewrite Hit. change (plug (fill f (Node a 0 Null Null)) k) with (plug (Node a 0 Null Null) (f :: k)).
    by rewrite inorder_plug. }
  assert (Hi0 : inorder (plug Null (f :: k)) = befores (f :: k) ++ afters (f :: k)) by (by rewrite inorder_plug).
  split_and!; [done|exact Hi0|exact Hi|done..|]. unfold sorted. rewrite Hi. destruct Hs as [Hs Hok]. rewrite Hi0 in Hs, Hok.
  by apply sorted_insert.
Qed.

(** ** Removal *)

Lemma _BAVL_subtree_max_spec t : t <> Null -> forall up,
  exists m mb ml k, _BAVL_subtree_max t up = Some (m, ml, k ++ up) /\ plug (Node m mb ml Null) k = t /\ afters k = [].
Proof.
  induction t as [|n b l _ r IH]; intros Hne up; [done|]. simpl. destruct r as [|rn rb rl rr].
  { by exists n, b, l, []. }
  set (g := {| f_node := n; f_balance := b; f_side := true; f_other := l |}).
  destruct (IH ltac:(done) (g :: up)) as (m & mb & ml & k & E & Hp & Ha). rewrite E.
  exists m, mb, ml, (k ++ [g]). rewrite <- app_assoc, plug_app, afters_app, Hp, Ha. done.
Qed.

Lemma remove_node_spec child up :
  balanced child -> balanced_ctx up (height child + 1) ->
  exists t, remove_node child up = Some t /\ balanced t /\ inorder t = befores up ++ inorder child ++ afters up.
Proof.
  intros Hb Hc. destruct up as [|f up]; [exists child; simpl; by rewrite app_nil_r|].
  rewrite <- inorder_plug. simpl in Hc. destruct Hc as (Ho & Hfb & Hfr & Hc).
  simpl remove_node. simpl plug. unfold fill, BAVL_OPTNEG in *.
  destruct (f_side f); apply _BAVL_rebalance_spec; try done; try lia; unfold old_height;
    (eapply eq_ind; [exact Hc|f_equal; lia]).
Qed.

Lemma balanced_ctx_app k c t : balanced_ctx (k ++ c) (height t) <-> balanced_ctx k (height t) /\ balanced_ctx c (height (plug t k)).
Proof.
  revert t. induction k as [|f k IH]; intros t; simpl; [tauto|].
  assert (E : height (fill f t) = 1 + Z.max (height t) (height (f_other f))).
  { unfold fill. destruct (f_side f); simpl; lia. }
  rewrite <- E, IH. tauto.
Qed.

Lemma BAVL_Remove_spec n b l0 l1 c :
  balanced (plug (Node n b l0 l1) c) ->
  exists t, BAVL_Remove (Node n b l0 l1) c = Some t /\ balanced t
            /\ inorder t = befores c ++ (inorder l0 ++ inorder l1) ++ afters c.
Proof.
  intros Hb. apply balanced_plug in Hb as [Hb Hc]. simpl in Hb, Hc. destruct Hb as (H0 & H1 & Eb & Hr).
  assert (Hone : forall l, balanced l -> height l + 1 = 1 + Z.max (height l0) (height l1) ->
            inorder l = inorder l0 ++ inorder l1 ->
            exists t, remove_node l c = Some t /\ balanced t /\ inorder t = befores c ++ (inorder l0 ++ inorder l1) ++ afters c).
  { intros l Hl Hh <-. apply remove_node_spec; [done|]. by rewrite Hh. }
  unfold BAVL_Remove. pose proof (height_nonneg l0). pose proof (height_nonneg l1).
  destruct l0 as [|n0 b0 l00 l01] eqn:E0; [apply Hone; simpl in *; try done; lia|].
  destruct l1 as [|n1 b1 l10 l11] eqn:E1.
  { rewrite <- E0 in *. apply Hone; simpl in *; try done; [lia|]. by rewrite app_nil_r. }
  rewrite <- E0, <- E1 in *. clear Hone.
  destruct (_BAVL_subtree_max_spec l0 ltac:(by subst) []) as (m & mb & ml & k & Em & Hp & Ha).
  rewrite Em, app_nil_r. cbn [mbind option_bind]. rewrite <- Hp in H0.
  pose proof H0 as Hk. apply balanced_plug in Hk as [Hm Hk]. simpl in Hm. destruct Hm as (Hml & _ & Emb & Hmb).
  pose proof (height_nonneg ml).
  set (g := {| f_node := m; f_balance := b; f_side := false; f_other := l1 |}).
  destruct (remove_node_spec ml (k ++ g :: c)) as (t & Et & Hbt & Hit); [done| |].
  { replace (height ml + 1) with (height (Node m mb ml Null)) by (simpl; lia). apply balanced_ctx_app.
    split; [done|]. rewrite Hp. simpl. split_and!; try done; lia. }
  exists t. split; [done|]. split; [done|]. rewrite Hit, befores_app, afters_app, Ha. simpl.
  assert (Hi0 : inorder l0 = befores k ++ inorder ml ++ [m]).
  { by rewrite <- Hp, inorder_plug, Ha, app_nil_r. }
  rewrite Hi0, app_nil_r, <- !app_assoc. simpl. by rewrite <- ?app_assoc.
Qed.

Lemma sorted_remove l k n :
  StronglySorted lt (l ++ n :: k) -> Forall (fun a => ok (value a)) (l ++ n :: k) ->
  StronglySorted lt (l ++ k) /\ Forall (fun a => ok (value a)) (l ++ k).
Proof.
  intros Hs Hok. apply sorted_app in Hs as (Hl & Hk & Hlk). apply Forall_app in Hok as [Hol Hok].
  inversion Hk; subst. inversion Hok; subst. split; [|by apply Forall_app].
  apply sorted_app. split_and!; try done. eapply Forall_impl; [|exact Hlk]. simpl. intros a Ha. by inversion Ha.
Qed.

(** ** Lookup and iteration *)

Lemma BAVL_LookupExact_spec t v : ok v -> sorted t ->
  exists r, BAVL_LookupExact t v = Some r /\
    match r with
    | Some n => In n (inorder t) /\ comparator v (value n) = 0
    | None => forall n, In n (inorder t) -> comparator v (value n) <> 0
    end.
Proof.
  intros Hv. induction t as [|n b l IHl r IHr]; intros Hs; [by exists None|].
  apply sorted_node in Hs as (Hl & Hr & Hn & Hln & Hnr & _). simpl. rewrite compare_values_eq by done. simpl.
  destruct (cmp_range v (value n) Hv Hn) as [E|[E|E]]; rewrite E; simpl.
  - destruct (IHl Hl) as (o & Eo & Ho). rewrite Eo. exists o. split; [done|]. destruct o as [m|].
    + destruct Ho. split; [apply in_app_iff; auto|done].
    + intros m Hm. apply in_app_iff in Hm as [Hm|[->|Hm]]; [by apply Ho|lia|].
      enough (comparator v (value m) = -1) by lia. destruct Hr as [_ Hro]. rewrite Forall_forall in *.
      eapply (cmp_trans _ (value n)); auto. by apply Hnr.
  - exists (Some n). split; [done|]. split; [|done]. apply in_app_iff. simpl. auto.
  - destruct (IHr Hr) as (o & Eo & Ho). rewrite Eo. exists o. split; [done|]. destruct o as [m|].
    + destruct Ho. split; [apply in_app_iff; simpl; auto|done].
    + intros m Hm. apply in_app_iff in Hm as [Hm|[->|Hm]]; [|lia|by apply Ho].
      destruct Hl as [_ Hlo]. rewrite Forall_forall in *.
      enough (comparator (value m) v = -1) by (rewrite (cmp_antisym (value m) v) by auto; lia).
      eapply (cmp_trans _ (value n)); auto; [by apply Hln|]. rewrite (cmp_antisym v) by done. lia.
Qed.

Lemma inorder_node_cons n b l r : exists x xs, inorder (Node n b l r) = x :: xs.
Proof. simpl. destruct (inorder l); simpl; eauto. Qed.

Lemma BAVL_GetFirst_head t : BAVL_GetFirst t = head (inorder t).
Proof.
  induction t as [|n b l IHl r _]; [done|]. destruct l as [|ln lb ll lr]; [done|].
  change (BAVL_GetFirst (Node n b (Node ln lb ll lr) r)) with (BAVL_GetFirst (Node ln lb ll lr)). rewrite IHl.
  change (inorder (Node n b (Node ln lb ll lr) r)) with (inorder (Node ln lb ll lr) ++ n :: inorder r).
  by destruct (inorder_node_cons ln lb ll lr) as (x & xs & ->).
Qed.

Lemma BAVL_GetLast_last t : BAVL_GetLast t = list.last (inorder t).
Proof.
  induction t as [|n b l _ r IHr]; [done|]. destruct r as [|rn rb rl rr]; [simpl; by rewrite last_snoc|].
  change (BAVL_GetLast (Node n b l (Node rn rb rl rr))) with (BAVL_GetLast (Node rn rb rl rr)). rewrite IHr.
  change (inorder (Node n b l (Node rn rb rl rr))) with (inorder l ++ n :: inorder (Node rn rb rl rr)).
  rewrite last_app_cons. by destruct (inorder_node_cons rn rb rl rr) as (x & xs & ->).
Qed.

Lemma climb_true c : climb c true = head (afters c).
Proof.
  induction c as [|f c IH]; [done|]. simpl. unfold after. by destruct (f_side f).
Qed.
Lemma climb_false c : climb c false = list.last (befores c).
Proof.
  induction c as [|f c IH]; [done|]. simpl. unfold before. destruct (f_side f); simpl.
  - by rewrite app_assoc, last_snoc.
  - by rewrite app_nil_r, IH.
Qed.

(** ** The tree as an ordered set *)

(** A pointer to the node with the value [v]. *)
Fixpoint locate (t : tree) (up : ctx) (v : V) : option (tree * ctx) :=
  match t with
  | Null => None
  | Node n b l0 l1 =>
      if comparator v (value n) =? 0 then Some (t, up)
      else if comparator v (value n) =? 1
      then locate l1 ({| f_node := n; f_balance := b; f_side := true; f_other := l0 |} :: up) v
      else locate l0 ({| f_node := n; f_balance := b; f_side := false; f_other := l1 |} :: up) v
  end.

Inductive op := OpInsert (a : A) | OpRemove (v : V) | OpLookup (v : V).
Inductive answer := Inserted (b : bool) | Removed (b : bool) | Looked (a : option A).

(** The operations of the tree; a node is removed through a pointer to it. *)
Definition bavl_step (t : tree) (o : op) : option (tree * answer) :=
  match o with
  | OpInsert a => '(t, r, _) ← BAVL_Insert t a; Some (t, Inserted r)
  | OpRemove v =>
      match locate t [] v with
      | None => Some (t, Removed false)
      | Some (p, up) => t ← BAVL_Remove p up; Some (t, Removed true)
      end
  | OpLookup v => r ← BAVL_LookupExact t v; Some (t, Looked r)
  end.

(** The specification: a sorted list without two equal values. *)
Definition equal_to (v : V) (a : A) : bool := comparator v (value a) =? 0.

Fixpoint list_insert (a : A) (l : list A) : list A :=
  match l with
  | [] => [a]
  | x :: l => if comparator (value a) (value x) =? -1 then a :: x :: l else x :: list_insert a l
  end.

Definition list_step (l : list A) (o : op) : list A * answer :=
  match o with
  | OpInsert a => if existsb (equal_to (value a)) l then (l, Inserted false) else (list_insert a l, Inserted true)
  | OpRemove v => (List.filter (fun a => negb (equal_to v a)) l, Removed (existsb (equal_to v) l))
  | OpLookup v => (l, Looked (List.find (equal_to v) l))
  end.

Definition op_ok (o : op) : Prop :=
  match o with OpInsert a => ok (value a) | OpRemove v | OpLookup v => ok v end.

Fixpoint bavl_run (t : tree) (l : list op) : option (tree * list answer) :=
  match l with
  | [] => Some (t, [])
  | o :: l => '(t, a) ← bavl_step t o; '(t, r) ← bavl_run t l; Some (t, a :: r)
  end.
Fixpoint list_run (s : list A) (l : list op) : list A * list answer :=
  match l with
  | [] => (s, [])
  | o :: l => let '(s, a) := list_step s o in let '(s, r) := list_run s l in (s, a :: r)
  end.

Lemma list_insert_app a l k : ok (value a) -> Forall (fun a => ok (value a)) l ->
  below (value a) l -> above (value a) k -> list_insert a (l ++ k) = l ++ a :: k.
Proof.
  intros Ha. induction l as [|x l IH]; intros Hok Hl Hk; simpl.
  - destruct k as [|y k]; [done|]. simpl. inversion Hk; subst. replace (comparator (value a) (value y)) with (-1) by done. done.
  - inversion Hl; subst. inversion Hok; subst. rewrite (cmp_antisym (value x)) by done. simpl in *.
    replace (comparator (value x) (value a)) with (-1) by done. simpl. f_equal. by apply IH.
Qed.

Lemma existsb_below_above v l : ok v -> Forall (fun a => ok (value a)) l ->
  (below v l \/ above v l) -> existsb (equal_to v) l = false.
Proof.
  intros Hv Hok H. apply not_true_is_false. intros (x & Hx & E)%existsb_exists. unfold equal_to in E. zbool.
  rewrite Forall_forall in Hok. destruct H as [H|H]; unfold below, above in H; rewrite Forall_forall in H; specialize (H x Hx).
  - rewrite (cmp_antisym v) in H by auto. lia.
  - lia.
Qed.

(** A node in the middle splits the list into what is below and above it. *)
Lemma sorted_split v l n k : ok v -> StronglySorted lt (l ++ n :: k) -> Forall (fun a => ok (value a)) (l ++ n :: k) ->
  comparator v (value n) = 0 -> below v l /\ above v k.
Proof.
  intros Hv Hs Hok E. apply sorted_app in Hs as (Hl & Hk & Hlk). apply Forall_app in Hok as [Hol Hok].
  inversion Hk; subst. inversion Hok; subst. unfold below, above. rewrite !Forall_forall in *. split.
  - intros a Ha. specialize (Hlk a Ha). inversion Hlk; subst. unfold lt in *.
    rewrite (cmp_antisym v) by auto. rewrite (cmp_same v (value n)) by auto. rewrite (cmp_antisym (value a)) by auto.
    replace (comparator (value a) (value n)) with (-1) by done. done.
  - intros a Ha. rewrite (cmp_same v (value n)) by auto. by apply H2.
Qed.

Lemma locate_spec v t : ok v -> sorted t -> forall up,
  match locate t up v with
  | Some (p, up') => exists n b l r k, p = Node n b l r /\ up' = k ++ up /\ plug p k = t /\ comparator v (value n) = 0
  | None => forall n, In n (inorder t) -> comparator v (value n) <> 0
  end.
Proof.
  intros Hv. induction t as [|n b l IHl r IHr]; intros Hs up; [by intros ? []|].
  apply sorted_node in Hs as (Hl & Hr & Hn & Hln & Hnr & _). simpl.
  destruct (cmp_range v (value n) Hv Hn) as [E|[E|E]]; rewrite E; simpl.
  - set (g := {| f_node := n; f_balance := b; f_side := false; f_other := r |}).
    specialize (IHl Hl (g :: up)). destruct (locate l _ v) as [[p up']|].
    + destruct IHl as (n' & b' & l' & r' & k & Hp & -> & Hk & E'). exists n', b', l', r', (k ++ [g]).
      rewrite <- app_assoc, plug_app, Hk. done.
    + intros m [Hm|[->|Hm]]%in_app_iff; [by apply IHl|lia|].
      enough (comparator v (value m) = -1) by lia. destruct Hr as [_ Hro]. rewrite Forall_forall in *.
      eapply (cmp_trans _ (value n)); auto. by apply Hnr.
  - by exists n, b, l, r, [].
  - set (g := {| f_node := n; f_balance := b; f_side := true; f_other := l |}).
    specialize (IHr Hr (g :: up)). destruct (locate r _ v) as [[p up']|].
    + destruct IHr as (n' & b' & l' & r' & k & Hp & -> & Hk & E'). exists n', b', l', r', (k ++ [g]).
      rewrite <- app_assoc, plug_app, Hk. done.
    + intros m [Hm|[->|Hm]]%in_app_iff; [|lia|by apply IHr].
      destruct Hl as [_ Hlo]. rewrite Forall_forall in *.
      enough (comparator (value m) v = -1) by (rewrite (cmp_antisym (value m) v) by auto; lia).
      eapply (cmp_trans _ (value n)); auto; [by apply Hln|]. rewrite (cmp_antisym v) by done. lia.
Qed.

Lemma filter_all (P : A -> bool) l : existsb P l = false -> List.filter (fun a => negb (P a)) l = l.
Proof.
  induction l as [|x l IH]; simpl; [done|]. intros (E & ?)%orb_false_iff. rewrite E. simpl. f_equal. auto.
Qed.

Lemma existsb_none v l : (forall n, In n l -> comparator v (value n) <> 0) -> existsb (equal_to v) l = false.
Proof.
  intros H. apply not_true_is_false. intros (x & Hx & E)%existsb_exists. unfold equal_to in E. zbool. by apply (H x).
Qed.

Lemma find_skip (P : A -> bool) l x k : existsb P l = false -> P x = true -> List.find P (l ++ x :: k) = Some x.
Proof.
  intros Hl Hx. induction l as [|y l IH]; simpl in *; [by rewrite Hx|].
  apply orb_false_iff in Hl as [-> ?]. auto.
Qed.

Lemma find_existsb (P : A -> bool) l : existsb P l = false -> List.find P l = None.
Proof. induction l as [|x l IH]; simpl; [done|]. intros (-> & ?)%orb_false_iff. auto. Qed.

(** One operation of the tree is the operation on its in-order list. *)
Lemma bavl_step_refines t o :
  balanced t -> sorted t -> op_ok o ->
  exists t' a, bavl_step t o = Some (t', a) /\ list_step (inorder t) o = (inorder t', a) /\ balanced t' /\ sorted t'.
Proof.
  intros Hb Hs Ho. pose proof Hs as [Hss Hso]. destruct o as [a|v|v]; simpl in *.
  - destruct (BAVL_Insert_spec t a Hb Hs Ho) as [(n & E & Hn & E0)|(t' & ref & l & k & E & Hi & Hi' & Hbe & Hab & Hb' & Hs')];
      rewrite E; simpl.
    + exists t, (Inserted false). assert (existsb (equal_to (value a)) (inorder t) = true) as ->; [|done].
      apply existsb_exists. exists n. split; [done|]. unfold equal_to. by rewrite E0.
    + exists t', (Inserted true). rewrite Hi in Hso |- *. apply Forall_app in Hso as [Hol Hok].
      rewrite existsb_app, !existsb_below_above by auto. simpl. rewrite list_insert_app by done. by rewrite Hi'.
  - pose proof (locate_spec v t Ho Hs []) as Hl. destruct (locate t [] v) as [[p up]|].
    + destruct Hl as (n & b & l & r & k & -> & -> & Hp & E). rewrite app_nil_r in *.
      rewrite <- Hp in Hb. destruct (BAVL_Remove_spec n b l r k Hb) as (t' & Et & Hbt & Hit). rewrite Et. simpl.
      exists t', (Removed true). split; [done|].
      assert (Hi : inorder t = (befores k ++ inorder l) ++ n :: inorder r ++ afters k).
      { rewrite <- Hp, inorder_plug. simpl. by rewrite <- !app_assoc. }
      assert (Hit' : inorder t' = (befores k ++ inorder l) ++ inorder r ++ afters k).
      { rewrite Hit. by rewrite <- !app_assoc. }
      rewrite Hi in Hss, Hso. destruct (sorted_split v _ n _ Ho Hss Hso E) as [Hbe Hab].
      destruct (sorted_remove _ _ _ Hss Hso) as [Hss' Hso'].
      split; [|split; [done|by split; rewrite Hit']].
      rewrite Hi, Hit'. apply Forall_app in Hso as [Hol Hok]. inversion Hok; subst.
      rewrite List.filter_app, existsb_app. simpl.
      assert (Heq : equal_to v n = true) by (unfold equal_to; by rewrite E). rewrite Heq. simpl. rewrite orb_true_r, !filter_all by (apply existsb_below_above; auto). done.
    + exists t, (Removed false). split; [done|]. rewrite existsb_none by done. rewrite filter_all by (by apply existsb_none). done.
  - destruct (BAVL_LookupExact_spec t v Ho Hs) as (r & E & Hr). rewrite E. simpl. exists t, (Looked r).
    split; [done|]. split; [|done]. f_equal. f_equal. destruct r as [n|].
    + destruct Hr as [Hn E0]. apply in_split in Hn as (l & k & Hi). rewrite Hi in Hss, Hso |- *.
      destruct (sorted_split v l n k Ho Hss Hso E0) as [Hbe _]. apply Forall_app in Hso as [Hol _].
      rewrite find_skip; [done|apply existsb_below_above; auto|]. unfold equal_to. by rewrite E0.
    + by rewrite find_existsb by (by apply existsb_none).
Qed.

(** The test of _BAVL_assert_recurser on the root of a subtree. *)
Lemma root_in m mb ml mr : In m (inorder (Node m mb ml mr)).
Proof. simpl. apply in_app_iff. simpl. auto. Qed.

Lemma root_left n t : Forall (fun a => lt a n) (inorder t) ->
  match t with Null => true | Node m _ _ _ => comparator (value m) (value n) =? -1 end = true.
Proof.
  destruct t as [|m mb ml mr]; [done|]. intros H. rewrite Forall_forall in H. specialize (H m (root_in m mb ml mr)).
  unfold lt in H. by rewrite H.
Qed.
Lemma root_right n t : ok (value n) -> Forall (fun a => ok (value a)) (inorder t) -> Forall (lt n) (inorder t) ->
  match t with Null => true | Node m _ _ _ => comparator (value m) (value n) =? 1 end = true.
Proof.
  destruct t as [|m mb ml mr]; [done|]. intros Hn Hok H. rewrite Forall_forall in *.
  specialize (H m (root_in m mb ml mr)). unfold lt in H. rewrite (cmp_antisym (value n)) by auto using root_in.
  by rewrite H.
Qed.

Lemma Verify_balanced t : balanced t -> sorted t -> _BAVL_assert_recurser t = Some (height t).
Proof.
  induction t as [|n b l IHl r IHr]; [done|]. intros (Hl & Hr & Eb & Hb) Hs.
  apply sorted_node in Hs as (Hsl & Hsr & Hn & Hln & Hnr & _). cbn [_BAVL_assert_recurser].
  rewrite IHl, IHr by done. cbn [mbind option_bind]. replace (b >=? -1) with true by lia. replace (b <=? 1) with true by lia.
  rewrite (root_left n l), (root_right n r) by (done || apply Hsr).
  replace (b =? height r - height l) with true by lia. simpl. f_equal. unfold BAVL_MAX. zbool. ztest; lia.
Qed.

Lemma height_log t : balanced t -> 2 ^ (height t / 2) <= Z.of_nat (length (inorder t)) + 1.
Proof.
  induction t as [|n b l IHl r IHr]; [done|]. intros (Hl & Hr & Eb & Hb). specialize (IHl Hl). specialize (IHr Hr).
  pose proof (height_nonneg l). pose proof (height_nonneg r). cbn [inorder]. rewrite length_app. cbn [length].
  cbn [height]. set (h := Z.max (height l) (height r)).
  destruct (Z.eq_dec h 0) as [->|Hh]; [replace ((1 + 0) / 2) with 0 by done; simpl; lia|].
  assert (2 ^ ((h - 1) / 2) <= 2 ^ (height l / 2)) by (apply Z.pow_le_mono_r; [lia|apply Z.div_le_mono; lia]).
  assert (2 ^ ((h - 1) / 2) <= 2 ^ (height r / 2)) by (apply Z.pow_le_mono_r; [lia|apply Z.div_le_mono; lia]).
  replace ((1 + h) / 2) with (1 + (h - 1) / 2) by dlia.
  rewrite Z.pow_add_r by dlia. lia.
Qed.

Lemma bavl_run_refines ops : forall t, balanced t -> sorted t -> Forall op_ok ops ->
  exists t' ans, bavl_run t ops = Some (t', ans) /\ list_run (inorder t) ops = (inorder t', ans)
                 /\ balanced t' /\ sorted t'.
Proof.
  induction ops as [|o ops IH]; intros t Hb Hs Ho; simpl; [by exists t, []|]. inversion Ho; subst.
  destruct (bavl_step_refines t o Hb Hs ltac:(done)) as (t1 & a & E1 & L1 & Hb1 & Hs1). rewrite E1, L1. simpl.
  destruct (IH t1 Hb1 Hs1 ltac:(done)) as (t2 & ans & E2 & L2 & Hb2 & Hs2). rewrite E2, L2. simpl. by exists t2, (a :: ans).
Qed.

Lemma sorted_Null : sorted Null.
Proof. split; constructor. Qed.

(** C22. The AVL tree is an ordered set: for every sequence of insertions, removals
    and lookups no ASSERT fails and no null link is followed, every answer is
    that of a sorted list, and after it the in-order list of the tree is that
    list and BAVL_Verify accepts the tree. *)
Theorem BAVL_refines_sorted_list ops :
  Forall op_ok ops ->
  exists t ans, bavl_run Null ops = Some (t, ans) /\ list_run [] ops = (inorder t, ans)
                /\ _BAVL_assert_recurser t = Some (height t).
Proof.
  intros Ho. destruct (bavl_run_refines ops Null I sorted_Null Ho) as (t & ans & E & L & Hb & Hs).
  exists t, ans. split_and!; [done..|]. by apply Verify_balanced.
Qed.

(** The number of comparisons of a lookup is at most the height of the tree, and
    the height is at most twice the binary logarithm of the number of nodes plus
    one. *)
Theorem BAVL_height_log ops t ans :
  Forall op_ok ops -> bavl_run Null ops = Some (t, ans) ->
  2 ^ (height t / 2) <= Z.of_nat (length (inorder t)) + 1.
Proof.
  intros Ho E. destruct (bavl_run_refines ops Null I sorted_Null Ho) as (t' & ans' & E' & _ & Hb & _).
  rewrite E in E'. injection E' as <- <-. by apply height_log.
Qed.

(** BAVL_GetFirst, BAVL_GetLast, BAVL_GetNext and BAVL_GetPrev walk the in-order
    list, whatever the shape of the tree. *)
Theorem BAVL_iteration n b l r c :
  BAVL_GetFirst (plug (Node n b l r) c) = head (inorder (plug (Node n b l r) c))
  /\ BAVL_GetLast (plug (Node n b l r) c) = list.last (inorder (plug (Node n b l r) c))
  /\ exists before after, inorder (plug (Node n b l r) c) = before ++ n :: after
       /\ BAVL_GetPrev (Node n b l r) c = list.last before /\ BAVL_GetNext (Node n b l r) c = head after.
Proof.
  split_and!; [apply BAVL_GetFirst_head|apply BAVL_GetLast_last|].
  exists (befores c ++ inorder l), (inorder r ++ afters c). split_and!.
  - rewrite inorder_plug. simpl. by rewrite <- !app_assoc.
  - destruct l as [|ln lb ll lr]; [simpl; by rewrite app_nil_r, climb_false|].
    change (BAVL_GetPrev (Node n b (Node ln lb ll lr) r) c) with (BAVL_GetLast (Node ln lb ll lr)).
    rewrite BAVL_GetLast_last. destruct (inorder_node_cons ln lb ll lr) as (x & xs & ->). by rewrite last_app_cons.
  - destruct r as [|rn rb rl rr]; [apply climb_true|].
    change (BAVL_GetNext (Node n b l (Node rn rb rl rr)) c) with (BAVL_GetFirst (Node rn rb rl rr)).
    rewrite BAVL_GetFirst_head. by destruct (inorder_node_cons rn rb rl rr) as (x & xs & ->).
Qed.
End BAVL.

(** Only the values of the nodes in the tree matter. *)
Lemma sorted_ext {A V : Type} (value value' : A -> V) cmp ok t :
  (forall a, In a (inorder t) -> value' a = value a) -> sorted value cmp ok t -> sorted value' cmp ok t.
Proof.
  intros Hv [Hs Hok]. split.
  - clear Hok. induction Hs as [|a l Hs IH Hf]; constructor.
    + apply IH. intros b Hb. apply Hv. by right.
    + rewrite Forall_forall in *. intros b Hb. unfold lt in *. rewrite (Hv a), (Hv b) by (first [by left|by right]). by apply Hf.
  - rewrite Forall_forall in *. intros a Ha. rewrite Hv by done. by apply Hok.
Qed.

(** * Comparators of the program *)

Lemma B_COMPARE_values a b : B_COMPARE a b = -1 \/ B_COMPARE a b = 0 \/ B_COMPARE a b = 1.
Proof. destruct (B_COMPARE_spec a b) as [[? ->]|[[? ->]|[? ->]]]; lia. Qed.

#[export] Instance B_COMPARE_Comparator : Comparator (fun _ : Z => True) B_COMPARE.
Proof.
  split.
  - intros a b _ _. apply B_COMPARE_values.
  - intros a b _ _. apply B_COMPARE_antisym.
  - intros a b c _ _ _. rewrite !B_COMPARE_lt. lia.
  - intros a b c _ _ _ E. destruct (B_COMPARE_spec a b) as [[-> _]|[[? E']|[? E']]]; [done|lia..].
Qed.

(** The order of the addresses, by which both UDP clients find a connection. *)
#[export] Instance BAddr_Comparator : Comparator BAddr_wf BAddr_CompareOrder.
Proof.
  split.
  - intros a b _ _. unfold BAddr_CompareOrder.
    repeat (first [apply B_COMPARE_values | match goal with |- context [if ?x then _ else _] => destruct x end
                  | match goal with |- context [match ?x with _ => _ end] => destruct x end | right; left; done]).
  - intros. by apply BAddr_CompareOrder_antisym.
  - intros a b c. apply BAddr_CompareOrder_trans.
  - intros a b c Ha Hb _ E. apply BAddr_CompareOrder_zero in E; [by subst|done|done].
Qed.

(** * Concrete trees *)

Definition ex_ops : list (op (A := Z) (V := Z)) :=
  [OpInsert 5; OpInsert 3; OpInsert 4; OpInsert 8; OpInsert 9; OpInsert 4; OpRemove 5; OpLookup 8; OpRemove 7; OpInsert 1].

Lemma ex_ops_ok : Forall (op_ok id (fun _ : Z => True)) ex_ops.
Proof. repeat constructor. Qed.

Lemma BAVL_refines_sorted_list_witness :
  exists t ans, bavl_run id B_COMPARE Null ex_ops = Some (t, ans)
    /\ ([1; 3; 4; 8; 9], [Inserted true; Inserted true; Inserted true; Inserted true; Inserted true; Inserted false;
                          Removed true; Looked (Some 8); Removed false; Inserted true]) = (inorder t, ans).
Proof.
  destruct (BAVL_refines_sorted_list id B_COMPARE (fun _ => True) ex_ops ex_ops_ok) as (t & ans & E & L & _).
  exists t, ans. split; [exact E|]. rewrite <- L. vm_compute. reflexivity.
Defined.

Definition ex_tree : tree (A := Z) :=
  Node 4 0 (Node 3 (-1) (Node 1 0 Null Null) Null) (Node 8 1 Null (Node 9 0 Null Null)).

Lemma BAVL_height_log_witness : 2 ^ (height ex_tree / 2) <= Z.of_nat (length (inorder ex_tree)) + 1.
Proof.
  refine (BAVL_height_log id B_COMPARE (fun _ => True) ex_ops ex_tree _ ex_ops_ok _). vm_compute. reflexivity.
Defined.
