(* ===== verification/SLinkedList.v ===== *)
(** The intrusive linked list of structure/SLinkedList_impl.h, instantiated as
    in base/BPending_list.h (no last pointer), at the level of its pointers.

    A store maps addresses to nodes; [None] is a dereference of an address that
    holds no node, or a failed ASSERT.  [list_rep] says that a store and a
    [first] pointer hold the list [l]; the [prev] pointer of the first node and
    the links of removed nodes are left unspecified, as in the code.  Each
    operation is shown to implement the list operation of its name. *)

From S2P Require Import Prelude.
From stdpp Require Export gmap.
Open Scope Z_scope.

Abbreviation ptr := Z.

Record slnode := { sl_next : option ptr; sl_prev : option ptr }.
Abbreviation slstore := (gmap ptr slnode).

Record SLinkedList := { sl_first : option ptr }.

Definition set_next (h : slstore) (e : ptr) (v : option ptr) : option slstore :=
  n ← h !! e; Some (<[e := {| sl_next := v; sl_prev := sl_prev n |}]> h).
Definition set_prev (h : slstore) (e : ptr) (v : option ptr) : option slstore :=
  n ← h !! e; Some (<[e := {| sl_next := sl_next n; sl_prev := v |}]> h).

Definition SLinkedListMarkRemoved (h : slstore) (entry : ptr) : option slstore :=
  set_next h entry (Some entry).

Definition SLinkedListIsRemoved (h : slstore) (entry : ptr) : option bool :=
  n ← h !! entry; Some (bool_decide (sl_next n = Some entry)).

Definition SLinkedList_Init : SLinkedList := {| sl_first := None |}.

Definition SLinkedList_Prepend (o : SLinkedList) (h : slstore) (entry : ptr)
    : option (SLinkedList * slstore) :=
  h ← set_next h entry (sl_first o);
  h ← match sl_first o with
      | Some f => set_prev h f (Some entry)
      | None => Some h
      end;
  Some ({| sl_first := Some entry |}, h).

Definition SLinkedList_Remove (o : SLinkedList) (h : slstore) (entry : ptr)
    : option (SLinkedList * slstore) :=
  if bool_decide (Some entry <> sl_first o) then
    n ← h !! entry;
    prev ← sl_prev n;
    h ← set_next h prev (sl_next n);
    n ← h !! entry;
    match sl_next n with
    | Some next => h ← set_prev h next (sl_prev n); Some (o, h)
    | None => Some (o, h)
    end
  else
    n ← h !! entry;
    Some ({| sl_first := sl_next n |}, h).

Definition SLinkedList_RemoveFirst (o : SLinkedList) (h : slstore) : option SLinkedList :=
  first ← sl_first o;
  n ← h !! first;
  Some {| sl_first := sl_next n |}.

Definition SLinkedList_First (o : SLinkedList) : option ptr := sl_first o.

Definition SLinkedList_IsEmpty (o : SLinkedList) : bool := negb (bool_decide (is_Some (sl_first o))).

(** * Representation *)

(** What follows a run, and what precedes its end. *)
Definition hd_or (l : list ptr) (e : option ptr) : option ptr :=
  match l with [] => e | x :: _ => Some x end.
Fixpoint last_or (p : option ptr) (l : list ptr) : option ptr :=
  match l with [] => p | x :: l' => last_or (Some x) l' end.

(** [seg h p l e]: the nodes of [l] are linked in order; the first one is
    preceded by [p] (its [prev] pointer matters only if there is one) and the
    last one is followed by [e]. *)
Fixpoint seg (h : slstore) (p : option ptr) (l : list ptr) (e : option ptr) : Prop :=
  match l with
  | [] => True
  | x :: l' =>
      exists n, h !! x = Some n /\ sl_next n = hd_or l' e
        /\ (p = None \/ sl_prev n = p) /\ seg h (Some x) l' e
  end.

Record list_rep (o : SLinkedList) (h : slstore) (l : list ptr) : Prop := {
  lr_first : sl_first o = hd_or l None;
  lr_nodup : NoDup l;
  lr_seg : seg h None l None }.

Lemma seg_app h p l1 l2 e :
  seg h p (l1 ++ l2) e <-> seg h p l1 (hd_or l2 e) /\ seg h (last_or p l1) l2 e.
Proof.
  revert p. induction l1 as [|x l1 IH]; intros p; simpl; [tauto|].
  assert (H : hd_or (l1 ++ l2) e = hd_or l1 (hd_or l2 e)) by by destruct l1.
  rewrite H. setoid_rewrite IH. naive_solver.
Qed.

Lemma seg_frame h p l e x n : x ∉ l -> seg h p l e -> seg (<[x := n]> h) p l e.
Proof.
  revert p. induction l as [|y l IH]; intros p Hx; simpl; [done|].
  apply not_elem_of_cons in Hx as [Hxy Hx]. intros (m & ? & ? & ? & ?).
  exists m. rewrite lookup_insert_ne by done. eauto.
Qed.

Lemma seg_alloc h p l e x : seg h p l e -> x ∈ l -> is_Some (h !! x).
Proof.
  revert p. induction l as [|y l IH]; intros p; simpl; [by intros _ ?%elem_of_nil|].
  intros (n & ? & _ & _ & ?) [->|?]%elem_of_cons; [by eexists|eauto].
Qed.

(** A run may be entered without a predecessor. *)
Lemma seg_forget h p l e : seg h p l e -> seg h None l e.
Proof. destruct l as [|x l]; [done|]. simpl. naive_solver. Qed.

Lemma last_or_snoc p l x : last_or p (l ++ [x]) = Some x.
Proof. revert p. induction l; intros p; simpl; auto. Qed.

Lemma list_rep_IsEmpty o h l : list_rep o h l -> SLinkedList_IsEmpty o = bool_decide (l = []).
Proof. intros [F _ _]. unfold SLinkedList_IsEmpty. rewrite F. by destruct l. Qed.

Lemma list_rep_First o h l : list_rep o h l -> SLinkedList_First o = head l.
Proof. intros [F _ _]. unfold SLinkedList_First. rewrite F. by destruct l. Qed.

Lemma list_rep_Prepend o h l e : list_rep o h l -> e ∉ l -> is_Some (h !! e) ->
  exists o' h', SLinkedList_Prepend o h e = Some (o', h') /\ list_rep o' h' (e :: l)
    /\ (forall x n, x ∉ e :: l -> h !! x = Some n -> h' !! x = Some n) /\ dom h' = dom h.
Proof.
  intros [F N S] He [n Hn]. unfold SLinkedList_Prepend, set_next. rewrite Hn. cbn [mbind option_bind].
  rewrite F. destruct l as [|f l]; simpl hd_or; cbn match.
  - eexists _, _. split; [reflexivity|]. split; [split; simpl; [done|apply NoDup_singleton|]|].
    + eexists. rewrite lookup_insert_eq. naive_solver.
    + split; [|apply dom_insert_lookup_L; by eexists].
      intros x m Hx ?. by rewrite lookup_insert_ne by set_solver.
  - destruct S as (m & Hm & Hx & _ & S). apply NoDup_cons in N as N'. destruct N' as [Nf Nl].
    assert (f <> e) by set_solver. unfold set_prev. rewrite lookup_insert_ne by done.
    rewrite Hm. cbn [mbind option_bind].
    eexists _, _. split; [reflexivity|]. split; [split; simpl; [done|by apply NoDup_cons|]|].
    + eexists. rewrite lookup_insert_ne by done. rewrite lookup_insert_eq.
      split; [done|]. split; [done|]. split; [by left|].
      eexists. rewrite lookup_insert_eq. split; [done|]. simpl. split; [done|]. split; [by right|].
      apply seg_frame; [done|]. apply seg_frame; [set_solver|done].
    + split; [|rewrite !dom_insert_lookup_L; [done|by eexists|]].
      * intros x k Hxl ?. rewrite !lookup_insert_ne by set_solver. done.
      * rewrite lookup_insert_ne by done. by eexists.
Qed.

Lemma list_rep_RemoveFirst o h e l : list_rep o h (e :: l) ->
  exists o', SLinkedList_RemoveFirst o h = Some o' /\ list_rep o' h l.
Proof.
  intros [F N (n & Hn & Hx & _ & S)]. unfold SLinkedList_RemoveFirst. rewrite F. simpl.
  cbn [mbind option_bind]. rewrite Hn. simpl. eexists. split; [reflexivity|].
  apply NoDup_cons in N as [_ N]. split; [done|done|by eapply seg_forget].
Qed.

(** Unlinking [e] from between [a] and what follows it. *)
Lemma seg_unlink h l1 a e l2 : NoDup (l1 ++ a :: e :: l2) -> seg h None (l1 ++ a :: e :: l2) None ->
  exists h', (n ← h !! e;
              prev ← sl_prev n;
              h ← set_next h prev (sl_next n);
              n ← h !! e;
              match sl_next n with
              | Some next => h ← set_prev h next (sl_prev n); Some h
              | None => Some h
              end) = Some h'
    /\ seg h' None (l1 ++ a :: l2) None
    /\ (forall x n, x ∉ l1 ++ a :: l2 -> h !! x = Some n -> h' !! x = Some n) /\ dom h' = dom h.
Proof.
  intros N S. apply NoDup_app in N as (N1 & N12 & N2). apply NoDup_cons in N2 as [Na N2].
  apply NoDup_cons in N2 as [Ne N2].
  apply seg_app in S as [S1 (na & Ha & Hax & Hap & ne & He & Hex & [?|Hep] & S2)]; [done|].
  assert (Hae : a <> e) by set_solver. rewrite He. simpl. rewrite Hep. simpl.
  unfold set_next. rewrite Ha. simpl. rewrite lookup_insert_ne by done. rewrite He. simpl.
  assert (a ∉ l1) by (intros ?; eapply N12; [done|set_solver]).
  destruct l2 as [|b l2]; simpl in Hex; rewrite Hex; simpl.
  - eexists. split; [reflexivity|]. split; [|split; [|apply dom_insert_lookup_L; by eexists]].
    + apply seg_app. split; [by apply seg_frame|]. eexists. rewrite lookup_insert_eq. done.
    + intros x n Hx ?. by rewrite lookup_insert_ne by set_solver.
  - destruct S2 as (nb & Hb & Hbx & _ & S2). assert (Hab : a <> b) by set_solver.
    unfold set_prev. rewrite lookup_insert_ne by done. rewrite Hb. simpl.
    apply NoDup_cons in N2 as [Nb N2].
    assert (b ∉ l1) by (intros ?; eapply N12; [done|set_solver]).
    eexists. split; [reflexivity|]. split; [|split].
    + apply seg_app. split; [by do 2 (apply seg_frame; [done|])|].
      eexists. rewrite lookup_insert_ne by done. rewrite lookup_insert_eq. split; [done|].
      split; [done|]. split; [done|]. eexists. rewrite lookup_insert_eq. split; [done|].
      split; [done|]. split; [by right|]. do 2 (apply seg_frame; [set_solver|]). done.
    + intros x n Hx ?. by rewrite !lookup_insert_ne by set_solver.
    + rewrite !dom_insert_lookup_L; [done|by eexists|]. rewrite lookup_insert_ne by done. by eexists.
Qed.

Lemma list_rep_Remove o h l1 e l2 : list_rep o h (l1 ++ e :: l2) ->
  exists o' h', SLinkedList_Remove o h e = Some (o', h') /\ list_rep o' h' (l1 ++ l2)
    /\ (forall x n, x ∉ l1 ++ l2 -> h !! x = Some n -> h' !! x = Some n) /\ dom h' = dom h.
Proof.
  intros [F N S]. unfold SLinkedList_Remove. destruct l1 as [|x l1] using rev_ind.
  - simpl in *. rewrite F. rewrite bool_decide_eq_false_2 by tauto. destruct S as (n & Hn & Hx & _ & S).
    rewrite Hn. simpl. exists {| sl_first := sl_next n |}, h. split; [done|].
    apply NoDup_cons in N as [_ N]. split; [split; [done|done|by eapply seg_forget]|]. done.
  - clear IHl1. rewrite <- !app_assoc in *. simpl in *.
    assert (Fe : Some e <> sl_first o).
    { rewrite F. intros E. apply NoDup_app in N as (_ & N1 & N2). destruct l1 as [|y l1]; simpl in *.
      - injection E as ->. apply NoDup_cons in N2 as [N2 _]. set_solver.
      - injection E as ->. eapply (N1 y); set_solver. }
    rewrite bool_decide_eq_true_2 by done.
    destruct (seg_unlink h l1 x e l2 N S) as (h' & E & S' & Fr & D). exists o, h'.
    split; [|split; [split|by split]]; [|by rewrite F; destruct l1| |done].
    + destruct (h !! e) as [n|]; [simpl in E |- *|done]. destruct (sl_prev n) as [p|]; [simpl in E |- *|done].
      destruct (set_next h p (sl_next n)) as [h1|]; [simpl in E |- *|done].
      destruct (h1 !! e) as [n1|]; [simpl in E |- *|done]. destruct (sl_next n1) as [y|]; [|by apply (inj Some) in E as ->].
      destruct (set_prev h1 y (sl_prev n1)); [simpl in E |- *|done]. by apply (inj Some) in E as ->.
    + apply NoDup_app in N as (? & N1 & N2). apply NoDup_cons in N2 as [Nx N2].
      apply NoDup_cons in N2 as [? N2]. apply NoDup_app. split; [done|]. split.
      * intros y Hy. specialize (N1 y Hy). set_solver.
      * apply NoDup_cons. split; [set_solver|done].
Qed.
