(* ===== verification/LinkedList1.v ===== *)
(** structure/LinkedList1.h: the doubly linked list of the connections of
    tun2socks and of the UDP clients, at the level of its pointers.

    A store maps the addresses of nodes to their two links.  [rep o h l]: the
    list object [o] and the store [h] hold the list [l].  It splits into a left
    part, reached from the first pointer, and a right part, reached from the last
    pointer; every operation redirects the end of a left part and the beginning
    of a right part. *)

From S2P Require Import Prelude SLinkedList.

Record LinkedList1Node := { l1_p : option ptr; l1_n : option ptr }.
Abbreviation store := (gmap ptr LinkedList1Node).
Record LinkedList1 := { l1_first : option ptr; l1_last : option ptr }.

(** [q->n = v] and [q->p = v]. *)
Definition set_n (h : store) (q : ptr) (v : option ptr) : option store :=
  x ← h !! q; Some (<[q := {| l1_p := l1_p x; l1_n := v |}]> h).
Definition set_p (h : store) (q : ptr) (v : option ptr) : option store :=
  x ← h !! q; Some (<[q := {| l1_p := v; l1_n := l1_n x |}]> h).

(** [if (q) q->n = v; else list->first = v;] and
    [if (q) q->p = v; else list->last = v;] *)
Definition put_n (o : LinkedList1) (h : store) (q v : option ptr) : option (LinkedList1 * store) :=
  match q with
  | Some q => h ← set_n h q v; Some (o, h)
  | None => Some ({| l1_first := v; l1_last := l1_last o |}, h)
  end.
Definition put_p (o : LinkedList1) (h : store) (q v : option ptr) : option (LinkedList1 * store) :=
  match q with
  | Some q => h ← set_p h q v; Some (o, h)
  | None => Some ({| l1_first := l1_first o; l1_last := v |}, h)
  end.

Definition LinkedList1_Init : LinkedList1 := {| l1_first := None; l1_last := None |}.
Definition LinkedList1_IsEmpty (o : LinkedList1) : bool := bool_decide (l1_first o = None).
Definition LinkedList1_GetFirst (o : LinkedList1) : option ptr := l1_first o.
Definition LinkedList1_GetLast (o : LinkedList1) : option ptr := l1_last o.

Definition LinkedList1Node_Next (h : store) (node : ptr) : option (option ptr) := l1_n <$> h !! node.
Definition LinkedList1Node_Prev (h : store) (node : ptr) : option (option ptr) := l1_p <$> h !! node.

Definition LinkedList1_Prepend (o : LinkedList1) (h : store) (node : ptr) : option (LinkedList1 * store) :=
  h ← set_p h node None;
  h ← set_n h node (l1_first o);
  '(o, h) ← put_p o h (l1_first o) (Some node);
  Some ({| l1_first := Some node; l1_last := l1_last o |}, h).

Definition LinkedList1_Append (o : LinkedList1) (h : store) (node : ptr) : option (LinkedList1 * store) :=
  h ← set_p h node (l1_last o);
  h ← set_n h node None;
  '(o, h) ← put_n o h (l1_last o) (Some node);
  Some ({| l1_first := l1_first o; l1_last := Some node |}, h).

Definition LinkedList1_InsertBefore (o : LinkedList1) (h : store) (node target : ptr) : option (LinkedList1 * store) :=
  t ← h !! target;
  h ← set_p h node (l1_p t);
  h ← set_n h node (Some target);
  t ← h !! target;
  '(o, h) ← put_n o h (l1_p t) (Some node);
  h ← set_p h target (Some node);
  Some (o, h).

Definition LinkedList1_InsertAfter (o : LinkedList1) (h : store) (node target : ptr) : option (LinkedList1 * store) :=
  h ← set_p h node (Some target);
  t ← h !! target;
  h ← set_n h node (l1_n t);
  t ← h !! target;
  '(o, h) ← put_p o h (l1_n t) (Some node);
  h ← set_n h target (Some node);
  Some (o, h).

Definition LinkedList1_Remove (o : LinkedList1) (h : store) (node : ptr) : option (LinkedList1 * store) :=
  x ← h !! node;
  '(o, h) ← put_n o h (l1_p x) (l1_n x);
  x ← h !! node;
  put_p o h (l1_n x) (l1_p x).

(** * Representation *)

Fixpoint seg1 (h : store) (p : option ptr) (l : list ptr) (e : option ptr) : Prop :=
  match l with
  | [] => True
  | x :: l' => h !! x = Some {| l1_p := p; l1_n := hd_or l' e |} /\ seg1 h (Some x) l' e
  end.

Definition left (o : LinkedList1) (h : store) (l : list ptr) (e : option ptr) : Prop :=
  l1_first o = hd_or l e /\ seg1 h None l e.
Definition right (o : LinkedList1) (h : store) (l : list ptr) (p : option ptr) : Prop :=
  l1_last o = last_or p l /\ seg1 h p l None.

Record rep (o : LinkedList1) (h : store) (l : list ptr) : Prop := {
  rep_first : l1_first o = hd_or l None;
  rep_last : l1_last o = last_or None l;
  rep_nodup : NoDup l;
  rep_seg : seg1 h None l None }.

Lemma hd_or_app l k e : hd_or (l ++ k) e = hd_or l (hd_or k e).
Proof. by destruct l. Qed.
Lemma last_or_app p l k : last_or p (l ++ k) = last_or (last_or p l) k.
Proof. revert p. induction l; intros p; simpl; auto. Qed.

Lemma seg1_app h p l k e : seg1 h p (l ++ k) e <-> seg1 h p l (hd_or k e) /\ seg1 h (last_or p l) k e.
Proof.
  revert p. induction l as [|x l IH]; intros p; simpl; [tauto|]. rewrite IH, hd_or_app. tauto.
Qed.

Lemma seg1_frame h h' p l e : (forall x, x ∈ l -> h' !! x = h !! x) -> seg1 h p l e -> seg1 h' p l e.
Proof.
  revert p. induction l as [|x l IH]; intros p Hf; simpl; [done|]. intros [Hx Hs].
  rewrite Hf by set_solver. split; [done|]. apply IH; [set_solver|done].
Qed.

Lemma rep_split o h l k :
  rep o h (l ++ k) <-> NoDup (l ++ k) /\ left o h l (hd_or k None) /\ right o h k (last_or None l).
Proof.
  unfold left, right. split.
  - intros [F L N S]. apply seg1_app in S as [? ?]. rewrite hd_or_app in F. rewrite last_or_app in L. done.
  - intros (N & [F S1] & [L S2]). split; rewrite ?hd_or_app, ?last_or_app; try done. by apply seg1_app.
Qed.

(** Redirecting the end of a left part. *)
Lemma put_n_spec o h l e v : left o h l e -> NoDup l ->
  exists o' h', put_n o h (last_or None l) v = Some (o', h') /\ left o' h' l v /\ l1_last o' = l1_last o
    /\ dom h' = dom h /\ (forall x, x ∉ l -> h' !! x = h !! x).
Proof.
  intros [F S] N. destruct l as [|x l _] using rev_ind.
  - eexists _, _. split; [done|]. simpl. split; [done|]. done.
  - rewrite last_or_app. apply seg1_app in S as [S1 [Hx _]]. simpl. unfold set_n. rewrite Hx. simpl.
    eexists _, _. split; [done|]. split_and!; [|done|by apply dom_insert_lookup_L|].
    + split; [by destruct l|]. apply seg1_app. simpl. rewrite lookup_insert_eq. split; [|done].
      eapply seg1_frame; [|exact S1]. intros y Hy. rewrite lookup_insert_ne; [done|].
      apply NoDup_app in N as (_ & N & _). intros ->. apply (N y Hy). set_solver.
    + intros y Hy. by rewrite lookup_insert_ne by set_solver.
Qed.

(** Redirecting the beginning of a right part. *)
Lemma put_p_spec o h l p v : right o h l p -> NoDup l ->
  exists o' h', put_p o h (hd_or l None) v = Some (o', h') /\ right o' h' l v /\ l1_first o' = l1_first o
    /\ dom h' = dom h /\ (forall x, x ∉ l -> h' !! x = h !! x).
Proof.
  intros [L S] N. destruct l as [|x l].
  - eexists _, _. split; [done|]. simpl. split; [done|]. done.
  - destruct S as [Hx S]. simpl. unfold set_p. rewrite Hx. simpl. apply NoDup_cons in N as [Nx N].
    eexists _, _. split; [done|]. split_and!; [|done|by apply dom_insert_lookup_L|].
    + split; [done|]. simpl. rewrite lookup_insert_eq. split; [done|].
      eapply seg1_frame; [|exact S]. intros y Hy. rewrite lookup_insert_ne; [done|]. by intros ->.
    + intros y Hy. by rewrite lookup_insert_ne by set_solver.
Qed.

Lemma left_frame o o' h h' l e :
  left o h l e -> l1_first o' = l1_first o -> (forall x, x ∈ l -> h' !! x = h !! x) -> left o' h' l e.
Proof. intros [F S] E Hf. split; [by rewrite E|by eapply seg1_frame]. Qed.
Lemma right_frame o o' h h' l p :
  right o h l p -> l1_last o' = l1_last o -> (forall x, x ∈ l -> h' !! x = h !! x) -> right o' h' l p.
Proof. intros [F S] E Hf. split; [by rewrite E|by eapply seg1_frame]. Qed.

(** * Operations *)

(** Both links of a node that is not in the list are written. *)
Lemma write_node h x p n : x ∈ dom h ->
  exists h', (h ← set_p h x p; set_n h x n) = Some h' /\ h' !! x = Some {| l1_p := p; l1_n := n |}
    /\ dom h' = dom h /\ (forall y, y <> x -> h' !! y = h !! y).
Proof.
  intros [m Hm]%elem_of_dom. unfold set_p, set_n. rewrite Hm. simpl. rewrite lookup_insert_eq. simpl.
  eexists. split; [done|]. rewrite lookup_insert_eq. split; [done|]. split.
  - rewrite !dom_insert_lookup_L; [done|by eexists|]. rewrite lookup_insert_eq. by eexists.
  - intros y Hy. by rewrite !lookup_insert_ne by done.
Qed.

(** What an operation guarantees about the store outside the list. *)
Definition framed (h h' : store) (l : list ptr) : Prop :=
  dom h' = dom h /\ forall y, y ∉ l -> h' !! y = h !! y.

Lemma LinkedList1_Append_spec o h l x : rep o h l -> x ∉ l -> x ∈ dom h ->
  exists o' h', LinkedList1_Append o h x = Some (o', h') /\ rep o' h' (l ++ [x]) /\ framed h h' (l ++ [x]).
Proof.
  intros [F L N S] Hx Hd. destruct (write_node h x (l1_last o) None Hd) as (h1 & E & H1 & D1 & F1).
  unfold LinkedList1_Append. destruct (set_p h x (l1_last o)) as [h0|]; [|done]. simpl in E |- *. rewrite E. simpl.
  assert (HL : left o h1 l None).
  { split; [done|]. eapply seg1_frame; [|exact S]. intros y Hy. apply F1. by intros ->. }
  rewrite L. destruct (put_n_spec o h1 l None (Some x) HL N) as (o2 & h2 & E2 & HL2 & Hl2 & D2 & F2). rewrite E2. simpl.
  eexists _, _. split; [done|]. split.
  - apply rep_split. split; [apply NoDup_app; split_and!; [done|set_solver|apply NoDup_singleton]|]. split; [done|].
    split; [done|]. simpl. rewrite F2 by done. by rewrite H1, L.
  - split; [congruence|]. intros y Hy. rewrite F2 by set_solver. apply F1. set_solver.
Qed.

Lemma LinkedList1_Prepend_spec o h l x : rep o h l -> x ∉ l -> x ∈ dom h ->
  exists o' h', LinkedList1_Prepend o h x = Some (o', h') /\ rep o' h' (x :: l) /\ framed h h' (x :: l).
Proof.
  intros [F L N S] Hx Hd. destruct (write_node h x None (l1_first o) Hd) as (h1 & E & H1 & D1 & F1).
  unfold LinkedList1_Prepend. destruct (set_p h x None) as [h0|]; [|done]. simpl in E |- *. rewrite E. simpl.
  assert (HR : right o h1 l None).
  { split; [done|]. eapply seg1_frame; [|exact S]. intros y Hy. apply F1. by intros ->. }
  rewrite F. destruct (put_p_spec o h1 l None (Some x) HR N) as (o2 & h2 & E2 & HR2 & Hf2 & D2 & F2). rewrite E2. simpl.
  eexists _, _. split; [done|]. split.
  - apply (rep_split _ _ [x] l). split; [by apply NoDup_cons|]. split; [|done].
    split; [done|]. simpl. rewrite F2 by done. by rewrite H1, F.
  - split; [congruence|]. intros y Hy. rewrite F2 by set_solver. apply F1. set_solver.
Qed.

Lemma seg1_lookup h p l x k e : seg1 h p (l ++ x :: k) e ->
  h !! x = Some {| l1_p := last_or p l; l1_n := hd_or k e |}.
Proof. intros [_ [H _]]%seg1_app. done. Qed.

Lemma NoDup_middle (l : list ptr) x k : NoDup (l ++ x :: k) -> x ∉ l /\ x ∉ k /\ NoDup (l ++ k) /\ NoDup l /\ NoDup k.
Proof.
  intros (Hl & Hlk & Hk)%NoDup_app. apply NoDup_cons in Hk as [Hx Hk].
  split_and!; try done; [set_solver|]. apply NoDup_app. split_and!; try done. set_solver.
Qed.

Lemma LinkedList1_Remove_spec o h l x k : rep o h (l ++ x :: k) ->
  exists o' h', LinkedList1_Remove o h x = Some (o', h') /\ rep o' h' (l ++ k) /\ framed h h' (l ++ k).
Proof.
  intros Hr. pose proof (rep_nodup _ _ _ Hr) as N. apply NoDup_middle in N as (Hxl & Hxk & N & Nl & Nk).
  pose proof (seg1_lookup _ _ _ _ _ _ (rep_seg _ _ _ Hr)) as Hx.
  apply rep_split in Hr as (N0 & HL & [HLast [_ S2]]). unfold LinkedList1_Remove. rewrite Hx. simpl.
  destruct (put_n_spec o h l _ (hd_or k None) HL Nl) as (o1 & h1 & E1 & HL1 & Hl1 & D1 & F1). rewrite E1. simpl.
  rewrite F1, Hx by done. simpl.
  assert (HR1 : right o1 h1 k (Some x)).
  { split; [by rewrite Hl1|]. eapply seg1_frame; [|exact S2]. intros y Hy. apply F1. apply NoDup_app in N as (_ & N & _). set_solver. }
  destruct (put_p_spec o1 h1 k _ (last_or None l) HR1 Nk) as (o2 & h2 & E2 & HR2 & Hf2 & D2 & F2).
  exists o2, h2. split; [done|]. split.
  - apply rep_split. split; [done|]. split; [|done]. eapply left_frame; [exact HL1|done|].
    intros y Hy. apply F2. apply NoDup_app in N as (_ & N & _). by apply N.
  - split; [congruence|]. intros y Hy. rewrite F2, F1 by set_solver. done.
Qed.

Lemma LinkedList1_InsertBefore_spec o h l t k x : rep o h (l ++ t :: k) -> x ∉ l ++ t :: k -> x ∈ dom h ->
  exists o' h', LinkedList1_InsertBefore o h x t = Some (o', h') /\ rep o' h' (l ++ x :: t :: k)
    /\ framed h h' (l ++ x :: t :: k).
Proof.
  intros Hr Hx Hd. pose proof (rep_nodup _ _ _ Hr) as N. pose proof (NoDup_middle _ _ _ N) as (Htl & Htk & _ & Nl & _).
  pose proof (seg1_lookup _ _ _ _ _ _ (rep_seg _ _ _ Hr)) as Ht. assert (Hxt : t <> x) by set_solver.
  apply rep_split in Hr as (_ & HL & HR). unfold LinkedList1_InsertBefore. rewrite Ht. simpl.
  destruct (write_node h x (last_or None l) (Some t) Hd) as (h1 & E & H1 & D1 & F1).
  destruct (set_p h x (last_or None l)) as [h0|]; [|done]. simpl in E |- *. rewrite E. simpl.
  rewrite F1, Ht by done. simpl.
  destruct (put_n_spec o h1 l (Some t) (Some x)) as (o2 & h2 & E2 & HL2 & Hl2 & D2 & F2); [|done|].
  { eapply left_frame; [exact HL|done|]. intros y Hy. apply F1. set_solver. }
  rewrite E2. simpl. apply NoDup_app in N as (_ & Nd & Ntk).
  destruct (put_p_spec o2 h2 (t :: k) (last_or None l) (Some x)) as (o3 & h3 & E3 & HR3 & Hf3 & D3 & F3); [|done|].
  { eapply right_frame; [exact HR|done|]. intros y Hy. rewrite F2 by set_solver. apply F1. set_solver. }
  simpl in E3. destruct (set_p h2 t (Some x)) as [h4|]; [|done]. simpl in E3 |- *. injection E3 as <- <-.
  eexists _, _. split; [done|]. split.
  - apply rep_split. split.
    { apply NoDup_app. split_and!; [done|set_solver|]. apply NoDup_cons. split; [set_solver|done]. }
    split; [eapply left_frame; [exact HL2|done|]; intros y Hy; apply F3; set_solver|].
    destruct HR3 as [HL3 HS3]. split; [exact HL3|]. change (h4 !! x = Some {| l1_p := last_or None l; l1_n := Some t |}
      /\ seg1 h4 (Some x) (t :: k) None). split; [|exact HS3]. rewrite F3, F2 by set_solver. exact H1.
  - split; [congruence|]. intros y Hy. rewrite F3, F2 by set_solver. apply F1. set_solver.
Qed.

Lemma LinkedList1_InsertAfter_spec o h l t k x : rep o h (l ++ t :: k) -> x ∉ l ++ t :: k -> x ∈ dom h ->
  exists o' h', LinkedList1_InsertAfter o h x t = Some (o', h') /\ rep o' h' (l ++ t :: x :: k)
    /\ framed h h' (l ++ t :: x :: k).
Proof.
  intros Hr Hx Hd. pose proof (rep_nodup _ _ _ Hr) as N. pose proof (NoDup_middle _ _ _ N) as (Htl & Htk & _ & Nl & Nk).
  pose proof (seg1_lookup _ _ _ _ _ _ (rep_seg _ _ _ Hr)) as Ht. assert (Hxt : t <> x) by set_solver.
  assert (Nlt : NoDup (l ++ [t])). { apply NoDup_app. split_and!; [done|set_solver|apply NoDup_singleton]. }
  replace (l ++ t :: k) with ((l ++ [t]) ++ k) in Hr, Hx, N by (by rewrite <- app_assoc).
  replace (l ++ t :: x :: k) with ((l ++ [t]) ++ x :: k) by (by rewrite <- app_assoc).
  apply rep_split in Hr as (_ & HL & HR). rewrite last_or_app in HR. simpl in HR. apply NoDup_app in N as (_ & Nd & _).
  unfold LinkedList1_InsertAfter. destruct (write_node h x (Some t) (hd_or k None) Hd) as (h1 & E & H1 & D1 & F1).
  assert (Hset : exists h0, set_p h x (Some t) = Some h0 /\ h0 !! t = h !! t).
  { apply elem_of_dom in Hd as [m Hm]. unfold set_p. rewrite Hm. simpl. eexists. split; [done|].
    by rewrite lookup_insert_ne by done. }
  destruct Hset as (h0 & E0 & Ht0). rewrite E0 in E |- *. simpl in E |- *. rewrite Ht0, Ht. simpl. rewrite E. simpl.
  rewrite F1, Ht by done. simpl.
  destruct (put_p_spec o h1 k (Some t) (Some x)) as (o2 & h2 & E2 & HR2 & Hf2 & D2 & F2); [|done|].
  { eapply right_frame; [exact HR|done|]. intros y Hy. apply F1. set_solver. }
  rewrite E2. simpl.
  destruct (put_n_spec o2 h2 (l ++ [t]) (hd_or k None) (Some x)) as (o3 & h3 & E3 & HL3 & Hl3 & D3 & F3); [|done|].
  { eapply left_frame; [exact HL|done|]. intros y Hy. rewrite F2 by set_solver. apply F1. set_solver. }
  rewrite last_or_app in E3. simpl in E3. destruct (set_n h2 t (Some x)) as [h4|]; [|done]. simpl in E3 |- *.
  injection E3 as <- <-. eexists _, _. split; [done|]. split.
  - apply rep_split. split.
    { apply NoDup_app. split_and!; [done|set_solver|]. apply NoDup_cons. split; [set_solver|done]. }
    split; [exact HL3|]. destruct HR2 as [HLa HS]. split; [exact HLa|]. rewrite last_or_app. simpl.
    rewrite F3, F2 by set_solver. split; [exact H1|]. eapply seg1_frame; [|exact HS]. intros y Hy. apply F3. set_solver.
  - split; [congruence|]. intros y Hy. rewrite F3, F2 by set_solver. apply F1. set_solver.
Qed.

(** * The list as an abstract data type *)

Inductive lop :=
| LPrepend (x : ptr) | LAppend (x : ptr) | LInsertBefore (x t : ptr) | LInsertAfter (x t : ptr) | LRemove (x : ptr).

Definition l1_step (s : LinkedList1 * store) (op : lop) : option (LinkedList1 * store) :=
  let '(o, h) := s in
  match op with
  | LPrepend x => LinkedList1_Prepend o h x
  | LAppend x => LinkedList1_Append o h x
  | LInsertBefore x t => LinkedList1_InsertBefore o h x t
  | LInsertAfter x t => LinkedList1_InsertAfter o h x t
  | LRemove x => LinkedList1_Remove o h x
  end.

Fixpoint insert_before (x t : ptr) (l : list ptr) : list ptr :=
  match l with [] => [] | y :: l => if y =? t then x :: y :: l else y :: insert_before x t l end.
Fixpoint insert_after (x t : ptr) (l : list ptr) : list ptr :=
  match l with [] => [] | y :: l => if y =? t then y :: x :: l else y :: insert_after x t l end.
Fixpoint remove_one (x : ptr) (l : list ptr) : list ptr :=
  match l with [] => [] | y :: l => if y =? x then l else y :: remove_one x l end.

(** The list operation, when the operation is allowed: a node is inserted only
    when it is not in the list, and removed or named only when it is. *)
Definition list_op (nodes : gset ptr) (l : list ptr) (op : lop) : option (list ptr) :=
  let fresh x := bool_decide (x ∈ nodes /\ x ∉ l) in
  match op with
  | LPrepend x => ASSERT fresh x; Some (x :: l)
  | LAppend x => ASSERT fresh x; Some (l ++ [x])
  | LInsertBefore x t => ASSERT fresh x; ASSERT bool_decide (t ∈ l); Some (insert_before x t l)
  | LInsertAfter x t => ASSERT fresh x; ASSERT bool_decide (t ∈ l); Some (insert_after x t l)
  | LRemove x => ASSERT bool_decide (x ∈ l); Some (remove_one x l)
  end.

Lemma insert_before_app x t l k : t ∉ l -> insert_before x t (l ++ t :: k) = l ++ x :: t :: k.
Proof.
  induction l as [|y l IH]; simpl; intros Ht; [by rewrite Z.eqb_refl|].
  destruct (Z.eqb_spec y t) as [->|]; [set_solver|]. f_equal. apply IH. set_solver.
Qed.
Lemma insert_after_app x t l k : t ∉ l -> insert_after x t (l ++ t :: k) = l ++ t :: x :: k.
Proof.
  induction l as [|y l IH]; simpl; intros Ht; [by rewrite Z.eqb_refl|].
  destruct (Z.eqb_spec y t) as [->|]; [set_solver|]. f_equal. apply IH. set_solver.
Qed.
Lemma remove_one_app x l k : x ∉ l -> remove_one x (l ++ x :: k) = l ++ k.
Proof.
  induction l as [|y l IH]; simpl; intros Ht; [by rewrite Z.eqb_refl|].
  destruct (Z.eqb_spec y x) as [->|]; [set_solver|]. f_equal. apply IH. set_solver.
Qed.

(** One operation. *)
Lemma l1_step_refines o h l op l' :
  rep o h l -> list_op (dom h) l op = Some l' ->
  exists o' h', l1_step (o, h) op = Some (o', h') /\ rep o' h' l' /\ dom h' = dom h.
Proof.
  intros Hr. pose proof (rep_nodup _ _ _ Hr) as N.
  assert (Hsplit : forall t, t ∈ l -> exists l1 l2, l = l1 ++ t :: l2 /\ t ∉ l1).
  { intros t (l1 & l2 & ->)%list_elem_of_split. exists l1, l2. split; [done|]. by destruct (NoDup_middle _ _ _ N). }
  destruct op as [x|x|x t|x t|x]; simpl; unfold list_op; repeat case_bool_decide; try done;
    destruct_and?; intros E; injection E as <-.
  - destruct (LinkedList1_Prepend_spec o h l x) as (o' & h' & E & Hr' & D & _); eauto.
  - destruct (LinkedList1_Append_spec o h l x) as (o' & h' & E & Hr' & D & _); eauto.
  - destruct (Hsplit t) as (l1 & l2 & -> & Ht); [done|]. rewrite insert_before_app by done.
    destruct (LinkedList1_InsertBefore_spec o h l1 t l2 x) as (o' & h' & E & Hr' & D & _); eauto.
  - destruct (Hsplit t) as (l1 & l2 & -> & Ht); [done|]. rewrite insert_after_app by done.
    destruct (LinkedList1_InsertAfter_spec o h l1 t l2 x) as (o' & h' & E & Hr' & D & _); eauto.
  - destruct (Hsplit x) as (l1 & l2 & -> & Ht); [done|]. rewrite remove_one_app by done.
    destruct (LinkedList1_Remove_spec o h l1 x l2) as (o' & h' & E & Hr' & D & _); eauto.
Qed.

Fixpoint l1_run (s : LinkedList1 * store) (l : list lop) : option (LinkedList1 * store) :=
  match l with [] => Some s | op :: l => s ← l1_step s op; l1_run s l end.
Fixpoint ll_run (nodes : gset ptr) (s : list ptr) (l : list lop) : option (list ptr) :=
  match l with [] => Some s | op :: l => s ← list_op nodes s op; ll_run nodes s l end.

Lemma l1_run_refines ops : forall o h l l',
  rep o h l -> ll_run (dom h) l ops = Some l' ->
  exists o' h', l1_run (o, h) ops = Some (o', h') /\ rep o' h' l' /\ dom h' = dom h.
Proof.
  induction ops as [|op ops IH]; intros o h l l' Hr E; cbn [l1_run ll_run] in *; [injection E as <-; eauto|].
  destruct (list_op (dom h) l op) as [l1|] eqn:E1; [|done]. simpl in E.
  destruct (l1_step_refines o h l op l1 Hr E1) as (o1 & h1 & S1 & Hr1 & D1). rewrite S1. simpl.
  rewrite <- D1 in E. destruct (IH o1 h1 l1 l' Hr1 E) as (o2 & h2 & S2 & Hr2 & D2). exists o2, h2. by rewrite D2.
Qed.

(** C36. The pointer operations implement a list without duplicates: for every
    sequence of allowed operations on an initially empty list no link that is
    followed is dangling, and at the end the first and last pointers and the
    links of the nodes are those of the list that the operations build. *)
Theorem LinkedList1_refines_list ops h l :
  ll_run (dom h) [] ops = Some l ->
  exists o h', l1_run (LinkedList1_Init, h) ops = Some (o, h')
    /\ LinkedList1_GetFirst o = head l /\ LinkedList1_GetLast o = list.last l
    /\ LinkedList1_IsEmpty o = bool_decide (l = [])
    /\ forall l1 x l2, l = l1 ++ x :: l2 -> h' !! x = Some {| l1_p := list.last l1; l1_n := head l2 |}.
Proof.
  intros E. destruct (l1_run_refines ops LinkedList1_Init h [] l) as (o & h' & S & [F L N Sg] & D); [|done|].
  { split; simpl; [done..|apply NoDup_nil_2|done]. }
  assert (Hl : forall k, last_or None k = list.last k).
  { intros k. induction k as [|x k _] using rev_ind; [done|]. by rewrite last_or_snoc, last_snoc. }
  assert (Hh : forall k, hd_or k None = head k) by (by intros []).
  exists o, h'. split; [done|]. unfold LinkedList1_GetFirst, LinkedList1_GetLast, LinkedList1_IsEmpty.
  rewrite F, L, Hl, Hh. split_and!; [done..|by destruct l|].
  intros l1 x l2 ->. rewrite (seg1_lookup _ _ _ _ _ _ Sg). by rewrite Hl, Hh.
Qed.

Definition ex_store : store :=
  list_to_map ((fun x => (x, {| l1_p := Some 99; l1_n := Some 98 |})) <$> [1; 2; 3; 4; 5]).

Lemma LinkedList1_refines_list_witness :
  exists o h', l1_run (LinkedList1_Init, ex_store)
                 [LAppend 1; LAppend 2; LPrepend 3; LRemove 2; LInsertAfter 4 3; LInsertBefore 5 1] = Some (o, h')
    /\ LinkedList1_GetFirst o = Some 3 /\ LinkedList1_GetLast o = Some 1.
Proof.
  destruct (LinkedList1_refines_list
              [LAppend 1; LAppend 2; LPrepend 3; LRemove 2; LInsertAfter 4 3; LInsertBefore 5 1]
              ex_store [3; 4; 5; 1]) as (o & h' & E & F & L & _); [vm_compute; reflexivity|].
  exists o, h'. split; [exact E|]. split; [exact F|exact L].
Defined.
