(* ===== verification/SortedTree.v ===== *)
(** What a client of structure/SAvl.h relies on: a tree of entries that are
    compared by the client's function holds a list of different entries in
    ascending order.

    [TreeOps] has the operations the program calls, [SortedTree] says what they
    do to the list.  A comparison is an argument of the insertion only, since it
    reads the entries as they are at the time of the call: the list may be in
    ascending order under another comparison later.  [None] is a failed ASSERT or
    an invalid access. *)

From S2P Require Import Prelude BAVL SLinkedList.
From Stdlib Require Import Sorting.Sorted.
Open Scope Z_scope.

Class TreeOps (T : Type) := {
  Tree_Init : T;
  Tree_IsEmpty : T -> bool;
  Tree_Insert : (ptr -> ptr -> Z) -> T -> ptr -> option (T * bool * option ptr);
  Tree_Remove : T -> ptr -> option T;
  Tree_GetFirst : T -> option (option ptr) }.

(** A comparison of all entries, and lists that ascend under it. *)
Abbreviation Order cmp := (Comparator (fun _ : ptr => True) cmp).
Abbreviation ascending cmp := (StronglySorted (fun a b : ptr => cmp a b = -1)).

Class SortedTree (T : Type) `{TreeOps T} := {
  tree_rep : T -> list ptr -> Prop;
  tree_NoDup o xs : tree_rep o xs -> NoDup xs;
  Tree_Init_spec : tree_rep Tree_Init [];
  Tree_IsEmpty_spec o xs : tree_rep o xs -> Tree_IsEmpty o = bool_decide (xs = []);
  Tree_GetFirst_spec o xs : tree_rep o xs -> Tree_GetFirst o = Some (head xs);
  Tree_Insert_new cmp o xs n :
    Order cmp -> tree_rep o xs -> ascending cmp xs -> (forall x, In x xs -> cmp n x <> 0) ->
    exists o' ref l k, Tree_Insert cmp o n = Some (o', true, ref) /\ tree_rep o' (l ++ n :: k) /\ xs = l ++ k
      /\ Forall (fun a => cmp a n = -1) l /\ Forall (fun a => cmp n a = -1) k;
  Tree_Insert_dup cmp o xs n x :
    Order cmp -> tree_rep o xs -> ascending cmp xs -> In x xs -> cmp n x = 0 ->
    exists ref, Tree_Insert cmp o n = Some (o, false, Some ref) /\ In ref xs /\ cmp n ref = 0;
  Tree_Remove_spec o l n k :
    tree_rep o (l ++ n :: k) -> exists o', Tree_Remove o n = Some o' /\ tree_rep o' (l ++ k) }.

(** * Facts about ascending lists *)

Section Ascending.
Context (cmp : ptr -> ptr -> Z) `{!Order cmp}.

Lemma ascending_insert l n k :
  ascending cmp (l ++ k) -> Forall (fun a => cmp a n = -1) l -> Forall (fun a => cmp n a = -1) k -> ascending cmp (l ++ n :: k).
Proof.
  intros Hs Hl Hk. apply (sorted_app id cmp). apply (sorted_app id cmp) in Hs as (H1 & H2 & H3).
  split_and!; [done|by constructor|]. rewrite List.Forall_forall in *. intros a Ha. constructor; [by apply Hl|by apply H3].
Qed.

Lemma ascending_remove l n k : ascending cmp (l ++ n :: k) -> ascending cmp (l ++ k).
Proof.
  intros Hs. apply (sorted_app id cmp). apply (sorted_app id cmp) in Hs as (H1 & H2 & H3). inversion H2; subst.
  split_and!; [done..|]. rewrite List.Forall_forall in *. intros a Ha. specialize (H3 a Ha). by inversion H3.
Qed.
End Ascending.

(** A comparison that orders the entries of the list in the same way. *)
Lemma ascending_ext (cmp cmp' : ptr -> ptr -> Z) xs :
  (forall a b, In a xs -> In b xs -> cmp a b = -1 -> cmp' a b = -1) -> ascending cmp xs -> ascending cmp' xs.
Proof.
  induction xs as [|x xs IH]; intros He Hs; [constructor|]. inversion Hs as [|? ? Hs' Hf]; subst. constructor.
  - apply IH; [|done]. intros a b Ha Hb. apply He; by right.
  - rewrite List.Forall_forall in *. intros b Hb. apply He; [by left|by right|]. by apply Hf.
Qed.

(** * Sequences of operations *)

Inductive tree_op := TInsert (n : ptr) | TRemove (n : ptr) | TGetFirst | TIsEmpty.
Inductive tree_answer := AInserted (b : bool) | ARemoved | AFirst (n : option ptr) | AEmpty (b : bool).

Section Run.
Context (cmp : ptr -> ptr -> Z).

Definition tree_step `{TreeOps T} (o : T) (op : tree_op) : option (T * tree_answer) :=
  match op with
  | TInsert n => '(o, b, _) ← Tree_Insert cmp o n; Some (o, AInserted b)
  | TRemove n => o ← Tree_Remove o n; Some (o, ARemoved)
  | TGetFirst => f ← Tree_GetFirst o; Some (o, AFirst f)
  | TIsEmpty => Some (o, AEmpty (Tree_IsEmpty o))
  end.

(** The list of the entries in ascending order; an entry is removed only when it
    is there. *)
Definition sorted_step (xs : list ptr) (op : tree_op) : option (list ptr * tree_answer) :=
  match op with
  | TInsert n => if existsb (equal_to id cmp n) xs then Some (xs, AInserted false)
                 else Some (BAVL.list_insert id cmp n xs, AInserted true)
  | TRemove n => ASSERT existsb (Z.eqb n) xs; Some (List.filter (fun x => negb (n =? x)) xs, ARemoved)
  | TGetFirst => Some (xs, AFirst (head xs))
  | TIsEmpty => Some (xs, AEmpty (bool_decide (xs = [])))
  end.

Fixpoint tree_run `{TreeOps T} (o : T) (ops : list tree_op) : option (T * list tree_answer) :=
  match ops with
  | [] => Some (o, [])
  | op :: ops => '(o, a) ← tree_step o op; '(o, l) ← tree_run o ops; Some (o, a :: l)
  end.
Fixpoint sorted_run (xs : list ptr) (ops : list tree_op) : option (list ptr * list tree_answer) :=
  match ops with
  | [] => Some (xs, [])
  | op :: ops => '(xs, a) ← sorted_step xs op; '(xs, l) ← sorted_run xs ops; Some (xs, a :: l)
  end.

Context `{!Order cmp} `{SortedTree T}.

Lemma Forall_ok (l : list ptr) : Forall (fun a => (fun _ : ptr => True) (id a)) l.
Proof. by apply List.Forall_forall. Qed.

Lemma filter_other n (l : list ptr) : ~ In n l -> List.filter (fun x => negb (n =? x)) l = l.
Proof.
  induction l as [|x l IH]; simpl; [done|]. intros Hn. destruct (Z.eqb_spec n x) as [->|]; [by destruct Hn; left|].
  simpl. f_equal. apply IH. auto.
Qed.

Lemma tree_step_refines o xs op xs' a :
  tree_rep o xs -> ascending cmp xs -> sorted_step xs op = Some (xs', a) ->
  exists o', tree_step o op = Some (o', a) /\ tree_rep o' xs' /\ ascending cmp xs'.
Proof.
  intros Hr Hs. destruct op as [n|n| |]; simpl.
  - destruct (existsb (equal_to id cmp n) xs) eqn:E; intros [= <- <-].
    + apply existsb_exists in E as (x & Hx & E). unfold equal_to, id in E.
      destruct (Tree_Insert_dup cmp o xs n x _ Hr Hs Hx ltac:(lia)) as (ref & -> & _). by exists o.
    + destruct (Tree_Insert_new cmp o xs n _ Hr Hs) as (o' & ref & l & k & -> & Hr' & -> & Hl & Hk).
      { intros x Hx Ex. enough (existsb (equal_to id cmp n) xs = true) by congruence. apply existsb_exists.
        exists x. split; [done|]. unfold equal_to, id. lia. }
      exists o'. split; [done|].
      rewrite (BAVL.list_insert_app id cmp (fun _ => True)) by (done || apply Forall_ok). split; [done|by apply ascending_insert].
  - destruct (existsb (Z.eqb n) xs) eqn:E; [|done]. intros [= <- <-].
    apply existsb_exists in E as (x & Hx & <-%Z.eqb_eq). apply in_split in Hx as (l & k & ->).
    destruct (Tree_Remove_spec o l n k Hr) as (o' & -> & Hr'). exists o'.
    pose proof (tree_NoDup _ _ Hr) as Hd. apply NoDup_ListNoDup, List.NoDup_remove_2 in Hd. rewrite in_app_iff in Hd.
    rewrite List.filter_app. simpl. rewrite Z.eqb_refl. simpl. rewrite !filter_other by tauto.
    split; [done|]. split; [done|]. by eapply ascending_remove.
  - intros [= <- <-]. rewrite (Tree_GetFirst_spec o xs Hr). by exists o.
  - intros [= <- <-]. rewrite (Tree_IsEmpty_spec o xs Hr). by exists o.
Qed.

Lemma tree_run_refines ops : forall o xs xs' ans,
  tree_rep o xs -> ascending cmp xs -> sorted_run xs ops = Some (xs', ans) ->
  exists o', tree_run o ops = Some (o', ans) /\ tree_rep o' xs' /\ ascending cmp xs'.
Proof.
  induction ops as [|op ops IH]; intros o xs xs' ans Hr Hs E; simpl in *; [injection E as <- <-; by exists o|].
  destruct (sorted_step xs op) as [[xs1 a]|] eqn:E1; [|done]. simpl in E.
  destruct (sorted_run xs1 ops) as [[xs2 l]|] eqn:E2; [|done]. injection E as <- <-.
  destruct (tree_step_refines _ _ _ _ _ Hr Hs E1) as (o1 & -> & Hr1 & Hs1). simpl.
  destruct (IH _ _ _ _ Hr1 Hs1 E2) as (o2 & -> & Hr2 & Hs2). by exists o2.
Qed.
End Run.
