(* ===== verification/CAvl.v ===== *)
(** structure/CAvl_impl.h: the AVL tree of the fair queue (through
    structure/SAvl_impl.h) and of the timers of the reactor, at the level of its
    pointers.

    A store maps the addresses of entries to their two links, parent link and
    balance factor; a CAvlRef is the address (the link and the dereferenced
    pointer are the same in both instances).  Counts and associative values are
    not part of the instances.  [None] is a failed ASSERT, a dereference of a null
    or unknown address, or a loop that exceeds its fuel.

    The functions are shown to implement the tree values of BAVL.v: [focus o t k]
    says that the store holds the subtree [t] below the ancestors [k]. *)

From S2P Require Import Prelude BAddr BAVL SLinkedList SortedTree.
From stdpp Require Import gmap.
From Stdlib Require Import Sorting.Sorted.
Open Scope Z_scope.

Record CAvlNode := { c_link0 : option ptr; c_link1 : option ptr; c_parent : option ptr; c_balance : Z }.
Abbreviation cstore := (gmap ptr CAvlNode).
Record CAvl := { c_root : option ptr; c_nodes : cstore }.

(** CAvl_link(n)[side], CAvl_parent(n), CAvl_balance(n), and their assignment. *)
Definition CAvl_link (o : CAvl) (n : ptr) (side : bool) : option (option ptr) :=
  x ← c_nodes o !! n; Some (if side then c_link1 x else c_link0 x).
Definition CAvl_parent (o : CAvl) (n : ptr) : option (option ptr) := c_parent <$> c_nodes o !! n.
Definition CAvl_balance (o : CAvl) (n : ptr) : option Z := c_balance <$> c_nodes o !! n.

Definition put_node (o : CAvl) (n : ptr) (x : CAvlNode) : CAvl := {| c_root := c_root o; c_nodes := <[n := x]> (c_nodes o) |}.
Definition put_root (o : CAvl) (r : option ptr) : CAvl := {| c_root := r; c_nodes := c_nodes o |}.
Definition put_link (o : CAvl) (n : ptr) (side : bool) (v : option ptr) : option CAvl :=
  x ← c_nodes o !! n;
  Some (put_node o n (if side then {| c_link0 := c_link0 x; c_link1 := v; c_parent := c_parent x; c_balance := c_balance x |}
                      else {| c_link0 := v; c_link1 := c_link1 x; c_parent := c_parent x; c_balance := c_balance x |})).
Definition put_parent (o : CAvl) (n : ptr) (v : option ptr) : option CAvl :=
  x ← c_nodes o !! n;
  Some (put_node o n {| c_link0 := c_link0 x; c_link1 := c_link1 x; c_parent := v; c_balance := c_balance x |}).
Definition put_balance (o : CAvl) (n : ptr) (b : Z) : option CAvl :=
  x ← c_nodes o !! n;
  Some (put_node o n {| c_link0 := c_link0 x; c_link1 := c_link1 x; c_parent := c_parent x; c_balance := b |}).

(** [if (n != null) CAvl_parent(n) = v;] *)
Definition put_parent_opt (o : CAvl) (n v : option ptr) : option CAvl :=
  match n with Some n => put_parent o n v | None => Some o end.
(** The link of [p] that leads to [old], or the root, is set to [new]. *)
Definition redirect (o : CAvl) (p : option ptr) (old : ptr) (new : option ptr) : option CAvl :=
  match p with
  | Some p => l1 ← CAvl_link o p true; put_link o p (bool_decide (l1 = Some old)) new
  | None => Some (put_root o new)
  end.

Definition CAvl_check_parent (o : CAvl) (p : option ptr) (c : ptr) : option bool :=
  pc ← CAvl_parent o c;
  match p with
  | None => Some (bool_decide (pc = None))
  | Some q => l0 ← CAvl_link o q false; l1 ← CAvl_link o q true;
              Some (bool_decide (pc = Some q) && (bool_decide (l0 = Some c) || bool_decide (l1 = Some c)))
  end.

Definition CAvl_rotate (o : CAvl) (r : ptr) (dir : bool) (r_parent : option ptr) : option CAvl :=
  ok ← CAvl_check_parent o r_parent r;
  ASSERT ok;
  nr ← CAvl_link o r (negb dir);
  nr ← nr;
  x ← CAvl_link o nr dir;
  o ← put_link o r (negb dir) x;
  o ← put_parent_opt o x (Some r);
  o ← put_link o nr dir (Some r);
  o ← put_parent o nr r_parent;
  o ← redirect o r_parent r (Some nr);
  put_parent o r (Some nr).

Fixpoint CAvl_subtree_min (fuel : nat) (o : CAvl) (n : ptr) : option ptr :=
  l ← CAvl_link o n false;
  match l with
  | None => Some n
  | Some c => match fuel with O => None | S fuel => CAvl_subtree_min fuel o c end
  end.
Fixpoint CAvl_subtree_max (fuel : nat) (o : CAvl) (n : ptr) : option ptr :=
  l ← CAvl_link o n true;
  match l with
  | None => Some n
  | Some c => match fuel with O => None | S fuel => CAvl_subtree_max fuel o c end
  end.

Definition CAvl_replace_subtree_fix_assoc (o : CAvl) (dest : ptr) (n dest_parent : option ptr) : option CAvl :=
  ok ← CAvl_check_parent o dest_parent dest;
  ASSERT ok;
  o ← redirect o dest_parent dest n;
  match n with
  | Some n => p ← CAvl_parent o dest; put_parent o n p
  | None => Some o
  end.

Definition CAvl_swap_for_remove (o : CAvl) (node enode : ptr) (node_parent enode_parent : option ptr) : option CAvl :=
  ok ← CAvl_check_parent o node_parent node;
  ASSERT ok;
  ok ← CAvl_check_parent o enode_parent enode;
  ASSERT ok;
  o ← (if bool_decide (enode_parent = Some node) then
         l1 ← CAvl_link o node true;
         let side := bool_decide (l1 = Some enode) in
         c ← CAvl_link o node (negb side);
         e0 ← CAvl_link o enode false;
         o ← put_link o node false e0;
         o ← put_parent_opt o e0 (Some node);
         e1 ← CAvl_link o enode true;
         o ← put_link o node true e1;
         o ← put_parent_opt o e1 (Some node);
         pn ← CAvl_parent o node;
         o ← put_parent o enode pn;
         o ← redirect o node_parent node (Some enode);
         o ← put_link o enode side (Some node);
         o ← put_parent o node (Some enode);
         o ← put_link o enode (negb side) c;
         put_parent_opt o c (Some enode)
       else
         pe ← CAvl_parent o enode;
         o ← put_parent o node pe;
         o ← redirect o enode_parent enode (Some node);
         o ← put_parent o enode node_parent;
         o ← redirect o node_parent node (Some enode);
         temp ← CAvl_link o node false;
         e0 ← CAvl_link o enode false;
         o ← put_link o node false e0;
         o ← put_parent_opt o e0 (Some node);
         o ← put_link o enode false temp;
         o ← put_parent_opt o temp (Some enode);
         temp ← CAvl_link o node true;
         e1 ← CAvl_link o enode true;
         o ← put_link o node true e1;
         o ← put_parent_opt o e1 (Some node);
         o ← put_link o enode true temp;
         put_parent_opt o temp (Some enode));
  b ← CAvl_balance o node;
  eb ← CAvl_balance o enode;
  o ← put_balance o node eb;
  put_balance o enode b.

(** The body of the loop of CAvl_rebalance after its tests: the node that roots
    the subtree afterwards and by how much its height changed. *)
Definition rebalance_step (o : CAvl) (node : ptr) (side : bool) (deltac balance : Z) : option (CAvl * ptr * Z) :=
  let delta := BAVL_MAX deltac (BAVL_OPTNEG balance side) - BAVL_MAX 0 (BAVL_OPTNEG balance side) in
  ASSERT (delta >=? -1) && (delta <=? 1);
  let balance := balance - BAVL_OPTNEG deltac side in
  o ← put_balance o node balance;
  '(o, node, delta) ←
    (if (balance =? 2) || (balance =? -2) then
       let bside := balance =? 2 in
       let bsidef := if bside then 1 else -1 in
       child ← CAvl_link o node bside;
       child ← child;
       cb ← CAvl_balance o child;
       p ← CAvl_parent o node;
       if cb * bsidef =? 1 then
         o ← CAvl_rotate o node (negb bside) p;
         o ← put_balance o node 0;
         o ← put_balance o child 0;
         Some (o, child, delta - 1)
       else if cb * bsidef =? 0 then
         o ← CAvl_rotate o node (negb bside) p;
         o ← put_balance o node (1 * bsidef);
         o ← put_balance o child (-1 * bsidef);
         Some (o, child, delta)
       else if cb * bsidef =? -1 then
         gchild ← CAvl_link o child (negb bside);
         gchild ← gchild;
         o ← CAvl_rotate o child bside (Some node);
         p ← CAvl_parent o node;
         o ← CAvl_rotate o node (negb bside) p;
         gb ← CAvl_balance o gchild;
         o ← put_balance o node (- BAVL_MAX 0 (gb * bsidef) * bsidef);
         o ← put_balance o child (BAVL_MAX 0 (- gb * bsidef) * bsidef);
         o ← put_balance o gchild 0;
         Some (o, gchild, delta - 1)
       else None
     else Some (o, node, delta));
  ASSERT (delta >=? -1) && (delta <=? 1);
  Some (o, node, delta).

Fixpoint CAvl_rebalance (fuel : nat) (o : CAvl) (node : ptr) (side : bool) (deltac : Z) : option CAvl :=
  ASSERT (deltac >=? -1) && (deltac <=? 1);
  balance ← CAvl_balance o node;
  ASSERT (balance >=? -1) && (balance <=? 1);
  if deltac =? 0 then Some o else
  match fuel with
  | O => None
  | S fuel =>
      '(o, node, delta) ← rebalance_step o node side deltac balance;
      p ← CAvl_parent o node;
      match p with
      | None => Some o
      | Some node_parent =>
          l1 ← CAvl_link o node_parent true;
          CAvl_rebalance fuel o node_parent (bool_decide (l1 = Some node)) delta
      end
  end.

Definition CAvl_Init : CAvl := {| c_root := None; c_nodes := ∅ |}.
Definition CAvl_IsEmpty (o : CAvl) : bool := bool_decide (c_root o = None).

Section Order.
Context (compare_entries : ptr -> ptr -> Z).

Definition CAvl_compare_entries (node1 node2 : ptr) : option Z :=
  let res := compare_entries node1 node2 in
  ASSERT res >=? -1; ASSERT res <=? 1; Some res.

(** The search of CAvl_Insert. *)
Inductive found := At_node (c : ptr) | At_leaf (c : ptr) (side : bool).
Fixpoint insert_search (fuel : nat) (o : CAvl) (node c : ptr) : option found :=
  comp ← CAvl_compare_entries node c;
  if comp =? 0 then Some (At_node c) else
  let side := comp =? 1 in
  l ← CAvl_link o c side;
  match l with
  | None => Some (At_leaf c side)
  | Some c' => match fuel with O => None | S fuel => insert_search fuel o node c' end
  end.

Definition CAvl_Insert (o : CAvl) (node : ptr) : option (CAvl * bool * option ptr) :=
  match c_root o with
  | None =>
      Some (put_node (put_root o (Some node)) node {| c_link0 := None; c_link1 := None; c_parent := None; c_balance := 0 |}, true, None)
  | Some r =>
      f ← insert_search (size (c_nodes o)) o node r;
      match f with
      | At_node c => Some (o, false, Some c)
      | At_leaf c side =>
          o ← put_link o c side (Some node);
          let o := put_node o node {| c_link0 := None; c_link1 := None; c_parent := Some c; c_balance := 0 |} in
          o ← CAvl_rebalance (size (c_nodes o)) o c side 1;
          Some (o, true, Some c)
      end
  end.
End Order.

(** CAvl_Remove from where the node has at most one child. *)
Definition remove_unlink (fuel : nat) (o : CAvl) (node : ptr) : option CAvl :=
  l0 ← CAvl_link o node false;
  l1 ← CAvl_link o node true;
  ASSERT bool_decide (l0 = None) || bool_decide (l1 = None);
  paren ← CAvl_parent o node;
  let child := match l0 with Some c => Some c | None => l1 end in
  match paren with
  | Some p =>
      pl1 ← CAvl_link o p true;
      let side := bool_decide (pl1 = Some node) in
      o ← CAvl_replace_subtree_fix_assoc o node child paren;
      CAvl_rebalance fuel o p side (-1)
  | None => CAvl_replace_subtree_fix_assoc o node child paren
  end.

(** The memory of the removed node is not part of the tree any more. *)
Definition CAvl_Remove (o : CAvl) (node : ptr) : option CAvl :=
  ASSERT negb (bool_decide (c_root o = None));
  let fuel := size (c_nodes o) in
  l0 ← CAvl_link o node false;
  l1 ← CAvl_link o node true;
  o ← match l0, l1 with
      | Some c, Some _ =>
          max ← CAvl_subtree_max fuel o c;
          p ← CAvl_parent o node;
          pm ← CAvl_parent o max;
          CAvl_swap_for_remove o node max p pm
      | _, _ => Some o
      end;
  remove_unlink fuel o node.

Definition CAvl_GetFirst (o : CAvl) : option (option ptr) :=
  match c_root o with None => Some None | Some r => Some <$> CAvl_subtree_min (size (c_nodes o)) o r end.
Definition CAvl_GetLast (o : CAvl) : option (option ptr) :=
  match c_root o with None => Some None | Some r => Some <$> CAvl_subtree_max (size (c_nodes o)) o r end.

(** * Cells

    [holds o r L]: the root is [r] and the store holds the cells [L], at
    different addresses. *)

Abbreviation cell := (ptr * CAvlNode)%type.
Abbreviation ptree := (tree (A := ptr)).
Abbreviation pctx := (list (frame (A := ptr))).

Definition holds (o : CAvl) (r : option ptr) (L : list cell) : Prop :=
  c_root o = r /\ NoDup L.*1 /\ Forall (fun c => c_nodes o !! c.1 = Some c.2) L.

#[export] Instance holds_proper o r : Proper ((≡ₚ) ==> iff) (holds o r).
Proof. intros L L' E. unfold holds. by rewrite E. Qed.

Lemma holds_perm o r L L' : L ≡ₚ L' -> holds o r L -> holds o r L'.
Proof. by intros ->. Qed.

Lemma holds_weaken o r L G : holds o r (L ++ G) -> holds o r L.
Proof.
  intros (Hr & Hd & Hf). rewrite fmap_app in Hd. apply NoDup_app in Hd as (? & _ & _).
  apply Forall_app in Hf as [? _]. by split_and!.
Qed.

Lemma holds_head o r n x L : holds o r ((n, x) :: L) -> c_nodes o !! n = Some x.
Proof. intros (_ & _ & Hf). by apply Forall_cons_iff in Hf as [? _]. Qed.

Lemma holds_distinct o r n x m y L : holds o r ((n, x) :: L) -> (m, y) ∈ L -> m ≠ n.
Proof.
  intros (_ & Hd & _) Hm ->. simpl in Hd. apply NoDup_cons in Hd as [Hn _]. apply Hn.
  apply list_elem_of_fmap. by exists (n, y).
Qed.

Lemma holds_put o r n x x' L : holds o r ((n, x) :: L) -> holds (put_node o n x') r ((n, x') :: L).
Proof.
  intros (Hr & Hd & Hf). simpl in Hd. apply Forall_cons_iff in Hf as [_ Hf]. split_and!; [done|done|].
  apply Forall_cons_iff. split; [simpl; by rewrite lookup_insert_eq|].
  apply NoDup_cons in Hd as [Hn _]. rewrite Forall_forall in *. intros c Hc. simpl.
  rewrite lookup_insert_ne; [by apply Hf|]. intros ->. apply Hn. by apply list_elem_of_fmap_2.
Qed.

Lemma holds_new o r n x L : holds o r L -> n ∉ L.*1 -> holds (put_node o n x) r ((n, x) :: L).
Proof.
  intros (Hr & Hd & Hf) Hn. split_and!; [done|by apply NoDup_cons|].
  apply Forall_cons_iff. split; [simpl; by rewrite lookup_insert_eq|].
  rewrite Forall_forall in *. intros c Hc. simpl.
  rewrite lookup_insert_ne; [by apply Hf|]. intros ->. apply Hn. by apply list_elem_of_fmap_2.
Qed.

Lemma holds_root o r r' L : holds o r L -> holds (put_root o r') r' L.
Proof. by intros (_ & Hd & Hf). Qed.

Lemma holds_size o r L : holds o r L -> (length L <= size (c_nodes o))%nat.
Proof.
  intros (_ & Hd & Hf). rewrite <- (length_fmap fst L), <- (size_list_to_set (C := gset ptr) L.*1 Hd), <- (size_dom (c_nodes o)).
  apply subseteq_size. intros n Hn. apply elem_of_list_to_set, list_elem_of_fmap in Hn as (c & -> & Hc).
  rewrite Forall_forall in Hf. apply elem_of_dom. eexists. by apply Hf.
Qed.

(** Reads and writes of one cell. *)
Definition node_link (x : CAvlNode) (side : bool) : option ptr := if side then c_link1 x else c_link0 x.

Section Cell.
Context {o : CAvl} {r : option ptr} {n : ptr} {x : CAvlNode} {L : list cell} (H : holds o r ((n, x) :: L)).

Lemma link_spec s : CAvl_link o n s = Some (node_link x s).
Proof. unfold CAvl_link. by rewrite (holds_head _ _ _ _ _ H). Qed.
Lemma parent_spec : CAvl_parent o n = Some (c_parent x).
Proof. unfold CAvl_parent. by rewrite (holds_head _ _ _ _ _ H). Qed.
Lemma balance_spec : CAvl_balance o n = Some (c_balance x).
Proof. unfold CAvl_balance. by rewrite (holds_head _ _ _ _ _ H). Qed.
Lemma put_link_spec s v : exists o', put_link o n s v = Some o' /\ holds o' r ((n,
  if s then {| c_link0 := c_link0 x; c_link1 := v; c_parent := c_parent x; c_balance := c_balance x |}
  else {| c_link0 := v; c_link1 := c_link1 x; c_parent := c_parent x; c_balance := c_balance x |}) :: L).
Proof. unfold put_link. rewrite (holds_head _ _ _ _ _ H). eexists. split; [done|]. by eapply holds_put. Qed.
Lemma put_parent_spec v : exists o', put_parent o n v = Some o' /\ holds o' r ((n,
  {| c_link0 := c_link0 x; c_link1 := c_link1 x; c_parent := v; c_balance := c_balance x |}) :: L).
Proof. unfold put_parent. rewrite (holds_head _ _ _ _ _ H). eexists. split; [done|]. by eapply holds_put. Qed.
Lemma put_balance_spec b : exists o', put_balance o n b = Some o' /\ holds o' r ((n,
  {| c_link0 := c_link0 x; c_link1 := c_link1 x; c_parent := c_parent x; c_balance := b |}) :: L).
Proof. unfold put_balance. rewrite (holds_head _ _ _ _ _ H). eexists. split; [done|]. by eapply holds_put. Qed.
End Cell.

(** * The cells of a tree and of the ancestors of a subtree *)

Definition root_of (t : ptree) : option ptr := match t with Null => None | Node n _ _ _ => Some n end.
Definition parent_of (k : pctx) : option ptr := match k with [] => None | f :: _ => Some (f_node f) end.

Fixpoint cells (t : ptree) (p : option ptr) : list cell :=
  match t with
  | Null => []
  | Node n b l r =>
      (n, {| c_link0 := root_of l; c_link1 := root_of r; c_parent := p; c_balance := b |})
      :: cells l (Some n) ++ cells r (Some n)
  end.

(** The cell of an ancestor with [c] at the link on the way. *)
Definition fcell (f : frame) (c p : option ptr) : cell :=
  (f_node f,
   if f_side f then {| c_link0 := root_of (f_other f); c_link1 := c; c_parent := p; c_balance := f_balance f |}
   else {| c_link0 := c; c_link1 := root_of (f_other f); c_parent := p; c_balance := f_balance f |}).

Fixpoint cellsc (c : option ptr) (k : pctx) : list cell :=
  match k with
  | [] => []
  | f :: k => fcell f c (parent_of k) :: cells (f_other f) (Some (f_node f)) ++ cellsc (Some (f_node f)) k
  end.

(** The root of a tree with [c] below the ancestors [k]. *)
Fixpoint top (c : option ptr) (k : pctx) : option ptr :=
  match k with [] => c | f :: k => top (Some (f_node f)) k end.

(** The store holds the subtree [t] below the ancestors [k]. *)
Definition focus (o : CAvl) (t : ptree) (k : pctx) : Prop :=
  holds o (top (root_of t) k) (cells t (parent_of k) ++ cellsc (root_of t) k).

Lemma root_of_fill f t : root_of (fill f t) = Some (f_node f).
Proof. unfold fill. by destruct (f_side f). Qed.

Lemma cells_fill f t p : cells (fill f t) p ≡ₚ fcell f (root_of t) p :: cells t (Some (f_node f)) ++ cells (f_other f) (Some (f_node f)).
Proof. unfold fill, fcell. destruct (f_side f); simpl; [by rewrite (comm (++) (cells t _))|done]. Qed.

Lemma focus_up o t f k : focus o t (f :: k) <-> focus o (fill f t) k.
Proof.
  unfold focus. cbn [cellsc top parent_of]. rewrite root_of_fill, cells_fill.
  split; apply holds_perm; solve_Permutation.
Qed.

Lemma focus_plug o t k : focus o t k <-> focus o (plug t k) [].
Proof. revert t. induction k as [|f k IH]; intros t; [done|]. rewrite focus_up. simpl. apply IH. Qed.

Lemma cells_keys t p : (cells t p).*1 ≡ₚ inorder t.
Proof.
  revert p. induction t as [|n b l IHl r IHr]; intros p; simpl; [done|].
  rewrite fmap_app, IHl, IHr. solve_Permutation.
Qed.

Lemma focus_NoDup o t : focus o t [] -> NoDup (inorder t).
Proof. intros (_ & Hd & _). simpl in Hd. by rewrite app_nil_r, cells_keys in Hd. Qed.

Lemma focus_size o t k : focus o t k -> (length (inorder (plug t k)) <= size (c_nodes o))%nat.
Proof.
  rewrite focus_plug. intros H%holds_size. simpl in H. rewrite app_nil_r in H.
  rewrite <- (length_fmap fst), (cells_keys _ None) in H. done.
Qed.

(** ** Running the code on cells *)

(** The content of the cell at [n] in the list [L] and the rest of it. *)
Ltac cell_out n L :=
  match L with
  | (n, ?x) :: ?R => constr:((x, R))
  | ?c :: ?R => let r := cell_out n R in match r with (?x, ?R) => constr:((x, c :: R)) end
  | ?A ++ ?B => let r := cell_out n A in match r with (?x, ?R) => constr:((x, R ++ B)) end
  | ?A ++ ?B => let r := cell_out n B in match r with (?x, ?R) => constr:((x, A ++ R)) end
  end.
(** The list [L] without its part [C]. *)
Ltac part_out C L :=
  match L with
  | C => constr:(@nil cell)
  | C ++ ?B => constr:(B)
  | ?c :: ?R => let r := part_out C R in constr:(c :: r)
  | ?A ++ ?B => let r := part_out C A in constr:(r ++ B)
  | ?A ++ ?B => let r := part_out C B in constr:(A ++ r)
  end.
Ltac pull_cell n H :=
  lazymatch type of H with holds ?o ?r ?L =>
    let R := cell_out n L in
    lazymatch R with (?x, ?R) => apply (holds_perm o r L ((n, x) :: R)) in H; [|solve_Permutation] end
  end.
Ltac pull_part C H :=
  lazymatch type of H with holds ?o ?r ?L =>
    let R := part_out C L in apply (holds_perm o r L (C ++ R)) in H; [|solve_Permutation]
  end.
Ltac run_cbn := cbn [mbind option_bind node_link c_link0 c_link1 c_parent c_balance negb].
Ltac run_in H := cbn [node_link c_link0 c_link1 c_parent c_balance] in H.
(** The next statement of the code that reads or writes the cell of a node. *)
Ltac read :=
  match goal with
  | H : holds ?o _ _ |- context [CAvl_link ?o ?n ?s] => pull_cell n H; rewrite (link_spec H s)
  | H : holds ?o _ _ |- context [CAvl_parent ?o ?n] => pull_cell n H; rewrite (parent_spec H)
  | H : holds ?o _ _ |- context [CAvl_balance ?o ?n] => pull_cell n H; rewrite (balance_spec H)
  end; run_cbn.
Ltac write_with spec H :=
  let E := fresh in let H' := fresh in let o' := fresh "o" in
  destruct spec as (o' & E & H'); rewrite E; clear E H; run_in H'; run_cbn.
Ltac write :=
  match goal with
  | H : holds ?o _ _ |- context [put_link ?o ?n ?s ?v] => pull_cell n H; write_with constr:(put_link_spec H s v) H
  | H : holds ?o _ _ |- context [put_parent ?o ?n ?v] => pull_cell n H; write_with constr:(put_parent_spec H v) H
  | H : holds ?o _ _ |- context [put_balance ?o ?n ?b] => pull_cell n H; write_with constr:(put_balance_spec H b) H
  end.
Ltac step := first [read | write].
(** The store now holds the cells that are asked for. *)
Ltac settle := match goal with H : holds ?o _ _ |- holds ?o _ _ => eapply holds_perm; [|exact H]; cbn [cells cellsc root_of parent_of app]; solve_Permutation end.

Lemma put_parent_opt_spec {o r t p L} (H : holds o r (cells t p ++ L)) v :
  exists o', put_parent_opt o (root_of t) v = Some o' /\ holds o' r (cells t v ++ L).
Proof.
  destruct t as [|n b l r']; cbn [cells root_of put_parent_opt app] in *; [by exists o|].
  step. eexists. split; [done|]. settle.
Qed.

Lemma cells_root t p n : root_of t = Some n -> n ∈ (cells t p).*1.
Proof. destruct t; [done|]. intros [= ->]. simpl. left. Qed.

Lemma redirect_spec {o old x k L} (H : holds o (top (Some old) k) (cellsc (Some old) k ++ (old, x) :: L)) new :
  exists o', redirect o (parent_of k) old new = Some o' /\ holds o' (top new k) (cellsc new k ++ (old, x) :: L).
Proof.
  destruct k as [|f k]; cbn [cellsc top parent_of redirect] in *; [eexists; split; [done|]; by eapply holds_root|].
  unfold fcell in *. assert (root_of (f_other f) ≠ Some old) as Ho.
  { intros E. destruct H as (_ & Hd & _). simpl in Hd. rewrite !fmap_app in Hd.
    apply NoDup_cons in Hd as [_ Hd]. rewrite <- app_assoc in Hd. apply NoDup_app in Hd as (_ & Hd & _).
    apply (Hd old); [by eapply cells_root|]. apply elem_of_app. right. left. }
  step. destruct (f_side f); run_cbn.
  - rewrite bool_decide_eq_true_2 by done. step. eexists. split; [done|]. settle.
  - rewrite bool_decide_eq_false_2 by done. step. eexists. split; [done|]. settle.
Qed.

Lemma check_spec {o r n x k L} : holds o r ((n, x) :: cellsc (Some n) k ++ L) -> c_parent x = parent_of k ->
  CAvl_check_parent o (parent_of k) n = Some true.
Proof.
  intros H E. unfold CAvl_check_parent. step. rewrite E. destruct k as [|f k]; cbn [parent_of cellsc] in *; [done|].
  unfold fcell in *. step. step. rewrite bool_decide_eq_true_2 by done. destruct (f_side f); cbn.
  - rewrite (bool_decide_eq_true_2 (Some n = Some n)) by done. by rewrite orb_true_r.
  - by rewrite (bool_decide_eq_true_2 (Some n = Some n)) by done.
Qed.

Ltac step_opt t p :=
  match goal with
  | H : holds ?o _ _ |- context [put_parent_opt ?o (root_of t) ?v] =>
      pull_part (cells t p) H; let E := fresh in let H' := fresh in let o' := fresh "o" in
      destruct (put_parent_opt_spec H v) as (o' & E & H'); rewrite E; clear E H
  end; run_cbn.
Ltac step_redirect k :=
  match goal with
  | H : holds ?o _ _ |- context [redirect ?o (parent_of k) ?old ?new] =>
      pull_cell old H; pull_part (cellsc (Some old) k) H; let E := fresh in let H' := fresh in let o' := fresh "o" in
      destruct (redirect_spec H new) as (o' & E & H'); rewrite E; clear E H
  end; run_cbn.
Ltac step_check n k :=
  match goal with
  | H : holds ?o _ _ |- context [CAvl_check_parent ?o (parent_of k) n] =>
      pull_part (cellsc (Some n) k) H; pull_cell n H; rewrite (check_spec H) by done
  end; run_cbn.

Lemma rotate_spec o n b l r k dir t' :
  focus o (Node n b l r) k -> _BAVL_rotate (Node n b l r) dir = Some t' ->
  exists o', CAvl_rotate o n dir (parent_of k) = Some o' /\ focus o' t' k.
Proof.
  unfold focus. intros H E. cbn [cells root_of app] in H. unfold CAvl_rotate. step_check n k. step.
  destruct dir; cbn [_BAVL_rotate link negb] in *.
  - destruct l as [|m mb ml mr]; [done|]. injection E as <-. cbn [cells root_of] in *. run_cbn. step.
    step. step_opt mr (Some m). step. step. step_redirect k. step. eexists. split; [done|]. settle.
  - destruct r as [|m mb ml mr]; [done|]. injection E as <-. cbn [cells root_of] in *. run_cbn. step.
    step. step_opt ml (Some m). step. step. step_redirect k. step. eexists. split; [done|]. settle.
Qed.

(** The rotations of the pointers are those of the tree. *)
Ltac step_rotate t' :=
  match goal with
  | H : focus ?o (Node ?n ?b ?l ?r) ?k |- context [CAvl_rotate ?o ?n ?dir (parent_of ?k)] =>
      let E := fresh in let H' := fresh in let o' := fresh "o" in
      destruct (rotate_spec o n b l r k dir t' H eq_refl) as (o' & E & H'); rewrite E; clear E H
  end; run_cbn.

Lemma put_balance_focus o n b l r k b' : focus o (Node n b l r) k ->
  exists o', put_balance o n b' = Some o' /\ focus o' (Node n b' l r) k.
Proof. unfold focus. cbn [cells root_of app]. intros H. step. eexists. split; [done|]. settle. Qed.

(** From a focus to its cells and back. *)
Ltac open_focus := match goal with H : focus _ _ _ |- _ => unfold focus in H; cbn [cells root_of app] in H end.

(** The cases of the switch in the order of the code, with the heavy child on the
    right and on the left. *)
Lemma single_spec (bside : bool) o n b l r k c cb cl cr nb ncb t' :
  focus o (Node n b l r) k -> link l r bside = Node c cb cl cr ->
  _BAVL_rotate (if bside then Node n nb l (Node c ncb cl cr) else Node n nb (Node c ncb cl cr) r) (negb bside) = Some t' ->
  exists o', (o ← CAvl_rotate o n (negb bside) (parent_of k); o ← put_balance o n nb; put_balance o c ncb) = Some o'
             /\ root_of t' = Some c /\ focus o' t' k.
Proof.
  intros H El E. destruct bside; cbn [link negb] in *; subst; cbn [_BAVL_rotate link negb] in E; injection E as <-.
  - step_rotate (Node c cb (Node n b l cl) cr). open_focus. step. step.
    eexists. split; [done|]. split; [done|]. unfold focus. cbn [cells root_of app]. settle.
  - step_rotate (Node c cb cl (Node n b cr r)). open_focus. step. step.
    eexists. split; [done|]. split; [done|]. unfold focus. cbn [cells root_of app]. settle.
Qed.

Lemma double_spec (bside : bool) o n b l r k c cb cl cr g gb gl gr nb ncb c' t' :
  focus o (Node n b l r) k -> link l r bside = Node c cb cl cr -> link cl cr (negb bside) = Node g gb gl gr ->
  _BAVL_rotate (if bside then Node c ncb (Node g 0 gl gr) cr else Node c ncb cl (Node g 0 gl gr)) bside = Some c' ->
  _BAVL_rotate (if bside then Node n nb l c' else Node n nb c' r) (negb bside) = Some t' ->
  exists o1 o2 o3,
    CAvl_rotate o c bside (Some n) = Some o1 /\ CAvl_parent o1 n = Some (parent_of k)
    /\ CAvl_rotate o1 n (negb bside) (parent_of k) = Some o2 /\ CAvl_balance o2 g = Some gb
    /\ (o ← put_balance o2 n nb; o ← put_balance o c ncb; put_balance o g 0) = Some o3
    /\ root_of t' = Some g /\ focus o3 t' k.
Proof.
  intros H El Eg Ec Et. destruct bside; cbn [link negb] in *; subst; cbn [_BAVL_rotate link negb] in Ec; injection Ec as <-;
    cbn [_BAVL_rotate link negb] in Et; injection Et as <-.
  - set (f := {| f_node := n; f_balance := b; f_side := true; f_other := l |}).
    apply (focus_up o (Node c cb (Node g gb gl gr) cr) f k) in H.
    destruct (rotate_spec _ _ _ _ _ _ true _ H eq_refl) as (o1 & E1 & H1). clear H. apply focus_up in H1. exists o1.
    cbn in H1. destruct (rotate_spec _ _ _ _ _ _ false _ H1 eq_refl) as (o2 & E2 & H2).
    exists o2. cbn [parent_of f f_node] in E1. rewrite E1, E2. unfold focus in H1, H2. cbn [cells root_of app] in *.
    pull_cell n H1. rewrite (parent_spec H1). clear H1. step. step. step. step. eexists. split_and!; try done.
    unfold focus. cbn [cells root_of app]. settle.
  - set (f := {| f_node := n; f_balance := b; f_side := false; f_other := r |}).
    apply (focus_up o (Node c cb cl (Node g gb gl gr)) f k) in H.
    destruct (rotate_spec _ _ _ _ _ _ false _ H eq_refl) as (o1 & E1 & H1). clear H. apply focus_up in H1. exists o1.
    cbn in H1. destruct (rotate_spec _ _ _ _ _ _ true _ H1 eq_refl) as (o2 & E2 & H2).
    exists o2. cbn [parent_of f f_node] in E1. rewrite E1, E2. unfold focus in H1, H2. cbn [cells root_of app] in *.
    pull_cell n H1. rewrite (parent_spec H1). clear H1. step. step. step. step. eexists. split_and!; try done.
    unfold focus. cbn [cells root_of app]. settle.
Qed.

Lemma focus_child o n b l r k bside c cb cl cr : focus o (Node n b l r) k -> link l r bside = Node c cb cl cr ->
  CAvl_link o n bside = Some (Some c) /\ CAvl_balance o c = Some cb /\ CAvl_parent o n = Some (parent_of k)
  /\ CAvl_link o c (negb bside) = Some (root_of (link cl cr (negb bside))).
Proof.
  unfold focus. cbn [cells root_of app]. intros H E.
  destruct bside; cbn [link negb] in *; subst; cbn [cells root_of app] in *; (split_and!; [by step..|]); step; done.
Qed.

Lemma rebalance_step_spec o n b l r k side d t' delta :
  focus o (Node n b l r) k -> rebalance_node (Node n b l r) side d = Some (t', delta) ->
  exists o' m, rebalance_step o n side d b = Some (o', m, delta) /\ root_of t' = Some m /\ focus o' t' k.
Proof.
  intros H. unfold rebalance_node, rebalance_step. destruct ((b >=? -1) && (b <=? 1)); [|done].
  cbv zeta. set (dl := BAVL_MAX d _ - _). destruct ((dl >=? -1) && (dl <=? 1)) eqn:Edl; [|done].
  set (b' := b - _). destruct (put_balance_focus o n b l r k b' H) as (o1 & -> & H1). run_cbn. clear H.
  destruct ((b' =? 2) || (b' =? -2)); [|intros [= <- <-]; cbn [mbind option_bind]; rewrite Edl; by exists o1, n].
  set (bside := b' =? 2). clearbody b' bside.
  destruct (link l r bside) as [|c cb cl cr] eqn:El; [done|].
  destruct (focus_child _ _ _ _ _ _ _ _ _ _ _ H1 El) as (-> & E2 & E3 & E4). run_cbn. rewrite E2, E3. run_cbn.
  set (f := if bside then 1 else -1).
  destruct (cb * f =? 1); [|destruct (cb * f =? 0); [|destruct (cb * f =? -1); [|done]]].
  - destruct (_BAVL_rotate _ _) as [t|] eqn:Er; [|done]. run_cbn. destruct ((dl - 1 >=? -1) && _) eqn:Ed; [|done]. intros [= <- <-].
    destruct (single_spec _ _ _ _ _ _ _ _ _ _ _ _ _ _ H1 El Er) as (o2 & E & Hr & H2).
    destruct (CAvl_rotate _ _ _ _) as [oa|]; [|done]. cbn [mbind option_bind] in E |- *.
    destruct (put_balance oa n _) as [ob|]; [|done]. cbn [mbind option_bind] in E |- *. rewrite E. run_cbn. rewrite Ed. by exists o2, c.
  - destruct (_BAVL_rotate _ _) as [t|] eqn:Er; [|done]. run_cbn. intros [= <- <-].
    destruct (single_spec _ _ _ _ _ _ _ _ _ _ _ _ _ _ H1 El Er) as (o2 & E & Hr & H2).
    destruct (CAvl_rotate _ _ _ _) as [oa|]; [|done]. cbn [mbind option_bind] in E |- *.
    destruct (put_balance oa n _) as [ob|]; [|done]. cbn [mbind option_bind] in E |- *. rewrite E. run_cbn. rewrite Edl. by exists o2, c.
  - destruct (link cl cr (negb bside)) as [|g gb gl gr] eqn:Eg; [done|].
    destruct (_BAVL_rotate _ bside) as [c'|] eqn:Ec; [|done]. cbn [mbind option_bind].
    destruct (_BAVL_rotate _ (negb bside)) as [t|] eqn:Er; [|done]. cbn [mbind option_bind].
    destruct ((dl - 1 >=? -1) && _) eqn:Ed; [|done]. intros [= <- <-]. rewrite E4. run_cbn. cbn [root_of].
    destruct (double_spec _ _ _ _ _ _ _ _ _ _ _ _ _ _ _ _ _ _ _ H1 El Eg Ec Er) as (oa & ob & o2 & -> & Ea & Eb & Egb & E & Hr & H2).
    cbn [mbind option_bind]. rewrite Ea. cbn [mbind option_bind]. rewrite Eb. cbn [mbind option_bind]. rewrite Egb. cbn [mbind option_bind].
    destruct (put_balance ob n _) as [oc|]; [|done]. cbn [mbind option_bind] in E |- *.
    destruct (put_balance oc c _) as [od|]; [|done]. cbn [mbind option_bind] in E |- *. rewrite E. run_cbn. rewrite Ed. by exists o2, g.
Qed.

(** ** Going up *)

Definition small (k : pctx) : Prop := Forall (fun f => -1 <= f_balance f <= 1) k.

Lemma balanced_small (k : pctx) h : balanced_ctx k h -> small k.
Proof.
  revert h. induction k as [|f k IH]; intros h; [constructor|]. intros (_ & _ & ? & ?). constructor; [done|]. by eapply IH.
Qed.

Lemma focus_parent o t k m : focus o t k -> root_of t = Some m -> CAvl_parent o m = Some (parent_of k).
Proof. destruct t as [|n b l r]; [done|]. unfold focus. cbn [cells root_of app]. intros H [= <-]. by step. Qed.

Lemma focus_links o n b l r k side : focus o (Node n b l r) k -> CAvl_link o n side = Some (root_of (link l r side)).
Proof. unfold focus. cbn [cells root_of app]. intros H. step. by destruct side. Qed.

Lemma focus_balance o n b l r k : focus o (Node n b l r) k -> CAvl_balance o n = Some b.
Proof. unfold focus. cbn [cells root_of app]. intros H. by step. Qed.

(** Which link of its parent leads to a node. *)
Lemma focus_side o t f k m : focus o t (f :: k) -> root_of t = Some m ->
  exists l1, CAvl_link o (f_node f) true = Some l1 /\ bool_decide (l1 = Some m) = f_side f.
Proof.
  intros H Em. assert (root_of (f_other f) ≠ Some m) as Ho.
  { intros E. destruct H as (_ & Hd & _). cbn [cellsc] in Hd. rewrite fmap_app, fmap_cons, fmap_app in Hd.
    apply NoDup_app in Hd as (_ & Hd & _). apply (Hd m); [by apply cells_root|].
    right. apply elem_of_app. left. by apply cells_root. }
  unfold focus in H. cbn [cellsc] in H. unfold fcell in H. step. eexists. split; [done|].
  destruct (f_side f); cbn; [by apply bool_decide_eq_true_2|by apply bool_decide_eq_false_2].
Qed.

Lemma rebalance_spec k : forall fuel o n b l r side d t',
  focus o (Node n b l r) k -> (length k < fuel)%nat -> -1 <= b <= 1 -> small k ->
  _BAVL_rebalance (Node n b l r) k side d = Some t' ->
  exists o', CAvl_rebalance fuel o n side d = Some o' /\ focus o' t' [].
Proof.
  induction k as [|f k IH]; intros fuel o n b l r side d t' H Hf Hb Hk; cbn [_BAVL_rebalance];
    (destruct fuel as [|fuel]; [simpl in Hf; lia|]); cbn [CAvl_rebalance]; (destruct ((d >=? -1) && (d <=? 1)); [|done]);
    rewrite (focus_balance _ _ _ _ _ _ H); cbn [mbind option_bind];
    (replace ((b >=? -1) && (b <=? 1)) with true by lia);
    (destruct (d =? 0); [intros [= <-]; exists o; split; [done|]; by apply focus_plug in H|]);
    (destruct (rebalance_node _ side d) as [[t delta]|] eqn:E; [|done]);
    destruct (rebalance_step_spec _ _ _ _ _ _ _ _ _ _ H E) as (o1 & m & -> & Hm & H1);
    cbn [mbind option_bind]; rewrite (focus_parent _ _ _ _ H1 Hm); cbn [mbind option_bind parent_of].
  - intros [= <-]. by exists o1.
  - destruct (focus_side _ _ _ _ _ H1 Hm) as (l1 & -> & E1). cbn [mbind option_bind]. rewrite E1.
    apply focus_up in H1. inversion Hk; subst. simpl in Hf. unfold fill in *.
    destruct (f_side f); intros E2; (eapply IH; [exact H1|lia|done|done|exact E2]).
Qed.

(** * Insertion *)

Section Insert.
Context (compare_entries : ptr -> ptr -> Z).
Abbreviation insert_search := (insert_search compare_entries).
Abbreviation CAvl_Insert := (CAvl_Insert compare_entries).

Lemma compare_same a c : CAvl_compare_entries compare_entries a c = _BAVL_compare_values compare_entries a c.
Proof.
  unfold CAvl_compare_entries, _BAVL_compare_values. set (x := compare_entries a c).
  destruct (x >=? -1) eqn:E1; [destruct (x <=? 1) eqn:E2|]; simpl.
  - by replace ((x =? -1) || (x =? 0) || (x =? 1)) with true by lia.
  - by replace ((x =? -1) || (x =? 0) || (x =? 1)) with false by lia.
  - by replace ((x =? -1) || (x =? 0) || (x =? 1)) with false by lia.
Qed.

Lemma search_spec v t : forall fuel o up n b l r pl,
  t = Node n b l r -> focus o t up -> (length (inorder t) <= S fuel)%nat -> balanced t -> small up ->
  insert_place id compare_entries v t up = Some pl ->
  match pl with
  | Found c => insert_search fuel o v n = Some (At_node c)
  | Leaf c side up' => insert_search fuel o v n = Some (At_leaf c side)
      /\ focus o Null up' /\ plug Null up' = plug t up /\ small up' /\ exists f up1, up' = f :: up1 /\ f_node f = c /\ f_side f = side
  end.
Proof.
  induction t as [|m mb ml IHl mr IHr]; intros fuel o up n b l r pl Et H Hf Hb Hs; [done|]. injection Et as -> -> -> ->.
  cbn [insert_place]. cbn [inorder] in Hf. rewrite length_app in Hf. cbn [length] in Hf.
  assert (Hi : insert_search fuel o v n = (comp ← CAvl_compare_entries compare_entries v n;
    if comp =? 0 then Some (At_node n) else let side := comp =? 1 in l' ← CAvl_link o n side;
    match l' with None => Some (At_leaf n side) | Some c' => match fuel with O => None | S fuel => insert_search fuel o v c' end end))
    by by destruct fuel.
  rewrite Hi, compare_same. clear Hi. change (id n) with n.
  destruct (_BAVL_compare_values _ _ _) as [comp|]; [|done]. cbn [mbind option_bind].
  destruct (comp =? 0); [by intros [= <-]|]. cbv zeta. rewrite (focus_links _ _ _ _ _ _ _ H). cbn [mbind option_bind].
  destruct Hb as (Hbl & Hbr & _ & Hb).
  destruct (comp =? 1); cbn [link negb].
  - set (f := {| f_node := n; f_balance := b; f_side := true; f_other := l |}).
    assert (small (f :: up)) by by constructor. assert (focus o r (f :: up)) by by apply focus_up.
    destruct r as [|rn rb rl rr]; [intros [= <-]; split_and!; [done..|by exists f, up]|].
    cbn [root_of]. intros E. destruct fuel as [|fuel]; [cbn [inorder] in Hf; rewrite length_app in Hf; simpl in Hf; lia|].
    specialize (IHr fuel o (f :: up) _ _ _ _ pl eq_refl ltac:(done) ltac:(lia) Hbr ltac:(done) E). by destruct pl.
  - set (f := {| f_node := n; f_balance := b; f_side := false; f_other := r |}).
    assert (small (f :: up)) by by constructor. assert (focus o l (f :: up)) by by apply focus_up.
    destruct l as [|rn rb rl rr]; [intros [= <-]; split_and!; [done..|by exists f, up]|].
    cbn [root_of]. intros E. destruct fuel as [|fuel]; [cbn [inorder] in Hf; rewrite length_app in Hf; simpl in Hf; lia|].
    specialize (IHl fuel o (f :: up) _ _ _ _ pl eq_refl ltac:(done) ltac:(lia) Hbl ltac:(done) E). by destruct pl.
Qed.

(** The new leaf below the node where the search ended. *)
Lemma hang_spec o f up n : focus o Null (f :: up) -> n ∉ inorder (plug Null (f :: up)) ->
  exists o', put_link o (f_node f) (f_side f) (Some n) = Some o'
    /\ focus (put_node o' n {| c_link0 := None; c_link1 := None; c_parent := Some (f_node f); c_balance := 0 |})
             (Node n 0 Null Null) (f :: up).
Proof.
  intros H Hn. assert (Hk : n ∉ (cellsc None (f :: up)).*1).
  { rewrite focus_plug in H. intros Hin. apply Hn. clear -Hin. revert Hin. generalize (f :: up). intros k.
    assert (forall t, n ∈ (cellsc (root_of t) k).*1 -> n ∈ inorder (plug t k)) as Hx; [|apply (Hx Null)].
    induction k as [|g k IH]; intros t; cbn [cellsc]; [set_solver|].
    rewrite fmap_cons, fmap_app, !elem_of_cons, elem_of_app. cbn [fcell fst plug]. rewrite inorder_plug, inorder_fill.
    specialize (IH (fill g t)). rewrite inorder_plug, inorder_fill, root_of_fill in IH.
    unfold before, after in *. rewrite (elem_of_Permutation_proper _ _ _ (cells_keys (f_other g) _)).
    intros [->|[?|?]]; [..|by apply IH]; destruct (f_side g); set_solver. }
  unfold focus in H. cbn [cells app root_of] in H. cbn [cellsc] in H, Hk. unfold fcell in H, Hk.
  destruct (f_side f) eqn:Es; step; (eexists; split; [done|]);
  unfold focus; cbn [cells app root_of cellsc top parent_of] in *; unfold fcell; rewrite Es;
  (apply holds_new; [settle|exact Hk]).
Qed.

Lemma length_ctx (t : ptree) k : (length (inorder t) + length k <= length (inorder (plug t k)))%nat.
Proof.
  revert t. induction k as [|f k IH]; intros t; simpl; [lia|]. specialize (IH (fill f t)).
  rewrite inorder_fill, !length_app in IH. unfold before, after in IH. destruct (f_side f); simpl in IH;
    rewrite ?length_app in IH; simpl in IH; lia.
Qed.

Lemma Insert_focus o t n t' res ref :
  focus o t [] -> balanced t -> n ∉ inorder t -> BAVL_Insert id compare_entries t n = Some (t', res, ref) ->
  exists o', CAvl_Insert o n = Some (o', res, ref) /\ focus o' t' [].
Proof.
  intros H Hb Hn E. destruct t as [|m mb ml mr].
  - injection E as <- <- <-. unfold CAvl_Insert. destruct H as (-> & _ & _). cbn [top root_of].
    eexists. split; [done|]. apply (holds_new (put_root o (Some n)) (Some n) n _ []); [split_and!; [done|constructor|constructor]|apply not_elem_of_nil].
  - unfold BAVL_Insert in E. cbv beta iota in E. remember (Node m mb ml mr) as t. unfold CAvl_Insert.
    pose proof (focus_size _ _ _ H) as Hsz. cbn [plug] in Hsz.
    replace (c_root o) with (Some m) by (destruct H as (-> & _ & _); by subst).
    destruct (insert_place id compare_entries (id n) t []) as [pl|] eqn:Ep; [|done].
    cbn [mbind option_bind] in E.
    pose proof (search_spec n t (size (c_nodes o)) o [] m mb ml mr pl Heqt H ltac:(lia) Hb ltac:(constructor) Ep) as Hs.
    destruct pl as [c|c side up']; [injection E as <- <- <-; rewrite Hs; by exists o|].
    destruct Hs as (-> & H' & Hpl & Hsm & f & up & -> & <- & <-). cbn [mbind option_bind].
    destruct (hang_spec o f up n H') as (o1 & -> & H1); [by rewrite Hpl|]. cbn [mbind option_bind].
    set (o2 := put_node _ _ _) in *. apply focus_up in H1. inversion Hsm; subst.
    destruct (_BAVL_rebalance _ up _ 1) as [t1|] eqn:Er; [|done]. injection E as <- <- <-.
    pose proof (focus_size _ _ _ H1) as Hsz2. pose proof (length_ctx (fill f (Node n 0 Null Null)) up) as Hl.
    rewrite inorder_fill, !length_app in Hl. cbn [inorder length app] in Hl. unfold fill in *.
    destruct (f_side f); (destruct (rebalance_spec _ (size (c_nodes o2)) _ _ _ _ _ _ _ _ H1 ltac:(lia) ltac:(done) ltac:(done) Er)
      as (o3 & -> & Ho3); by exists o3).
Qed.
End Insert.

(** * Removal *)

(** The cells of ancestors up to one whose parent is [p]. *)
Definition parent_or (k : pctx) (p : option ptr) : option ptr := match k with [] => p | f :: _ => Some (f_node f) end.
Fixpoint cellsp (c : option ptr) (k : pctx) (p : option ptr) : list cell :=
  match k with
  | [] => []
  | f :: k => fcell f c (parent_or k p) :: cells (f_other f) (Some (f_node f)) ++ cellsp (Some (f_node f)) k p
  end.

Lemma parent_of_app k1 k2 : parent_of (k1 ++ k2) = parent_or k1 (parent_of k2).
Proof. by destruct k1. Qed.
Lemma top_app c k1 k2 : top c (k1 ++ k2) = top (top c k1) k2.
Proof. revert c. induction k1 as [|f k1 IH]; intros c; simpl; [done|apply IH]. Qed.
Lemma cellsc_app c k1 k2 : cellsc c (k1 ++ k2) = cellsp c k1 (parent_of k2) ++ cellsc (top c k1) k2.
Proof.
  revert c. induction k1 as [|f k1 IH]; intros c; [done|]. cbn [app cellsc cellsp top]. rewrite IH, parent_of_app.
  simpl. by rewrite <- app_assoc.
Qed.
Lemma focus_app o t k1 k2 : focus o t (k1 ++ k2) <-> focus o (plug t k1) k2.
Proof. revert t. induction k1 as [|f k1 IH]; intros t; [done|]. cbn [app plug]. rewrite focus_up. apply IH. Qed.

(** The link that leads to the innermost node, and the parent of the outermost. *)
Lemma redirect_part {o r old x f k p L} (H : holds o r (cellsp (Some old) (f :: k) p ++ (old, x) :: L)) new :
  exists o', redirect o (Some (f_node f)) old new = Some o' /\ holds o' r (cellsp new (f :: k) p ++ (old, x) :: L).
Proof.
  cbn [cellsp redirect] in *.
  unfold fcell in *. assert (root_of (f_other f) ≠ Some old) as Ho.
  { intros E. destruct H as (_ & Hd & _). simpl in Hd. rewrite !fmap_app in Hd.
    apply NoDup_cons in Hd as [_ Hd]. rewrite <- app_assoc in Hd. apply NoDup_app in Hd as (_ & Hd & _).
    apply (Hd old); [by eapply cells_root|]. apply elem_of_app. right. left. }
  step. destruct (f_side f); run_cbn.
  - rewrite bool_decide_eq_true_2 by done. step. eexists. split; [done|]. settle.
  - rewrite bool_decide_eq_false_2 by done. step. eexists. split; [done|]. settle.
Qed.

Lemma reparent_part k : forall {o r c f p L} (H : holds o r (cellsp c (f :: k) p ++ L)) v,
  exists o', put_parent_opt o (top (Some (f_node f)) k) v = Some o' /\ holds o' r (cellsp c (f :: k) v ++ L).
Proof.
  induction k as [|g k IH]; intros o r c f p L H v; cbn [top].
  - cbn [cellsp parent_or put_parent_opt] in *. unfold fcell in *. destruct (f_side f); step; (eexists; split; [done|]; settle).
  - cbn [cellsp parent_or] in H.
    assert (Hx : holds o r (cellsp (Some (f_node f)) (g :: k) p ++ fcell f c (Some (f_node g)) :: cells (f_other f) (Some (f_node f)) ++ L)).
    { eapply holds_perm; [|exact H]. cbn [cellsp]. solve_Permutation. }
    destruct (IH _ _ _ _ _ _ Hx v) as (o' & E & H'). exists o'. split; [exact E|]. cbn [cellsp parent_or] in H' |- *.
    eapply holds_perm; [|exact H']. solve_Permutation.
Qed.

Lemma holds_ne {o r t p n x L} : holds o r ((n, x) :: cells t p ++ L) -> root_of t ≠ Some n.
Proof.
  intros (_ & Hd & _) E. simpl in Hd. apply NoDup_cons in Hd as [Hd _]. apply Hd. rewrite fmap_app. apply elem_of_app. left.
  by apply cells_root.
Qed.

(** The exchange when the other node is the left child. *)
Lemma swap_child o n b l1 k m mb child :
  focus o (Node n b (Node m mb child Null) l1) k ->
  exists o', CAvl_swap_for_remove o n m (parent_of k) (Some n) = Some o'
             /\ focus o' (Node m b (Node n mb child Null) l1) k.
Proof.
  unfold focus, CAvl_swap_for_remove. cbn [cells root_of app]. intros H. step_check n k.
  assert (CAvl_check_parent o (Some n) m = Some true) as ->.
  { unfold CAvl_check_parent. step. step. step. rewrite !bool_decide_eq_true_2 by done. done. }
  run_cbn. rewrite (bool_decide_eq_true_2 (Some n = Some n)) by done. repeat read.
  assert (root_of l1 ≠ Some m) as Hm by (pull_part (cells l1 (Some n)) H; pull_cell m H; exact (holds_ne H)).
  rewrite bool_decide_eq_false_2 by done. run_cbn. write. step_opt child (Some m). step. step.
  cbn [put_parent_opt]. run_cbn. step. step. step_redirect k. step. step. step. step_opt l1 (Some n). step. step. step. step.
  eexists. split; [done|]. settle.
Qed.

(** The exchange with a node further below. *)
Lemma swap_far o n b l1 k m mb child f up :
  let g x := {| f_node := x; f_balance := b; f_side := false; f_other := l1 |} in
  focus o (Node m mb child Null) ((f :: up) ++ g n :: k) ->
  exists o', CAvl_swap_for_remove o n m (parent_of k) (Some (f_node f)) = Some o'
             /\ focus o' (Node n mb child Null) ((f :: up) ++ g m :: k).
Proof.
  intros g. assert (Hg : forall x c p, fcell (g x) c p = (x, {| c_link0 := c; c_link1 := root_of l1; c_parent := p; c_balance := b |})) by done.
  unfold focus, CAvl_swap_for_remove. cbn [cells root_of]. rewrite !top_app, !cellsc_app, !parent_of_app.
  cbn [top cellsc parent_of parent_or g f_node f_other f_side f_balance app]. rewrite !Hg. intros H.
  step_check n k.
  assert (CAvl_check_parent o (Some (f_node f)) m = Some true) as ->.
  { change (Some (f_node f)) with (parent_of (f :: up)).
    unfold CAvl_check_parent. read. cbn [parent_of cellsp] in *. unfold fcell in *. repeat read. rewrite (bool_decide_eq_true_2 (Some (f_node f) = _)) by done. destruct (f_side f); cbn.
    - rewrite (bool_decide_eq_true_2 (Some m = Some m)) by done. by rewrite orb_true_r.
    - by rewrite (bool_decide_eq_true_2 (Some m = Some m)) by done. }
  run_cbn. assert (Some (f_node f) ≠ Some n) as Hne.
  { cbn [cellsp] in H. unfold fcell in H. pull_cell (f_node f) H. intros [= E].
    assert (n ≠ f_node f); [|done]. pull_cell n H. destruct H as (_ & Hd & _). simpl in Hd. apply NoDup_cons in Hd as [Hd _].
    set_solver. }
  rewrite (bool_decide_eq_false_2 (_ = Some n)) by done. read. write.
  match goal with H : holds ?o _ _ |- _ => pull_cell m H; pull_part (cellsp (Some m) (f :: up) (Some n)) H;
    write_with constr:(redirect_part H (Some n)) H end.
  write. step_redirect k. repeat read. write. step_opt child (Some m). write.
  match goal with H : holds ?o _ _ |- _ => pull_part (cellsp (Some n) (f :: up) (Some n)) H;
    write_with constr:(reparent_part _ H (Some m)) H end.
  repeat read. write. cbn [put_parent_opt]. run_cbn. write. step_opt l1 (Some n). repeat read. write. write.
  eexists. split; [done|]. settle.
Qed.

Lemma max_spec t : forall fuel o up n b l r,
  t = Node n b l r -> focus o t up -> (length (inorder t) <= S fuel)%nat ->
  exists m mb child k, (forall up0, _BAVL_subtree_max t up0 = Some (m, child, k ++ up0))
    /\ t = plug (Node m mb child Null) k /\ CAvl_subtree_max fuel o n = Some m.
Proof.
  induction t as [|m mb ml _ mr IH]; intros fuel o up n b l r Et H Hf; [done|]. injection Et as -> -> -> ->.
  assert (Hi : CAvl_subtree_max fuel o n = (l' ← CAvl_link o n true;
    match l' with None => Some n | Some c' => match fuel with O => None | S fuel => CAvl_subtree_max fuel o c' end end)) by by destruct fuel.
  rewrite Hi. clear Hi. rewrite (focus_links _ _ _ _ _ _ _ H). cbn [mbind option_bind link].
  destruct r as [|rn rb rl rr]; [by exists n, b, l, []|].
  cbn [inorder] in Hf. rewrite length_app in Hf. cbn [length] in Hf.
  destruct fuel as [|fuel]; [rewrite length_app in Hf; simpl in Hf; lia|].
  set (f := {| f_node := n; f_balance := b; f_side := true; f_other := l |}).
  destruct (IH fuel o (f :: up) rn rb rl rr eq_refl) as (m & mb & child & k & E1 & E2 & E3); [by apply focus_up|cbn [inorder]; lia|].
  exists m, mb, child, (k ++ [f]). split_and!.
  - intros up0. change (_BAVL_subtree_max (Node rn rb rl rr) (f :: up0) = Some (m, child, (k ++ [f]) ++ up0)).
    rewrite E1, <- app_assoc. done.
  - rewrite plug_app, <- E2. done.
  - exact E3.
Qed.

Lemma min_spec t : forall fuel o up n b l r,
  t = Node n b l r -> focus o t up -> (length (inorder t) <= S fuel)%nat ->
  CAvl_subtree_min fuel o n = BAVL_GetFirst t.
Proof.
  induction t as [|m mb ml IH mr _]; intros fuel o up n b l r Et H Hf; [done|]. injection Et as -> -> -> ->.
  assert (Hi : CAvl_subtree_min fuel o n = (l' ← CAvl_link o n false;
    match l' with None => Some n | Some c' => match fuel with O => None | S fuel => CAvl_subtree_min fuel o c' end end)) by by destruct fuel.
  rewrite Hi. clear Hi. rewrite (focus_links _ _ _ _ _ _ _ H). cbn [mbind option_bind link].
  destruct l as [|rn rb rl rr]; [done|].
  cbn [inorder] in Hf. rewrite !length_app in Hf. cbn [length] in Hf.
  destruct fuel as [|fuel]; [simpl in Hf; lia|].
  set (f := {| f_node := n; f_balance := b; f_side := false; f_other := r |}).
  apply (IH fuel o (f :: up) rn rb rl rr eq_refl); [by apply focus_up|cbn [inorder]; rewrite length_app; simpl; lia].
Qed.

Lemma replace_spec o n b l r k child :
  focus o (Node n b l r) k -> (l = Null /\ child = r) \/ (r = Null /\ child = l) ->
  exists o', CAvl_replace_subtree_fix_assoc o n (root_of child) (parent_of k) = Some o' /\ focus o' child k.
Proof.
  unfold focus, CAvl_replace_subtree_fix_assoc. cbn [cells root_of app]. intros H Hc. step_check n k. step_redirect k.
  assert (Hp : holds o0 (top (root_of child) k) (cells child (Some n) ++ (n, {| c_link0 := root_of l; c_link1 := root_of r;
    c_parent := parent_of k; c_balance := b |}) :: cellsc (root_of child) k)).
  { destruct Hc as [[-> ->]|[-> ->]]; cbn [cells] in *; settle. }
  revert Hp; match goal with H : holds _ _ _ |- _ => clear H end; intros Hp. destruct child as [|c cb cl cr]; cbn [root_of cells] in *.
  - eexists. split; [done|]. apply holds_weaken with (G := [(n, {| c_link0 := root_of l; c_link1 := root_of r;
      c_parent := parent_of k; c_balance := b |})]). settle.
  - read. write. eexists. split; [done|]. apply holds_weaken with (G := [(n, {| c_link0 := root_of l; c_link1 := root_of r;
      c_parent := parent_of k; c_balance := b |})]). settle.
Qed.

Lemma unlink_spec fuel o n b l r k child t' :
  focus o (Node n b l r) k -> (l = Null /\ child = r) \/ (r = Null /\ child = l) -> (length k <= fuel)%nat -> small k ->
  remove_node child k = Some t' -> exists o', remove_unlink fuel o n = Some o' /\ focus o' t' [].
Proof.
  intros H Hc Hf Hs E. destruct (replace_spec _ _ _ _ _ _ _ H Hc) as (o1 & E1 & H1). unfold remove_unlink.
  rewrite !(focus_links _ _ _ _ _ _ _ H), (focus_parent _ _ _ n H) by done. cbn [mbind option_bind link].
  replace (bool_decide _ || bool_decide _) with true
    by (destruct Hc as [[-> _]|[-> _]]; [done|by rewrite orb_comm]).
  replace (match root_of l with Some c => Some c | None => root_of r end) with (root_of child)
    by (destruct Hc as [[-> ->]|[-> ->]]; [done|by destruct l]).
  destruct k as [|f k]; cbn [parent_of remove_node] in *; [rewrite E1; injection E as <-; by exists o1|].
  destruct (focus_side _ _ _ _ n H eq_refl) as (pl1 & -> & Eside). cbn [mbind option_bind]. rewrite Eside, E1. cbn [mbind option_bind].
  apply focus_up in H1. inversion Hs; subst. unfold fill in *.
  simpl in Hf. destruct (f_side f); (eapply rebalance_spec; [exact H1|lia|done|done|exact E]).
Qed.

Lemma Remove_focus o n b l r k t' :
  focus o (Node n b l r) k -> balanced (plug (Node n b l r) k) -> BAVL_Remove (Node n b l r) k = Some t' ->
  exists o', CAvl_Remove o n = Some o' /\ focus o' t' [].
Proof.
  intros H Hb E. apply balanced_plug in Hb as [Hbt Hbk%balanced_small]. unfold CAvl_Remove.
  pose proof (focus_size _ _ _ H) as Hsz. pose proof (length_ctx (Node n b l r) k) as Hl.
  cbn [inorder] in Hl. rewrite length_app in Hl. cbn [length] in Hl.
  replace (bool_decide (c_root o = None)) with false.
  2: { symmetry. apply bool_decide_eq_false. destruct H as (-> & _). cbn [root_of]. generalize n. clear.
       induction k as [|f k IH]; intros n; [done|]. apply (IH (f_node f)). }
  cbn [negb]. rewrite !(focus_links _ _ _ _ _ _ _ H). cbn [mbind option_bind link]. unfold BAVL_Remove in E.
  destruct l as [|ln lb ll lr]; [eapply unlink_spec; [done|by left|lia|done|done]|].
  destruct r as [|rn rb rl rr]; [eapply unlink_spec; [done|by right|lia|done|done]|].
  cbn [root_of]. set (l := Node ln lb ll lr) in *. set (r := Node rn rb rl rr) in *.
  set (g x := {| f_node := x; f_balance := b; f_side := false; f_other := r |}).
  assert (Hg : focus o l (g n :: k)) by by apply focus_up.
  destruct (max_spec l (size (c_nodes o)) o (g n :: k) ln lb ll lr eq_refl Hg ltac:(lia)) as (m & mb & child & up & E1 & E2 & ->).
  cbn [mbind option_bind]. rewrite (focus_parent _ _ _ n H) by done. cbn [mbind option_bind].
  rewrite E1 in E. cbn [mbind option_bind] in E. rewrite app_nil_r in E.
  assert (Hm : focus o (Node m mb child Null) (up ++ g n :: k)) by (apply focus_app; by rewrite <- E2).
  rewrite (focus_parent _ _ _ m Hm) by done. cbn [mbind option_bind].
  assert (exists o', CAvl_swap_for_remove o n m (parent_of k) (parent_of (up ++ g n :: k)) = Some o'
            /\ focus o' (Node n mb child Null) (up ++ g m :: k)) as (o' & -> & H').
  { destruct up as [|f up]; [|by apply swap_far]. cbn [plug app parent_of g f_node] in *. rewrite E2 in H.
    destruct (swap_child _ _ _ _ _ _ _ _ H) as (o' & -> & H'). exists o'. split; [done|]. by apply focus_up. }
  cbn [mbind option_bind]. eapply unlink_spec; [exact H'|by right|..|exact E].
  - pose proof (length_ctx (Node m mb child Null) up) as Hl2. cbn [inorder] in Hl2.
    rewrite <- E2, length_app in Hl2. cbn [length] in Hl2. rewrite length_app. cbn [length]. lia.
  - destruct Hbt as (Hbl & _ & _ & Hb). apply Forall_app. rewrite E2 in Hbl. apply balanced_plug in Hbl as [_ Hu%balanced_small].
    split; [done|]. by constructor.
Qed.

(** * The tree holds a sorted list *)

Definition CAvl_rep (o : CAvl) (xs : list ptr) : Prop := exists t, focus o t [] /\ balanced t /\ inorder t = xs.

#[export] Instance CAvl_Ops : TreeOps CAvl := {|
  Tree_Init := CAvl_Init; Tree_IsEmpty := CAvl_IsEmpty; Tree_Insert := CAvl_Insert;
  Tree_Remove := CAvl_Remove; Tree_GetFirst := CAvl_GetFirst |}.

Lemma CAvl_rep_NoDup o xs : CAvl_rep o xs -> NoDup xs.
Proof. intros (t & H & _ & <-). by eapply focus_NoDup. Qed.

Lemma CAvl_Init_spec : CAvl_rep CAvl_Init [].
Proof. exists Null. split_and!; [|done..]. split_and!; [done|constructor|constructor]. Qed.

Lemma CAvl_IsEmpty_spec o xs : CAvl_rep o xs -> CAvl_IsEmpty o = bool_decide (xs = []).
Proof.
  intros (t & (Hr & _) & _ & <-). unfold CAvl_IsEmpty. rewrite Hr. apply bool_decide_ext. destruct t as [|n b l r]; [done|].
  simpl. split; [done|]. intros E. by apply app_eq_nil in E as [_ ?].
Qed.

Lemma focus_root o t : focus o t [] -> c_root o = root_of t.
Proof. by intros (? & _). Qed.

Lemma CAvl_GetFirst_spec o xs : CAvl_rep o xs -> CAvl_GetFirst o = Some (head xs).
Proof.
  intros (t & H & _ & <-). unfold CAvl_GetFirst. rewrite (focus_root _ _ H). pose proof (focus_size _ _ _ H) as Hs. cbn [plug] in Hs.
  rewrite <- BAVL_GetFirst_head. destruct t as [|n b l r]; [done|]. cbn [root_of].
  rewrite (min_spec (Node n b l r) _ o [] n b l r eq_refl H) by lia.
  rewrite BAVL_GetFirst_head. by destruct (inorder_node_cons n b l r) as (x & ys & ->).
Qed.

Lemma CAvl_GetLast_spec o xs : CAvl_rep o xs -> CAvl_GetLast o = Some (list.last xs).
Proof.
  intros (t & H & _ & <-). unfold CAvl_GetLast. rewrite (focus_root _ _ H). pose proof (focus_size _ _ _ H) as Hs. cbn [plug] in Hs.
  destruct t as [|n b l r]; [done|]. cbn [root_of].
  destruct (max_spec (Node n b l r) (size (c_nodes o)) o [] n b l r eq_refl H ltac:(lia)) as (m & mb & child & k & E1 & E2 & ->).
  change (Some (Some m) = Some (list.last (inorder (Node n b l r)))). f_equal. specialize (E1 []).
  destruct (_BAVL_subtree_max_spec (Node n b l r) ltac:(done) []) as (m' & mb' & ml & k' & E3 & _ & Ha).
  rewrite E1, !app_nil_r in E3. injection E3 as <- <- <-.
  rewrite E2, inorder_plug, Ha. cbn [inorder]. simpl. by rewrite app_nil_r, app_assoc, last_snoc.
Qed.

Section Ordered.
Context (cmp : ptr -> ptr -> Z) `{!Order cmp}.

Lemma ascending_sorted t : ascending cmp (inorder t) -> sorted id cmp (fun _ => True) t.
Proof. intros H. split; [exact H|]. by apply List.Forall_forall. Qed.

Lemma CAvl_Insert_new o xs n :
  CAvl_rep o xs -> ascending cmp xs -> (forall x, In x xs -> cmp n x <> 0) ->
  exists o' ref l k, CAvl_Insert cmp o n = Some (o', true, ref) /\ CAvl_rep o' (l ++ n :: k) /\ xs = l ++ k
    /\ Forall (fun a => cmp a n = -1) l /\ Forall (fun a => cmp n a = -1) k.
Proof.
  intros (t & H & Hb & <-) Hs Hn.
  destruct (BAVL_Insert_spec id cmp (fun _ => True) t n Hb (ascending_sorted t Hs) I)
    as [(m & _ & Hm & E)|(t' & ref & l & k & E & Hi & Hi' & Hl & Hk & Hb' & _)]; [by destruct (Hn m Hm)|].
  destruct (Insert_focus cmp o t n t' true ref H Hb) as (o' & Eo & H'); [|exact E|].
  { intros Hin%list_elem_of_In. apply (Hn n Hin). destruct (cmp_range (ok := fun _ => True) n n I I) as [Ec|[Ec|Ec]]; [|done|];
      pose proof (cmp_antisym (ok := fun _ => True) n n I I); lia. }
  exists o', ref, l, k. split_and!; [exact Eo| |done..]. by exists t'.
Qed.

Lemma CAvl_Insert_dup o xs n x :
  CAvl_rep o xs -> ascending cmp xs -> In x xs -> cmp n x = 0 ->
  exists ref, CAvl_Insert cmp o n = Some (o, false, Some ref) /\ In ref xs /\ cmp n ref = 0.
Proof.
  intros (t & H & Hb & <-) Hs Hx Ex. destruct t as [|r b tl tr]; [done|]. set (t := Node r b tl tr) in *.
  pose proof (focus_size _ _ _ H) as Hsz. cbn [plug] in Hsz. unfold CAvl_Insert. rewrite (focus_root _ _ H).
  destruct (insert_place_spec id cmp (fun _ => True) n t I (ascending_sorted t Hs) ltac:(done) []) as [(m & E & Hm & E0)|(f & k & _ & Hp & Hl & Hk)].
  - pose proof (search_spec cmp n t (size (c_nodes o)) o [] r b tl tr _ eq_refl H ltac:(lia) Hb ltac:(constructor) E) as Es.
    cbn in Es. cbn [root_of t]. rewrite Es. exists m. done.
  - exfalso. rewrite <- Hp, inorder_plug in Hx. cbn [inorder] in Hx. unfold below, above in Hl, Hk. rewrite List.Forall_forall in Hl, Hk.
    apply in_app_iff in Hx as [Hx|Hx]; [specialize (Hl x Hx)|specialize (Hk x Hx)]; unfold id in *; [|lia].
    pose proof (cmp_antisym (ok := fun _ => True) n x I I). lia.
Qed.
End Ordered.

Lemma find_node (n : ptr) (t : ptree) : n ∈ inorder t -> exists b l r k, t = plug (Node n b l r) k.
Proof.
  induction t as [|m b l IHl r IHr]; cbn [inorder]; [by intros ?%elem_of_nil|].
  intros [Hi|[->|Hi]%elem_of_cons]%elem_of_app.
  - destruct (IHl Hi) as (b' & l' & r' & k & ->). exists b', l', r', (k ++ [{| f_node := m; f_balance := b; f_side := false; f_other := r |}]).
    by rewrite plug_app.
  - by exists b, l, r, [].
  - destruct (IHr Hi) as (b' & l' & r' & k & ->). exists b', l', r', (k ++ [{| f_node := m; f_balance := b; f_side := true; f_other := l |}]).
    by rewrite plug_app.
Qed.

Lemma split_unique {A} (l l' k k' : list A) n : NoDup (l ++ n :: k) -> l ++ n :: k = l' ++ n :: k' -> l = l' /\ k = k'.
Proof.
  revert l'. induction l as [|x l IH]; intros [|x' l'] Hd E; simpl in *; [by injection E| | |].
  - injection E as <- ->. apply NoDup_cons in Hd as [Hn _]. set_solver.
  - injection E as -> _. apply NoDup_cons in Hd as [Hn _]. set_solver.
  - injection E as <- E. apply NoDup_cons in Hd as [_ Hd]. by destruct (IH l' Hd E) as [-> ->].
Qed.

Lemma CAvl_Remove_spec o l n k : CAvl_rep o (l ++ n :: k) -> exists o', CAvl_Remove o n = Some o' /\ CAvl_rep o' (l ++ k).
Proof.
  intros (t & H & Hb & E). pose proof (focus_NoDup _ _ H) as Hd.
  destruct (find_node n t) as (b & tl & tr & kk & ->); [rewrite E; set_solver|].
  destruct (BAVL_Remove_spec _ _ _ _ _ Hb) as (t' & Er & Hb' & Hi'). apply focus_plug in H.
  destruct (Remove_focus _ _ _ _ _ _ _ H Hb Er) as (o' & -> & H'). exists o'. split; [done|]. exists t'. split_and!; [done..|].
  rewrite Hi'. rewrite inorder_plug in E, Hd. cbn [inorder] in E, Hd.
  assert (E2 : (befores kk ++ inorder tl) ++ n :: inorder tr ++ afters kk = l ++ n :: k) by (rewrite <- E, <- !app_assoc; done).
  apply split_unique in E2 as [<- <-]; [by rewrite <- !app_assoc|]. revert Hd. by rewrite <- !app_assoc.
Qed.

#[export] Instance CAvl_SortedTree : SortedTree CAvl.
Proof.
  refine {| tree_rep := CAvl_rep : CAvl -> list ptr -> Prop |}.
  - apply CAvl_rep_NoDup.
  - apply CAvl_Init_spec.
  - apply CAvl_IsEmpty_spec.
  - apply CAvl_GetFirst_spec.
  - intros cmp o xs n Hc. by apply CAvl_Insert_new.
  - intros cmp o xs n x Hc. by apply CAvl_Insert_dup.
  - apply CAvl_Remove_spec.
Defined.

(** C20. The links, parent links and balance factors of the store implement a sorted
    list: for every order of the entries and every sequence of insertions,
    removals of entries in the tree, and queries, no ASSERT fails, no null link is
    followed and no loop exceeds its fuel; every answer is that of the sorted
    list, and at the end the store holds a balanced tree of that list. *)
Theorem CAvl_refines_sorted_list cmp ops xs ans :
  Order cmp -> sorted_run cmp [] ops = Some (xs, ans) ->
  exists o t, tree_run cmp CAvl_Init ops = Some (o, ans)
    /\ focus o t [] /\ balanced t /\ inorder t = xs /\ ascending cmp xs.
Proof.
  intros Hc E. destruct (tree_run_refines cmp ops CAvl_Init [] xs ans) as (o & Eo & (t & Hf & Hb & Hi) & Hs);
    [apply CAvl_Init_spec|constructor|exact E|]. by exists o, t.
Qed.

(** * A concrete tree *)

Definition ex_tree_ops : list tree_op :=
  [TInsert 50; TInsert 30; TInsert 70; TInsert 20; TInsert 40; TInsert 60; TInsert 80; TInsert 45; TInsert 45; TRemove 50;
   TGetFirst; TInsert 50; TRemove 20; TRemove 30; TRemove 40; TGetFirst; TIsEmpty].

Lemma B_COMPARE_Order : Order B_COMPARE.
Proof. apply B_COMPARE_Comparator. Qed.

Lemma CAvl_refines_sorted_list_witness :
  exists o t, tree_run B_COMPARE CAvl_Init ex_tree_ops
    = Some (o, [AInserted true; AInserted true; AInserted true; AInserted true; AInserted true; AInserted true; AInserted true;
                AInserted true; AInserted false; ARemoved; AFirst (Some 20); AInserted true; ARemoved; ARemoved; ARemoved;
                AFirst (Some 45); AEmpty false])
    /\ focus o t [] /\ balanced t /\ inorder t = [45; 50; 60; 70; 80] /\ ascending B_COMPARE [45; 50; 60; 70; 80].
Proof. refine (CAvl_refines_sorted_list B_COMPARE ex_tree_ops _ _ B_COMPARE_Order _). vm_compute. reflexivity. Defined.
