(* ===== verification/TreeIndex.v ===== *)
(** An AVL tree (BAVL.v) as an index of objects: the nodes are the addresses of
    objects, and their keys are read from the objects.  [index v cmp ok t ids]: the
    tree [t] holds the objects [ids], with different keys [v]. *)

From S2P Require Import Prelude BAVL SLinkedList.
From Stdlib Require Import Sorting.Sorted.
From stdpp Require Import gmap.
Open Scope Z_scope.

(** The position of a node in the tree. *)
Fixpoint position (p : ptr) (t : tree (A := ptr)) (up : list (frame (A := ptr))) : option (tree (A := ptr) * list (frame (A := ptr))) :=
  match t with
  | Null => None
  | Node n b l r =>
      if n =? p then Some (t, up)
      else match position p l ({| f_node := n; f_balance := b; f_side := false; f_other := r |} :: up) with
           | Some x => Some x
           | None => position p r ({| f_node := n; f_balance := b; f_side := true; f_other := l |} :: up)
           end
  end.

Lemma position_spec p t : In p (inorder t) -> forall up,
  exists b l r k, position p t up = Some (Node p b l r, k ++ up) /\ plug (Node p b l r) k = t.
Proof.
  induction t as [|n b l IHl r IHr]; [done|]. intros Hin up. simpl.
  destruct (Z.eqb_spec n p) as [->|Hne]; [by exists b, l, r, []|].
  destruct (in_dec Z.eq_dec p (inorder l)) as [Hl|Hl].
  - destruct (IHl Hl ({| f_node := n; f_balance := b; f_side := false; f_other := r |} :: up)) as (b' & l' & r' & k & E & Hp).
    rewrite E. exists b', l', r', (k ++ [{| f_node := n; f_balance := b; f_side := false; f_other := r |}]).
    rewrite <- app_assoc, plug_app, Hp. done.
  - assert (Hn : forall t up, ~ In p (inorder t) -> position p t up = None).
    { clear. induction t as [|n b l IHl r IHr]; intros up Hni; [done|]. simpl in *. rewrite in_app_iff in Hni. simpl in Hni.
      destruct (Z.eqb_spec n p); [tauto|]. rewrite IHl, IHr by tauto. done. }
    rewrite (Hn l) by done. simpl in Hin. apply in_app_iff in Hin as [?|[?|Hr]]; [done|congruence|].
    destruct (IHr Hr ({| f_node := n; f_balance := b; f_side := true; f_other := l |} :: up)) as (b' & l' & r' & k & E & Hp).
    rewrite E. exists b', l', r', (k ++ [{| f_node := n; f_balance := b; f_side := true; f_other := l |}]).
    rewrite <- app_assoc, plug_app, Hp. done.
Qed.

Lemma Permutation_to_end (l k : list ptr) p : Permutation (l ++ p :: k) ((l ++ k) ++ [p]).
Proof. etransitivity; [symmetry; apply Permutation_middle|]. apply Permutation_cons_append. Qed.

Section Index.
Context {V : Type} (v : ptr -> V) (cmp : V -> V -> Z) (ok : V -> Prop) `{!Comparator ok cmp}.

Record index (t : tree (A := ptr)) (ids : list ptr) : Prop := {
  ix_perm : Permutation (inorder t) ids;
  ix_balanced : balanced t;
  ix_sorted : sorted v cmp ok t }.

#[export] Instance index_proper t : Proper (Permutation ==> iff) (index t).
Proof.
  intros l l' E. split; intros [Hp Hb Hs]; split; try done; [by rewrite Hp|by rewrite Hp, E].
Qed.

Lemma index_empty : index Null [].
Proof. split; [done|done|split; constructor]. Qed.

Lemma index_ok t ids p : index t ids -> p ∈ ids -> ok (v p).
Proof.
  intros [Hp _ [_ Hok]] Hin. rewrite List.Forall_forall in Hok. apply Hok. rewrite <- list_elem_of_In. by rewrite Hp.
Qed.

Lemma index_lookup t ids a : index t ids -> ok a ->
  exists r, BAVL_LookupExact v cmp t a = Some r
    /\ match r with Some p => p ∈ ids /\ cmp a (v p) = 0 | None => forall p, p ∈ ids -> cmp a (v p) <> 0 end.
Proof.
  intros [Hp _ Hs] Ha. destruct (BAVL_LookupExact_spec v cmp ok t a Ha Hs) as (r & E & Hr). exists r. split; [done|].
  destruct r as [p|]; simpl in Hr.
  - destruct Hr as [Hin E0]. split; [|done]. by rewrite <- Hp, list_elem_of_In.
  - intros p Hin. apply Hr. by rewrite <- list_elem_of_In, Hp.
Qed.

Lemma index_insert t ids p : index t ids -> ok (v p) -> (forall q, q ∈ ids -> cmp (v p) (v q) <> 0) ->
  exists t' ref, BAVL_Insert v cmp t p = Some (t', true, ref) /\ index t' (ids ++ [p]).
Proof.
  intros [Hp Hb Hs] Hok Hn.
  destruct (BAVL_Insert_spec v cmp ok t p Hb Hs Hok) as [(q & _ & Hq & E0)|(t' & ref & l & k & E & Hi & Hi' & _ & _ & Hb' & Hs')].
  - destruct (Hn q); [|done]. by rewrite <- Hp, list_elem_of_In.
  - exists t', ref. split; [done|]. split; [|done|done]. rewrite Hi', <- Hp, Hi. apply Permutation_to_end.
Qed.

Lemma index_remove t l p k : index t (l ++ p :: k) ->
  exists t1 up t', position p t [] = Some (t1, up) /\ BAVL_Remove t1 up = Some t' /\ index t' (l ++ k).
Proof.
  intros [Hp Hb Hs]. destruct (position_spec p t) with (up := @nil (frame (A := ptr))) as (b & tl & tr & up & Ep & Hplug).
  { rewrite <- list_elem_of_In, Hp. set_solver. }
  rewrite app_nil_r in Ep. rewrite <- Hplug in Hb. destruct (BAVL_Remove_spec p b tl tr up Hb) as (t' & Et & Hbt & Hit).
  exists (Node p b tl tr), up, t'. split; [done|]. split; [done|].
  assert (Hio : inorder t = (befores up ++ inorder tl) ++ p :: inorder tr ++ afters up).
  { rewrite <- Hplug, inorder_plug. simpl. by rewrite <- !app_assoc. }
  assert (Hit' : inorder t' = (befores up ++ inorder tl) ++ inorder tr ++ afters up).
  { rewrite Hit. by rewrite <- !app_assoc. }
  split; [|done|].
  - rewrite Hio in Hp. rewrite Hit'. apply (Permutation_app_inv _ _ _ _ p Hp).
  - destruct Hs as [Hss Hso]. rewrite Hio in Hss, Hso. destruct (sorted_remove _ _ _ _ _ _ Hss Hso) as [? ?].
    unfold sorted. by rewrite Hit'.
Qed.
End Index.

(** Only the keys of the objects in the tree matter. *)
Lemma index_ext {V} (v v' : ptr -> V) cmp ok t ids :
  (forall p, p ∈ ids -> v' p = v p) -> index v cmp ok t ids -> index v' cmp ok t ids.
Proof.
  intros Hv [Hp Hb Hs]. split; [done|done|]. apply (sorted_ext v); [|done].
  intros p Hin. apply Hv. by rewrite <- Hp, list_elem_of_In.
Qed.
