(* ===== verification/BPending.v ===== *)
(** The job queue of base/BPending.c.

    [BPendingGroup] is the group with its intrusive list of pending jobs
    (SLinkedList.v); every function of BPending.c is a definition over it, at
    the level of the list's pointers.  [JobStack] is what the rest of the
    program relies on: a stack of distinct jobs.  The refinement theorem shows
    that the pointers implement the stack and that the jobs run in its order.

    A job object is its address; its handler and user pointer are one value of
    the type [H].  The debug counters and the [pending] flag exist only in
    builds without NDEBUG and are not part of the state. *)

From S2P Require Import Prelude SLinkedList.

(** * The abstract job stack *)

Section JobStack.
Context {J : Type} `{EqDecision J}.

(** Without [j]. *)
Definition job_unset (j : J) (l : list J) : list J := filter (fun x => x <> j) l.
(** [j] goes to the front, from wherever it was. *)
Definition job_set (j : J) (l : list J) : list J := j :: job_unset j l.

Lemma elem_of_unset x j l : x ∈ job_unset j l <-> x <> j /\ x ∈ l.
Proof. unfold job_unset. rewrite list_elem_of_filter. tauto. Qed.
Lemma elem_of_set x j l : x ∈ job_set j l <-> x = j \/ x ∈ l.
Proof.
  unfold job_set. rewrite elem_of_cons, elem_of_unset. destruct (decide (x = j)); tauto.
Qed.
Lemma job_unset_notin j l : j ∉ l -> job_unset j l = l.
Proof.
  unfold job_unset. induction l as [|x l IH]; intros Hj; [done|].
  apply not_elem_of_cons in Hj as [? ?]. rewrite filter_cons_True by congruence. by rewrite IH.
Qed.
Lemma job_unset_nodup j l : NoDup l -> NoDup (job_unset j l).
Proof. apply NoDup_filter. Qed.
Lemma job_set_nodup j l : NoDup l -> NoDup (job_set j l).
Proof.
  intros. unfold job_set. apply NoDup_cons. split; [|by apply job_unset_nodup].
  rewrite elem_of_unset. tauto.
Qed.
Lemma job_unset_split j l1 l2 : NoDup (l1 ++ j :: l2) -> job_unset j (l1 ++ j :: l2) = l1 ++ l2.
Proof.
  intros N. apply NoDup_app in N as (_ & N1 & N2). apply NoDup_cons in N2 as [N2 _].
  unfold job_unset. rewrite filter_app, filter_cons_False by tauto. f_equal; apply job_unset_notin; [|done].
  intros ?. eapply N1; [done|set_solver].
Qed.
End JobStack.

Create HintDb jobs.
#[export] Hint Resolve job_unset_nodup job_set_nodup : jobs.

(** * base/BPending.c *)

Section BPending.
Context {H : Type}.

Record BPendingGroup := {
  bg_jobs : SLinkedList;
  bg_nodes : slstore;
  bg_handlers : gmap ptr H }.

Definition BPendingGroup_Init : BPendingGroup :=
  {| bg_jobs := SLinkedList_Init; bg_nodes := ∅; bg_handlers := ∅ |}.

Definition BPendingGroup_HasJobs (g : BPendingGroup) : bool :=
  negb (SLinkedList_IsEmpty (bg_jobs g)).

(** The handler that is called, and the group it finds. *)
Definition BPendingGroup_ExecuteJob (g : BPendingGroup) : option (H * BPendingGroup) :=
  ASSERT negb (SLinkedList_IsEmpty (bg_jobs g));
  p ← SLinkedList_First (bg_jobs g);
  removed ← SLinkedListIsRemoved (bg_nodes g) p;
  ASSERT negb removed;
  jobs ← SLinkedList_RemoveFirst (bg_jobs g) (bg_nodes g);
  nodes ← SLinkedListMarkRemoved (bg_nodes g) p;
  handler ← bg_handlers g !! p;
  Some (handler, {| bg_jobs := jobs; bg_nodes := nodes; bg_handlers := bg_handlers g |}).

Definition BPendingGroup_PeekJob (g : BPendingGroup) : option ptr :=
  SLinkedList_First (bg_jobs g).

Definition BSmallPending_Init (o : ptr) (handler : H) (g : BPendingGroup) : BPendingGroup :=
  {| bg_jobs := bg_jobs g;
     bg_nodes := <[o := {| sl_next := Some o; sl_prev := None |}]> (bg_nodes g);
     bg_handlers := <[o := handler]> (bg_handlers g) |}.

(** The object's memory goes back to its owner. *)
Definition BSmallPending_Free (o : ptr) (g : BPendingGroup) : option BPendingGroup :=
  removed ← SLinkedListIsRemoved (bg_nodes g) o;
  '(jobs, nodes) ← (if (removed : bool) then Some (bg_jobs g, bg_nodes g)
                    else SLinkedList_Remove (bg_jobs g) (bg_nodes g) o);
  Some {| bg_jobs := jobs; bg_nodes := delete o nodes; bg_handlers := delete o (bg_handlers g) |}.

Definition BSmallPending_SetHandler (o : ptr) (handler : H) (g : BPendingGroup) : BPendingGroup :=
  {| bg_jobs := bg_jobs g; bg_nodes := bg_nodes g; bg_handlers := <[o := handler]> (bg_handlers g) |}.

Definition BSmallPending_Set (o : ptr) (g : BPendingGroup) : option BPendingGroup :=
  removed ← SLinkedListIsRemoved (bg_nodes g) o;
  '(jobs, nodes) ← (if (removed : bool) then Some (bg_jobs g, bg_nodes g)
                    else SLinkedList_Remove (bg_jobs g) (bg_nodes g) o);
  '(jobs, nodes) ← SLinkedList_Prepend jobs nodes o;
  Some {| bg_jobs := jobs; bg_nodes := nodes; bg_handlers := bg_handlers g |}.

Definition BSmallPending_Unset (o : ptr) (g : BPendingGroup) : option BPendingGroup :=
  removed ← SLinkedListIsRemoved (bg_nodes g) o;
  if (removed : bool) then Some g else
  '(jobs, nodes) ← SLinkedList_Remove (bg_jobs g) (bg_nodes g) o;
  nodes ← SLinkedListMarkRemoved nodes o;
  Some {| bg_jobs := jobs; bg_nodes := nodes; bg_handlers := bg_handlers g |}.

Definition BSmallPending_IsSet (o : ptr) (g : BPendingGroup) : option bool :=
  removed ← SLinkedListIsRemoved (bg_nodes g) o; Some (negb removed).

(** ** Refinement of the job stack *)

Record group_rep (g : BPendingGroup) (l : list ptr) : Prop := {
  gr_list : list_rep (bg_jobs g) (bg_nodes g) l;
  gr_live : forall x, x ∈ l -> is_Some (bg_handlers g !! x);
  gr_dom : dom (bg_nodes g) = dom (bg_handlers g);
  gr_marks : forall x n, x ∉ l -> bg_nodes g !! x = Some n -> sl_next n = Some x }.

Lemma seg_next_ne h p l x n : NoDup l -> seg h p l None -> x ∈ l -> h !! x = Some n -> sl_next n <> Some x.
Proof.
  revert p. induction l as [|y l IH]; intros p N; simpl; [by intros _ ?%elem_of_nil|].
  apply NoDup_cons in N as [Ny N]. intros (m & Hm & Hx & _ & S) [->|Hin]%elem_of_cons Hn; [|eauto].
  rewrite Hm in Hn. apply (inj Some) in Hn as <-. rewrite Hx. destruct l; [done|]. intros [= ->]. set_solver.
Qed.

Lemma rep_IsRemoved g l o : group_rep g l -> is_Some (bg_handlers g !! o) ->
  SLinkedListIsRemoved (bg_nodes g) o = Some (bool_decide (o ∉ l)).
Proof.
  intros [[_ N S] _ D M] Ho. apply elem_of_dom in Ho. rewrite <- D in Ho.
  apply elem_of_dom in Ho as [n Hn].
  unfold SLinkedListIsRemoved. rewrite Hn. simpl. f_equal. apply bool_decide_ext. split.
  - intros E Hin. by eapply seg_next_ne.
  - intros Hin. by apply (M o n).
Qed.

(** What both Set, Unset and Free do first: the job leaves the list. *)
Lemma rep_unlink g l o : group_rep g l -> is_Some (bg_handlers g !! o) ->
  exists jobs nodes,
    (if bool_decide (o ∉ l) then Some (bg_jobs g, bg_nodes g)
     else SLinkedList_Remove (bg_jobs g) (bg_nodes g) o) = Some (jobs, nodes)
    /\ list_rep jobs nodes (job_unset o l) /\ dom nodes = dom (bg_nodes g)
    /\ (forall x n, x <> o -> x ∉ l -> nodes !! x = Some n -> sl_next n = Some x).
Proof.
  intros R Ho. pose proof R as [L _ D M]. destruct (decide (o ∈ l)) as [Hin|Hin].
  - rewrite bool_decide_eq_false_2 by tauto. apply list_elem_of_split in Hin as (l1 & l2 & ->).
    destruct (list_rep_Remove _ _ _ _ _ L) as (jobs & nodes & E & L' & Fr & D').
    exists jobs, nodes. rewrite job_unset_split by apply L. split_and!; try done.
    intros x n Hxo Hx Hn.
    assert (Hd : x ∈ dom (bg_nodes g)) by (rewrite <- D'; by eapply elem_of_dom_2).
    apply elem_of_dom in Hd as [n' Hn']. rewrite (Fr x n') in Hn by (done || set_solver).
    apply (inj Some) in Hn as <-. by apply (M x).
  - rewrite bool_decide_eq_true_2 by done. rewrite job_unset_notin by done.
    eexists _, _. split; [reflexivity|]. split_and!; try done. intros. by apply (M x).
Qed.

Lemma rep_Init : group_rep BPendingGroup_Init [].
Proof. split; [split; [done|apply NoDup_nil_2|done]| | |]; simpl; set_solver. Qed.

Lemma rep_HasJobs g l : group_rep g l -> BPendingGroup_HasJobs g = bool_decide (l <> []).
Proof.
  intros [L _ _ _]. unfold BPendingGroup_HasJobs. rewrite (list_rep_IsEmpty _ _ _ L).
  by destruct l.
Qed.

Lemma rep_SmallInit g l o h : group_rep g l -> o ∉ l -> group_rep (BSmallPending_Init o h g) l.
Proof.
  intros [[F N S] V D M] Ho. split; simpl; [split; [done|done|by apply seg_frame]| | |].
  - intros x Hx. destruct (decide (x = o)) as [->|]; [by rewrite lookup_insert_eq|].
    rewrite lookup_insert_ne by done. auto.
  - by rewrite !dom_insert_L, D.
  - intros x n Hx. destruct (decide (x = o)) as [->|]; [rewrite lookup_insert_eq; by intros [= <-]|].
    rewrite lookup_insert_ne by done. eauto.
Qed.

Lemma rep_SetHandler g l o h : group_rep g l -> is_Some (bg_handlers g !! o) ->
  group_rep (BSmallPending_SetHandler o h g) l.
Proof.
  intros [L V D M] Ho. split; simpl; [done| | |done].
  - intros x Hx. destruct (decide (x = o)) as [->|]; [by rewrite lookup_insert_eq|].
    rewrite lookup_insert_ne by done. auto.
  - rewrite dom_insert_lookup_L by done. done.
Qed.

Lemma rep_Set g l o : group_rep g l -> is_Some (bg_handlers g !! o) ->
  exists g', BSmallPending_Set o g = Some g' /\ group_rep g' (job_set o l)
    /\ bg_handlers g' = bg_handlers g.
Proof.
  intros R Ho. unfold BSmallPending_Set. rewrite (rep_IsRemoved g l o R Ho). simpl.
  destruct (rep_unlink g l o R Ho) as (jobs & nodes & -> & L & D & M). simpl.
  destruct (list_rep_Prepend jobs nodes _ o L) as (jobs' & nodes' & -> & L' & Fr & D').
  { rewrite elem_of_unset. tauto. }
  { apply elem_of_dom. rewrite D, (gr_dom _ _ R). by apply elem_of_dom. }
  simpl. eexists. split; [reflexivity|]. split; [split; simpl|done]; [done| | |].
  - intros x [->|Hx]%elem_of_set; [done|by apply R].
  - by rewrite D', D, (gr_dom _ _ R).
  - intros x n Hx Hn. assert (Hd : x ∈ dom nodes) by (rewrite <- D'; by eapply elem_of_dom_2).
    apply elem_of_dom in Hd as [n' Hn']. rewrite (Fr x n') in Hn by done. apply (inj Some) in Hn as <-.
    rewrite elem_of_set in Hx. apply (M x); tauto.
Qed.

Lemma rep_Unset g l o : group_rep g l -> is_Some (bg_handlers g !! o) ->
  exists g', BSmallPending_Unset o g = Some g' /\ group_rep g' (job_unset o l)
    /\ bg_handlers g' = bg_handlers g.
Proof.
  intros R Ho. unfold BSmallPending_Unset. rewrite (rep_IsRemoved g l o R Ho). simpl.
  destruct (rep_unlink g l o R Ho) as (jobs & nodes & E & L & D & M).
  destruct (bool_decide (o ∉ l)) eqn:B.
  - apply bool_decide_eq_true in B. rewrite job_unset_notin by done. eauto.
  - rewrite E. simpl. unfold SLinkedListMarkRemoved, set_next.
    assert (Hd : o ∈ dom nodes) by (rewrite D, (gr_dom _ _ R); by apply elem_of_dom).
    apply elem_of_dom in Hd as [n Hn]. rewrite Hn. simpl. eexists. split; [reflexivity|].
    split; [split; simpl|done].
    + destruct L as [F N S]. split; [done|done|]. apply seg_frame; [|done]. rewrite elem_of_unset. tauto.
    + intros x [? ?]%elem_of_unset. by apply R.
    + rewrite dom_insert_lookup_L by by eexists. by rewrite D, (gr_dom _ _ R).
    + intros x m Hx. destruct (decide (x = o)) as [->|]; [rewrite lookup_insert_eq; by intros [= <-]|].
      rewrite lookup_insert_ne by done. rewrite elem_of_unset in Hx. apply M; tauto.
Qed.

Lemma rep_Free g l o : group_rep g l -> is_Some (bg_handlers g !! o) ->
  exists g', BSmallPending_Free o g = Some g' /\ group_rep g' (job_unset o l)
    /\ bg_handlers g' = delete o (bg_handlers g).
Proof.
  intros R Ho. unfold BSmallPending_Free. rewrite (rep_IsRemoved g l o R Ho). simpl.
  destruct (rep_unlink g l o R Ho) as (jobs & nodes & -> & L & D & M). simpl.
  eexists. split; [reflexivity|]. split; [split; simpl|done].
  - destruct L as [F N S]. split; [done|done|].
    assert (Hn : o ∉ job_unset o l) by (rewrite elem_of_unset; tauto).
    revert S Hn. clear. generalize (None : option ptr) at 1 3. induction (job_unset o l) as [|x k IH]; [done|].
    intros p (n & Hn & ? & ? & S) Ho. apply not_elem_of_cons in Ho as [? ?].
    exists n. rewrite lookup_delete_ne by done. eauto.
  - intros x [? ?]%elem_of_unset. rewrite lookup_delete_ne by done. by apply R.
  - by rewrite !dom_delete_L, D, (gr_dom _ _ R).
  - intros x n Hx. destruct (decide (x = o)) as [->|]; [by rewrite lookup_delete_eq|].
    rewrite lookup_delete_ne by done. rewrite elem_of_unset in Hx. apply M; tauto.
Qed.

Lemma rep_Execute g o l h : group_rep g (o :: l) -> bg_handlers g !! o = Some h ->
  exists g', BPendingGroup_ExecuteJob g = Some (h, g') /\ group_rep g' l
    /\ bg_handlers g' = bg_handlers g.
Proof.
  intros R Ho. pose proof R as [L V D M]. unfold BPendingGroup_ExecuteJob.
  rewrite (list_rep_IsEmpty _ _ _ L), (list_rep_First _ _ _ L). simpl.
  rewrite (rep_IsRemoved g _ o R) by by eexists. simpl.
  rewrite bool_decide_eq_false_2 by set_solver. simpl.
  destruct (list_rep_RemoveFirst _ _ _ _ L) as (jobs & -> & L'). simpl.
  destruct (proj1 (elem_of_dom (bg_nodes g) o)) as [n Hn]; [rewrite D; by eapply elem_of_dom_2|].
  unfold SLinkedListMarkRemoved, set_next. rewrite Hn. simpl. rewrite Ho. simpl.
  pose proof (lr_nodup _ _ _ L) as [No Nl]%NoDup_cons.
  eexists. split; [reflexivity|]. split; [split; simpl|done].
  - destruct L' as [F N S]. split; [done|done|by apply seg_frame].
  - intros x Hx. apply V. set_solver.
  - rewrite dom_insert_lookup_L by by eexists. done.
  - intros x m Hx. destruct (decide (x = o)) as [->|]; [rewrite lookup_insert_eq; by intros [= <-]|].
    rewrite lookup_insert_ne by done. apply M. set_solver.
Qed.
End BPending.

(** ** Sessions *)

Section Session.
Context {H : Type}.

Inductive pend_op :=
| PInit (o : ptr) (h : H) | PFree (o : ptr) | PSetHandler (o : ptr) (h : H)
| PSet (o : ptr) | PUnset (o : ptr) | PExecute.

(** The group as a stack of jobs with their handlers. *)
Record jobstack := { js_stack : list ptr; js_handlers : gmap ptr H }.

(** One operation on the stack and the handler it calls, if any; [None] when
    the caller breaks the rules of BPending.h: an object initialised twice or
    used outside its life, a job executed when none is pending. *)
Definition stack_step (s : jobstack) (op : pend_op) : option (jobstack * list H) :=
  match op with
  | PInit o h =>
      match js_handlers s !! o with
      | Some _ => None
      | None => Some ({| js_stack := js_stack s; js_handlers := <[o := h]> (js_handlers s) |}, [])
      end
  | PFree o =>
      _ ← js_handlers s !! o;
      Some ({| js_stack := job_unset o (js_stack s); js_handlers := delete o (js_handlers s) |}, [])
  | PSetHandler o h =>
      _ ← js_handlers s !! o;
      Some ({| js_stack := js_stack s; js_handlers := <[o := h]> (js_handlers s) |}, [])
  | PSet o =>
      _ ← js_handlers s !! o;
      Some ({| js_stack := job_set o (js_stack s); js_handlers := js_handlers s |}, [])
  | PUnset o =>
      _ ← js_handlers s !! o;
      Some ({| js_stack := job_unset o (js_stack s); js_handlers := js_handlers s |}, [])
  | PExecute =>
      match js_stack s with
      | [] => None
      | o :: l => h ← js_handlers s !! o;
                  Some ({| js_stack := l; js_handlers := js_handlers s |}, [h])
      end
  end.

Definition pend_step (g : BPendingGroup) (op : pend_op) : option (BPendingGroup * list H) :=
  match op with
  | PInit o h => Some (BSmallPending_Init o h g, [])
  | PFree o => g ← BSmallPending_Free o g; Some (g, [])
  | PSetHandler o h => Some (BSmallPending_SetHandler o h g, [])
  | PSet o => g ← BSmallPending_Set o g; Some (g, [])
  | PUnset o => g ← BSmallPending_Unset o g; Some (g, [])
  | PExecute => '(h, g) ← BPendingGroup_ExecuteJob g; Some (g, [h])
  end.

Fixpoint run {S : Type} (step : S -> pend_op -> option (S * list H)) (s : S) (ops : list pend_op)
    : option (S * list H) :=
  match ops with
  | [] => Some (s, [])
  | op :: ops' =>
      '(s1, t1) ← step s op;
      '(s2, t2) ← run step s1 ops';
      Some (s2, t1 ++ t2)
  end.

Definition group_refines (g : BPendingGroup) (s : jobstack) : Prop :=
  group_rep g (js_stack s) /\ bg_handlers g = js_handlers s.

Lemma pend_step_refines g s op s' t : group_refines g s -> stack_step s op = Some (s', t) ->
  exists g', pend_step g op = Some (g', t) /\ group_refines g' s'.
Proof.
  intros [R E] Hs. destruct op as [o h|o|o h|o|o|]; simpl in Hs |- *; rewrite <- E in Hs.
  - destruct (bg_handlers g !! o) eqn:Ho; [done|]. injection Hs as <- <-.
    eexists. split; [done|]. split; simpl; [|done]. apply rep_SmallInit; [done|].
    intros [? Hx]%(gr_live _ _ R). congruence.
  - destruct (bg_handlers g !! o) eqn:Ho; [|done]. injection Hs as <- <-.
    destruct (rep_Free g _ o R) as (g' & -> & R' & E'); [by eexists|]. eexists. split; [done|].
    split; [done|]. by rewrite E'.
  - destruct (bg_handlers g !! o) eqn:Ho; [|done]. injection Hs as <- <-.
    eexists. split; [done|]. split; [|done]. apply rep_SetHandler; [done|by eexists].
  - destruct (bg_handlers g !! o) eqn:Ho; [|done]. injection Hs as <- <-.
    destruct (rep_Set g _ o R) as (g' & -> & R' & E'); [by eexists|]. eexists. split; [done|].
    split; [done|]. by rewrite E'.
  - destruct (bg_handlers g !! o) eqn:Ho; [|done]. injection Hs as <- <-.
    destruct (rep_Unset g _ o R) as (g' & -> & R' & E'); [by eexists|]. eexists. split; [done|].
    split; [done|]. by rewrite E'.
  - destruct (js_stack s) as [|o l] eqn:El; [done|]. destruct (bg_handlers g !! o) eqn:Ho; [|done].
    injection Hs as <- <-. destruct (rep_Execute g o l _ R Ho) as (g' & -> & R' & E').
    eexists. split; [done|]. split; [done|]. by rewrite E'.
Qed.

End Session.

(** C26. In every session that keeps the rules of BPending.h, from an empty group,
    the linked list of BPending.c faults nowhere and calls the handlers in the
    order of the job stack: the job set last runs first, a job set again moves
    to the front, and an unset or freed job does not run. *)
Theorem BPending_refines_stack {H : Type} (ops : list (@pend_op H)) s t :
  run stack_step {| js_stack := []; js_handlers := ∅ |} ops = Some (s, t) ->
  exists g, run pend_step BPendingGroup_Init ops = Some (g, t)
    /\ BPendingGroup_HasJobs g = bool_decide (js_stack s <> [])
    /\ BPendingGroup_PeekJob g = head (js_stack s)
    /\ (forall o, is_Some (js_handlers s !! o) ->
          BSmallPending_IsSet o g = Some (bool_decide (o ∈ js_stack s))).
Proof.
  intros E. assert (Hr : group_refines (@BPendingGroup_Init H) {| js_stack := []; js_handlers := ∅ |})
    by (split; [apply rep_Init|done]).
  enough (exists g, run pend_step BPendingGroup_Init ops = Some (g, t) /\ group_refines g s)
    as (g & Eg & R & Eh).
  { exists g. split; [done|]. split; [by apply rep_HasJobs|]. split; [by eapply list_rep_First, gr_list|].
    intros o Ho. unfold BSmallPending_IsSet. rewrite (rep_IsRemoved g _ o R) by by rewrite Eh.
    simpl. f_equal. rewrite <- bool_decide_not. apply bool_decide_ext.
    destruct (decide (o ∈ js_stack s)); tauto. }
  revert E Hr. generalize (@BPendingGroup_Init H), {| js_stack := []; js_handlers := (∅ : gmap ptr H) |}.
  revert t. induction ops as [|op ops IH]; intros t g0 s0 E R; simpl in E |- *.
  - injection E as <- <-. eauto.
  - destruct (stack_step s0 op) as [[s1 t1]|] eqn:E1; [simpl in E|done].
    destruct (run stack_step s1 ops) as [[s2 t2]|] eqn:E2; [simpl in E|done]. injection E as <- <-.
    destruct (pend_step_refines g0 s0 op s1 t1 R E1) as (g1 & -> & R1). simpl.
    destruct (IH t2 g1 s1 E2 R1) as (g2 & -> & R2). simpl. eauto.
Qed.

Lemma BPending_refines_stack_witness :
  exists g, run pend_step BPendingGroup_Init
      [PInit 1 10; PInit 2 20; PInit 3 30; PSet 1; PSet 2; PSet 3; PSet 1; PUnset 2; PExecute; PExecute]
      = Some (g, [10; 30])
    /\ BPendingGroup_HasJobs g = false
    /\ BPendingGroup_PeekJob g = None.
Proof.
  destruct (BPending_refines_stack
    [PInit 1 10; PInit 2 20; PInit 3 30; PSet 1; PSet 2; PSet 3; PSet 1; PUnset 2; PExecute; PExecute]
    _ [10; 30] ltac:(vm_compute; reflexivity)) as (g & Eg & Hh & Hp & _).
  exists g. done.
Defined.
