(* ===== verification/ChunkBuffer2.v ===== *)
(** The circular packet buffer: structure/ChunkBuffer2.h.

    The buffer is an array of [int]-sized blocks; a packet occupies a header
    block with its length and as many data blocks as its bytes need.  The model
    keeps the array as its bytes, so headers and packet data alias exactly as
    they do in memory, and keeps every ASSERT of the debug build: [None] is a
    failed ASSERT or an access outside the array.

    The abstract view is a FIFO queue of packets ([cb_rep]); the refinement
    lemmas show that submitting and consuming implement enqueue and dequeue,
    that the ASSERTs never fail, and that the space left is what the client
    needs. *)

From S2P Require Import Prelude ByteOrder.

Record ChunkBuffer2 := {
  buffer : bytes;
  size : Z;
  wrap : Z;
  start : Z;
  used : Z;
  mtu : Z;
  input_dest : option Z;      (* index of a block, NULL as [None] *)
  input_avail : Z;
  output_dest : option Z;
  output_avail : Z }.

Definition sizeof_block : Z := 4.

(** buffer[i].len *)
Definition block_len (buf : bytes) (i : Z) : option Z :=
  p ← mem_read buf (i * sizeof_block) sizeof_block; Some (s32 (load32 p)).
Definition set_block_len (buf : bytes) (i len : Z) : option bytes :=
  mem_write buf (i * sizeof_block) (mem32 (u32 len)).

Definition _ChunkBuffer2_end (b : ChunkBuffer2) : Z :=
  if used b >=? wrap b - start b
  then used b - (wrap b - start b)
  else start b + used b.

Definition _ChunkBuffer2_assert_buffer (b : ChunkBuffer2) : bool :=
  (size b >? 0) && (wrap b >? 0) && (wrap b <=? size b)
  && (start b >=? 0) && (start b <? wrap b)
  && (used b >=? 0) && (used b <=? wrap b)
  && ((wrap b =? size b) || (used b >=? wrap b - start b))
  && (mtu b >=? 0).

(** The number of free blocks after [end], and the input fields computed from
    it, shared by the assertion and the update. *)
Definition free_blocks (b : ChunkBuffer2) : Z :=
  let end_ := _ChunkBuffer2_end b in
  if used b >=? wrap b - start b then start b - end_ else size b - end_.

Definition input_spec (b : ChunkBuffer2) : option Z * Z :=
  let end_ := _ChunkBuffer2_end b in
  if size b - end_ - 1 <? mtu b then (None, -1)
  else if free_blocks b >? 0
  then (Some (end_ + 1), s32 ((free_blocks b - 1) * sizeof_block))
  else (None, -1).

Definition opt_eqb (a b : option Z) : bool :=
  match a, b with
  | Some x, Some y => x =? y
  | None, None => true
  | _, _ => false
  end.

Definition _ChunkBuffer2_assert_io (b : ChunkBuffer2) : option bool :=
  let '(dest, avail) := input_spec b in
  let input_ok := opt_eqb (input_dest b) dest && (input_avail b =? avail) in
  if used b >? 0 then
    datalen ← block_len (buffer b) (start b);
    let blocklen := bdivide_up datalen sizeof_block in
    Some (input_ok && (datalen >=? 0) && (blocklen <=? used b - 1)
          && (blocklen <=? wrap b - start b - 1)
          && opt_eqb (output_dest b) (Some (start b + 1)) && (output_avail b =? datalen))
  else
    Some (input_ok && opt_eqb (output_dest b) None && (output_avail b =? -1)).

Definition set_input (b : ChunkBuffer2) (io : option Z * Z) : ChunkBuffer2 :=
  {| buffer := buffer b; size := size b; wrap := wrap b; start := start b; used := used b;
     mtu := mtu b; input_dest := fst io; input_avail := snd io;
     output_dest := output_dest b; output_avail := output_avail b |}.

Definition set_output (b : ChunkBuffer2) (io : option Z * Z) : ChunkBuffer2 :=
  {| buffer := buffer b; size := size b; wrap := wrap b; start := start b; used := used b;
     mtu := mtu b; input_dest := input_dest b; input_avail := input_avail b;
     output_dest := fst io; output_avail := snd io |}.

Definition set_ring (b : ChunkBuffer2) (buf : bytes) (w s u : Z) : ChunkBuffer2 :=
  {| buffer := buf; size := size b; wrap := w; start := s; used := u; mtu := mtu b;
     input_dest := input_dest b; input_avail := input_avail b;
     output_dest := output_dest b; output_avail := output_avail b |}.

Definition _ChunkBuffer2_update_input (b : ChunkBuffer2) : ChunkBuffer2 :=
  set_input b (input_spec b).

Definition _ChunkBuffer2_update_output (b : ChunkBuffer2) : option ChunkBuffer2 :=
  if used b >? 0 then
    datalen ← block_len (buffer b) (start b);
    ASSERT datalen >=? 0;
    let blocklen := bdivide_up datalen sizeof_block in
    ASSERT blocklen <=? used b - 1;
    ASSERT blocklen <=? wrap b - start b - 1;
    Some (set_output b (Some (start b + 1), datalen))
  else Some (set_output b (None, -1)).

(** -1 on overflow of [int]. *)
Definition ChunkBuffer2_calc_blocks (chunk_len num : Z) : Z :=
  let chunk_data_blocks := bdivide_up chunk_len sizeof_block in
  if chunk_data_blocks >? INT_MAX - 1 then -1 else
  let chunk_blocks := 1 + chunk_data_blocks in
  if num >? INT_MAX - 1 then -1 else
  let num_chunks := num + 1 in
  if chunk_blocks >? INT_MAX / num_chunks then -1 else
  chunk_blocks * num_chunks.

Definition ChunkBuffer2_Init (mem : bytes) (blocks mtu_bytes : Z) : option ChunkBuffer2 :=
  ASSERT blocks >? 0;
  ASSERT mtu_bytes >=? 0;
  let b := {| buffer := mem; size := blocks; wrap := blocks; start := 0; used := 0;
              mtu := bdivide_up mtu_bytes sizeof_block;
              input_dest := None; input_avail := 0; output_dest := None; output_avail := 0 |} in
  ASSERT _ChunkBuffer2_assert_buffer b;
  let b := _ChunkBuffer2_update_input b in
  b ← _ChunkBuffer2_update_output b;
  ok ← _ChunkBuffer2_assert_io b;
  ASSERT ok;
  Some b.

Definition ChunkBuffer2_SubmitPacket (b : ChunkBuffer2) (len : Z) : option ChunkBuffer2 :=
  ASSERT negb (opt_eqb (input_dest b) None);
  ASSERT len >=? 0;
  ASSERT len <=? input_avail b;
  ASSERT _ChunkBuffer2_assert_buffer b;
  ok ← _ChunkBuffer2_assert_io b;
  ASSERT ok;
  let end_ := _ChunkBuffer2_end b in
  let blocklen := bdivide_up len sizeof_block in
  ASSERT blocklen <=? size b - end_ - 1;
  ASSERT (used b <? wrap b - start b) || (blocklen <=? start b - end_ - 1);
  buf ← set_block_len (buffer b) end_ len;
  let u := used b + (1 + blocklen) in
  let w := if (u <=? wrap b - start b) && (mtu b >? size b - (end_ + 1 + blocklen) - 1)
           then end_ + 1 + blocklen else wrap b in
  let b := set_ring b buf w (start b) u in
  ASSERT _ChunkBuffer2_assert_buffer b;
  let b := _ChunkBuffer2_update_input b in
  b ← (if used b =? 1 + blocklen then _ChunkBuffer2_update_output b else Some b);
  ok ← _ChunkBuffer2_assert_io b;
  ASSERT ok;
  Some b.

Definition ChunkBuffer2_ConsumePacket (b : ChunkBuffer2) : option ChunkBuffer2 :=
  ASSERT negb (opt_eqb (output_dest b) None);
  ASSERT _ChunkBuffer2_assert_buffer b;
  ok ← _ChunkBuffer2_assert_io b;
  ASSERT ok;
  ASSERT 1 <=? wrap b - start b;
  ASSERT 1 <=? used b;
  len ← block_len (buffer b) (start b);
  let blocklen := bdivide_up len sizeof_block in
  ASSERT blocklen <=? wrap b - start b - 1;
  ASSERT blocklen <=? used b - 1;
  let data_wrapped := used b >=? wrap b - start b in
  let s := start b + (1 + blocklen) in
  let u := used b - (1 + blocklen) in
  let '(s, w) := if s =? wrap b then (0, size b) else (s, wrap b) in
  let b := set_ring b (buffer b) w s u in
  ASSERT _ChunkBuffer2_assert_buffer b;
  let b := if data_wrapped then _ChunkBuffer2_update_input b else b in
  b ← _ChunkBuffer2_update_output b;
  ok ← _ChunkBuffer2_assert_io b;
  ASSERT ok;
  Some b.

(** The client's part of a submission: the packet bytes are written at
    [input_dest] before SubmitPacket is called with their number. *)
Definition write_input (b : ChunkBuffer2) (p : bytes) : option ChunkBuffer2 :=
  dest ← input_dest b;
  buf ← mem_write (buffer b) (dest * sizeof_block) p;
  Some (set_ring b buf (wrap b) (start b) (used b)).

(** What the client reads: [output_avail] bytes at [output_dest]. *)
Definition read_output (b : ChunkBuffer2) : option bytes :=
  src ← output_dest b;
  mem_read (buffer b) (src * sizeof_block) (output_avail b).

(** * The representation relation *)

(** Data blocks of a packet. *)
Definition nblocks (p : bytes) : Z := bdivide_up (blen p) sizeof_block.

(** The last block at which a header may be placed so that a packet of MTU
    length still fits before the end of the array. *)
Definition last_start (b : ChunkBuffer2) : Z := size b - 1 - mtu b.

(** [chunks buf lim pos q e]: the packets of [q] lie one after the other in
    [buf] from block [pos] to block [e], every header at or before [lim]. *)
Fixpoint chunks (buf : bytes) (lim pos : Z) (q : list bytes) (e : Z) : Prop :=
  match q with
  | [] => pos = e
  | p :: q' =>
      0 <= pos <= lim /\ block_len buf pos = Some (blen p)
      /\ mem_read buf ((pos + 1) * sizeof_block) (blen p) = Some p
      /\ chunks buf lim (pos + (1 + nblocks p)) q' e
  end.

(** The queue occupies one run of blocks, or a run up to [wrap] followed by a
    run from block 0. *)
Inductive layout (b : ChunkBuffer2) : list bytes -> Prop :=
| layout_straight q :
    used b < wrap b - start b -> wrap b = size b -> 0 <= start b -> 0 <= used b ->
    start b + used b <= last_start b ->
    chunks (buffer b) (last_start b) (start b) q (start b + used b) ->
    layout b q
| layout_wrapped q1 q2 :
    wrap b - start b <= used b -> 0 <= start b < wrap b -> wrap b <= size b ->
    size b - wrap b <= mtu b -> used b - (wrap b - start b) <= start b ->
    chunks (buffer b) (last_start b) (start b) q1 (wrap b) ->
    chunks (buffer b) (last_start b) 0 q2 (used b - (wrap b - start b)) ->
    layout b (q1 ++ q2).

Definition output_spec (b : ChunkBuffer2) (q : list bytes) : option Z * Z :=
  match q with
  | [] => (None, -1)
  | p :: _ => (Some (start b + 1), blen p)
  end.

Record cb_geometry (b : ChunkBuffer2) : Prop := {
  geo_bytes : size b * sizeof_block <= INT_MAX;
  geo_mem : blen (buffer b) = size b * sizeof_block;
  geo_mtu : 0 <= mtu b;
  geo_room : mtu b + 1 <= size b }.

Record cb_rep (b : ChunkBuffer2) (q : list bytes) : Prop := {
  rep_geo : cb_geometry b;
  rep_layout : layout b q;
  rep_input : (input_dest b, input_avail b) = input_spec b;
  rep_output : (output_dest b, output_avail b) = output_spec b q }.

(** ** Runs of chunks *)

Lemma nblocks_eq p : nblocks p = (blen p + 3) / 4.
Proof. apply bdivide_up_4, blen_nonneg. Qed.

Lemma nblocks_bounds p : 0 <= nblocks p /\ 4 * nblocks p - 3 <= blen p <= 4 * nblocks p.
Proof. pose proof (blen_nonneg p). rewrite nblocks_eq. dlia. Qed.

Lemma chunks_le buf lim pos q e : chunks buf lim pos q e -> pos <= e.
Proof.
  revert pos. induction q as [|p q IH]; simpl; intros pos; [lia|].
  intros (_ & _ & _ & H). apply IH in H. pose proof (nblocks_bounds p). lia.
Qed.

Lemma chunks_app buf lim pos q1 m q2 e : chunks buf lim pos q1 m -> chunks buf lim m q2 e ->
  chunks buf lim pos (q1 ++ q2) e.
Proof.
  revert pos. induction q1 as [|p q1 IH]; simpl; intros pos; [by intros ->|].
  intros (? & ? & ? & ?) ?. eauto.
Qed.

(** A store outside a run leaves it as it is. *)
Lemma chunks_write buf off d buf' lim pos q e : mem_write buf off d = Some buf' ->
  e * sizeof_block <= off \/ off + blen d <= pos * sizeof_block ->
  chunks buf lim pos q e -> chunks buf' lim pos q e.
Proof.
  intros W. unfold sizeof_block. revert pos. induction q as [|p q IH]; intros pos D; [done|].
  cbn [chunks]. intros (B & L & R & H). pose proof (chunks_le _ _ _ _ _ H).
  pose proof (nblocks_bounds p). unfold sizeof_block in *.
  assert (D' : e * 4 <= off \/ off + blen d <= (pos + (1 + nblocks p)) * 4) by lia.
  repeat split; try lia; [| |by apply IH].
  - unfold block_len, sizeof_block in *. by rewrite (mem_read_write_disjoint _ _ _ _ _ _ W) by lia.
  - rewrite (mem_read_write_disjoint _ _ _ _ _ _ W) by lia. done.
Qed.

(** The number of blocks of a run. *)
Fixpoint blocks_of (q : list bytes) : Z :=
  match q with [] => 0 | p :: q' => 1 + nblocks p + blocks_of q' end.

Lemma blocks_of_app q1 q2 : blocks_of (q1 ++ q2) = blocks_of q1 + blocks_of q2.
Proof. induction q1 as [|p q1 IH]; simpl; lia. Qed.

Lemma chunks_blocks buf lim pos q e : chunks buf lim pos q e -> e = pos + blocks_of q.
Proof.
  revert pos. induction q as [|p q IH]; simpl; intros pos; [lia|].
  intros (_ & _ & _ & H). apply IH in H. lia.
Qed.

(** ** Consequences of the layout *)

Section Layout.
Context (b : ChunkBuffer2) (q : list bytes) (G : cb_geometry b) (L : layout b q).

Lemma layout_end : 0 <= _ChunkBuffer2_end b <= last_start b.
Proof.
  unfold _ChunkBuffer2_end. zbool. destruct G. inversion L as [? H1 H2 H3 H4 H5 H6|q1 q2 H1 H2 H3 H4 H5 H6 H7]; subst.
  - ztest; lia.
  - destruct q1 as [|p q1]; [simpl in H6; lia|]. destruct H6 as (? & _). ztest; lia.
Qed.

Lemma layout_used : used b = blocks_of q.
Proof.
  inversion L as [? H1 H2 H3 H4 H5 H6|q1 q2 H1 H2 H3 H4 H5 H6 H7]; subst.
  - apply chunks_blocks in H6. lia.
  - rewrite blocks_of_app. apply chunks_blocks in H6, H7. lia.
Qed.

Lemma blocks_of_nonneg q' : 0 <= blocks_of q'.
Proof. induction q' as [|p q' IH]; simpl; [lia|]. pose proof (nblocks_bounds p). lia. Qed.

Lemma layout_assert_buffer : _ChunkBuffer2_assert_buffer b = true.
Proof.
  unfold _ChunkBuffer2_assert_buffer. zbool. destruct G. unfold last_start in *.
  inversion L as [? H1 H2 H3 H4 H5 H6|q1 q2 H1 H2 H3 H4 H5 H6 H7]; subst;
    apply chunks_le in H6; [|apply chunks_le in H7]; repeat (ztest; try lia); done.
Qed.

Lemma layout_start_wrap : 0 <= start b < wrap b /\ wrap b <= size b /\ 0 <= used b.
Proof.
  destruct G. inversion L as [? H1 H2 H3 H4 H5 H6|q1 q2 H1 H2 H3 H4 H5 H6 H7]; subst; lia.
Qed.

Lemma layout_input : input_spec b
  = if free_blocks b >? 0
    then (Some (_ChunkBuffer2_end b + 1), (free_blocks b - 1) * sizeof_block) else (None, -1).
Proof.
  unfold input_spec. pose proof layout_end as E. unfold last_start in E. destruct G.
  zbool. zdecide. ztest; [|done]. f_equal. apply s32_small. split; [unfold sizeof_block in *; lia|].
  unfold free_blocks, _ChunkBuffer2_end, sizeof_block in *. pose proof layout_start_wrap.
  revert E. zbool. ztest; lia.
Qed.

Lemma layout_free : 0 <= free_blocks b /\ _ChunkBuffer2_end b + free_blocks b <= size b.
Proof.
  pose proof layout_end as E. unfold free_blocks, last_start, _ChunkBuffer2_end in *. destruct G.
  pose proof layout_start_wrap. revert E. zbool.
  inversion L as [? H1 H2 H3 H4 H5 H6|q1 q2 H1 H2 H3 H4 H5 H6 H7]; subst; ztest; lia.
Qed.
End Layout.

Lemma layout_head b p q : cb_geometry b -> layout b (p :: q) ->
  block_len (buffer b) (start b) = Some (blen p)
  /\ mem_read (buffer b) ((start b + 1) * sizeof_block) (blen p) = Some p
  /\ 1 + nblocks p <= used b /\ 1 + nblocks p <= wrap b - start b.
Proof.
  intros G L. pose proof (layout_used b _ L) as U. simpl in U.
  pose proof (blocks_of_nonneg q). destruct G. remember (p :: q) as q0 eqn:E.
  destruct L as [? H1 H2 H3 H4 H5 H6|q1 q2 H1 H2 H3 H4 H5 H6 H7].
  - subst q0. destruct H6 as (? & ? & ? & H6). apply chunks_le in H6. repeat split; [done|done|lia|lia].
  - destruct q1 as [|p1 q1]; [simpl in H6; lia|]. injection E as -> <-.
    destruct H6 as (? & ? & ? & H6). apply chunks_le in H6. repeat split; [done|done|lia|lia].
Qed.

Lemma opt_eqb_refl o : opt_eqb o o = true.
Proof. destruct o; simpl; [apply Z.eqb_refl|done]. Qed.

(** Under the representation relation the I/O assertion holds. *)
Lemma rep_assert_io b q : cb_rep b q -> _ChunkBuffer2_assert_io b = Some true.
Proof.
  intros [G L I O]. unfold _ChunkBuffer2_assert_io. rewrite <- I.
  rewrite opt_eqb_refl, Z.eqb_refl. pose proof (layout_used b q L) as U.
  destruct q as [|p q]; simpl in O; injection O as Od Oa; rewrite Od, Oa.
  - simpl in U. rewrite U. done.
  - destruct (layout_head b p q G L) as (HL & _ & U1 & U2). pose proof (nblocks_bounds p).
    zbool. zdecide. rewrite HL. cbn [mbind option_bind]. fold (nblocks p).
    pose proof (blen_nonneg p). simpl. rewrite !Z.eqb_refl.
    zbool. zdecide. done.
Qed.

(** ** Submission *)

(** A store into the free blocks after [end] leaves the queue as it is. *)
Lemma layout_write b q off d buf' : layout b q ->
  mem_write (buffer b) off d = Some buf' -> _ChunkBuffer2_end b * sizeof_block <= off ->
  off + blen d <= (_ChunkBuffer2_end b + free_blocks b) * sizeof_block ->
  layout (set_ring b buf' (wrap b) (start b) (used b)) q.
Proof.
  intros L W. unfold free_blocks, _ChunkBuffer2_end. zbool. intros Lo Hi.
  destruct L as [q H1 H2 H3 H4 H5 H6|q1 q2 H1 H2 H3 H4 H5 H6 H7].
  - apply layout_straight; simpl; try done. revert Lo. ztest; [lia|]. intros Lo.
    eapply chunks_write; [exact W| |exact H6]. by left.
  - revert Lo Hi. ztest; [|lia]. intros Lo Hi.
    apply layout_wrapped; simpl; try done; (eapply chunks_write; [exact W| |eassumption]).
    + right. etransitivity; [exact Hi|]. unfold sizeof_block. lia.
    + by left.
Qed.

(** Where the ring stands after a packet of [n] data blocks is added. *)
Definition submit_wrap (b : ChunkBuffer2) (n : Z) : Z :=
  let end_ := _ChunkBuffer2_end b in
  if (used b + (1 + n) <=? wrap b - start b) && (mtu b >? size b - (end_ + 1 + n) - 1)
  then end_ + 1 + n else wrap b.

(** With its header and bytes in place after [end], a packet that fits the
    free blocks joins the queue. *)
Lemma layout_submit b q p : cb_geometry b -> layout b q ->
  1 + nblocks p <= free_blocks b ->
  block_len (buffer b) (_ChunkBuffer2_end b) = Some (blen p) ->
  mem_read (buffer b) ((_ChunkBuffer2_end b + 1) * sizeof_block) (blen p) = Some p ->
  layout (set_ring b (buffer b) (submit_wrap b (nblocks p)) (start b) (used b + (1 + nblocks p)))
         (q ++ [p]).
Proof.
  intros G L F HL HR. pose proof (layout_end b q G L) as E. pose proof (nblocks_bounds p).
  assert (C : chunks (buffer b) (last_start b) (_ChunkBuffer2_end b) [p]
                (_ChunkBuffer2_end b + (1 + nblocks p))) by (simpl; repeat split; try done; lia).
  pose proof (geo_mtu b G). unfold submit_wrap. unfold free_blocks in F. unfold _ChunkBuffer2_end in *.
  revert F HL HR E C. zbool. unfold last_start in *.
  destruct L as [q H1 H2 H3 H4 H5 H6|q1 q2 H1 H2 H3 H4 H5 H6 H7];
    ztest; try lia; intros F HL HR E C.
  - destruct ((_ <=? _) && (_ <? _)) eqn:T; zbool.
    + rewrite <- (app_nil_r (q ++ [p])). apply layout_wrapped; simpl; try lia.
      eapply chunks_app; [exact H6|].
      replace (start b + used b + 1 + nblocks p) with (start b + used b + (1 + nblocks p)) by lia.
      exact C.
    + assert (mtu b <= size b - (start b + used b + 1 + nblocks p) - 1) by (destruct T; zbool; lia).
      apply layout_straight; simpl; try lia. 1: unfold last_start; simpl; lia.
      eapply chunks_app; [exact H6|].
      replace (start b + (used b + (1 + nblocks p))) with (start b + used b + (1 + nblocks p)) by lia.
      exact C.
  - zdecide. rewrite <- app_assoc. apply layout_wrapped; simpl; try lia; try done.
    eapply chunks_app; [exact H7|].
    replace (used b + (1 + nblocks p) - (wrap b - start b))
      with (used b - (wrap b - start b) + (1 + nblocks p)) by lia.
    exact C.
Qed.

(** The layout does not depend on the cached input and output fields. *)
Lemma layout_set_input b io q : layout b q -> layout (set_input b io) q.
Proof.
  destruct 1 as [q H1 H2 H3 H4 H5 H6|q1 q2 H1 H2 H3 H4 H5 H6 H7].
  - by apply layout_straight.
  - by apply layout_wrapped.
Qed.
Lemma layout_set_output b io q : layout b q -> layout (set_output b io) q.
Proof.
  destruct 1 as [q H1 H2 H3 H4 H5 H6|q1 q2 H1 H2 H3 H4 H5 H6 H7].
  - by apply layout_straight.
  - by apply layout_wrapped.
Qed.

Lemma update_output_spec b q : cb_geometry b -> layout b q ->
  _ChunkBuffer2_update_output b = Some (set_output b (output_spec b q)).
Proof.
  intros G L. unfold _ChunkBuffer2_update_output. pose proof (layout_used b q L) as U.
  destruct q as [|p q]; [simpl in U; by rewrite U|].
  destruct (layout_head b p q G L) as (HL & _ & U1 & U2).
  pose proof (nblocks_bounds p). pose proof (blen_nonneg p).
  zbool. zdecide. rewrite HL. cbn [mbind option_bind]. fold (nblocks p). zbool. zdecide. done.
Qed.

(** The fields that the operations never change. *)
Definition same_shape (b b' : ChunkBuffer2) : Prop := size b' = size b /\ mtu b' = mtu b.

Lemma same_shape_trans b1 b2 b3 : same_shape b1 b2 -> same_shape b2 b3 -> same_shape b1 b3.
Proof. intros [] []. split; congruence. Qed.

Lemma block_len_set buf i len buf' : 0 <= len <= INT_MAX ->
  set_block_len buf i len = Some buf' -> block_len buf' i = Some len.
Proof.
  intros ? W. unfold block_len. apply mem_read_write_same in W.
  rewrite write_le32_length in W. unfold sizeof_block at 2. rewrite W. cbn [mbind option_bind].
  f_equal. rewrite <- (app_nil_r (mem32 _)), load32_mem32 by apply u32_range. unfold INT_MAX in *.
  rewrite u32_small by lia. apply s32_small. unfold INT_MAX. lia.
Qed.

Lemma geometry_set_ring b buf w s u : cb_geometry b -> blen buf = blen (buffer b) ->
  cb_geometry (set_ring b buf w s u).
Proof. intros [] E. split; simpl; try done. by rewrite E. Qed.

(** The input fields of a buffer that accepts a packet. *)
Lemma rep_input_some b q d : cb_rep b q -> input_dest b = Some d ->
  d = _ChunkBuffer2_end b + 1 /\ 0 < free_blocks b
  /\ input_avail b = (free_blocks b - 1) * sizeof_block.
Proof.
  intros [G L I O] D. rewrite (layout_input b q G L), D in I. revert I. zbool.
  destruct (Z.ltb_spec 0 (free_blocks b)); intros I; [|done].
  apply (inj2 pair) in I as [I ->]. apply (inj Some) in I. done.
Qed.

Lemma rep_avail_dest b q : cb_rep b q -> 0 <= input_avail b -> exists d, input_dest b = Some d.
Proof.
  intros [G L I O] A. rewrite (layout_input b q G L) in I. revert I. zbool. ztest; intros I; simplify_eq; [eauto|lia].
Qed.

(** A store into the bytes offered at [input_dest] leaves the queue as it is. *)
Lemma rep_write_free b q d off data : cb_rep b q -> input_dest b = Some d ->
  d * sizeof_block <= off -> off + blen data <= d * sizeof_block + input_avail b ->
  exists buf, mem_write (buffer b) off data = Some buf
    /\ cb_rep (set_ring b buf (wrap b) (start b) (used b)) q.
Proof.
  intros R D Lo Hi. pose proof R as [G L I O].
  destruct (rep_input_some b q d R D) as (-> & F & Av).
  pose proof (layout_end b q G L). destruct (layout_free b q G L) as [_ Fr]. pose proof G as [_ M _ _].
  destruct (mem_write_some (buffer b) off data) as (buf & W & Wl); [unfold sizeof_block in *; lia..|].
  exists buf. split; [done|]. split; [by apply geometry_set_ring| |exact I|exact O].
  eapply layout_write; [exact L|exact W| |]; unfold sizeof_block in *; lia.
Qed.

Lemma write_input_rep b q p d : cb_rep b q -> input_dest b = Some d ->
  blen p <= input_avail b ->
  exists b', write_input b p = Some b' /\ cb_rep b' q /\ same_shape b b'
    /\ input_dest b' = Some d /\ input_avail b' = input_avail b
    /\ mem_read (buffer b') (d * sizeof_block) (blen p) = Some p.
Proof.
  intros R D A. destruct (rep_write_free b q d (d * sizeof_block) p R D) as (buf & W & R'); [lia..|].
  eexists. unfold write_input. rewrite D. cbn [mbind option_bind]. rewrite W.
  repeat (split; [done|]). simpl. by apply mem_read_write_same in W.
Qed.

(** Once the input and output fields are recomputed, a laid out queue is
    represented. *)
Lemma rep_update b q : cb_geometry b -> layout b q ->
  cb_rep (set_output (set_input b (input_spec b)) (output_spec b q)) q.
Proof.
  intros G L. split; [by destruct G; split|by apply layout_set_output, layout_set_input| |].
  - symmetry. apply surjective_pairing.
  - symmetry. destruct q; apply surjective_pairing.
Qed.

Lemma submit_room b n : 1 + n <= free_blocks b ->
  (used b <? wrap b - start b) || (n <=? start b - _ChunkBuffer2_end b - 1) = true.
Proof.
  unfold free_blocks. zbool. destruct (Z.leb_spec (wrap b - start b) (used b)); intros; zdecide; done.
Qed.

(** Storing the header of a packet whose bytes follow [end] adds the packet. *)
Lemma header_layout b q p : cb_geometry b -> layout b q -> nblocks p <= free_blocks b - 1 ->
  mem_read (buffer b) ((_ChunkBuffer2_end b + 1) * sizeof_block) (blen p) = Some p ->
  exists buf, set_block_len (buffer b) (_ChunkBuffer2_end b) (blen p) = Some buf
    /\ blen buf = blen (buffer b)
    /\ layout (set_ring b buf (submit_wrap b (nblocks p)) (start b) (used b + (1 + nblocks p)))
              (q ++ [p]).
Proof.
  intros G L N Hp. pose proof (layout_end b q G L) as E. destruct (layout_free b q G L) as [_ Fr].
  pose proof (geo_mem b G) as M. pose proof (geo_bytes b G) as SB.
  pose proof (nblocks_bounds p). pose proof (blen_nonneg p).
  destruct (mem_write_some (buffer b) (_ChunkBuffer2_end b * sizeof_block) (mem32 (u32 (blen p))))
    as (buf & W & Wl); [unfold sizeof_block in *; rewrite ?write_le32_length; lia..|].
  exists buf. split; [exact W|]. split; [exact Wl|].
  pose (b1 := set_ring b buf (wrap b) (start b) (used b)).
  assert (G1 : cb_geometry b1) by by apply geometry_set_ring.
  assert (L1 : layout b1 q).
  { eapply layout_write; [exact L|exact W| |]; rewrite ?write_le32_length; unfold sizeof_block; lia. }
  apply (layout_submit b1 q p G1 L1).
  - change (free_blocks b1) with (free_blocks b). lia.
  - apply (block_len_set (buffer b)); [unfold sizeof_block in *; lia|exact W].
  - simpl. rewrite (mem_read_write_disjoint _ _ _ _ _ _ W); [exact Hp|].
    rewrite write_le32_length. change (_ChunkBuffer2_end b1) with (_ChunkBuffer2_end b).
    unfold sizeof_block. lia.
Qed.

(** SubmitPacket with the packet in place appends it. *)
Lemma SubmitPacket_rep b q p d : cb_rep b q -> input_dest b = Some d ->
  blen p <= input_avail b -> mem_read (buffer b) (d * sizeof_block) (blen p) = Some p ->
  exists b', ChunkBuffer2_SubmitPacket b (blen p) = Some b' /\ cb_rep b' (q ++ [p]) /\ same_shape b b'
    /\ start b' = start b.
Proof.
  intros R D A Hp. pose proof R as [G L I O]. destruct (rep_input_some b q d R D) as (-> & F & Av).
  pose proof (layout_end b q G L) as E. destruct (layout_free b q G L) as [_ Fr].
  pose proof (nblocks_bounds p). pose proof (blen_nonneg p).
  assert (N : nblocks p <= free_blocks b - 1) by (unfold sizeof_block in *; lia).
  destruct (header_layout b q p G L N Hp) as (buf & W & Wl & L2).
  pose (b2 := set_ring b buf (submit_wrap b (nblocks p)) (start b) (used b + (1 + nblocks p))).
  assert (G2 : cb_geometry b2) by by apply geometry_set_ring.
  exists (set_output (set_input b2 (input_spec b2)) (output_spec b2 (q ++ [p]))).
  pose proof (rep_update b2 _ G2 L2) as R3. split; [|done].
  assert (Ou : (if used b2 =? 1 + nblocks p then _ChunkBuffer2_update_output (set_input b2 (input_spec b2))
                else Some (set_input b2 (input_spec b2)))
               = Some (set_output (set_input b2 (input_spec b2)) (output_spec b2 (q ++ [p])))).
  { ztest.
    - rewrite (update_output_spec _ (q ++ [p])); [done|by destruct G2; split|by apply layout_set_input].
    - simpl in *. destruct q as [|p0 q]; [pose proof (layout_used b _ L) as U; simpl in U; lia|].
      simpl in O |- *. by rewrite <- O. }
  unfold ChunkBuffer2_SubmitPacket. rewrite D. cbn [opt_eqb negb].
  rewrite (layout_assert_buffer b q G L), (rep_assert_io b q R). cbn [mbind option_bind].
  fold (nblocks p). zbool. zdecide. rewrite submit_room by lia.
  rewrite W. cbn [mbind option_bind]. rewrite <- !Z.gtb_ltb.
  fold (submit_wrap b (nblocks p)). fold b2. rewrite (layout_assert_buffer b2 _ G2 L2).
  unfold _ChunkBuffer2_update_input.
  change (used (set_input b2 (input_spec b2))) with (used b2). rewrite Ou. cbn [mbind option_bind].
  by rewrite (rep_assert_io _ _ R3).
Qed.

(** ** Consumption *)

(** The first packet's blocks leave the ring; when they end at [wrap] the
    queue restarts at block 0 and the whole array is usable again. *)
Lemma layout_consume b p q : cb_geometry b -> layout b (p :: q) ->
  let s := start b + (1 + nblocks p) in
  let '(s, w) := if s =? wrap b then (0, size b) else (s, wrap b) in
  layout (set_ring b (buffer b) w s (used b - (1 + nblocks p))) q.
Proof.
  intros G L. pose proof (nblocks_bounds p). pose proof (layout_end b _ G L) as E.
  pose proof (layout_used b _ L) as U. simpl in U. pose proof (blocks_of_nonneg q).
  unfold _ChunkBuffer2_end in E. revert E. zbool.
  destruct G. cbv zeta. remember (p :: q) as q0 eqn:Q.
  destruct L as [q0 H1 H2 H3 H4 H5 H6|q1 q2 H1 H2 H3 H4 H5 H6 H7]; intros E.
  - subst q0. destruct H6 as (? & ? & ? & H6). pose proof (chunks_le _ _ _ _ _ H6).
    destruct (Z.eqb_spec (start b + (1 + nblocks p)) (wrap b)); [lia|].
    apply layout_straight; simpl; try lia; unfold last_start in *; simpl; try lia.
    by replace (start b + (1 + nblocks p) + (used b - (1 + nblocks p))) with (start b + used b) by lia.
  - destruct q1 as [|p1 q1]; [simpl in H6; lia|]. injection Q as -> <-.
    destruct H6 as (? & ? & ? & H6). pose proof (chunks_le _ _ _ _ _ H6).
    revert E. ztest; [|lia]. intros E.
    destruct (Z.eqb_spec (start b + (1 + nblocks p)) (wrap b)) as [Ew|].
    + rewrite Ew in H6. destruct q1 as [|p1 q1].
      * apply layout_straight; simpl; unfold last_start in *; simpl; try lia.
        replace (0 + (used b - (1 + nblocks p))) with (used b - (wrap b - start b)) by lia. done.
      * exfalso. apply chunks_blocks in H6. simpl in H6. pose proof (nblocks_bounds p1).
        pose proof (blocks_of_nonneg q1). lia.
    + apply layout_wrapped; simpl; try lia; [done|].
      replace (used b - (1 + nblocks p) - (wrap b - (start b + (1 + nblocks p))))
        with (used b - (wrap b - start b)) by lia. done.
Qed.

(** Without wrapped data the free blocks follow the last packet, and consuming
    the first one does not change them. *)
Lemma consume_keeps_input b p q : cb_geometry b -> layout b (p :: q) -> used b < wrap b - start b ->
  let s := start b + (1 + nblocks p) in
  let '(s, w) := if s =? wrap b then (0, size b) else (s, wrap b) in
  input_spec (set_ring b (buffer b) w s (used b - (1 + nblocks p))) = input_spec b.
Proof.
  intros G L U. destruct (layout_head b p q G L) as (_ & _ & U1 & U2). cbv zeta.
  destruct (Z.eqb_spec (start b + (1 + nblocks p)) (wrap b)); [lia|].
  unfold input_spec, free_blocks, _ChunkBuffer2_end. simpl. zbool.
  rewrite (proj2 (Z.leb_gt (wrap b - start b) (used b))) by lia.
  rewrite (proj2 (Z.leb_gt (wrap b - (start b + (1 + nblocks p))) (used b - (1 + nblocks p)))) by lia.
  by replace (start b + (1 + nblocks p) + (used b - (1 + nblocks p))) with (start b + used b) by lia.
Qed.

(** Consuming never moves the place of the next packet nor takes room away. *)
Lemma consume_end b p q : cb_geometry b -> layout b (p :: q) ->
  let s := start b + (1 + nblocks p) in
  let '(s, w) := if s =? wrap b then (0, size b) else (s, wrap b) in
  let b' := set_ring b (buffer b) w s (used b - (1 + nblocks p)) in
  _ChunkBuffer2_end b' = _ChunkBuffer2_end b /\ free_blocks b <= free_blocks b'.
Proof.
  intros G L. destruct (layout_head b p q G L) as (_ & _ & U1 & U2).
  pose proof (layout_start_wrap b _ G L). pose proof (nblocks_bounds p).
  pose proof (layout_end b _ G L) as E. destruct G. cbv zeta.
  assert (X : used b < wrap b - start b -> wrap b = size b)
    by (inversion L; subst; lia).
  unfold free_blocks, _ChunkBuffer2_end, last_start in *. revert E. zbool.
  destruct (Z.eqb_spec (start b + (1 + nblocks p)) (wrap b)); simpl;
    zbool; repeat (ztest; try lia).
Qed.

Lemma ConsumePacket_rep b p q : cb_rep b (p :: q) ->
  exists b', ChunkBuffer2_ConsumePacket b = Some b' /\ cb_rep b' q /\ same_shape b b'
    /\ buffer b' = buffer b /\ _ChunkBuffer2_end b' = _ChunkBuffer2_end b
    /\ free_blocks b <= free_blocks b'.
Proof.
  intros R. pose proof R as [G L I O]. destruct (layout_head b p q G L) as (HL & HR & U1 & U2).
  pose proof (nblocks_bounds p). pose proof (layout_consume b p q G L) as L'.
  pose proof (consume_keeps_input b p q G L) as K. pose proof (consume_end b p q G L) as CE.
  simpl in L', K, CE.
  unfold ChunkBuffer2_ConsumePacket. simpl in O. apply (inj2 pair) in O as [Od Oa]. rewrite Od.
  cbn [opt_eqb negb]. rewrite (layout_assert_buffer b _ G L), (rep_assert_io b _ R).
  cbn [mbind option_bind]. rewrite HL. cbn [mbind option_bind]. fold (nblocks p).
  zbool. zdecide. destruct (if _ =? wrap b then (0, size b) else _) as [s w].
  set (b1 := set_ring b (buffer b) w s (used b - (1 + nblocks p))) in *.
  assert (G1 : cb_geometry b1) by by apply geometry_set_ring.
  rewrite (layout_assert_buffer b1 q G1 L').
  assert (E : (if wrap b - start b <=? used b then _ChunkBuffer2_update_input b1 else b1)
              = set_input b1 (input_spec b1)).
  { destruct (Z.leb_spec (wrap b - start b) (used b)); [done|]. rewrite K by lia. by rewrite <- I. }
  rewrite E, (update_output_spec _ q); [|by destruct G1; split|by apply layout_set_input].
  cbn [mbind option_bind]. pose proof (rep_update b1 q G1 L') as R'.
  change (output_spec (set_input b1 (input_spec b1)) q) with (output_spec b1 q).
  rewrite (rep_assert_io _ _ R'). eexists. split; [reflexivity|]. done.
Qed.

(** ** Initialisation and capacity *)

Lemma Init_rep mem blocks m : 0 <= m -> bdivide_up m sizeof_block + 1 <= blocks ->
  blocks * sizeof_block <= INT_MAX -> blen mem = blocks * sizeof_block ->
  exists b, ChunkBuffer2_Init mem blocks m = Some b /\ cb_rep b [] /\ size b = blocks
    /\ mtu b = bdivide_up m sizeof_block.
Proof.
  intros Hm Hr Hs Hl. unfold ChunkBuffer2_Init. rewrite bdivide_up_4 in * by done.
  assert (0 <= (m + 3) / 4) by dlia. zbool. zdecide.
  match goal with |- context [_ChunkBuffer2_assert_buffer ?x] => set (b0 := x) end.
  assert (G0 : cb_geometry b0) by (split; simpl; unfold sizeof_block in *; lia).
  assert (L0 : layout b0 []).
  { apply layout_straight; simpl; unfold last_start; simpl; lia. }
  rewrite (layout_assert_buffer b0 _ G0 L0). unfold _ChunkBuffer2_update_input.
  rewrite (update_output_spec _ []); [|by destruct G0; split|by apply layout_set_input].
  cbn [mbind option_bind]. pose proof (rep_update b0 [] G0 L0) as R.
  change (output_spec (set_input b0 (input_spec b0)) []) with (output_spec b0 []).
  rewrite (rep_assert_io _ _ R). eexists. split; [reflexivity|]. done.
Qed.

(** What ChunkBuffer2_calc_blocks promises: a negative result or a product
    that is the number of blocks of [num + 1] chunks and fits [int]. *)
Lemma calc_blocks_spec chunk_len num : 0 <= chunk_len <= INT_MAX -> 0 <= num <= INT_MAX ->
  let n := ChunkBuffer2_calc_blocks chunk_len num in
  n = -1 \/ (n = (1 + bdivide_up chunk_len sizeof_block) * (num + 1) /\ n <= INT_MAX).
Proof.
  intros Hc Hn. unfold ChunkBuffer2_calc_blocks. rewrite bdivide_up_4 by lia. unfold sizeof_block. zbool.
  unfold INT_MAX in *. repeat (ztest; try by left).
  right. split; [lia|]. pose proof (Z.mul_div_le 2147483647 (num + 1)). nia.
Qed.

(** With room for [num + 1] chunks, a buffer of fewer than [num] packets, none
    longer than the MTU, has room for another one. *)
Lemma rep_capacity b q num : cb_rep b q -> 0 < num -> (1 + mtu b) * (num + 1) <= size b ->
  Z.of_nat (length q) < num -> Forall (fun p => nblocks p <= mtu b) q ->
  input_dest b <> None /\ mtu b * sizeof_block <= input_avail b.
Proof.
  intros [G L I O] Hn Hsz Hlen Hq. rewrite (layout_input b q G L) in I.
  pose proof (layout_used b q L) as U. pose proof (layout_end b q G L) as E.
  pose proof (layout_start_wrap b q G L). pose proof (geo_mtu b G).
  assert (B : blocks_of q <= (1 + mtu b) * Z.of_nat (length q)).
  { clear -Hq. induction Hq as [|p q Hp Hq IH]; cbn [blocks_of length]; [lia|]. lia. }
  assert (F : 1 + mtu b <= free_blocks b).
  { unfold free_blocks, _ChunkBuffer2_end, last_start in *. revert E. zbool.
    inversion L as [? H1 H2 H3 H4 H5 H6|q1 q2 H1 H2 H3 H4 H5 H6 H7]; subst; ztest; intros; nia. }
  revert I. zbool. zdecide. intros I. apply (inj2 pair) in I as [-> ->].
  split; [done|]. unfold sizeof_block. lia.
Qed.

(** ** A client's session *)

Inductive cb_op := OpSubmit (p : bytes) | OpConsume.

(** What a client sees of one operation: the packet was accepted, was
    delivered, or the operation was not available. *)
Inductive cb_event := Accepted (p : bytes) | Delivered (p : bytes) | Refused.

(** A client submits only within [input_avail] and consumes only when
    [output_dest] is set, as the header file asks. *)
Definition cb_step (b : ChunkBuffer2) (op : cb_op) : option (ChunkBuffer2 * cb_event) :=
  match op with
  | OpSubmit p =>
      if opt_eqb (input_dest b) None || (input_avail b <? blen p) then Some (b, Refused) else
      b1 ← write_input b p;
      b2 ← ChunkBuffer2_SubmitPacket b1 (blen p);
      Some (b2, Accepted p)
  | OpConsume =>
      if opt_eqb (output_dest b) None then Some (b, Refused) else
      p ← read_output b;
      b2 ← ChunkBuffer2_ConsumePacket b;
      Some (b2, Delivered p)
  end.

Fixpoint cb_run (b : ChunkBuffer2) (ops : list cb_op) : option (ChunkBuffer2 * list cb_event) :=
  match ops with
  | [] => Some (b, [])
  | op :: ops' =>
      '(b1, e) ← cb_step b op;
      '(b2, es) ← cb_run b1 ops';
      Some (b2, e :: es)
  end.

Definition accepted (es : list cb_event) : list bytes :=
  omap (fun e => match e with Accepted p => Some p | _ => None end) es.
Definition delivered (es : list cb_event) : list bytes :=
  omap (fun e => match e with Delivered p => Some p | _ => None end) es.

Lemma cb_step_rep b q op : cb_rep b q ->
  exists b' e q', cb_step b op = Some (b', e) /\ cb_rep b' q' /\ same_shape b b'
    /\ delivered [e] ++ q' = q ++ accepted [e].
Proof.
  intros R. destruct op as [p|]; unfold cb_step.
  - destruct (input_dest b) as [d|] eqn:D; simpl.
    + destruct (Z.ltb_spec (input_avail b) (blen p)).
      * exists b, Refused, q. by rewrite app_nil_r.
      * destruct (write_input_rep b q p d R D) as (b1 & -> & R1 & S1 & D1 & A1 & M1); [done|].
        destruct (SubmitPacket_rep b1 q p d R1 D1) as (b2 & E2 & R2 & S2 & _); [lia|done|].
        cbn [mbind option_bind]. rewrite E2. exists b2, (Accepted p), (q ++ [p]).
        split_and!; [done|done|by eapply same_shape_trans|done].
    + exists b, Refused, q. by rewrite app_nil_r.
  - pose proof R as [G L I O]. destruct q as [|p q]; simpl in O; apply (inj2 pair) in O as [Od Oa].
    + rewrite Od. exists b, Refused, []. done.
    + rewrite Od. cbn [opt_eqb]. unfold read_output. rewrite Od, Oa. cbn [mbind option_bind].
      destruct (layout_head b p q G L) as (_ & -> & _). destruct (ConsumePacket_rep b p q R) as (b2 & E2 & R2 & S2 & _).
      cbn [mbind option_bind]. rewrite E2. exists b2, (Delivered p), q.
      split_and!; [done|done|done|by rewrite app_nil_r].
Qed.

Lemma cb_run_rep b q ops : cb_rep b q ->
  exists b' es q', cb_run b ops = Some (b', es) /\ cb_rep b' q' /\ same_shape b b'
    /\ delivered es ++ q' = q ++ accepted es.
Proof.
  revert b q. induction ops as [|op ops IH]; intros b q R.
  - exists b, [], q. by rewrite app_nil_r.
  - destruct (cb_step_rep b q op R) as (b1 & e & q1 & E1 & R1 & S1 & F1).
    destruct (IH b1 q1 R1) as (b2 & es & q2 & E2 & R2 & S2 & F2).
    simpl. rewrite E1. cbn [mbind option_bind]. rewrite E2. exists b2, (e :: es), q2.
    split; [done|]. split; [done|]. split; [by eapply same_shape_trans|].
    unfold delivered, accepted in *. change (e :: es) with ([e] ++ es).
    rewrite !omap_app, <- app_assoc, F2, !app_assoc. by rewrite F1.
Qed.

(** C7. The buffer is a FIFO queue of packets: in every session of submissions and
    consumptions after Init, no assertion fails and no access leaves the array,
    and the packets delivered, followed by the [q] still inside, are exactly
    the packets accepted, in order. *)
Theorem ChunkBuffer2_fifo mem blocks m ops : 0 <= m -> bdivide_up m sizeof_block + 1 <= blocks ->
  blocks * sizeof_block <= INT_MAX -> blen mem = blocks * sizeof_block ->
  exists b b' es q, ChunkBuffer2_Init mem blocks m = Some b /\ cb_run b ops = Some (b', es)
    /\ cb_rep b' q /\ accepted es = delivered es ++ q.
Proof.
  intros. destruct (Init_rep mem blocks m) as (b & E & R & _); [done..|].
  destruct (cb_run_rep b [] ops R) as (b' & es & q & E' & R' & _ & F).
  exists b, b', es, q. by rewrite F.
Qed.

Lemma ChunkBuffer2_fifo_witness :
  exists b b' es q, ChunkBuffer2_Init (replicate 40 0) 10 5 = Some b
    /\ cb_run b [OpSubmit [1;2;3;4;5]; OpSubmit [6]; OpConsume; OpSubmit [7;8]; OpConsume; OpSubmit [9;9;9;9;9]]
       = Some (b', es) /\ cb_rep b' q /\ accepted es = delivered es ++ q.
Proof. apply ChunkBuffer2_fifo; by vm_compute. Defined.

(** A buffer sized by ChunkBuffer2_calc_blocks for [num] packets of the MTU
    accepts an MTU-sized packet whenever it holds fewer than [num] packets, none
    longer than the MTU, whatever the session that led there: wrapping around
    the end of the array never makes it stall. *)
Theorem ChunkBuffer2_capacity mem m num ops b b' es q :
  0 <= m <= INT_MAX -> 0 < num <= INT_MAX ->
  let blocks := ChunkBuffer2_calc_blocks m num in
  0 <= blocks -> blocks * sizeof_block <= INT_MAX -> blen mem = blocks * sizeof_block ->
  ChunkBuffer2_Init mem blocks m = Some b -> cb_run b ops = Some (b', es) ->
  accepted es = delivered es ++ q ->
  Z.of_nat (length q) < num -> Forall (fun p => blen p <= m) q ->
  input_dest b' <> None /\ m <= input_avail b'.
Proof.
  intros Hm Hn blocks Hb Hs Hl E Er F Hq Hp.
  destruct (calc_blocks_spec m num) as [Hc|[Hc _]]; [lia..|fold blocks in Hc; lia|fold blocks in Hc].
  pose proof (bdivide_up_4 m) as Dm. unfold sizeof_block in *.
  assert (0 <= bdivide_up m 4) by (rewrite Dm; dlia).
  destruct (Init_rep mem blocks m) as (b0 & E0 & R & Hsz & Hmt); [unfold sizeof_block; nia..|].
  rewrite E in E0. apply (inj Some) in E0 as <-.
  destruct (cb_run_rep b [] ops R) as (b1 & es1 & q1 & E1 & R1 & [S1 S2] & F1).
  rewrite Er in E1. injection E1 as <- <-. simpl in F1. rewrite F in F1. apply app_inv_head in F1 as ->.
  destruct (rep_capacity b' q num R1) as [? A]; try done; [lia|rewrite S1, S2, Hsz, Hmt; unfold sizeof_block; lia| |].
  - eapply Forall_impl; [|exact Hp]. intros p Hp'. unfold nblocks, sizeof_block. simpl in Hp'.
    rewrite S2, Hmt, !bdivide_up_4 by (pose proof (blen_nonneg p); lia). apply Z.div_le_mono; lia.
  - split; [done|]. unfold sizeof_block in *. rewrite S2, Hmt, Dm in A by lia. dlia.
Qed.

Lemma ChunkBuffer2_capacity_witness : exists b b' es,
  ChunkBuffer2_Init (replicate 48 0) (ChunkBuffer2_calc_blocks 9 2) 9 = Some b
  /\ cb_run b [OpSubmit [1;2;3;4;5]; OpConsume; OpSubmit [6;7]] = Some (b', es)
  /\ input_dest b' <> None /\ 9 <= input_avail b'.
Proof.
  eexists _, _, _. split; [vm_compute; reflexivity|]. split; [vm_compute; reflexivity|].
  eapply (ChunkBuffer2_capacity (replicate 48 0) 9 2
            [OpSubmit [1;2;3;4;5]; OpConsume; OpSubmit [6;7]] _ _ _ [[6;7]]);
    try (vm_compute; reflexivity); try (by vm_compute).
  repeat constructor. by vm_compute.
Defined.
