(* ===== verification/FlowInterface.v ===== *)
(** The asynchronous interfaces between flow components:
    flow/PacketPassInterface, PacketRecvInterface, StreamPassInterface and
    StreamRecvInterface (.h and .c).

    All four are the same machine: a user starts an operation, which a job
    hands to the provider, which completes it, which another job reports to the
    user.  [iface] is that machine; the packet-pass interface adds the cancel
    request.  An operation's argument has the type [A] (a data pointer, and a
    length where the interface has one), the argument of its completion the
    type [D].  The functions of the source are given the job stack of the
    BPendingGroup (BPending.v) and the interface's own jobs; a job function
    returns the handler call it ends with.  [None] is a failed ASSERT. *)

From S2P Require Import Prelude SLinkedList BPending.
Open Scope Z_scope.

Inductive istate := STATE_NONE | STATE_OPERATION_PENDING | STATE_BUSY | STATE_DONE_PENDING.

#[export] Instance istate_eq_dec : EqDecision istate.
Proof. solve_decision. Defined.

Definition state_is (s t : istate) : bool := bool_decide (s = t).

(** The data pointer argument: an address or NULL. *)
Definition nonnull {P} (p : option P) : bool := match p with Some _ => true | None => false end.

Section Iface.
Context {J : Type} `{EqDecision J} {A D : Type}.

Record iface := {
  if_handler_done : bool;         (* handler_done set by the user's Init *)
  if_operation : option A;        (* job_operation_data, job_operation_len *)
  if_done : option D;             (* job_done_len *)
  if_state : istate }.

(** The BPending objects job_operation and job_done. *)
Record ijobs := { j_op : J; j_done : J }.

Definition iface_Init : iface :=
  {| if_handler_done := false; if_operation := None; if_done := None; if_state := STATE_NONE |}.

Definition iface_Free (k : ijobs) (jobs : list J) : list J :=
  job_unset (j_op k) (job_unset (j_done k) jobs).

Definition iface_User_Init (i : iface) : option iface :=
  ASSERT negb (if_handler_done i);
  Some {| if_handler_done := true; if_operation := if_operation i; if_done := if_done i;
          if_state := if_state i |}.

Definition iface_start (k : ijobs) (a : A) (i : iface) (jobs : list J) : option (iface * list J) :=
  ASSERT state_is (if_state i) STATE_NONE;
  ASSERT if_handler_done i;
  Some ({| if_handler_done := if_handler_done i; if_operation := Some a; if_done := if_done i;
           if_state := STATE_OPERATION_PENDING |},
        job_set (j_op k) jobs).

Definition iface_complete (k : ijobs) (d : D) (i : iface) (jobs : list J) : option (iface * list J) :=
  ASSERT state_is (if_state i) STATE_BUSY;
  Some ({| if_handler_done := if_handler_done i; if_operation := if_operation i; if_done := Some d;
           if_state := STATE_DONE_PENDING |},
        job_set (j_done k) jobs).

(** The provider's handler_operation is called with the result. *)
Definition iface_job_operation (i : iface) : option (A * iface) :=
  ASSERT state_is (if_state i) STATE_OPERATION_PENDING;
  a ← if_operation i;
  Some (a, {| if_handler_done := if_handler_done i; if_operation := if_operation i; if_done := if_done i;
              if_state := STATE_BUSY |}).

(** The user's handler_done is called with the result. *)
Definition iface_job_done (i : iface) : option (D * iface) :=
  ASSERT state_is (if_state i) STATE_DONE_PENDING;
  d ← if_done i;
  Some (d, {| if_handler_done := if_handler_done i; if_operation := if_operation i; if_done := if_done i;
              if_state := STATE_NONE |}).

(** The pending jobs of an interface are those of its state. *)
Record iface_ok (k : ijobs) (i : iface) (jobs : list J) : Prop := {
  ok_op : j_op k ∈ jobs <-> if_state i = STATE_OPERATION_PENDING;
  ok_done : j_done k ∈ jobs <-> if_state i = STATE_DONE_PENDING;
  ok_user : if_state i <> STATE_NONE -> if_handler_done i = true;
  ok_opdata : if_state i = STATE_OPERATION_PENDING \/ if_state i = STATE_BUSY -> is_Some (if_operation i);
  ok_donedata : if_state i = STATE_DONE_PENDING -> is_Some (if_done i) }.
End Iface.

Arguments iface : clear implicits.
Arguments ijobs : clear implicits.

(** * flow/PacketRecvInterface *)

Section PacketRecvInterface.
Context {J : Type} `{EqDecision J} {P : Type}.

Record PacketRecvInterface := { pri_mtu : Z; pri_if : iface (option P) Z }.

Definition with_pri (i : PacketRecvInterface) (r : option (iface (option P) Z * list J))
    : option (PacketRecvInterface * list J) :=
  '(f, jobs) ← r; Some ({| pri_mtu := pri_mtu i; pri_if := f |}, jobs).

Definition PacketRecvInterface_Init (mtu : Z) : option PacketRecvInterface :=
  ASSERT mtu >=? 0;
  Some {| pri_mtu := mtu; pri_if := iface_Init |}.

Definition PacketRecvInterface_Free (k : ijobs J) (jobs : list J) : list J := iface_Free k jobs.

Definition PacketRecvInterface_Done (k : ijobs J) (i : PacketRecvInterface) (data_len : Z) (jobs : list J) :=
  ASSERT data_len >=? 0;
  ASSERT data_len <=? pri_mtu i;
  with_pri i (iface_complete k data_len (pri_if i) jobs).

Definition PacketRecvInterface_GetMTU (i : PacketRecvInterface) : Z := pri_mtu i.

Definition PacketRecvInterface_Receiver_Init (i : PacketRecvInterface) : option PacketRecvInterface :=
  f ← iface_User_Init (pri_if i); Some {| pri_mtu := pri_mtu i; pri_if := f |}.

Definition PacketRecvInterface_Receiver_Recv (k : ijobs J) (i : PacketRecvInterface) (data : option P)
    (jobs : list J) :=
  ASSERT negb (pri_mtu i >? 0) || nonnull data;
  with_pri i (iface_start k data (pri_if i) jobs).

Definition _PacketRecvInterface_job_operation (i : PacketRecvInterface)
    : option (option P * PacketRecvInterface) :=
  '(data, f) ← iface_job_operation (pri_if i); Some (data, {| pri_mtu := pri_mtu i; pri_if := f |}).

Definition _PacketRecvInterface_job_done (i : PacketRecvInterface) : option (Z * PacketRecvInterface) :=
  '(len, f) ← iface_job_done (pri_if i); Some (len, {| pri_mtu := pri_mtu i; pri_if := f |}).
End PacketRecvInterface.
Arguments PacketRecvInterface : clear implicits.

(** * flow/StreamPassInterface and flow/StreamRecvInterface *)

Section StreamInterface.
Context {J : Type} `{EqDecision J} {P : Type}.

Definition StreamPassInterface := iface (option P * Z) Z.
Definition StreamRecvInterface := iface (option P * Z) Z.

Definition stream_done (k : ijobs J) (i : iface (option P * Z) Z) (data_len : Z) (jobs : list J) :=
  op ← if_operation i;
  ASSERT data_len >? 0;
  ASSERT data_len <=? snd op;
  iface_complete k data_len i jobs.

Definition stream_start (k : ijobs J) (i : iface (option P * Z) Z) (data : option P) (data_len : Z)
    (jobs : list J) :=
  ASSERT data_len >? 0;
  ASSERT nonnull data;
  iface_start k (data, data_len) i jobs.

Definition StreamPassInterface_Done : ijobs J -> StreamPassInterface -> Z -> list J -> _ := stream_done.
Definition StreamPassInterface_Sender_Send :
  ijobs J -> StreamPassInterface -> option P -> Z -> list J -> _ := stream_start.
Definition StreamPassInterface_Sender_Init (i : StreamPassInterface) : option StreamPassInterface :=
  iface_User_Init i.
Definition _StreamPassInterface_job_operation (i : StreamPassInterface) := iface_job_operation i.
Definition _StreamPassInterface_job_done (i : StreamPassInterface) := iface_job_done i.

Definition StreamRecvInterface_Done : ijobs J -> StreamRecvInterface -> Z -> list J -> _ := stream_done.
Definition StreamRecvInterface_Receiver_Recv :
  ijobs J -> StreamRecvInterface -> option P -> Z -> list J -> _ := stream_start.
Definition StreamRecvInterface_Receiver_Init (i : StreamRecvInterface) : option StreamRecvInterface :=
  iface_User_Init i.
Definition _StreamRecvInterface_job_operation (i : StreamRecvInterface) := iface_job_operation i.
Definition _StreamRecvInterface_job_done (i : StreamRecvInterface) := iface_job_done i.
End StreamInterface.

(** * flow/PacketPassInterface *)

Section PacketPassInterface.
Context {J : Type} `{EqDecision J} {P : Type}.

Record PacketPassInterface := {
  ppi_mtu : Z;
  ppi_handler_requestcancel : bool;
  ppi_if : iface (option P * Z) unit;
  ppi_cancel_requested : bool }.

Record pjobs := { pj : ijobs J; j_requestcancel : J }.

Definition set_ppi_if (i : PacketPassInterface) (f : iface (option P * Z) unit) : PacketPassInterface :=
  {| ppi_mtu := ppi_mtu i; ppi_handler_requestcancel := ppi_handler_requestcancel i; ppi_if := f;
     ppi_cancel_requested := ppi_cancel_requested i |}.

Definition set_ppi_cancel (i : PacketPassInterface) (c : bool) : PacketPassInterface :=
  {| ppi_mtu := ppi_mtu i; ppi_handler_requestcancel := ppi_handler_requestcancel i; ppi_if := ppi_if i;
     ppi_cancel_requested := c |}.

Definition PacketPassInterface_Init (mtu : Z) : option PacketPassInterface :=
  ASSERT mtu >=? 0;
  Some {| ppi_mtu := mtu; ppi_handler_requestcancel := false; ppi_if := iface_Init;
          ppi_cancel_requested := false |}.

Definition PacketPassInterface_Free (k : pjobs) (jobs : list J) : list J :=
  job_unset (j_op (pj k)) (job_unset (j_requestcancel k) (job_unset (j_done (pj k)) jobs)).

Definition PacketPassInterface_EnableCancel (i : PacketPassInterface) : option PacketPassInterface :=
  ASSERT negb (ppi_handler_requestcancel i);
  ASSERT negb (if_handler_done (ppi_if i));
  Some {| ppi_mtu := ppi_mtu i; ppi_handler_requestcancel := true; ppi_if := ppi_if i;
          ppi_cancel_requested := ppi_cancel_requested i |}.

Definition PacketPassInterface_Done (k : pjobs) (i : PacketPassInterface) (jobs : list J)
    : option (PacketPassInterface * list J) :=
  ASSERT state_is (if_state (ppi_if i)) STATE_BUSY;
  let jobs := job_unset (j_requestcancel k) jobs in
  '(f, jobs) ← iface_complete (pj k) tt (ppi_if i) jobs;
  Some (set_ppi_if i f, jobs).

Definition PacketPassInterface_GetMTU (i : PacketPassInterface) : Z := ppi_mtu i.

Definition PacketPassInterface_Sender_Init (i : PacketPassInterface) : option PacketPassInterface :=
  f ← iface_User_Init (ppi_if i); Some (set_ppi_if i f).

Definition PacketPassInterface_Sender_Send (k : pjobs) (i : PacketPassInterface) (data : option P)
    (data_len : Z) (jobs : list J) : option (PacketPassInterface * list J) :=
  ASSERT data_len >=? 0;
  ASSERT data_len <=? ppi_mtu i;
  ASSERT negb (data_len >? 0) || nonnull data;
  '(f, jobs) ← iface_start (pj k) (data, data_len) (ppi_if i) jobs;
  Some (set_ppi_cancel (set_ppi_if i f) false, jobs).

Definition PacketPassInterface_Sender_RequestCancel (k : pjobs) (i : PacketPassInterface) (jobs : list J)
    : option (PacketPassInterface * list J) :=
  ASSERT negb (state_is (if_state (ppi_if i)) STATE_NONE);
  ASSERT ppi_handler_requestcancel i;
  if ppi_cancel_requested i then Some (i, jobs) else
  let i := set_ppi_cancel i true in
  match if_state (ppi_if i) with
  | STATE_OPERATION_PENDING =>
      let jobs := job_unset (j_op (pj k)) jobs in
      let jobs := job_set (j_done (pj k)) jobs in
      Some (set_ppi_if i {| if_handler_done := if_handler_done (ppi_if i);
                            if_operation := if_operation (ppi_if i); if_done := Some tt;
                            if_state := STATE_DONE_PENDING |}, jobs)
  | STATE_BUSY => Some (i, job_set (j_requestcancel k) jobs)
  | _ => Some (i, jobs)
  end.

Definition PacketPassInterface_HasCancel (i : PacketPassInterface) : bool := ppi_handler_requestcancel i.

Definition _PacketPassInterface_job_operation (i : PacketPassInterface)
    : option ((option P * Z) * PacketPassInterface) :=
  '(a, f) ← iface_job_operation (ppi_if i); Some (a, set_ppi_if i f).

(** The provider's handler_requestcancel is called; the state stays. *)
Definition _PacketPassInterface_job_requestcancel (i : PacketPassInterface) : option PacketPassInterface :=
  ASSERT state_is (if_state (ppi_if i)) STATE_BUSY;
  ASSERT ppi_cancel_requested i;
  ASSERT ppi_handler_requestcancel i;
  Some i.

Definition _PacketPassInterface_job_done (i : PacketPassInterface) : option PacketPassInterface :=
  '(_, f) ← iface_job_done (ppi_if i); Some (set_ppi_if i f).
End PacketPassInterface.
Arguments PacketPassInterface : clear implicits.
Arguments pjobs : clear implicits.

(** * The contract of the packet-pass interface *)

Inductive ppi_job := JobOperation | JobRequestCancel | JobDone.
#[export] Instance ppi_job_eq_dec : EqDecision ppi_job.
Proof. solve_decision. Defined.

Definition ppi_jobs : pjobs ppi_job :=
  {| pj := {| j_op := JobOperation; j_done := JobDone |}; j_requestcancel := JobRequestCancel |}.

(** What the user, the provider and the event loop do. *)
Inductive ppi_op :=
| UserSend (data : option ptr) (len : Z) | UserRequestCancel | ProviderDone | ExecuteJob.

(** The handlers called. *)
Inductive ppi_call := CallOperation (a : option ptr * Z) | CallRequestCancel | CallDone.

Record ppi_world := { pw_if : PacketPassInterface ptr; pw_jobs : list ppi_job }.

Definition ppi_step (w : ppi_world) (op : ppi_op) : option (ppi_world * list ppi_call) :=
  match op with
  | UserSend data len =>
      '(i, jobs) ← PacketPassInterface_Sender_Send ppi_jobs (pw_if w) data len (pw_jobs w);
      Some ({| pw_if := i; pw_jobs := jobs |}, [])
  | UserRequestCancel =>
      '(i, jobs) ← PacketPassInterface_Sender_RequestCancel ppi_jobs (pw_if w) (pw_jobs w);
      Some ({| pw_if := i; pw_jobs := jobs |}, [])
  | ProviderDone =>
      '(i, jobs) ← PacketPassInterface_Done ppi_jobs (pw_if w) (pw_jobs w);
      Some ({| pw_if := i; pw_jobs := jobs |}, [])
  | ExecuteJob =>
      match pw_jobs w with
      | [] => None
      | JobOperation :: l =>
          '(a, i) ← _PacketPassInterface_job_operation (pw_if w);
          Some ({| pw_if := i; pw_jobs := l |}, [CallOperation a])
      | JobRequestCancel :: l =>
          i ← _PacketPassInterface_job_requestcancel (pw_if w);
          Some ({| pw_if := i; pw_jobs := l |}, [CallRequestCancel])
      | JobDone :: l =>
          i ← _PacketPassInterface_job_done (pw_if w);
          Some ({| pw_if := i; pw_jobs := l |}, [CallDone])
      end
  end.

Definition ppi_start (mtu : Z) (cancel : bool) : option ppi_world :=
  i ← PacketPassInterface_Init mtu;
  i ← (if cancel then PacketPassInterface_EnableCancel i else Some i);
  i ← PacketPassInterface_Sender_Init i;
  Some {| pw_if := i; pw_jobs := [] |}.

Fixpoint ppi_run (w : ppi_world) (ops : list ppi_op) : option (ppi_world * list ppi_call) :=
  match ops with
  | [] => Some (w, [])
  | op :: ops' =>
      '(w1, t1) ← ppi_step w op;
      '(w2, t2) ← ppi_run w1 ops';
      Some (w2, t1 ++ t2)
  end.

Definition sent (ops : list ppi_op) : list (option ptr * Z) :=
  omap (fun o => match o with UserSend d n => Some (d, n) | _ => None end) ops.
Definition operated (t : list ppi_call) : list (option ptr * Z) :=
  omap (fun c => match c with CallOperation a => Some a | _ => None end) t.
Definition dones (t : list ppi_call) : list unit :=
  omap (fun c => match c with CallDone => Some tt | _ => None end) t.

(** Operations sent and not yet handed to the provider, and those whose
    completion has not been reported. *)
Definition in_transit (w : ppi_world) : list (option ptr * Z) :=
  match if_state (ppi_if (pw_if w)) with
  | STATE_OPERATION_PENDING => option_list (if_operation (ppi_if (pw_if w)))
  | _ => []
  end.
Definition outstanding (w : ppi_world) : nat :=
  if state_is (if_state (ppi_if (pw_if w))) STATE_NONE then 0%nat else 1%nat.

Definition ppi_inv (w : ppi_world) : Prop :=
  let i := pw_if w in
  if_handler_done (ppi_if i) = true
  /\ match if_state (ppi_if i) with
     | STATE_NONE => pw_jobs w = []
     | STATE_OPERATION_PENDING =>
         pw_jobs w = [JobOperation] /\ is_Some (if_operation (ppi_if i)) /\ ppi_cancel_requested i = false
     | STATE_BUSY =>
         pw_jobs w = []
         \/ pw_jobs w = [JobRequestCancel] /\ ppi_cancel_requested i = true
            /\ ppi_handler_requestcancel i = true
     | STATE_DONE_PENDING => pw_jobs w = [JobDone] /\ if_done (ppi_if i) = Some tt
     end.

Lemma ppi_exec_ok w : ppi_inv w -> pw_jobs w <> [] -> is_Some (ppi_step w ExecuteJob).
Proof.
  destruct w as [[mtu hc [u op dn st] cr] jobs]. unfold ppi_inv. simpl.
  intros [-> I] Hj. destruct st; simpl in *; [done|..].
  - destruct I as (-> & [a ->] & _). simpl. by eexists.
  - destruct I as [->|(-> & -> & ->)]; [done|]. by eexists.
  - destruct I as (-> & ->). by eexists.
Qed.

(** One step: the invariant is kept, and what enters and leaves balances. *)
Lemma ppi_step_inv w op w' t : ppi_inv w -> ppi_step w op = Some (w', t) ->
  ppi_inv w'
  /\ (outstanding w + length (sent [op]) = length (dones t) + outstanding w')%nat
  /\ operated t ++ in_transit w' `sublist_of` in_transit w ++ sent [op]
  /\ (op <> UserRequestCancel -> operated t ++ in_transit w' = in_transit w ++ sent [op]).
Proof.
  destruct w as [[mtu hc [u o dn st] cr] jobs]. unfold ppi_inv. simpl. intros [-> I] E.
  destruct op as [data len| | |]; simpl in E.
  - unfold PacketPassInterface_Sender_Send in E.
    repeat match type of E with context [if ?b then _ else None] => destruct b; [|done] end.
    simpl in E. destruct st; unfold iface_start in E; simpl in E; [|done..].
    injection E as <- <-. simpl. rewrite I. repeat split; eauto.
  - unfold PacketPassInterface_Sender_RequestCancel in E. simpl in E.
    destruct st; simpl in E; [done|..]; (destruct hc; [|done]); destruct cr; simpl in E; injection E as <- <-; simpl.
    + destruct I as (? & ? & ?); done.
    + destruct I as (-> & [a ->] & _). simpl. repeat split; try done. apply sublist_nil_l.
    + done.
    + repeat split; try done. destruct I as [->|(? & ? & ?)]; [right; by repeat split|done].
    + destruct I as (-> & ->). done.
    + destruct I as (-> & ->). done.
  - unfold PacketPassInterface_Done in E. destruct st; simpl in E; [done..| |done].
    injection E as <- <-. simpl. repeat split; try done.
    destruct I as [->|(-> & _)]; done.
  - destruct st; simpl in *; [by rewrite I in E|..].
    + destruct I as (-> & [a ->] & _). simpl in E. injection E as <- <-. simpl. repeat split; try done. by left.
    + destruct I as [->|(-> & -> & ->)]; [done|]. simpl in E. injection E as <- <-.
      simpl. repeat split; try done. by left.
    + destruct I as (-> & ->). simpl in E. injection E as <- <-. done.
Qed.

(** C34. The contract of the packet-pass interface.  From its initialisation, over
    every sequence of calls the ASSERTs of the entry points allow: a pending job
    never finds a state its ASSERTs reject; every send is answered by exactly one
    handler_done call, except the one still outstanding; the provider is given
    the packets sent, in order, without duplication, and all of them if no cancel
    was requested. *)
Theorem PacketPassInterface_protocol mtu cancel ops w0 w t :
  ppi_start mtu cancel = Some w0 -> ppi_run w0 ops = Some (w, t) ->
  (pw_jobs w <> [] -> is_Some (ppi_step w ExecuteJob))
  /\ length (sent ops) = (length (dones t) + outstanding w)%nat
  /\ operated t ++ in_transit w `sublist_of` sent ops
  /\ (UserRequestCancel ∉ ops -> operated t ++ in_transit w = sent ops).
Proof.
  intros E0 E. assert (I0 : ppi_inv w0 /\ outstanding w0 = 0%nat /\ in_transit w0 = []).
  { unfold ppi_start, PacketPassInterface_Init in E0. destruct (mtu >=? 0); [|done].
    destruct cancel; simpl in E0; injection E0 as <-; done. }
  destruct I0 as (I0 & O0 & T0).
  enough (ppi_inv w /\ (outstanding w0 + length (sent ops) = length (dones t) + outstanding w)%nat
    /\ operated t ++ in_transit w `sublist_of` in_transit w0 ++ sent ops
    /\ (UserRequestCancel ∉ ops -> operated t ++ in_transit w = in_transit w0 ++ sent ops))
    as (I & C & S & Q).
  { rewrite O0 in C. rewrite T0 in S, Q. split; [by apply ppi_exec_ok|]. done. }
  clear E0 O0 T0. revert w0 t E I0. induction ops as [|op ops IH]; intros w0 t E I0; simpl in E.
  - injection E as <- <-. simpl. rewrite app_nil_r. repeat split; try done; try apply I0.
  - destruct (ppi_step w0 op) as [[w1 t1]|] eqn:E1; [simpl in E|done].
    destruct (ppi_run w1 ops) as [[w2 t2]|] eqn:E2; [simpl in E|done]. injection E as <- <-.
    destruct (ppi_step_inv w0 op w1 t1 I0 E1) as (I1 & C1 & S1 & Q1).
    destruct (IH w1 t2 E2 I1) as (I2 & C2 & S2 & Q2). split; [done|].
    unfold sent, operated, dones in *. change (op :: ops) with ([op] ++ ops).
    rewrite !omap_app, !length_app. split; [lia|]. rewrite <- app_assoc. split.
    + etransitivity; [apply sublist_app; [reflexivity|exact S2]|]. rewrite !app_assoc.
      apply sublist_app; [exact S1|reflexivity].
    + intros Hc. rewrite Q2 by set_solver. rewrite !app_assoc. f_equal. apply Q1. set_solver.
Qed.

Lemma PacketPassInterface_protocol_witness : exists w0 w t,
  ppi_start 1500 true = Some w0
  /\ ppi_run w0 [UserSend (Some 8) 20; ExecuteJob; UserRequestCancel; ExecuteJob; ProviderDone; ExecuteJob;
                 UserSend (Some 9) 30] = Some (w, t)
  /\ operated t ++ in_transit w `sublist_of` [(Some 8, 20); (Some 9, 30)].
Proof.
  eexists _, _, _. split; [vm_compute; reflexivity|]. split; [vm_compute; reflexivity|].
  eapply (PacketPassInterface_protocol 1500 true
    [UserSend (Some 8) 20; ExecuteJob; UserRequestCancel; ExecuteJob; ProviderDone; ExecuteJob;
     UserSend (Some 9) 30]); vm_compute; reflexivity.
Defined.
