(* ===== verification/TapDevice.v ===== *)
(** Reading from the TUN device: tuntap/BTap.c (with a given file descriptor, as on
    Android), flow/SinglePacketBuffer.c and the hand-over to
    device_read_handler_send of tun2socks/tun2socks.c, joined as main joins them.

    read(2) is an answer of the environment.  All packets pass through the one
    buffer of the SinglePacketBuffer: the model keeps that memory, and a handler
    that is given a packet reads it from there.  [dev_step] is the event loop of the
    composition. *)

From S2P Require Import Prelude ByteOrder SLinkedList BPending FlowInterface Tun2socksUdp.
Open Scope Z_scope.

(** What read(fd, data, frame_mtu) does. *)
Inductive read_answer :=
| ReadPacket (p : bytes)        (* a packet of the kernel, not empty, cut to the size asked for *)
| ReadAgain                     (* 0, EAGAIN or EWOULDBLOCK *)
| ReadError.

(** * tuntap/BTap.c *)

Section Components.
Context {J : Type} `{EqDecision J}.

Record BTap := {
  tap_frame_mtu : Z;
  tap_output : PacketRecvInterface ptr;
  tap_output_packet : option ptr;
  tap_poll_read : bool;         (* BREACTOR_READ is in poll_events *)
  tap_failed : bool }.          (* handler_error was called *)

Definition set_tap (o : BTap) (i : PacketRecvInterface ptr) (packet : option ptr) (poll failed : bool) : BTap :=
  {| tap_frame_mtu := tap_frame_mtu o; tap_output := i; tap_output_packet := packet; tap_poll_read := poll; tap_failed := failed |}.

(** BTap_Init2 from the label success on. *)
Definition BTap_init_output (mtu : Z) : option BTap :=
  i ← PacketRecvInterface_Init mtu;
  Some {| tap_frame_mtu := mtu; tap_output := i; tap_output_packet := None; tap_poll_read := false; tap_failed := false |}.

Definition BTap_GetMTU (o : BTap) : Z := tap_frame_mtu o.

Definition report_error (o : BTap) : BTap := set_tap o (tap_output o) (tap_output_packet o) (tap_poll_read o) true.

(** [mem] is the memory that [data] points into. *)
Definition output_handler_recv (k : ijobs J) (o : BTap) (mem : bytes) (data : option ptr) (r : read_answer) (jobs : list J)
    : option (BTap * bytes * list J) :=
  ASSERT negb (tap_failed o);
  data ← data;
  ASSERT negb (nonnull (tap_output_packet o));
  match r with
  | ReadAgain => Some (set_tap o (tap_output o) (Some data) true (tap_failed o), mem, jobs)
  | ReadError => Some (report_error o, mem, jobs)
  | ReadPacket p =>
      ASSERT blen p <=? tap_frame_mtu o;
      mem ← mem_write mem data p;
      '(i, jobs) ← PacketRecvInterface_Done k (tap_output o) (blen p) jobs;
      Some (set_tap o i (tap_output_packet o) (tap_poll_read o) (tap_failed o), mem, jobs)
  end.

(** The file descriptor is readable. *)
Definition fd_handler (k : ijobs J) (o : BTap) (mem : bytes) (r : read_answer) (jobs : list J) : option (BTap * bytes * list J) :=
  ASSERT negb (tap_failed o);
  packet ← tap_output_packet o;
  match r with
  | ReadAgain => Some (o, mem, jobs)
  | ReadError => Some (report_error o, mem, jobs)
  | ReadPacket p =>
      ASSERT blen p <=? tap_frame_mtu o;
      mem ← mem_write mem packet p;
      '(i, jobs) ← PacketRecvInterface_Done k (tap_output o) (blen p) jobs;
      Some (set_tap o i None false (tap_failed o), mem, jobs)
  end.

Definition BTap_Free (k : ijobs J) (jobs : list J) : list J := PacketRecvInterface_Free k jobs.

(** What is written to the device. *)
Definition BTap_Send (o : BTap) (data : bytes) : option bytes :=
  ASSERT negb (tap_failed o);
  ASSERT blen data <=? tap_frame_mtu o;
  Some data.

(** * flow/SinglePacketBuffer.c *)

(** The address of the buffer. *)
Definition spb_buf : ptr := 0.

Definition spb_input_handler_done (k : pjobs J) (output : PacketPassInterface ptr) (in_len : Z) (jobs : list J) :=
  PacketPassInterface_Sender_Send k output (Some spb_buf) in_len jobs.

Definition spb_output_handler_done (k : ijobs J) (input : PacketRecvInterface ptr) (jobs : list J) :=
  PacketRecvInterface_Receiver_Recv k input (Some spb_buf) jobs.

(** [alloc n] is the memory BAlloc returns; [None] inside when the function returns
    0. *)
Definition SinglePacketBuffer_Init (alloc : Z -> option bytes) (k : ijobs J) (input : PacketRecvInterface ptr)
    (output : PacketPassInterface ptr) (jobs : list J)
    : option (option (bytes * PacketRecvInterface ptr * PacketPassInterface ptr * list J)) :=
  ASSERT PacketPassInterface_GetMTU output >=? PacketRecvInterface_GetMTU input;
  input ← PacketRecvInterface_Receiver_Init input;
  output ← PacketPassInterface_Sender_Init output;
  match alloc (PacketRecvInterface_GetMTU input) with
  | None => Some None
  | Some buf =>
      '(input, jobs) ← PacketRecvInterface_Receiver_Recv k input (Some spb_buf) jobs;
      Some (Some (buf, input, output, jobs))
  end.
End Components.

(** * The device of tun2socks *)

Inductive dev_job := TapOperation | TapDone | ReadOperation | ReadRequestCancel | ReadDone.
#[export] Instance dev_job_eq_dec : EqDecision dev_job.
Proof. solve_decision. Defined.

Definition kt : ijobs dev_job := {| j_op := TapOperation; j_done := TapDone |}.
Definition kr : pjobs dev_job := {| pj := {| j_op := ReadOperation; j_done := ReadDone |}; j_requestcancel := ReadRequestCancel |}.

Record device := {
  dev_tap : BTap;
  dev_buf : bytes;                            (* the buffer of device_read_buffer *)
  dev_interface : PacketPassInterface ptr;    (* device_read_interface *)
  dev_jobs : list dev_job }.

(** The part of main that sets up device reading. *)
Definition device_init (alloc : Z -> option bytes) (mtu : Z) : option (option device) :=
  tap ← BTap_init_output mtu;
  i ← PacketPassInterface_Init (BTap_GetMTU tap);
  r ← SinglePacketBuffer_Init alloc kt (tap_output tap) i [];
  match r with
  | None => Some None
  | Some (buf, input, output, jobs) =>
      Some (Some {| dev_tap := set_tap tap input (tap_output_packet tap) (tap_poll_read tap) (tap_failed tap);
                    dev_buf := buf; dev_interface := output; dev_jobs := jobs |})
  end.

Inductive dev_event :=
| Readable (r : read_answer)    (* the reactor reports the file descriptor, and read answers *)
| Execute (r : read_answer).    (* the next job; the answer is used if the job reads *)

Section Device.
Context (env : udp_env) (pbuf_alloc_ok : Z -> bool).

(** What the handler of the packets did. *)
Definition dev_execute (d : device) (r : read_answer) : option (device * list device_action) :=
  let tap := dev_tap d in
  let with_output i := set_tap tap i (tap_output_packet tap) (tap_poll_read tap) (tap_failed tap) in
  match dev_jobs d with
  | [] => None
  | TapOperation :: jobs =>
      '(data, i) ← _PacketRecvInterface_job_operation (tap_output tap);
      '(tap, mem, jobs) ← output_handler_recv kt (with_output i) (dev_buf d) data r jobs;
      Some ({| dev_tap := tap; dev_buf := mem; dev_interface := dev_interface d; dev_jobs := jobs |}, [])
  | TapDone :: jobs =>
      '(len, i) ← _PacketRecvInterface_job_done (tap_output tap);
      '(out, jobs) ← spb_input_handler_done kr (dev_interface d) len jobs;
      Some ({| dev_tap := with_output i; dev_buf := dev_buf d; dev_interface := out; dev_jobs := jobs |}, [])
  | ReadOperation :: jobs =>
      '(a, out) ← _PacketPassInterface_job_operation (dev_interface d);
      data ← fst a;
      '(out, jobs) ← PacketPassInterface_Done kr out jobs;
      packet ← mem_read (dev_buf d) data (snd a);
      act ← device_read_handler_send env pbuf_alloc_ok packet;
      Some ({| dev_tap := tap; dev_buf := dev_buf d; dev_interface := out; dev_jobs := jobs |}, [act])
  | ReadRequestCancel :: jobs => None
  | ReadDone :: jobs =>
      out ← _PacketPassInterface_job_done (dev_interface d);
      '(i, jobs) ← spb_output_handler_done kt (tap_output tap) jobs;
      Some ({| dev_tap := with_output i; dev_buf := dev_buf d; dev_interface := out; dev_jobs := jobs |}, [])
  end.

Definition dev_step (d : device) (e : dev_event) : option (device * list device_action) :=
  match e with
  | Readable r =>
      '(tap, mem, jobs) ← fd_handler kt (dev_tap d) (dev_buf d) r (dev_jobs d);
      Some ({| dev_tap := tap; dev_buf := mem; dev_interface := dev_interface d; dev_jobs := jobs |}, [])
  | Execute r => dev_execute d r
  end.
End Device.

(** * Correctness *)

(** Where the buffer is: requested from the device, waiting for a packet, filled
    with one, handed on, or given back. *)
Inductive phase := Requested | Waiting | Filled (p : bytes) | Passed (p : bytes) | Handled.

(** The packet that was read and not yet processed. *)
Definition in_buffer (ph : phase) : list bytes := match ph with Filled p | Passed p => [p] | _ => [] end.

Definition waiting (ph : phase) : bool := match ph with Waiting => true | _ => false end.

Definition fills (d : device) (p : bytes) : Prop := btake (blen p) (dev_buf d) = p /\ blen p <= blen (dev_buf d).

Record dev_inv (mtu : Z) (d : device) (ph : phase) : Prop := {
  iv_buf : blen (dev_buf d) = mtu;
  iv_mtu : tap_frame_mtu (dev_tap d) = mtu /\ pri_mtu (tap_output (dev_tap d)) = mtu /\ ppi_mtu (dev_interface d) = mtu;
  iv_users : if_handler_done (pri_if (tap_output (dev_tap d))) = true /\ if_handler_done (ppi_if (dev_interface d)) = true;
  iv_failed : tap_failed (dev_tap d) = false;
  iv_wait : tap_output_packet (dev_tap d) = (if waiting ph then Some spb_buf else None) /\ tap_poll_read (dev_tap d) = waiting ph;
  iv_phase :
    match ph with
    | Requested => dev_jobs d = [TapOperation] /\ if_state (pri_if (tap_output (dev_tap d))) = STATE_OPERATION_PENDING
        /\ if_operation (pri_if (tap_output (dev_tap d))) = Some (Some spb_buf) /\ if_state (ppi_if (dev_interface d)) = STATE_NONE
    | Waiting => dev_jobs d = [] /\ if_state (pri_if (tap_output (dev_tap d))) = STATE_BUSY /\ if_state (ppi_if (dev_interface d)) = STATE_NONE
    | Filled p => dev_jobs d = [TapDone] /\ if_state (pri_if (tap_output (dev_tap d))) = STATE_DONE_PENDING
        /\ if_done (pri_if (tap_output (dev_tap d))) = Some (blen p) /\ if_state (ppi_if (dev_interface d)) = STATE_NONE /\ fills d p
    | Passed p => dev_jobs d = [ReadOperation] /\ if_state (pri_if (tap_output (dev_tap d))) = STATE_NONE
        /\ if_state (ppi_if (dev_interface d)) = STATE_OPERATION_PENDING /\ if_operation (ppi_if (dev_interface d)) = Some (Some spb_buf, blen p) /\ fills d p
    | Handled => dev_jobs d = [ReadDone] /\ if_state (pri_if (tap_output (dev_tap d))) = STATE_NONE
        /\ if_state (ppi_if (dev_interface d)) = STATE_DONE_PENDING /\ if_done (ppi_if (dev_interface d)) = Some tt
    end }.

(** What the environment may do: the reactor reports a file descriptor only while it
    is asked to, and a packet has at most the size that read was asked for. *)
Definition answer_ok (mtu : Z) (r : read_answer) : Prop := match r with ReadPacket p => 0 < blen p <= mtu | _ => True end.
Definition dev_allowed (d : device) (e : dev_event) : Prop :=
  tap_failed (dev_tap d) = false /\
  match e with
  | Readable r => tap_poll_read (dev_tap d) = true /\ answer_ok (tap_frame_mtu (dev_tap d)) r
  | Execute r => dev_jobs d <> [] /\ answer_ok (tap_frame_mtu (dev_tap d)) r
  end.

(** The packets that a step reads from the device. *)
Definition reads (d : device) (e : dev_event) : list bytes :=
  match e, dev_jobs d with
  | Readable (ReadPacket p), _ => [p]
  | Execute (ReadPacket p), TapOperation :: _ => [p]
  | _, _ => []
  end.

Section Correct.
Context (env : udp_env) (pbuf_alloc_ok : Z -> bool).

Abbreviation handler := (device_read_handler_send env pbuf_alloc_ok).

Lemma handler_total p : exists a, handler p = Some a.
Proof.
  unfold device_read_handler_send. pose proof (process_device_udp_packet_safe env p).
  destruct (process_device_udp_packet env p) as [[s|]|]; simpl; [by eexists| |done].
  unfold netif_input_func. destruct (ip_version_total p) as [v ->]. repeat case_match; by eexists.
Qed.

Lemma write_fills buf p b : mem_write buf spb_buf p = Some b -> btake (blen p) b = p /\ blen p <= blen b /\ blen b = blen buf.
Proof.
  intros E. pose proof (mem_write_prefix _ _ _ _ E) as Hp. apply mem_write_inv in E as (_ & H1 & H2 & _). unfold spb_buf in *.
  split; [exact Hp|]. lia.
Qed.

Lemma state_is_refl s : state_is s s = true.
Proof. by destruct s. Qed.

Ltac dev_red :=
  unfold dev_step, dev_execute, output_handler_recv, fd_handler, spb_input_handler_done, spb_output_handler_done,
    _PacketRecvInterface_job_operation, _PacketRecvInterface_job_done, _PacketPassInterface_job_operation, _PacketPassInterface_job_done,
    PacketPassInterface_Done, PacketRecvInterface_Done, PacketPassInterface_Sender_Send, PacketRecvInterface_Receiver_Recv,
    iface_job_operation, iface_job_done, iface_complete, iface_start, with_pri;
  cbn -[spb_buf]; rewrite ?state_is_refl; cbn -[spb_buf].

(** One step: the packet in the buffer and the one that was read are those that were
    processed and the one that is in the buffer afterwards. *)
Lemma dev_step_ok mtu d ph e : dev_inv mtu d ph -> dev_allowed d e ->
  exists d' acts done ph', dev_step env pbuf_alloc_ok d e = Some (d', acts)
    /\ Forall2 (fun p a => handler p = Some a) done acts
    /\ in_buffer ph ++ reads d e = done ++ in_buffer ph'
    /\ (dev_inv mtu d' ph' \/ (tap_failed (dev_tap d') = true /\ in_buffer ph' = [])).
Proof.
  intros [I1 (I2 & I3 & I4) [I5 I6] I7 [I8 I9] I10] [_ Ha].
  destruct d as [[fm [pm [ha oa da sa]] pk pl fl] buf [im hc [hb ob db sb] cr] jobs]. cbn in *. subst fm pm im ha hb fl.
  pose proof (blen_nonneg buf) as Hb0.
  destruct ph as [| |p|p|]; cbn in I8, I9; subst pk pl.
  - destruct I10 as (-> & -> & -> & ->). destruct e as [r|r]; [by destruct Ha|]. destruct Ha as [_ Hr].
    destruct r as [p| |]; cbn in Hr; dev_red.
    + rewrite (proj2 (Z.leb_le _ _) (proj2 Hr)). destruct (mem_write_some buf spb_buf p) as (b & Eb & Lb); [done|unfold spb_buf; lia|].
      rewrite Eb. apply write_fills in Eb as (F1 & F2 & F3). cbn. unfold PacketRecvInterface_Done. cbn. pose proof (blen_nonneg p).
      rewrite Z.geb_leb, !(proj2 (Z.leb_le _ _)) by lia. cbn. eexists _, _, [], (Filled p). split; [done|]. split; [constructor|].
      split; [done|]. left. split; cbn; try done; lia.
    + eexists _, _, [], Waiting. split; [done|]. split; [constructor|]. split; [done|]. left. by split.
    + eexists _, _, [], Waiting. split; [done|]. split; [constructor|]. split; [done|]. by right.
  - destruct I10 as (-> & -> & ->). destruct e as [r|r]; [|by destruct Ha]. destruct Ha as [_ Hr].
    destruct r as [p| |]; cbn in Hr; dev_red.
    + rewrite (proj2 (Z.leb_le _ _) (proj2 Hr)). destruct (mem_write_some buf spb_buf p) as (b & Eb & Lb); [done|unfold spb_buf; lia|].
      rewrite Eb. apply write_fills in Eb as (F1 & F2 & F3). cbn. unfold PacketRecvInterface_Done. cbn. pose proof (blen_nonneg p).
      rewrite Z.geb_leb, !(proj2 (Z.leb_le _ _)) by lia. cbn. eexists _, _, [], (Filled p). split; [done|]. split; [constructor|].
      split; [done|]. left. split; cbn; try done; lia.
    + eexists _, _, [], Waiting. split; [done|]. split; [constructor|]. split; [done|]. left. by split.
    + eexists _, _, [], Waiting. split; [done|]. split; [constructor|]. split; [done|]. by right.
  - destruct I10 as (-> & -> & -> & -> & [F1 F2]). cbn in F1, F2. destruct e as [r|r]; [by destruct Ha|]. pose proof (blen_nonneg p).
    dev_red. unfold spb_input_handler_done, PacketPassInterface_Sender_Send. cbn.
    rewrite Z.geb_leb, !(proj2 (Z.leb_le _ _)) by lia. rewrite orb_true_r. cbn. eexists _, _, [], (Passed p). split; [done|]. split; [constructor|].
    split; [by destruct r|]. left. by split.
  - destruct I10 as (-> & -> & -> & -> & [F1 F2]). cbn in F1, F2. destruct e as [r|r]; [by destruct Ha|]. pose proof (blen_nonneg p).
    dev_red. rewrite mem_read_in by (unfold spb_buf; lia). unfold spb_buf. rewrite bdrop_0, F1. cbn.
    destruct (handler_total p) as (a & Ea). rewrite Ea. cbn. eexists _, _, [p], Handled. split; [done|]. split; [by constructor|].
    split; [by destruct r|]. left. by split.
  - destruct I10 as (-> & -> & -> & ->). destruct e as [r|r]; [by destruct Ha|].
    dev_red. unfold spb_output_handler_done, PacketRecvInterface_Receiver_Recv. cbn. rewrite orb_true_r. cbn.
    eexists _, _, [], Requested. split; [done|]. split; [constructor|]. split; [by destruct r|]. left. by split.
Qed.

(** The state after a sequence of events, what was done with the packets, and the
    packets that were read. *)
Fixpoint dev_run (d : device) (es : list dev_event) : option (device * list device_action * list bytes) :=
  match es with
  | [] => Some (d, [], [])
  | e :: es =>
      '(d', acts) ← dev_step env pbuf_alloc_ok d e;
      '(d'', acts', ps) ← dev_run d' es;
      Some (d'', acts ++ acts', reads d e ++ ps)
  end.

Fixpoint dev_allowed_run (d : device) (es : list dev_event) : Prop :=
  match es with
  | [] => True
  | e :: es =>
      dev_allowed d e /\
      match dev_step env pbuf_alloc_ok d e with Some (d', _) => dev_allowed_run d' es | None => True end
  end.

(** The device goes on: a job is pending or the file descriptor is polled. *)
Definition dev_live (d : device) : Prop := dev_jobs d <> [] \/ tap_poll_read (dev_tap d) = true.

Definition dev_ok (mtu : Z) (d : device) (ph : phase) : Prop :=
  dev_inv mtu d ph \/ (tap_failed (dev_tap d) = true /\ in_buffer ph = []).

Lemma dev_ok_end mtu d ph : dev_ok mtu d ph ->
  (tap_failed (dev_tap d) = true \/ dev_live d) /\ (dev_jobs d = [] -> in_buffer ph = []) /\ (length (in_buffer ph) <= 1)%nat.
Proof.
  intros [[_ _ _ _ [_ Hp] Hph]|[Hf Hb]]; [|rewrite Hb; split_and!; [by left|done|simpl; lia]]. unfold dev_live.
  destruct ph; cbn in *; destruct Hph as [-> _]; split_and!; try done; try lia; right; by (left + right).
Qed.

Lemma dev_run_ok mtu es : forall d ph, dev_ok mtu d ph -> dev_allowed_run d es ->
  exists d' acts ps done ph', dev_run d es = Some (d', acts, ps)
    /\ Forall2 (fun p a => handler p = Some a) done acts
    /\ in_buffer ph ++ ps = done ++ in_buffer ph' /\ dev_ok mtu d' ph'.
Proof.
  induction es as [|e es IH]; intros d ph Hok Ha.
  - eexists d, [], [], [], ph. by rewrite app_nil_r.
  - destruct Ha as [Ha Hes]. destruct Hok as [Hi|[Hf _]]; [|destruct Ha; congruence].
    destruct (dev_step_ok _ _ _ _ Hi Ha) as (d1 & acts & done & ph1 & E & F & L & Hok). cbn [dev_run]. rewrite E in Hes |- *. cbn [mbind option_bind].
    destruct (IH _ _ Hok Hes) as (d2 & acts2 & ps & done2 & ph2 & E2 & F2 & L2 & Hok2). rewrite E2. cbn [mbind option_bind].
    eexists d2, _, _, (done ++ done2), ph2. split; [done|]. split; [by apply Forall2_app|]. split; [|done].
    by rewrite app_assoc, L, <-app_assoc, L2, app_assoc.
Qed.

Lemma device_init_ok alloc mtu : 0 <= mtu -> (forall b, alloc mtu = Some b -> blen b = mtu) ->
  (alloc mtu = None /\ device_init alloc mtu = Some None)
  \/ exists d, device_init alloc mtu = Some (Some d) /\ dev_inv mtu d Requested.
Proof.
  intros Hm Hal. unfold device_init, BTap_init_output, PacketRecvInterface_Init, PacketPassInterface_Init, SinglePacketBuffer_Init, BTap_GetMTU.
  assert (mtu >=? 0 = true) as H0 by (by apply Z.geb_le). rewrite H0. cbn -[spb_buf]. rewrite ?H0. cbn -[spb_buf].
  assert (mtu >=? mtu = true) as -> by (apply Z.geb_le; lia). destruct (alloc mtu) as [b|] eqn:E; [|by left]. right.
  unfold PacketRecvInterface_Receiver_Recv. cbn -[spb_buf]. rewrite orb_true_r. cbn -[spb_buf].
  eexists. split; [done|]. split; cbn; try done. by apply Hal.
Qed.

(** C10. The device of tun2socks as main sets it up never faults whatever the reactor and
    read(2) do: the packets that were read from the device are those that
    device_read_handler_send processed, in the order of reading and unchanged by
    later reads into the same buffer, and at most one that is still in the buffer.
    Unless read failed the device goes on: a job is pending or the file descriptor
    is polled; and when no job is pending nothing is left in the buffer. *)
Theorem device_delivers alloc mtu es d0 :
  (forall b, alloc mtu = Some b -> blen b = mtu) -> 0 <= mtu ->
  device_init alloc mtu = Some (Some d0) -> dev_allowed_run d0 es ->
  exists d acts ps done pending, dev_run d0 es = Some (d, acts, ps)
    /\ Forall2 (fun p a => handler p = Some a) done acts
    /\ ps = done ++ pending /\ (length pending <= 1)%nat
    /\ (tap_failed (dev_tap d) = true \/ dev_live d)
    /\ (dev_jobs d = [] -> pending = []).
Proof.
  intros Hal Hm Hi Ha. destruct (device_init_ok alloc mtu Hm Hal) as [[_ E]|(d & E & Hinv)]; rewrite Hi in E; [done|].
  injection E as <-. destruct (dev_run_ok mtu es d0 Requested) as (d & acts & ps & ds & ph & E & F & L & Hok); [by left|done|].
  apply dev_ok_end in Hok as (H1 & H2 & H3). by exists d, acts, ps, ds, (in_buffer ph).
Qed.
End Correct.

(** Two packets of the device, one read at once and one when the file descriptor is
    readable. *)
Definition ex_events : list dev_event :=
  [Execute (ReadPacket ex_pkt); Execute ReadAgain; Execute ReadAgain; Execute ReadAgain; Execute ReadAgain;
   Readable ReadAgain; Readable (ReadPacket (take 19 ex_pkt)); Execute ReadAgain; Execute ReadAgain].

Definition ex_alloc (n : Z) : option bytes := Some (replicate (Z.to_nat n) 0).

Definition ex_device : device :=
  match device_init ex_alloc 64 with
  | Some (Some d) => d
  | _ => {| dev_tap := {| tap_frame_mtu := 0; tap_output := {| pri_mtu := 0; pri_if := iface_Init |}; tap_output_packet := None;
                          tap_poll_read := false; tap_failed := false |};
            dev_buf := []; dev_interface := {| ppi_mtu := 0; ppi_handler_requestcancel := false; ppi_if := iface_Init; ppi_cancel_requested := false |};
            dev_jobs := [] |}
  end.

Lemma device_delivers_witness :
  exists d acts ps done pending, dev_run ex_env (fun _ => true) ex_device ex_events = Some (d, acts, ps)
    /\ Forall2 (fun p a => device_read_handler_send ex_env (fun _ => true) p = Some a) done acts
    /\ ps = done ++ pending /\ (length pending <= 1)%nat
    /\ (tap_failed (dev_tap d) = true \/ dev_live d) /\ (dev_jobs d = [] -> pending = []).
Proof.
  apply (device_delivers ex_env (fun _ => true) ex_alloc 64 ex_events ex_device); [|done|vm_compute; reflexivity|].
  - intros b [= <-]. reflexivity.
  - vm_compute. repeat split; try done; try lia.
Defined.
