(* ===== verification/SendChain.v ===== *)
(** The way of a packet from the queue of the UDP gateway client to its server:
    flowextra/PacketPassInactivityMonitor.c, flow/PacketPassConnector.c and
    flow/PacketStreamSender.c, joined by UdpGwClient_Init, UdpGwClient_ConnectServer
    and free_server of udpgw_client/UdpGwClient.c.

    The interfaces between them are those of FlowInterface.v and share one stack of
    jobs.  The user of the chain (the fair queue) sends packets to the monitor; the
    stream of a server takes as many bytes as it likes; servers come and go at any
    moment.  An address is an object with an offset into it; the user keeps the
    object unchanged until it is told that the packet was sent. *)

From S2P Require Import Prelude ByteOrder SLinkedList BPending FlowInterface.
Open Scope Z_scope.

Record addr := { obj : bytes; off : Z }.

Definition addr_of (p : bytes) : addr := {| obj := p; off := 0 |}.

(** The pointer arithmetic in + in_used. *)
Definition advance (a : addr) (n : Z) : addr := {| obj := obj a; off := off a + n |}.

Abbreviation PacketIf := (PacketPassInterface addr).
Abbreviation StreamIf := (@StreamPassInterface addr).

Section Elements.
Context {J : Type} `{EqDecision J}.

(** * flow/PacketStreamSender.c *)

Record PacketStreamSender := { ss_input : PacketIf; ss_in_len : Z; ss_in : option addr; ss_in_used : Z }.

(** The interface of the output is owned by the connection. *)
Definition send_data (ki : pjobs J) (ko : ijobs J) (s : PacketStreamSender) (output : StreamIf) (jobs : list J)
    : option (PacketStreamSender * StreamIf * list J) :=
  ASSERT ss_in_len s >=? 0;
  if ss_in_used s <? ss_in_len s then
    data ← ss_in s;
    '(output, jobs) ← StreamPassInterface_Sender_Send ko output (Some (advance data (ss_in_used s))) (ss_in_len s - ss_in_used s) jobs;
    Some (s, output, jobs)
  else
    '(i, jobs) ← PacketPassInterface_Done ki (ss_input s) jobs;
    Some ({| ss_input := i; ss_in_len := -1; ss_in := ss_in s; ss_in_used := ss_in_used s |}, output, jobs).

Definition sender_input_handler_send (ki : pjobs J) (ko : ijobs J) (s : PacketStreamSender) (output : StreamIf)
    (data : option addr) (data_len : Z) (jobs : list J) :=
  ASSERT ss_in_len s =? -1;
  ASSERT data_len >=? 0;
  send_data ki ko {| ss_input := ss_input s; ss_in_len := data_len; ss_in := data; ss_in_used := 0 |} output jobs.

Definition sender_output_handler_done (ki : pjobs J) (ko : ijobs J) (s : PacketStreamSender) (output : StreamIf)
    (data_len : Z) (jobs : list J) :=
  ASSERT ss_in_len s >=? 0;
  ASSERT data_len >? 0;
  ASSERT data_len <=? ss_in_len s - ss_in_used s;
  send_data ki ko {| ss_input := ss_input s; ss_in_len := ss_in_len s; ss_in := ss_in s; ss_in_used := ss_in_used s + data_len |} output jobs.

Definition PacketStreamSender_Init (output : StreamIf) (mtu : Z) : option (PacketStreamSender * StreamIf) :=
  ASSERT mtu >=? 0;
  i ← PacketPassInterface_Init mtu;
  output ← StreamPassInterface_Sender_Init output;
  Some ({| ss_input := i; ss_in_len := -1; ss_in := None; ss_in_used := 0 |}, output).

Definition PacketStreamSender_Free (ki : pjobs J) (jobs : list J) : list J := PacketPassInterface_Free ki jobs.

(** * flow/PacketPassConnector.c *)

(** Whether there is an output; its interface is passed to the functions. *)
Record PacketPassConnector := { pc_input : PacketIf; pc_input_mtu : Z; pc_in_len : Z; pc_in : option addr; pc_output : bool }.

Definition set_connector (o : PacketPassConnector) (i : PacketIf) (in_len : Z) (data : option addr) (output : bool) : PacketPassConnector :=
  {| pc_input := i; pc_input_mtu := pc_input_mtu o; pc_in_len := in_len; pc_in := data; pc_output := output |}.

(** [output] is the interface that the pointer o->output points to, if any. *)
Definition connector_input_handler_send (ko : pjobs J) (o : PacketPassConnector) (output : option PacketIf)
    (data : option addr) (data_len : Z) (jobs : list J) : option (PacketPassConnector * option PacketIf * list J) :=
  ASSERT data_len >=? 0;
  ASSERT data_len <=? pc_input_mtu o;
  ASSERT pc_in_len o =? -1;
  let o := set_connector o (pc_input o) data_len data (pc_output o) in
  if pc_output o then
    out ← output;
    '(out, jobs) ← PacketPassInterface_Sender_Send ko out (pc_in o) (pc_in_len o) jobs;
    Some (o, Some out, jobs)
  else Some (o, output, jobs).

Definition connector_output_handler_done (ki : pjobs J) (o : PacketPassConnector) (jobs : list J) : option (PacketPassConnector * list J) :=
  ASSERT pc_in_len o >=? 0;
  ASSERT pc_output o;
  let o := set_connector o (pc_input o) (-1) (pc_in o) (pc_output o) in
  '(i, jobs) ← PacketPassInterface_Done ki (pc_input o) jobs;
  Some (set_connector o i (pc_in_len o) (pc_in o) (pc_output o), jobs).

Definition PacketPassConnector_Init (mtu : Z) : option PacketPassConnector :=
  ASSERT mtu >=? 0;
  i ← PacketPassInterface_Init mtu;
  Some {| pc_input := i; pc_input_mtu := mtu; pc_in_len := -1; pc_in := None; pc_output := false |}.

Definition PacketPassConnector_Free (ki : pjobs J) (jobs : list J) : list J := PacketPassInterface_Free ki jobs.

Definition PacketPassConnector_ConnectOutput (ko : pjobs J) (o : PacketPassConnector) (output : PacketIf) (jobs : list J)
    : option (PacketPassConnector * PacketIf * list J) :=
  ASSERT negb (pc_output o);
  ASSERT PacketPassInterface_GetMTU output >=? pc_input_mtu o;
  let o := set_connector o (pc_input o) (pc_in_len o) (pc_in o) true in
  output ← PacketPassInterface_Sender_Init output;
  if pc_in_len o >=? 0 then
    '(output, jobs) ← PacketPassInterface_Sender_Send ko output (pc_in o) (pc_in_len o) jobs;
    Some (o, output, jobs)
  else Some (o, output, jobs).

Definition PacketPassConnector_DisconnectOutput (o : PacketPassConnector) : option PacketPassConnector :=
  ASSERT pc_output o;
  Some (set_connector o (pc_input o) (pc_in_len o) (pc_in o) false).

(** * flowextra/PacketPassInactivityMonitor.c *)

Record PacketPassInactivityMonitor := { im_input : PacketIf; im_handler : bool; im_timer : bool (* the timer runs *) }.

Definition set_monitor (o : PacketPassInactivityMonitor) (i : PacketIf) (timer : bool) : PacketPassInactivityMonitor :=
  {| im_input := i; im_handler := im_handler o; im_timer := timer |}.

Definition monitor_input_handler_send (ko : pjobs J) (o : PacketPassInactivityMonitor) (output : PacketIf)
    (data : option addr) (data_len : Z) (jobs : list J) : option (PacketPassInactivityMonitor * PacketIf * list J) :=
  '(output, jobs) ← PacketPassInterface_Sender_Send ko output data data_len jobs;
  Some (set_monitor o (im_input o) false, output, jobs).

Definition monitor_input_handler_requestcancel (ko : pjobs J) (output : PacketIf) (jobs : list J) : option (PacketIf * list J) :=
  PacketPassInterface_Sender_RequestCancel ko output jobs.

Definition monitor_output_handler_done (ki : pjobs J) (o : PacketPassInactivityMonitor) (jobs : list J)
    : option (PacketPassInactivityMonitor * list J) :=
  let o := set_monitor o (im_input o) true in
  '(i, jobs) ← PacketPassInterface_Done ki (im_input o) jobs;
  Some (set_monitor o i (im_timer o), jobs).

(** Whether the handler of the user is called. *)
Definition monitor_timer_handler (o : PacketPassInactivityMonitor) : PacketPassInactivityMonitor * bool :=
  let o := set_monitor o (im_input o) true in
  (o, im_handler o).

Definition PacketPassInactivityMonitor_Init (output : PacketIf) (handler : bool) : option (PacketPassInactivityMonitor * PacketIf) :=
  i ← PacketPassInterface_Init (PacketPassInterface_GetMTU output);
  i ← (if PacketPassInterface_HasCancel output then PacketPassInterface_EnableCancel i else Some i);
  output ← PacketPassInterface_Sender_Init output;
  Some ({| im_input := i; im_handler := handler; im_timer := true |}, output).

Definition PacketPassInactivityMonitor_Free (ki : pjobs J) (o : PacketPassInactivityMonitor) (jobs : list J)
    : PacketPassInactivityMonitor * list J :=
  (set_monitor o (im_input o) false, PacketPassInterface_Free ki jobs).

Definition PacketPassInactivityMonitor_SetHandler (o : PacketPassInactivityMonitor) (handler : bool) : PacketPassInactivityMonitor :=
  {| im_input := im_input o; im_handler := handler; im_timer := im_timer o |}.

Definition PacketPassInactivityMonitor_Force (o : PacketPassInactivityMonitor) : PacketPassInactivityMonitor := set_monitor o (im_input o) true.
End Elements.

(** * The chain of the UDP gateway client *)

Inductive chain_job :=
| MonOperation | MonRequestCancel | MonDone | ConOperation | ConRequestCancel | ConDone | SndOperation | SndRequestCancel | SndDone
| StrOperation | StrDone.
#[export] Instance chain_job_eq_dec : EqDecision chain_job.
Proof. solve_decision. Defined.

Definition km : pjobs chain_job := {| pj := {| j_op := MonOperation; j_done := MonDone |}; j_requestcancel := MonRequestCancel |}.
Definition kc : pjobs chain_job := {| pj := {| j_op := ConOperation; j_done := ConDone |}; j_requestcancel := ConRequestCancel |}.
Definition ks : pjobs chain_job := {| pj := {| j_op := SndOperation; j_done := SndDone |}; j_requestcancel := SndRequestCancel |}.
Definition kw : ijobs chain_job := {| j_op := StrOperation; j_done := StrDone |}.

Record chain := {
  ch_mtu : Z;                                           (* pp_mtu *)
  ch_monitor : PacketPassInactivityMonitor;             (* send_monitor *)
  ch_connector : PacketPassConnector;                   (* send_connector *)
  ch_server : option (PacketStreamSender * StreamIf);   (* send_sender and its send_if, if have_server *)
  ch_jobs : list chain_job }.

Definition set_chain (c : chain) m o s jobs : chain :=
  {| ch_mtu := ch_mtu c; ch_monitor := m; ch_connector := o; ch_server := s; ch_jobs := jobs |}.

Definition set_mon_input (m : PacketPassInactivityMonitor) (i : PacketIf) : PacketPassInactivityMonitor := set_monitor m i (im_timer m).
Definition set_con_input (o : PacketPassConnector) (i : PacketIf) : PacketPassConnector := set_connector o i (pc_in_len o) (pc_in o) (pc_output o).
Definition set_snd_input (s : PacketStreamSender) (i : PacketIf) : PacketStreamSender :=
  {| ss_input := i; ss_in_len := ss_in_len s; ss_in := ss_in s; ss_in_used := ss_in_used s |}.

(** The part of UdpGwClient_Init that sets up the chain. *)
Definition chain_init (pp_mtu : Z) : option chain :=
  o ← PacketPassConnector_Init pp_mtu;
  '(m, i) ← PacketPassInactivityMonitor_Init (pc_input o) true;
  mi ← PacketPassInterface_Sender_Init (im_input m);
  Some {| ch_mtu := pp_mtu; ch_monitor := set_mon_input m mi; ch_connector := set_con_input o i; ch_server := None; ch_jobs := [] |}.

(** The part of UdpGwClient_ConnectServer that is about sending; [send_if] is the
    interface of a new connection. *)
Definition chain_connect (c : chain) (send_if : StreamIf) : option chain :=
  ASSERT negb (match ch_server c with Some _ => true | None => false end);
  '(s, w) ← PacketStreamSender_Init send_if (ch_mtu c);
  '(o, i, jobs) ← PacketPassConnector_ConnectOutput ks (ch_connector c) (ss_input s) (ch_jobs c);
  Some (set_chain c (ch_monitor c) o (Some (set_snd_input s i, w)) jobs).

(** The part of free_server that is about sending; then the connection is freed with
    its interface. *)
Definition chain_disconnect (c : chain) : option chain :=
  _ ← ch_server c;
  o ← PacketPassConnector_DisconnectOutput (ch_connector c);
  let jobs := PacketStreamSender_Free ks (ch_jobs c) in
  let jobs := iface_Free kw jobs in
  Some (set_chain c (ch_monitor c) o None jobs).

(** What can be observed. *)
Inductive chain_out :=
| Taken (d : bytes)      (* the stream has taken these bytes *)
| Told                   (* the user is told that its packet was sent *)
| Inactive.              (* the inactivity handler was called *)

(** The next job. *)
Definition chain_execute (c : chain) : option (chain * list chain_out) :=
  let m := ch_monitor c in
  let o := ch_connector c in
  match ch_jobs c with
  | [] => None
  | MonOperation :: jobs =>
      '(a, i) ← _PacketPassInterface_job_operation (im_input m);
      '(m, ci, jobs) ← monitor_input_handler_send kc (set_mon_input m i) (pc_input o) (fst a) (snd a) jobs;
      Some (set_chain c m (set_con_input o ci) (ch_server c) jobs, [])
  | MonRequestCancel :: jobs =>
      i ← _PacketPassInterface_job_requestcancel (im_input m);
      '(ci, jobs) ← monitor_input_handler_requestcancel kc (pc_input o) jobs;
      Some (set_chain c (set_mon_input m i) (set_con_input o ci) (ch_server c) jobs, [])
  | MonDone :: jobs =>
      i ← _PacketPassInterface_job_done (im_input m);
      Some (set_chain c (set_mon_input m i) o (ch_server c) jobs, [Told])
  | ConOperation :: jobs =>
      '(a, i) ← _PacketPassInterface_job_operation (pc_input o);
      let output := match ch_server c with Some (s, _) => Some (ss_input s) | None => None end in
      '(o, out, jobs) ← connector_input_handler_send ks (set_con_input o i) output (fst a) (snd a) jobs;
      let server := match ch_server c, out with Some (s, w), Some i => Some (set_snd_input s i, w) | srv, _ => srv end in
      Some (set_chain c m o server jobs, [])
  | ConRequestCancel :: jobs => None
  | ConDone :: jobs =>
      i ← _PacketPassInterface_job_done (pc_input o);
      '(m, jobs) ← monitor_output_handler_done km m jobs;
      Some (set_chain c m (set_con_input o i) (ch_server c) jobs, [])
  | SndOperation :: jobs =>
      '(s, w) ← ch_server c;
      '(a, i) ← _PacketPassInterface_job_operation (ss_input s);
      '(s, w, jobs) ← sender_input_handler_send ks kw (set_snd_input s i) w (fst a) (snd a) jobs;
      Some (set_chain c m o (Some (s, w)) jobs, [])
  | SndRequestCancel :: jobs => None
  | SndDone :: jobs =>
      '(s, w) ← ch_server c;
      i ← _PacketPassInterface_job_done (ss_input s);
      '(o, jobs) ← connector_output_handler_done kc o jobs;
      Some (set_chain c m o (Some (set_snd_input s i, w)) jobs, [])
  | StrOperation :: jobs =>
      '(s, w) ← ch_server c;
      '(a, w) ← _StreamPassInterface_job_operation w;
      Some (set_chain c m o (Some (s, w)) jobs, [])
  | StrDone :: jobs =>
      '(s, w) ← ch_server c;
      '(n, w) ← _StreamPassInterface_job_done w;
      '(s, w, jobs) ← sender_output_handler_done ks kw s w n jobs;
      Some (set_chain c m o (Some (s, w)) jobs, [])
  end.

Inductive chain_event :=
| Submit (p : bytes)        (* the user sends a packet *)
| Execute
| Connect
| Disconnect
| Take (n : Z)              (* the stream of the server takes n bytes *)
| Expire.                   (* the timer of the monitor *)

Definition chain_step (c : chain) (e : chain_event) : option (chain * list chain_out) :=
  match e with
  | Submit p =>
      '(i, jobs) ← PacketPassInterface_Sender_Send km (im_input (ch_monitor c)) (Some (addr_of p)) (blen p) (ch_jobs c);
      Some (set_chain c (set_mon_input (ch_monitor c) i) (ch_connector c) (ch_server c) jobs, [])
  | Execute => chain_execute c
  | Connect => c ← chain_connect c iface_Init; Some (c, [])
  | Disconnect => c ← chain_disconnect c; Some (c, [])
  | Take n =>
      '(s, w) ← ch_server c;
      '(a, _) ← if_operation w;
      a ← a;
      d ← mem_read (obj a) (off a) n;
      '(w, jobs) ← StreamPassInterface_Done kw w n (ch_jobs c);
      Some (set_chain c (ch_monitor c) (ch_connector c) (Some (s, w)) jobs, [Taken d])
  | Expire =>
      let '(m, called) := monitor_timer_handler (ch_monitor c) in
      Some (set_chain c m (ch_connector c) (ch_server c) (ch_jobs c), if called then [Inactive] else [])
  end.

(** What the environment may do: the user sends when its last packet was sent, the
    stream takes bytes while it is asked to, and no more than it was offered; there
    is one server at a time. *)
Definition stream_waits (c : chain) : option Z :=
  match ch_server c with
  | Some (_, w) => if state_is (if_state w) STATE_BUSY then snd <$> if_operation w else None
  | None => None
  end.

Definition chain_allowed (c : chain) (e : chain_event) : Prop :=
  match e with
  | Submit p => if_state (ppi_if (im_input (ch_monitor c))) = STATE_NONE /\ blen p <= ch_mtu c
  | Execute => ch_jobs c <> []
  | Connect => ch_server c = None
  | Disconnect => ch_server c <> None
  | Take n => exists len, stream_waits c = Some len /\ 0 < n <= len
  | Expire => im_timer (ch_monitor c) = true
  end.

(** The history of a run: the packets of the user, how many it was told of, and what
    the stream of each server took, the last server first. *)
Record history := { h_packets : list bytes; h_told : nat; h_streams : list bytes }.

Definition observe (h : history) (x : chain_out) : history :=
  match x with
  | Taken d => {| h_packets := h_packets h; h_told := h_told h;
                  h_streams := match h_streams h with [] => [d] | s :: ss => (s ++ d) :: ss end |}
  | Told => {| h_packets := h_packets h; h_told := S (h_told h); h_streams := h_streams h |}
  | Inactive => h
  end.

Definition record_event (h : history) (e : chain_event) : history :=
  match e with
  | Submit p => {| h_packets := h_packets h ++ [p]; h_told := h_told h; h_streams := h_streams h |}
  | Connect => {| h_packets := h_packets h; h_told := h_told h; h_streams := [] :: h_streams h |}
  | _ => h
  end.

Fixpoint chain_run (c : chain) (h : history) (es : list chain_event) : option (chain * history) :=
  match es with
  | [] => Some (c, h)
  | e :: es => '(c, outs) ← chain_step c e; chain_run c (fold_left observe outs (record_event h e)) es
  end.

Fixpoint chain_allowed_run (c : chain) (es : list chain_event) : Prop :=
  match es with
  | [] => True
  | e :: es => chain_allowed c e /\ match chain_step c e with Some (c', _) => chain_allowed_run c' es | None => True end
  end.

Definition no_history : history := {| h_packets := []; h_told := 0; h_streams := [] |}.

(** * States of the interfaces *)

Inductive at_state := AtNone | AtOperation (p : bytes) | AtBusy | AtDone.

Record ppi_at (mtu : Z) (i : PacketIf) (st : at_state) : Prop := {
  at_mtu : ppi_mtu i = mtu;
  at_nocancel : ppi_handler_requestcancel i = false;
  at_user : if_handler_done (ppi_if i) = true;
  at_state_is :
    match st with
    | AtNone => if_state (ppi_if i) = STATE_NONE
    | AtOperation p => if_state (ppi_if i) = STATE_OPERATION_PENDING /\ if_operation (ppi_if i) = Some (Some (addr_of p), blen p)
    | AtBusy => if_state (ppi_if i) = STATE_BUSY
    | AtDone => if_state (ppi_if i) = STATE_DONE_PENDING /\ if_done (ppi_if i) = Some tt
    end }.

Section InterfaceStates.
Context {J : Type} `{EqDecision J} (k : pjobs J) (mtu : Z).

Lemma at_send i p jobs : ppi_at mtu i AtNone -> blen p <= mtu ->
  exists i', PacketPassInterface_Sender_Send k i (Some (addr_of p)) (blen p) jobs = Some (i', job_set (j_op (pj k)) jobs)
    /\ ppi_at mtu i' (AtOperation p).
Proof.
  intros [Hm Hc Hu Hs] Hp. destruct i as [m hc [u op dn st] cr]. cbn in *. subst. pose proof (blen_nonneg p).
  unfold PacketPassInterface_Sender_Send. cbn. rewrite Z.geb_leb, !(proj2 (Z.leb_le _ _)) by lia. rewrite orb_true_r. cbn.
  eexists. split; [done|]. by split.
Qed.

Lemma at_operation i p : ppi_at mtu i (AtOperation p) ->
  exists i', _PacketPassInterface_job_operation i = Some ((Some (addr_of p), blen p), i') /\ ppi_at mtu i' AtBusy.
Proof.
  intros [Hm Hc Hu [Hs Ho]]. destruct i as [m hc [u op dn st] cr]. cbn in *. subst. eexists. split; [done|]. by split.
Qed.

Lemma at_complete i jobs : ppi_at mtu i AtBusy ->
  exists i', PacketPassInterface_Done k i jobs = Some (i', job_set (j_done (pj k)) (job_unset (j_requestcancel k) jobs)) /\ ppi_at mtu i' AtDone.
Proof.
  intros [Hm Hc Hu Hs]. destruct i as [m hc [u op dn st] cr]. cbn in *. subst. eexists. split; [done|]. by split.
Qed.

Lemma at_finish i : ppi_at mtu i AtDone -> exists i', _PacketPassInterface_job_done i = Some i' /\ ppi_at mtu i' AtNone.
Proof.
  intros [Hm Hc Hu [Hs Hd]]. destruct i as [m hc [u op dn st] cr]. cbn in *. subst. eexists. split; [done|]. by split.
Qed.

Lemma at_none_state i st : ppi_at mtu i st -> if_state (ppi_if i) = STATE_NONE -> st = AtNone.
Proof. intros [_ _ _ Hs] E. destruct st; [done|destruct Hs; congruence..|congruence|destruct Hs; congruence]. Qed.
End InterfaceStates.

Inductive stream_state := StNone | StOperation (p : bytes) (u : Z) | StBusy (p : bytes) (u : Z) | StDone (n : Z).

Record stream_at (w : StreamIf) (st : stream_state) : Prop := {
  st_user : if_handler_done w = true;
  st_state_is :
    match st with
    | StNone => if_state w = STATE_NONE
    | StOperation p u => if_state w = STATE_OPERATION_PENDING /\ if_operation w = Some (Some (advance (addr_of p) u), blen p - u)
    | StBusy p u => if_state w = STATE_BUSY /\ if_operation w = Some (Some (advance (addr_of p) u), blen p - u)
    | StDone n => if_state w = STATE_DONE_PENDING /\ if_done w = Some n
    end }.

Section StreamStates.
Context {J : Type} `{EqDecision J} (k : ijobs J).

Lemma stream_send w p u jobs : stream_at w StNone -> u < blen p ->
  exists w', StreamPassInterface_Sender_Send k w (Some (advance (addr_of p) u)) (blen p - u) jobs = Some (w', job_set (j_op k) jobs)
    /\ stream_at w' (StOperation p u).
Proof.
  intros [Hu Hs] Hp. destruct w as [hu op dn st]. cbn in *. subst. unfold StreamPassInterface_Sender_Send, stream_start. cbn.
  rewrite Z.gtb_ltb, (proj2 (Z.ltb_lt _ _)) by lia. cbn. eexists. split; [done|]. by split.
Qed.

Lemma stream_operation w p u : stream_at w (StOperation p u) ->
  exists a w', _StreamPassInterface_job_operation w = Some (a, w') /\ stream_at w' (StBusy p u).
Proof.
  intros [Hu [Hs Ho]]. destruct w as [hu op dn st]. cbn in *. subst. eexists _, _. split; [done|]. by split.
Qed.

Lemma stream_take w p u n jobs : stream_at w (StBusy p u) -> 0 < n <= blen p - u ->
  exists w', StreamPassInterface_Done k w n jobs = Some (w', job_set (j_done k) jobs) /\ stream_at w' (StDone n).
Proof.
  intros [Hu [Hs Ho]] Hn. destruct w as [hu op dn st]. cbn in *. subst. unfold StreamPassInterface_Done, stream_done. cbn.
  rewrite Z.gtb_ltb, (proj2 (Z.ltb_lt _ _)), (proj2 (Z.leb_le _ _)) by lia. cbn. eexists. split; [done|]. by split.
Qed.

Lemma stream_finish w n : stream_at w (StDone n) -> exists w', _StreamPassInterface_job_done w = Some (n, w') /\ stream_at w' StNone.
Proof.
  intros [Hu [Hs Hd]]. destruct w as [hu op dn st]. cbn in *. subst. eexists. split; [done|]. by split.
Qed.
End StreamStates.

(** * The invariant *)

(** Where the packet of the sender is: nowhere, handed over, being written from byte
    [u] on, [n] more bytes taken, or sent. *)
Inductive sphase := SIdle | SRequested | SWriting (u : Z) | SWaiting (u : Z) | SWrote (u n : Z) | SFinished.

(** Where the packet of the user is. *)
Inductive chain_phase := Idle | InMonitor (p : bytes) | InConnector (p : bytes) | Held (p : bytes) (sp : sphase) | Finished (p : bytes) | Returned (p : bytes).

Definition packet_of (ph : chain_phase) : option bytes :=
  match ph with Idle => None | InMonitor p | InConnector p | Held p _ | Finished p | Returned p => Some p end.

Definition mon_at (ph : chain_phase) : at_state :=
  match ph with Idle => AtNone | InMonitor p => AtOperation p | Returned _ => AtDone | _ => AtBusy end.

Definition con_at (ph : chain_phase) : at_state :=
  match ph with InConnector p => AtOperation p | Held _ _ => AtBusy | Finished _ => AtDone | _ => AtNone end.

Definition timer_at (ph : chain_phase) : bool := match con_at ph with AtNone => true | _ => false end.

Definition jobs_at (ph : chain_phase) : list chain_job :=
  match ph with
  | Idle => [] | InMonitor _ => [MonOperation] | InConnector _ => [ConOperation] | Finished _ => [ConDone] | Returned _ => [MonDone]
  | Held _ sp =>
      match sp with
      | SIdle | SWaiting _ => [] | SRequested => [SndOperation] | SWriting _ => [StrOperation] | SWrote _ _ => [StrDone] | SFinished => [SndDone]
      end
  end.

Definition sphase_of (ph : chain_phase) : sphase := match ph with Held _ sp => sp | _ => SIdle end.

Definition held_packet (ph : chain_phase) : bytes := default [] (packet_of ph).

Definition writing (s : PacketStreamSender) (p : bytes) (u : Z) : Prop :=
  ss_in_len s = blen p /\ ss_in s = Some (addr_of p) /\ ss_in_used s = u /\ 0 <= u < blen p.

Definition sender_ok (mtu : Z) (p : bytes) (s : PacketStreamSender) (w : StreamIf) (sp : sphase) : Prop :=
  match sp with
  | SIdle => ppi_at mtu (ss_input s) AtNone /\ ss_in_len s = -1 /\ stream_at w StNone
  | SRequested => ppi_at mtu (ss_input s) (AtOperation p) /\ ss_in_len s = -1 /\ stream_at w StNone
  | SWriting u => ppi_at mtu (ss_input s) AtBusy /\ writing s p u /\ stream_at w (StOperation p u)
  | SWaiting u => ppi_at mtu (ss_input s) AtBusy /\ writing s p u /\ stream_at w (StBusy p u)
  | SWrote u n => ppi_at mtu (ss_input s) AtBusy /\ writing s p u /\ 0 < n <= blen p - u /\ stream_at w (StDone n)
  | SFinished => ppi_at mtu (ss_input s) AtDone /\ ss_in_len s = -1 /\ stream_at w StNone
  end.

(** The sender of the server, and whether the connector has it as its output. *)
Definition server_ok (mtu : Z) (output : bool) (server : option (PacketStreamSender * StreamIf)) (ph : chain_phase) : Prop :=
  match server with
  | Some (s, w) => output = true /\ sender_ok mtu (held_packet ph) s w (sphase_of ph) /\ (forall p, ph <> Held p SIdle)
  | None => output = false /\ sphase_of ph = SIdle
  end.

Definition between (ph : chain_phase) : bool := match ph with Held _ _ => false | _ => true end.

Record chain_inv (c : chain) (ph : chain_phase) : Prop := {
  ci_mtu : 0 <= ch_mtu c /\ pc_input_mtu (ch_connector c) = ch_mtu c;
  ci_packet : blen (held_packet ph) <= ch_mtu c;
  ci_mon : ppi_at (ch_mtu c) (im_input (ch_monitor c)) (mon_at ph);
  ci_con : ppi_at (ch_mtu c) (pc_input (ch_connector c)) (con_at ph);
  ci_timer : im_timer (ch_monitor c) = timer_at ph;
  ci_in : match ph with
          | Held p _ => pc_in_len (ch_connector c) = blen p /\ pc_in (ch_connector c) = Some (addr_of p)
          | _ => pc_in_len (ch_connector c) = -1
          end;
  ci_server : server_ok (ch_mtu c) (pc_output (ch_connector c)) (ch_server c) ph;
  ci_jobs : ch_jobs c = jobs_at ph }.

(** ** The history *)

(** The packets from index [a] up to [c]. *)
Definition segment (ps : list bytes) (a c : nat) : list bytes := take (c - a) (drop a ps).

(** [covered ps streams c]: the streams, the last one first, got the packets before
    [c] in order: each whole packets from where the one before it ended, and a part
    of the next packet. *)
Inductive covered (ps : list bytes) : list bytes -> nat -> Prop :=
| covered_nil : covered ps [] 0
| covered_cons a c part cs : covered ps cs a -> (a <= c <= length ps)%nat ->
    (part = [] \/ exists p, ps !! c = Some p /\ part `prefix_of` p) ->
    covered ps ((List.concat (segment ps a c) ++ part) :: cs) c.

(** The stream of the current server got [part] of the packet at [c]. *)
Definition streams_ok (ps streams : list bytes) (c : nat) (open : option bytes) : Prop :=
  match open with
  | None => covered ps streams c
  | Some part => exists a cs, streams = (List.concat (segment ps a c) ++ part) :: cs /\ covered ps cs a /\ (a <= c)%nat
  end.

(** The index of the packet that is sent next, and how many the user was told of. *)
Definition position (ph : chain_phase) (n : nat) : nat :=
  match ph with InMonitor _ | InConnector _ | Held _ _ => n - 1 | _ => n end.
Definition told_at (ph : chain_phase) (n : nat) : nat := match ph with Idle => n | _ => n - 1 end.

Definition taken (ph : chain_phase) : bytes :=
  match ph with
  | Held p (SWriting u) | Held p (SWaiting u) => btake u p
  | Held p (SWrote u n) => btake (u + n) p
  | Held p SFinished => p
  | _ => []
  end.

Record hist_inv (c : chain) (ph : chain_phase) (h : history) : Prop := {
  hi_last : match packet_of ph with Some p => exists pre, h_packets h = pre ++ [p] | None => True end;
  hi_told : h_told h = told_at ph (length (h_packets h));
  hi_streams : streams_ok (h_packets h) (h_streams h) (position ph (length (h_packets h)))
                 (match ch_server c with Some _ => Some (taken ph) | None => None end) }.

Lemma segment_app ps qs a c : (c <= length ps)%nat -> segment (ps ++ qs) a c = segment ps a c.
Proof.
  intros Hc. unfold segment. destruct (decide (a <= c)%nat) as [Ha|Ha].
  - rewrite drop_app_le by lia. rewrite take_app_le by (rewrite length_drop; lia). done.
  - replace (c - a)%nat with 0%nat by lia. by rewrite !take_0.
Qed.

Lemma segment_nil ps a : segment ps a a = [].
Proof. unfold segment. by rewrite Nat.sub_diag, take_0. Qed.

Lemma segment_snoc pre p a : (a <= length pre)%nat ->
  List.concat (segment (pre ++ [p]) a (S (length pre))) = List.concat (segment (pre ++ [p]) a (length pre)) ++ p.
Proof.
  intros Ha. rewrite (segment_app pre [p] a (length pre)) by lia. unfold segment. rewrite drop_app_le by lia.
  rewrite (take_ge (drop a pre ++ [p])) by (rewrite length_app, length_drop; simpl; lia).
  rewrite (take_ge (drop a pre)) by (rewrite length_drop; lia). rewrite concat_app. simpl. by rewrite app_nil_r.
Qed.

Lemma covered_app ps q cs c : covered ps cs c -> covered (ps ++ [q]) cs c.
Proof.
  induction 1 as [|a c part cs Hc IH Ha Hp]; [constructor|]. rewrite <- (segment_app ps [q]) by lia.
  constructor; [done|rewrite length_app; simpl; lia|]. destruct Hp as [->|(p & E & Hp)]; [by left|]. right. exists p. split; [|done].
  by apply lookup_app_l_Some.
Qed.

Lemma covered_le ps cs c : covered ps cs c -> (c <= length ps)%nat.
Proof. destruct 1; lia. Qed.

Lemma streams_ok_le ps ss c o : streams_ok ps ss c o -> match o with None => (c <= length ps)%nat | Some _ => True end.
Proof. destruct o; [done|]. apply covered_le. Qed.

(** ** The steps *)

Definition step_ok (c : chain) (h : history) (e : chain_event) : Prop :=
  exists c' outs ph', chain_step c e = Some (c', outs) /\ chain_inv c' ph' /\ hist_inv c' ph' (fold_left observe outs (record_event h e)).

Lemma server_between mtu output server ph ph' : between ph = true -> between ph' = true ->
  server_ok mtu output server ph -> server_ok mtu output server ph'.
Proof.
  intros E E' H. destruct server as [[s w]|]; cbn in *.
  - destruct H as (-> & Hs & _). destruct ph, ph'; try done; (split; [done|]; split; [exact Hs|done]).
  - destruct H as [-> _]. by destruct ph'.
Qed.

Lemma taken_between ph : between ph = true -> taken ph = [].
Proof. by destruct ph. Qed.

Lemma send_data_ok mtu p s w u : ppi_at mtu (ss_input s) AtBusy -> ss_in_len s = blen p -> ss_in s = Some (addr_of p) ->
  ss_in_used s = u -> 0 <= u <= blen p -> stream_at w StNone ->
  exists s' w' sp, send_data ks kw s w [] = Some (s', w', jobs_at (Held p sp)) /\ sender_ok mtu p s' w' sp
    /\ taken (Held p sp) = btake u p /\ sp <> SIdle.
Proof.
  intros Hi Hl Hin Hu Hr Hw. unfold send_data. rewrite Hl, Hin, Hu. rewrite Z.geb_leb, (proj2 (Z.leb_le _ _)) by lia.
  destruct (Z.ltb_spec u (blen p)) as [Hlt|Hge]; cbn [mbind option_bind].
  - destruct (stream_send kw w p u [] Hw Hlt) as (w' & -> & Hw'). cbn [mbind option_bind]. exists s, w', (SWriting u).
    split; [done|]. split; [|done]. split; [done|]. split; [unfold writing; split_and!; (done || lia)|done].
  - destruct (at_complete ks mtu _ [] Hi) as (i & -> & Hi'). cbn [mbind option_bind]. eexists _, _, SFinished. split; [done|].
    split; [done|]. split; [|done]. cbn. assert (u = blen p) as -> by lia. by rewrite btake_all.
Qed.

(** Steps that only move the packet on. *)
Lemma hist_move c c' ph ph' h : hist_inv c ph h -> packet_of ph' = packet_of ph -> (forall n, told_at ph' n = told_at ph n) ->
  (forall n, position ph' n = position ph n) -> taken ph' = taken ph ->
  match ch_server c, ch_server c' with Some _, Some _ | None, None => True | _, _ => False end -> hist_inv c' ph' h.
Proof.
  intros [H1 H2 H3] E1 E2 E3 E4 E5. split; [by rewrite E1|by rewrite E2|]. rewrite E3, E4.
  by destruct (ch_server c), (ch_server c').
Qed.

Lemma chain_submit_ok c ph h p : chain_inv c ph -> hist_inv c ph h -> chain_allowed c (Submit p) -> step_ok c h (Submit p).
Proof.
  intros [I1 I2 I3 I4 I5 I6 I7 I8] [H1 H2 H3] [Hs Hp]. apply (at_none_state _ _ _ I3) in Hs as Hm.
  assert (ph = Idle) as -> by (by destruct ph). unfold step_ok, chain_step. cbn in I3.
  destruct (at_send km (ch_mtu c) _ p (ch_jobs c) I3 Hp) as (i & -> & Hi). cbn [mbind option_bind].
  eexists _, _, (InMonitor p). split; [done|]. split.
  - split; cbn -[server_ok]; try done; [by apply (server_between _ _ _ Idle)|by rewrite I8].
  - cbn in *. split; cbn; [by exists (h_packets h)|rewrite length_app; simpl; lia|]. rewrite length_app. cbn [length].
    replace (length (h_packets h) + 1 - 1)%nat with (length (h_packets h)) by lia.
    destruct (ch_server c); cbn in *; [|by apply covered_app]. destruct H3 as (a & cs & -> & Hc & Ha). exists a, cs.
    rewrite segment_app by lia. split; [done|]. split; [by apply covered_app|done].
Qed.

Lemma connect_ok c ph h : chain_inv c ph -> hist_inv c ph h -> chain_allowed c Connect -> step_ok c h Connect.
Proof.
  intros [[I0 I1] I2 I3 I4 I5 I6 I7 I8] [H1 H2 H3] Hs. cbn in Hs. unfold step_ok, chain_step, chain_connect. rewrite Hs in *.
  unfold PacketStreamSender_Init, PacketPassInterface_Init. cbn [negb]. rewrite !(proj2 (Z.geb_le _ _) I0). cbn.
  unfold PacketPassConnector_ConnectOutput. destruct I7 as [-> Hsp]. cbn. rewrite I1, (proj2 (Z.geb_le _ _)) by lia.
  set (i0 := set_ppi_if _ _). assert (Hi0 : ppi_at (ch_mtu c) i0 AtNone) by done.
  assert (Hopen : streams_ok (h_packets h) ([] :: h_streams h) (position ph (length (h_packets h))) (Some [])).
  { cbn in H3. exists (position ph (length (h_packets h))), (h_streams h). rewrite segment_nil. done. }
  destruct (between ph) eqn:Eb.
  - assert (Hin : pc_in_len (ch_connector c) = -1) by (by destruct ph). rewrite Hin. cbn -[server_ok].
    eexists _, _, ph. split; [done|]. split; [|split; cbn -[streams_ok]; [done..|by rewrite taken_between]].
    split; try done; [by destruct ph|]. by apply (server_between _ _ _ Idle).
  - destruct ph as [|p|p|p sp|p|p]; try done. cbn in Hsp, I6. subst sp. destruct I6 as [E1 E2]. rewrite E1, E2.
    pose proof (blen_nonneg p). rewrite (proj2 (Z.geb_le _ _)) by lia.
    destruct (at_send ks (ch_mtu c) i0 p (ch_jobs c) Hi0 I2) as (i & -> & Hi). cbn [mbind option_bind].
    eexists _, _, (Held p SRequested). split; [done|]. split; [|by split]. split; cbn; try done; [by rewrite I8].
Qed.

Lemma taken_prefix ph : taken ph `prefix_of` held_packet ph.
Proof.
  assert (Hb : forall n q, btake n q `prefix_of` q) by (intros n q; exists (bdrop n q); by rewrite btake_bdrop).
  destruct ph as [|p|p|p sp|p|p]; cbn; try apply prefix_nil. destruct sp; cbn; try apply prefix_nil; [apply Hb..|done].
Qed.

(** The phase after the server is gone. *)
Definition without_server (ph : chain_phase) : chain_phase := match ph with Held p _ => Held p SIdle | _ => ph end.

Lemma free_jobs ph : iface_Free kw (PacketStreamSender_Free ks (jobs_at ph)) = jobs_at (without_server ph).
Proof. by destruct ph as [| | |p []| |]. Qed.

Lemma disconnect_ok c ph h : chain_inv c ph -> hist_inv c ph h -> chain_allowed c Disconnect -> step_ok c h Disconnect.
Proof.
  intros [I1 I2 I3 I4 I5 I6 I7 I8] [H1 H2 H3] Hs. cbn in Hs. unfold step_ok, chain_step, chain_disconnect.
  destruct (ch_server c) as [[s w]|]; [|done]. destruct I7 as (Ho & _ & _). cbn [mbind option_bind].
  unfold PacketPassConnector_DisconnectOutput. rewrite Ho. cbn [mbind option_bind]. rewrite I8, free_jobs.
  eexists _, _, (without_server ph). split; [done|]. split.
  - split; cbn; try done; destruct ph; done.
  - assert (Hpk : packet_of (without_server ph) = packet_of ph) by (by destruct ph).
    assert (Hpo : forall n, position (without_server ph) n = position ph n) by (by destruct ph).
    split; cbn -[position]; [by rewrite Hpk|by destruct ph|]. rewrite Hpo. cbn in H3. destruct H3 as (a & cs & -> & Hc & Ha).
    pose proof (taken_prefix ph) as Hpre.
    destruct (packet_of ph) as [p|] eqn:Ep; [|destruct ph; try done; constructor; [done|cbn in *; lia|by left]].
    destruct H1 as [pre E]. rewrite E in *. rewrite length_app in *. cbn [length] in *. unfold held_packet in Hpre. rewrite Ep in Hpre.
    constructor; [done|split; [done|rewrite length_app; destruct ph; cbn in *; try done; lia]|].
    destruct ph as [|q|q|q sp|q|q]; cbn in *; try (by left). right. exists p. split; [|done].
    rewrite lookup_app_r by lia. by replace (length pre + 1 - 1 - length pre)%nat with 0%nat by lia.
Qed.

Lemma take_ok c ph h n : chain_inv c ph -> hist_inv c ph h -> chain_allowed c (Take n) -> step_ok c h (Take n).
Proof.
  intros [I1 I2 I3 I4 I5 I6 I7 I8] [H1 H2 H3] (len & Hw & Hn). unfold stream_waits in Hw. unfold step_ok, chain_step.
  destruct (ch_server c) as [[s w]|] eqn:Es; [|done]. destruct I7 as (Ho & Hsnd & Hne).
  assert (exists p u, ph = Held p (SWaiting u)) as (p & u & ->).
  { destruct ph as [|p|p|p sp|p|p]; cbn in Hsnd; [..|destruct sp; cbn in Hsnd| |]; try (by eexists _, _); exfalso;
      repeat match goal with H : _ /\ _ |- _ => destruct H end;
      match goal with H : stream_at _ _ |- _ => destruct H as [_ H]; cbn in H end;
      repeat match goal with H : _ /\ _ |- _ => destruct H end;
      match goal with H : if_state w = _ |- _ => rewrite H in Hw end; done. }
  cbn in Hsnd. destruct Hsnd as (Hi & Hwr & Hst). pose proof Hwr as (W1 & W2 & W3 & W4). pose proof Hst as [_ [Hb Hop]].
  rewrite Hb, Hop in Hw. cbn in Hw. injection Hw as <-. cbn [mbind option_bind]. rewrite Hop. cbn [mbind option_bind].
  rewrite mem_read_in by (cbn; lia). cbn [mbind option_bind obj off advance addr_of].
  destruct (stream_take kw w p u n (ch_jobs c) Hst) as (w' & -> & Hw'); [lia|]. cbn [mbind option_bind].
  eexists _, _, (Held p (SWrote u n)). split; [done|]. split.
  - split; cbn; try done. by rewrite I8.
  - cbn in *. destruct H3 as (a & cs & E & Hc & Ha). split; cbn; [done|done|]. exists a, cs. rewrite E. split; [|by split].
    rewrite <- app_assoc. f_equal. rewrite btake_plus by lia. by rewrite Z.add_0_l.
Qed.

Lemma expire_ok c ph h : chain_inv c ph -> hist_inv c ph h -> chain_allowed c Expire -> step_ok c h Expire.
Proof.
  intros [I1 I2 I3 I4 I5 I6 I7 I8] H Hs. cbn in Hs. unfold step_ok, chain_step, monitor_timer_handler. cbn.
  eexists _, _, ph. split; [done|]. split; [split; cbn; try done; congruence|].
  assert (Hh : forall x : bool, fold_left observe (if x then [Inactive] else []) h = h) by (by intros []). rewrite Hh.
  destruct H as [H1 H2 H3]. by split.
Qed.

(** What a job does, on the phase that set it. *)
Lemma execute_between_ok c ph h : chain_inv c ph -> hist_inv c ph h -> between ph = true -> ch_jobs c <> [] -> step_ok c h Execute.
Proof.
  intros [[I0 I1] I2 I3 I4 I5 I6 I7 I8] Hh Hb Hj. unfold step_ok, chain_step, chain_execute. rewrite I8 in *.
  destruct ph as [|p|p|p sp|p|p]; try done; cbn in I3, I4, I6; cbn [jobs_at].
  - destruct (at_operation _ _ _ I3) as (i & -> & Hi). cbn [mbind option_bind fst snd]. unfold monitor_input_handler_send.
    destruct (at_send kc (ch_mtu c) _ p [] I4 I2) as (ci & -> & Hci). cbn [mbind option_bind].
    eexists _, _, (InConnector p). split; [done|]. split; [|by apply (hist_move c _ (InMonitor p)); try done; cbn; destruct (ch_server c)].
    split; cbn -[server_ok]; try done. by apply (server_between _ _ _ (InMonitor p)).
  - destruct (at_operation _ _ _ I4) as (i & -> & Hi). cbn [mbind option_bind fst snd]. unfold connector_input_handler_send. cbn.
    pose proof (blen_nonneg p). cbn in I2. rewrite (proj2 (Z.geb_le _ _)), I1, (proj2 (Z.leb_le _ _)), I6 by lia. cbn.
    destruct (ch_server c) as [[s w]|] eqn:Es.
    + destruct I7 as (Ho & (Hs & Hl & Hw) & _). rewrite Ho. cbn [mbind option_bind].
      destruct (at_send ks (ch_mtu c) _ p [] Hs I2) as (si & -> & Hsi). cbn [mbind option_bind].
      eexists _, _, (Held p SRequested). split; [done|]. split; [|apply (hist_move c _ (InConnector p)); try done; cbn; by rewrite Es].
      split; cbn; try done.
    + destruct I7 as [Ho _]. rewrite Ho. eexists _, _, (Held p SIdle). split; [done|].
      split; [|apply (hist_move c _ (InConnector p)); try done; cbn; by rewrite Es]. by split.
  - destruct (at_finish _ _ I4) as (i & -> & Hi). cbn [mbind option_bind]. unfold monitor_output_handler_done. cbn [im_input set_monitor].
    destruct (at_complete km (ch_mtu c) _ [] I3) as (mi & -> & Hmi). cbn [mbind option_bind].
    eexists _, _, (Returned p). split; [done|]. split; [|by apply (hist_move c _ (Finished p)); try done; cbn; destruct (ch_server c)].
    split; cbn -[server_ok]; try done. by apply (server_between _ _ _ (Finished p)).
  - destruct (at_finish _ _ I3) as (i & -> & Hi). cbn [mbind option_bind].
    eexists _, _, Idle. split; [done|]. split.
    + split; cbn -[server_ok]; try done. by apply (server_between _ _ _ (Returned p)).
    + destruct Hh as [[pre E] H2 H3]. cbn in *. split; cbn; [done| |by destruct (ch_server c)]. rewrite H2, E, length_app. simpl. lia.
Qed.

Lemma execute_held_ok c p sp h : chain_inv c (Held p sp) -> hist_inv c (Held p sp) h -> ch_jobs c <> [] -> step_ok c h Execute.
Proof.
  intros [[I0 I1] I2 I3 I4 I5 I6 I7 I8] Hh Hj. unfold step_ok, chain_step, chain_execute. rewrite I8 in *. cbn in I2, I6.
  destruct (ch_server c) as [[s w]|] eqn:Es; [|destruct I7 as [_ E]; cbn in E; by subst sp].
  destruct I7 as (Ho & Hs & _). cbn in Hs. pose proof (blen_nonneg p) as Hp.
  destruct sp as [| |u|u|u n|]; try done; cbn [jobs_at mbind option_bind].
  - destruct Hs as (Hi & Hl & Hw). destruct (at_operation _ _ _ Hi) as (i & -> & Hi'). cbn [mbind option_bind fst snd].
    unfold sender_input_handler_send. cbn [ss_in_len set_snd_input]. rewrite Hl, (proj2 (Z.geb_le _ _)) by lia. cbn [Z.eqb Pos.eqb].
    destruct (send_data_ok (ch_mtu c) p {| ss_input := i; ss_in_len := blen p; ss_in := Some (addr_of p); ss_in_used := 0 |} w 0)
      as (s' & w' & sp' & Hsd & Hok & Ht & Hne); [done..|lia|done|].
    cbn [set_snd_input ss_input]. rewrite Hsd. cbn [mbind option_bind]. eexists _, _, (Held p sp'). split; [done|].
    split; [|apply (hist_move c _ (Held p SRequested)); try done; cbn; by rewrite Es].
    split; cbn -[server_ok jobs_at]; try done. split; [done|]. split; [done|]. by intros q [= _ E].
  - destruct Hs as (Hi & Hwr & Hst). destruct (stream_operation _ _ _ Hst) as (a & w' & -> & Hw'). cbn [mbind option_bind].
    eexists _, _, (Held p (SWaiting u)). split; [done|]. split; [|apply (hist_move c _ (Held p (SWriting u))); try done; cbn; by rewrite Es].
    split; cbn; try done.
  - destruct Hs as (Hi & (W1 & W2 & W3 & W4) & Hn & Hst). destruct (stream_finish _ _ Hst) as (w' & -> & Hw'). cbn [mbind option_bind].
    unfold sender_output_handler_done. rewrite W1, W3, (proj2 (Z.geb_le _ _)), Z.gtb_ltb, (proj2 (Z.ltb_lt _ _)), (proj2 (Z.leb_le _ _)) by lia.
    destruct (send_data_ok (ch_mtu c) p {| ss_input := ss_input s; ss_in_len := blen p; ss_in := ss_in s; ss_in_used := u + n |} w' (u + n))
      as (s' & w2 & sp' & Hsd & Hok & Ht & Hne); [done..|lia|done|].
    rewrite Hsd. cbn [mbind option_bind]. eexists _, _, (Held p sp'). split; [done|].
    split; [|apply (hist_move c _ (Held p (SWrote u n))); try done; cbn; by rewrite Es].
    split; cbn -[server_ok jobs_at]; try done. split; [done|]. split; [done|]. by intros q [= _ E].
  - destruct Hs as (Hi & Hl & Hw). destruct (at_finish _ _ Hi) as (i & -> & Hi'). cbn [mbind option_bind].
    unfold connector_output_handler_done. destruct I6 as [E1 E2]. rewrite E1, Ho, (proj2 (Z.geb_le _ _)) by lia. cbn [pc_input set_connector].
    destruct (at_complete kc (ch_mtu c) _ [] I4) as (ci & -> & Hci). cbn [mbind option_bind].
    eexists _, _, (Finished p). split; [done|]. split; [by split|].
    destruct Hh as [[pre E] H2 H3]. rewrite Es in H3. cbn -[segment] in *. destruct H3 as (a & cs & Hcs & Hc & Ha).
    rewrite E, length_app in *. cbn [length] in *. replace (length pre + 1 - 1)%nat with (length pre) in * by lia.
    split; cbn -[segment]; [by exists pre|rewrite H2, E, length_app; simpl; lia|]. rewrite E, length_app. cbn [length].
    exists a, cs. rewrite app_nil_r, Nat.add_1_r, segment_snoc by lia. split; [done|]. split; [done|lia].
Qed.

Lemma chain_step_ok c ph h e : chain_inv c ph -> hist_inv c ph h -> chain_allowed c e -> step_ok c h e.
Proof.
  intros Hi Hh Ha. destruct e as [p| | | |n|]; [by eapply chain_submit_ok| |by eapply connect_ok|by eapply disconnect_ok|by eapply take_ok|by eapply expire_ok].
  destruct ph as [|p|p|p sp|p|p]; try (by eapply execute_between_ok). by eapply execute_held_ok.
Qed.

Lemma chain_run_ok es : forall c ph h, chain_inv c ph -> hist_inv c ph h -> chain_allowed_run c es ->
  exists c' h' ph', chain_run c h es = Some (c', h') /\ chain_inv c' ph' /\ hist_inv c' ph' h'.
Proof.
  induction es as [|e es IH]; intros c ph h Hi Hh Ha; [by exists c, h, ph|]. destruct Ha as [Ha Hes].
  destruct (chain_step_ok c ph h e Hi Hh Ha) as (c1 & outs & ph1 & E & Hi1 & Hh1). cbn [chain_run]. rewrite E in Hes |- *.
  cbn [mbind option_bind]. by apply (IH c1 ph1).
Qed.

Lemma chain_init_ok mtu : 0 <= mtu -> exists c, chain_init mtu = Some c /\ chain_inv c Idle /\ hist_inv c Idle no_history /\ ch_mtu c = mtu.
Proof.
  intros Hm. unfold chain_init, PacketPassConnector_Init, PacketPassInterface_Init. rewrite (proj2 (Z.geb_le _ _) Hm).
  cbn. unfold PacketPassInactivityMonitor_Init, PacketPassInterface_Init. cbn. rewrite (proj2 (Z.geb_le _ _) Hm). cbn.
  eexists. split; [done|]. split; [by split|]. split; [|done]. split; cbn; [done|done|constructor].
Qed.

(** The chain goes on by itself: a job is pending, or the stream of the server is
    asked to take bytes. *)
Definition chain_busy (c : chain) : Prop := ch_jobs c <> [] \/ exists len, stream_waits c = Some len /\ 0 < len.

Lemma chain_inv_busy c ph : chain_inv c ph -> packet_of ph <> None -> ch_server c <> None -> chain_busy c.
Proof.
  intros [_ _ _ _ _ _ I7 I8] Hp Hs. unfold chain_busy, stream_waits. rewrite I8. destruct (ch_server c) as [[s w]|]; [|done].
  destruct I7 as (_ & Hok & Hne). destruct ph as [|p|p|p sp|p|p]; try done; try (by left). destruct sp as [| |u|u|u n|]; try (by left).
  - by destruct (Hne p).
  - right. destruct Hok as (_ & (_ & _ & _ & Hu) & [_ [Hb Ho]]). rewrite Hb, Ho. eexists. split; [done|]. cbn in *. lia.
Qed.

Lemma chain_inv_timer c ph : chain_inv c ph -> im_timer (ch_monitor c) = state_is (if_state (ppi_if (pc_input (ch_connector c)))) STATE_NONE.
Proof.
  intros [_ _ _ [_ _ _ I4] I5 _ _ _]. rewrite I5. unfold timer_at. destruct (con_at ph); [by rewrite I4|destruct I4 as [-> _]|rewrite I4|destruct I4 as [-> _]]; done.
Qed.

(** C13. Whatever servers come and go, and however their streams take the bytes, the chain
    never faults.  The packets before some index [c] were sent completely and in
    order: every server got whole packets, from where the server before it ended, and
    a part of the next one, which the next server gets again from its beginning.  The
    user was told of each packet once, at most one late, and never of one that was
    not sent.  A packet that is not yet reported moves on as long as there is a
    server, and the inactivity timer runs exactly while nothing is being sent. *)
Theorem chain_sends_packets mtu es c0 : 0 <= mtu -> chain_init mtu = Some c0 -> chain_allowed_run c0 es ->
  exists c h k, chain_run c0 no_history es = Some (c, h)
    /\ covered (h_packets h) (h_streams h) k
    /\ (h_told h <= k <= length (h_packets h))%nat /\ (length (h_packets h) <= h_told h + 1)%nat
    /\ ((h_told h < length (h_packets h))%nat -> ch_server c <> None -> chain_busy c)
    /\ im_timer (ch_monitor c) = state_is (if_state (ppi_if (pc_input (ch_connector c)))) STATE_NONE.
Proof.
  intros Hm Hc Ha. destruct (chain_init_ok mtu Hm) as (c1 & E & Hi & Hh & _). rewrite Hc in E. injection E as <-.
  destruct (chain_run_ok es c0 Idle no_history Hi Hh Ha) as (c & h & ph & Er & Hi' & Hh').
  pose proof (chain_inv_timer _ _ Hi') as Ht. pose proof (chain_inv_busy _ _ Hi') as Hb. destruct Hh' as [H1 H2 H3].
  assert (Hlen : packet_of ph = None \/ (1 <= length (h_packets h))%nat).
  { destruct (packet_of ph); [right|by left]. destruct H1 as [pre ->]. rewrite length_app. simpl. lia. }
  exists c, h, (position ph (length (h_packets h))). split; [done|]. split.
  - destruct (ch_server c) as [sv|]; [|done]. cbn -[segment] in H3. destruct H3 as (a & cs & -> & Hcov & Hle).
    constructor; [done|destruct ph; cbn in *; lia|]. pose proof (taken_prefix ph) as Hp.
    destruct ph as [|q|q|q sp|q|q]; try (by left). right. cbn in H1. destruct H1 as [pre Epk]. exists q. split; [|done].
    rewrite Epk. cbn. rewrite length_app. cbn. rewrite lookup_app_r by lia. by replace (length pre + 1 - 1 - length pre)%nat with 0%nat by lia.
  - rewrite H2. split; [destruct ph, Hlen; cbn in *; try done; lia|]. split; [destruct ph; cbn in *; lia|]. split; [|done].
    intros Hlt. apply Hb. destruct ph; cbn in *; try done; lia.
Qed.

(** Two packets; the first server takes three bytes of the first packet and goes, the
    second one gets both. *)
Definition ex_chain : chain :=
  match chain_init 10 with
  | Some c => c
  | None => {| ch_mtu := 0; ch_monitor := {| im_input := {| ppi_mtu := 0; ppi_handler_requestcancel := false; ppi_if := iface_Init; ppi_cancel_requested := false |};
                                             im_handler := false; im_timer := false |};
               ch_connector := {| pc_input := {| ppi_mtu := 0; ppi_handler_requestcancel := false; ppi_if := iface_Init; ppi_cancel_requested := false |};
                                  pc_input_mtu := 0; pc_in_len := -1; pc_in := None; pc_output := false |};
               ch_server := None; ch_jobs := [] |}
  end.

Definition ex_sends : list chain_event :=
  [Expire; Submit [1; 2; 3; 4; 5]; Execute; Execute; Connect; Execute; Execute; Take 3; Execute; Disconnect; Connect; Execute; Execute;
   Take 2; Execute; Execute; Take 3; Execute; Execute; Execute; Execute; Submit [6]; Execute; Execute; Execute; Execute; Take 1].

Example ex_sends_streams :
  (snd <$> chain_run ex_chain no_history ex_sends) = Some {| h_packets := [[1; 2; 3; 4; 5]; [6]]; h_told := 1; h_streams := [[1; 2; 3; 4; 5; 6]; [1; 2; 3]] |}.
Proof. vm_compute. reflexivity. Qed.

Lemma chain_sends_packets_witness :
  exists c h k, chain_run ex_chain no_history ex_sends = Some (c, h)
    /\ covered (h_packets h) (h_streams h) k
    /\ (h_told h <= k <= length (h_packets h))%nat /\ (length (h_packets h) <= h_told h + 1)%nat
    /\ ((h_told h < length (h_packets h))%nat -> ch_server c <> None -> chain_busy c)
    /\ im_timer (ch_monitor c) = state_is (if_state (ppi_if (pc_input (ch_connector c)))) STATE_NONE.
Proof.
  apply (chain_sends_packets 10 ex_sends ex_chain); [done|vm_compute; reflexivity|].
  vm_compute. repeat split; try done; try (eexists; split; [reflexivity|split; done]).
Defined.
