(* ===== verification/FairQueue.v ===== *)
(** flow/PacketPassFairQueue.c: the queue that shares the connection to the UDP
    gateway between the flows of the connections.

    Every flow has a time, a 64-bit counter that grows with the bytes it sent; of
    the flows with a packet waiting the one with the least time is served.  The
    queue is proved against the interface [SortedTree] of its tree and runs with
    the tree of CAvl.v.  A packet is the pair of its address and its length; the
    list of all flows is a linked list in the store of its nodes.

    [input_handler_send], [output_handler_done] and [schedule_job_handler] are
    called by the interface of a flow, by the output and by the job; [fq_event] has
    these calls and those of the user.  [fl_busy] and [output_busy] say whether
    the packet pass interface of the flow and of the output are in the middle of
    an operation: a handler is called, and a packet is passed on, only as the
    states of these interfaces allow.  [None] is a failed ASSERT or an invalid
    access. *)

From S2P Require Import Prelude ByteOrder BAddr BAVL SLinkedList LinkedList1 FlowInterface SortedTree CAvl.
From stdpp Require Import gmap.
From Stdlib Require Import Sorting.Sorted.
Open Scope Z_scope.

Definition FAIRQUEUE_MAX_TIME : Z := 2 ^ 64 - 1.

Record Flow := {
  fl_handler_busy : bool;         (* handler_busy is set *)
  fl_busy : bool;                 (* the input has accepted a packet *)
  fl_time : Z;
  fl_is_queued : bool;
  fl_data : ptr;                  (* queued.data *)
  fl_data_len : Z }.
Abbreviation flowmap := (gmap ptr Flow).

Definition with_time (f : Flow) (t : Z) : Flow :=
  {| fl_handler_busy := fl_handler_busy f; fl_busy := fl_busy f; fl_time := t; fl_is_queued := fl_is_queued f;
     fl_data := fl_data f; fl_data_len := fl_data_len f |}.
Definition with_queued (f : Flow) (q : bool) : Flow :=
  {| fl_handler_busy := fl_handler_busy f; fl_busy := fl_busy f; fl_time := fl_time f; fl_is_queued := q;
     fl_data := fl_data f; fl_data_len := fl_data_len f |}.
Definition with_packet (f : Flow) (data : ptr) (data_len : Z) : Flow :=
  {| fl_handler_busy := fl_handler_busy f; fl_busy := fl_busy f; fl_time := fl_time f; fl_is_queued := fl_is_queued f;
     fl_data := data; fl_data_len := data_len |}.
Definition with_busy (f : Flow) (b : bool) : Flow :=
  {| fl_handler_busy := fl_handler_busy f; fl_busy := b; fl_time := fl_time f; fl_is_queued := fl_is_queued f;
     fl_data := fl_data f; fl_data_len := fl_data_len f |}.
Definition with_handler_busy (f : Flow) (b : bool) : Flow :=
  {| fl_handler_busy := b; fl_busy := fl_busy f; fl_time := fl_time f; fl_is_queued := fl_is_queued f;
     fl_data := fl_data f; fl_data_len := fl_data_len f |}.

Definition flow_time (flows : flowmap) (f : ptr) : Z := match flows !! f with Some x => fl_time x | None => 0 end.

Definition compare_flows (flows : flowmap) (f1 f2 : ptr) : Z :=
  let cmp := B_COMPARE (flow_time flows f1) (flow_time flows f2) in
  if negb (cmp =? 0) then cmp else B_COMPARE f1 f2.

(** What the queue asks of others. *)
Inductive fq_effect :=
| ESend (data : ptr) (data_len : Z)     (* PacketPassInterface_Sender_Send of the output *)
| EDone (f : ptr)                       (* PacketPassInterface_Done of a flow's input *)
| EBusy (f : ptr)                       (* the flow's handler_busy *)
| ECancel.                              (* PacketPassInterface_Sender_RequestCancel *)

Section FairQueue.
Context {T : Type} `{TreeOps T}.

Record PacketPassFairQueue := {
  fq_mtu : Z;                     (* PacketPassInterface_GetMTU(output) *)
  use_cancel : bool;
  packet_weight : Z;
  output_busy : bool;             (* the output has a packet *)
  sending_flow : option ptr;
  sending_len : Z;
  previous_flow : option ptr;
  queued_tree : T;
  flows_list : LinkedList1;
  list_nodes : store;
  freeing : bool;
  schedule_job : bool;            (* schedule_job is set *)
  flows : flowmap }.

Definition set_queue (m : PacketPassFairQueue) (busy : bool) (sending : option ptr) (len : Z) (prev : option ptr) (tree : T)
    (job : bool) (fl : flowmap) : PacketPassFairQueue :=
  {| fq_mtu := fq_mtu m; use_cancel := use_cancel m; packet_weight := packet_weight m; output_busy := busy;
     sending_flow := sending; sending_len := len; previous_flow := prev; queued_tree := tree; flows_list := flows_list m;
     list_nodes := list_nodes m; freeing := freeing m; schedule_job := job; flows := fl |}.
Definition set_list (m : PacketPassFairQueue) (l : LinkedList1) (h : store) (fl : flowmap) : PacketPassFairQueue :=
  {| fq_mtu := fq_mtu m; use_cancel := use_cancel m; packet_weight := packet_weight m; output_busy := output_busy m;
     sending_flow := sending_flow m; sending_len := sending_len m; previous_flow := previous_flow m; queued_tree := queued_tree m;
     flows_list := l; list_nodes := h; freeing := freeing m; schedule_job := schedule_job m; flows := fl |}.
Definition set_flows (m : PacketPassFairQueue) (fl : flowmap) : PacketPassFairQueue :=
  set_list m (flows_list m) (list_nodes m) fl.
Definition set_freeing (m : PacketPassFairQueue) : PacketPassFairQueue :=
  {| fq_mtu := fq_mtu m; use_cancel := use_cancel m; packet_weight := packet_weight m; output_busy := output_busy m;
     sending_flow := sending_flow m; sending_len := sending_len m; previous_flow := previous_flow m; queued_tree := queued_tree m;
     flows_list := flows_list m; list_nodes := list_nodes m; freeing := true; schedule_job := schedule_job m; flows := flows m |}.

Definition get_current_time (m : PacketPassFairQueue) : option Z :=
  match sending_flow m with
  | Some f => fl_time <$> flows m !! f
  | None =>
      first ← Tree_GetFirst (queued_tree m);
      have ← match first with
             | Some f => x ← flows m !! f; ASSERT fl_is_queued x; Some (Some (fl_time x))
             | None => Some None
             end;
      match previous_flow m with
      | Some p =>
          x ← flows m !! p;
          match have with
          | Some time => Some (if fl_time x <? time then fl_time x else time)
          | None => Some (fl_time x)
          end
      | None => Some (match have with Some time => time | None => 0 end)
      end
  end.

(** The loop of increment_sent_flow over the list of flows. *)
Fixpoint subtract_loop (fuel : nat) (h : store) (fl : flowmap) (node : option ptr) (flow : ptr) (subtract : Z) : option flowmap :=
  match node with
  | None => Some fl
  | Some someflow =>
      match fuel with
      | O => None
      | S fuel =>
          x ← fl !! someflow;
          x ← (if (subtract >? fl_time x) && negb (someflow =? flow)
               then ASSERT negb (fl_is_queued x); Some (with_time x 0)
               else Some (with_time x (u64 (fl_time x - subtract))));
          next ← LinkedList1Node_Next h someflow;
          subtract_loop fuel h (<[someflow := x]> fl) next flow subtract
      end
  end.

Definition increment_sent_flow (m : PacketPassFairQueue) (flow : ptr) (amount : Z) : option PacketPassFairQueue :=
  ASSERT amount <=? FAIRQUEUE_MAX_TIME;
  x ← flows m !! flow;
  ASSERT negb (fl_is_queued x);
  ASSERT negb (nonnull (sending_flow m));
  fl ← (if amount >? FAIRQUEUE_MAX_TIME - fl_time x then
          first ← Tree_GetFirst (queued_tree m);
          subtract ← match first with
                     | None => Some (fl_time x)
                     | Some f => y ← flows m !! f; ASSERT fl_is_queued y; Some (fl_time y)
                     end;
          subtract_loop (S (size (list_nodes m))) (list_nodes m) (flows m) (LinkedList1_GetFirst (flows_list m)) flow subtract
        else Some (flows m));
  x ← fl !! flow;
  Some (set_flows m (<[flow := with_time x (u64 (fl_time x + amount))]> fl)).

Definition schedule (m : PacketPassFairQueue) : option (PacketPassFairQueue * list fq_effect) :=
  ASSERT negb (nonnull (sending_flow m));
  ASSERT negb (nonnull (previous_flow m));
  ASSERT negb (freeing m);
  ASSERT negb (Tree_IsEmpty (queued_tree m));
  first ← Tree_GetFirst (queued_tree m);
  qflow ← first;
  x ← flows m !! qflow;
  ASSERT fl_is_queued x;
  tree ← Tree_Remove (queued_tree m) qflow;
  ASSERT negb (output_busy m);
  ASSERT (0 <=? fl_data_len x) && (fl_data_len x <=? fq_mtu m);
  Some (set_queue m true (Some qflow) (fl_data_len x) (previous_flow m) tree (schedule_job m) (<[qflow := with_queued x false]> (flows m)),
        [ESend (fl_data x) (fl_data_len x)]).

(** The job is taken off the pending jobs before its handler is called. *)
Definition schedule_job_handler (m : PacketPassFairQueue) : option (PacketPassFairQueue * list fq_effect) :=
  ASSERT negb (nonnull (sending_flow m));
  ASSERT negb (freeing m);
  let m := set_queue m (output_busy m) (sending_flow m) (sending_len m) None (queued_tree m) (schedule_job m) (flows m) in
  if negb (Tree_IsEmpty (queued_tree m)) then schedule m else Some (m, []).

Definition input_handler_send (m : PacketPassFairQueue) (flow : ptr) (data : ptr) (data_len : Z)
    : option (PacketPassFairQueue * list fq_effect) :=
  ASSERT negb (bool_decide (sending_flow m = Some flow));
  x ← flows m !! flow;
  ASSERT negb (fl_is_queued x);
  ASSERT negb (freeing m);
  '(prev, x) ← (if bool_decide (previous_flow m = Some flow) then Some (None, x)
                else now ← get_current_time m; Some (previous_flow m, with_time x (Z.max (fl_time x) now)));
  let x := with_packet x data data_len in
  let fl := <[flow := x]> (flows m) in
  '(tree, res, _) ← Tree_Insert (compare_flows fl) (queued_tree m) flow;
  ASSERT (res : bool);
  let fl := <[flow := with_queued x true]> fl in
  let m := set_queue m (output_busy m) (sending_flow m) (sending_len m) prev tree (schedule_job m) fl in
  if negb (nonnull (sending_flow m)) && negb (schedule_job m) then schedule m else Some (m, []).

Definition output_handler_done (m : PacketPassFairQueue) : option (PacketPassFairQueue * list fq_effect) :=
  flow ← sending_flow m;
  ASSERT negb (nonnull (previous_flow m));
  ASSERT negb (schedule_job m);
  ASSERT negb (freeing m);
  x ← flows m !! flow;
  ASSERT negb (fl_is_queued x);
  let m := set_queue m (output_busy m) None (sending_len m) (Some flow) (queued_tree m) (schedule_job m) (flows m) in
  m ← increment_sent_flow m flow (u64 (packet_weight m + sending_len m));
  let m := set_queue m (output_busy m) (sending_flow m) (sending_len m) (previous_flow m) (queued_tree m) true (flows m) in
  x ← flows m !! flow;
  ASSERT fl_busy x;
  let m := set_flows m (<[flow := with_busy x false]> (flows m)) in
  if fl_handler_busy x
  then Some (set_flows m (<[flow := with_handler_busy (with_busy x false) false]> (flows m)), [EDone flow; EBusy flow])
  else Some (m, [EDone flow]).

Definition PacketPassFairQueue_Init (mtu weight : Z) (cancel has_cancel : bool) : option (option PacketPassFairQueue) :=
  ASSERT weight >? 0;
  ASSERT negb cancel || has_cancel;
  if negb ((mtu <=? FAIRQUEUE_MAX_TIME) && (weight <=? u64 (FAIRQUEUE_MAX_TIME - mtu))) then Some None else
  Some (Some {| fq_mtu := mtu; use_cancel := cancel; packet_weight := weight; output_busy := false; sending_flow := None;
                sending_len := 0; previous_flow := None; queued_tree := Tree_Init; flows_list := LinkedList1_Init; list_nodes := ∅;
                freeing := false; schedule_job := false; flows := ∅ |}).

Definition PacketPassFairQueue_Free (m : PacketPassFairQueue) : option unit :=
  ASSERT LinkedList1_IsEmpty (flows_list m);
  ASSERT Tree_IsEmpty (queued_tree m);
  ASSERT negb (nonnull (previous_flow m));
  ASSERT negb (nonnull (sending_flow m));
  Some ().

Definition PacketPassFairQueue_PrepareFree (m : PacketPassFairQueue) : PacketPassFairQueue := set_freeing m.
Definition PacketPassFairQueue_GetMTU (m : PacketPassFairQueue) : Z := fq_mtu m.

(** The flow object at a new address, with its list node. *)
Definition PacketPassFairQueueFlow_Init (m : PacketPassFairQueue) (flow : ptr) : option PacketPassFairQueue :=
  ASSERT negb (freeing m);
  let h := <[flow := {| l1_p := None; l1_n := None |}]> (list_nodes m) in
  '(l, h) ← LinkedList1_Append (flows_list m) h flow;
  Some (set_list m l h (<[flow := {| fl_handler_busy := false; fl_busy := false; fl_time := 0; fl_is_queued := false;
                                     fl_data := 0; fl_data_len := 0 |}]> (flows m))).

Definition PacketPassFairQueueFlow_Free (m : PacketPassFairQueue) (flow : ptr) : option PacketPassFairQueue :=
  ASSERT freeing m || negb (bool_decide (sending_flow m = Some flow));
  x ← flows m !! flow;
  let sending := if bool_decide (sending_flow m = Some flow) then None else sending_flow m in
  let prev := if bool_decide (previous_flow m = Some flow) then None else previous_flow m in
  tree ← (if fl_is_queued x then Tree_Remove (queued_tree m) flow else Some (queued_tree m));
  '(l, h) ← LinkedList1_Remove (flows_list m) (list_nodes m) flow;
  Some (set_list (set_queue m (output_busy m) sending (sending_len m) prev tree (schedule_job m) (flows m)) l (delete flow h) (delete flow (flows m))).

Definition PacketPassFairQueueFlow_IsBusy (m : PacketPassFairQueue) (flow : ptr) : option bool :=
  ASSERT negb (freeing m); Some (bool_decide (sending_flow m = Some flow)).

Definition PacketPassFairQueueFlow_RequestCancel (m : PacketPassFairQueue) (flow : ptr) : option (PacketPassFairQueue * list fq_effect) :=
  ASSERT bool_decide (sending_flow m = Some flow);
  ASSERT use_cancel m;
  ASSERT negb (freeing m);
  ASSERT negb (schedule_job m);
  ASSERT output_busy m;
  Some (m, [ECancel]).

Definition PacketPassFairQueueFlow_SetBusyHandler (m : PacketPassFairQueue) (flow : ptr) (handler : bool) : option PacketPassFairQueue :=
  ASSERT bool_decide (sending_flow m = Some flow);
  ASSERT negb (freeing m);
  x ← flows m !! flow;
  Some (set_flows m (<[flow := with_handler_busy x handler]> (flows m))).

(** * The queue at work *)

Inductive fq_event :=
| FlowInit (f : ptr) | FlowFree (f : ptr)
| FlowSend (f data : ptr) (data_len : Z)        (* the input of the flow has a packet *)
| OutputDone                                    (* the output is done with a packet *)
| ScheduleJob                                   (* the job runs *)
| RequestCancel (f : ptr) | SetBusyHandler (f : ptr) (handler : bool)
| PrepareFree.

(** When an event can happen: the interfaces call a handler only in the state
    that belongs to it, a job runs when it is set, and the user keeps to the
    header file. *)
Definition allowed (m : PacketPassFairQueue) (e : fq_event) : Prop :=
  match e with
  | FlowInit f => freeing m = false /\ flows m !! f = None
  | FlowFree f => is_Some (flows m !! f) /\ (freeing m = true \/ sending_flow m <> Some f)
  | FlowSend f _ len => freeing m = false /\ 0 <= len <= fq_mtu m /\ exists x, flows m !! f = Some x /\ fl_busy x = false
  | OutputDone => freeing m = false /\ output_busy m = true
  | ScheduleJob => freeing m = false /\ schedule_job m = true
  | RequestCancel f => freeing m = false /\ sending_flow m = Some f /\ use_cancel m = true
  | SetBusyHandler f _ => freeing m = false /\ sending_flow m = Some f
  | PrepareFree => True
  end.

Definition fq_step (m : PacketPassFairQueue) (e : fq_event) : option (PacketPassFairQueue * list fq_effect) :=
  match e with
  | FlowInit f => m ← PacketPassFairQueueFlow_Init m f; Some (m, [])
  | FlowFree f => m ← PacketPassFairQueueFlow_Free m f; Some (m, [])
  | FlowSend f data len =>
      x ← flows m !! f;
      input_handler_send (set_flows m (<[f := with_busy x true]> (flows m))) f data len
  | OutputDone =>
      output_handler_done (set_queue m false (sending_flow m) (sending_len m) (previous_flow m) (queued_tree m) (schedule_job m) (flows m))
  | ScheduleJob =>
      schedule_job_handler (set_queue m (output_busy m) (sending_flow m) (sending_len m) (previous_flow m) (queued_tree m) false (flows m))
  | RequestCancel f => PacketPassFairQueueFlow_RequestCancel m f
  | SetBusyHandler f h => m ← PacketPassFairQueueFlow_SetBusyHandler m f h; Some (m, [])
  | PrepareFree => Some (PacketPassFairQueue_PrepareFree m, [])
  end.
End FairQueue.

(** * The order of the flows *)

Lemma compare_flows_spec fl a b :
  (a = b /\ compare_flows fl a b = 0)
  \/ ((flow_time fl a < flow_time fl b \/ flow_time fl a = flow_time fl b /\ a < b) /\ compare_flows fl a b = -1)
  \/ ((flow_time fl b < flow_time fl a \/ flow_time fl a = flow_time fl b /\ b < a) /\ compare_flows fl a b = 1).
Proof.
  unfold compare_flows. destruct (B_COMPARE_spec (flow_time fl a) (flow_time fl b)) as [[E ->]|[[? ->]|[? ->]]];
    cbv beta zeta; rewrite ?Z.eqb_refl; cbn [negb]; [|right; left; split; [lia|reflexivity]|right; right; split; [lia|reflexivity]].
  destruct (B_COMPARE_spec a b) as [[? ->]|[[? ->]|[? ->]]]; lia.
Qed.

#[export] Instance compare_flows_Order fl : Order (compare_flows fl).
Proof.
  split.
  - intros a b _ _. pose proof (compare_flows_spec fl a b). lia.
  - intros a b _ _. pose proof (compare_flows_spec fl a b).
    pose proof (compare_flows_spec fl b a). destruct (Z.eq_dec a b) as [<-|]; lia.
  - intros a b c _ _ _. pose proof (compare_flows_spec fl a b). pose proof (compare_flows_spec fl b c).
    pose proof (compare_flows_spec fl a c). destruct (Z.eq_dec a c) as [<-|]; lia.
  - intros a b c _ _ _. pose proof (compare_flows_spec fl a b). intros E. assert (a = b) as -> by lia. done.
Qed.

(** Less time is earlier, and at the same time the lower address. *)
Lemma compare_flows_lt fl a b :
  compare_flows fl a b = -1 <-> flow_time fl a < flow_time fl b \/ flow_time fl a = flow_time fl b /\ a < b.
Proof. pose proof (compare_flows_spec fl a b). destruct (Z.eq_dec a b) as [<-|]; lia. Qed.

(** The order does not change when the times of the flows in the list are
    lowered by the same amount. *)
Lemma ascending_shift fl fl' d xs :
  (forall f, f ∈ xs -> flow_time fl' f = flow_time fl f - d) ->
  ascending (compare_flows fl) xs -> ascending (compare_flows fl') xs.
Proof.
  intros Hd. apply ascending_ext. intros a b Ha%list_elem_of_In Hb%list_elem_of_In. rewrite !compare_flows_lt, (Hd a Ha), (Hd b Hb). lia.
Qed.

Lemma ascending_head_le fl q xs f : ascending (compare_flows fl) (q :: xs) -> f ∈ q :: xs -> flow_time fl q <= flow_time fl f.
Proof.
  intros Hs [->|Hf]%elem_of_cons; [lia|]. inversion Hs as [|? ? _ Hfa]; subst. rewrite List.Forall_forall in Hfa.
  specialize (Hfa f ltac:(by apply list_elem_of_In)). apply compare_flows_lt in Hfa. lia.
Qed.

Lemma flow_time_lookup fl f x : fl !! f = Some x -> flow_time fl f = fl_time x.
Proof. unfold flow_time. by intros ->. Qed.
Lemma flow_time_insert fl f x : flow_time (<[f := x]> fl) f = fl_time x.
Proof. unfold flow_time. by rewrite lookup_insert_eq. Qed.
Lemma flow_time_insert_ne fl f g x : f <> g -> flow_time (<[f := x]> fl) g = flow_time fl g.
Proof. intros ?. unfold flow_time. by rewrite lookup_insert_ne. Qed.
Lemma flow_time_insert_same fl f g x y : fl !! f = Some y -> fl_time x = fl_time y -> flow_time (<[f := x]> fl) g = flow_time fl g.
Proof.
  intros E Et. destruct (decide (f = g)) as [->|]; [|by apply flow_time_insert_ne].
  by rewrite flow_time_insert, (flow_time_lookup _ _ _ E).
Qed.

(** * The subtraction *)

(** What the loop does to a flow. *)
Definition subtracted (flow : ptr) (d : Z) (f : ptr) (x : Flow) : Flow :=
  if (d >? fl_time x) && negb (f =? flow) then with_time x 0 else with_time x (u64 (fl_time x - d)).

Lemma subtract_loop_spec h flow d l : forall fuel fl p,
  seg1 h p l None -> NoDup l -> (length l <= fuel)%nat ->
  (forall f, f ∈ l -> exists x, fl !! f = Some x /\ (d > fl_time x -> f <> flow -> fl_is_queued x = false)) ->
  exists fl', subtract_loop fuel h fl (hd_or l None) flow d = Some fl'
    /\ forall f, fl' !! f = if decide (f ∈ l) then subtracted flow d f <$> fl !! f else fl !! f.
Proof.
  induction l as [|a l IH]; intros fuel fl p Hs Hd Hf Hx; [by exists fl; destruct fuel|].
  destruct Hs as [Ha Hs]. apply NoDup_cons in Hd as [Hn Hd]. simpl in Hf. destruct fuel as [|fuel]; [lia|]. simpl.
  destruct (Hx a) as (x & Ex & Hq); [left|]. rewrite Ex. simpl.
  assert (E : (if (d >? fl_time x) && negb (a =? flow) then ASSERT negb (fl_is_queued x); Some (with_time x 0)
               else Some (with_time x (u64 (fl_time x - d)))) = Some (subtracted flow d a x)).
  { unfold subtracted. destruct ((d >? fl_time x) && negb (a =? flow)) eqn:E; [|done]. zbool. rewrite Hq by lia. done. }
  rewrite E. simpl. unfold LinkedList1Node_Next. rewrite Ha. simpl.
  destruct (IH fuel (<[a := subtracted flow d a x]> fl) (Some a) Hs Hd ltac:(lia)) as (fl' & -> & Hfl').
  { intros f Hin. rewrite lookup_insert_ne by (intros ->; done). apply Hx. by right. }
  exists fl'. split; [done|]. intros f. rewrite Hfl'. destruct (decide (f = a)) as [->|Hfa].
  - rewrite decide_False by done. rewrite decide_True by left. by rewrite lookup_insert_eq, Ex.
  - rewrite !lookup_insert_ne by done. destruct (decide (f ∈ l)); [by rewrite decide_True by (by right)|].
    rewrite decide_False; [done|]. by intros [?|?]%elem_of_cons.
Qed.

(** * The invariant *)

Section Correct.
Context {T : Type} `{SortedTree T}.
Abbreviation FQ := (PacketPassFairQueue (T := T)).

(** The flows: [xs] are queued, in the order of the tree; [l] are all. *)
Record core (m : FQ) (xs l : list ptr) : Prop := {
  co_tree : tree_rep (queued_tree m) xs;
  co_list : LinkedList1.rep (flows_list m) (list_nodes m) l;
  co_flows f : f ∈ l <-> is_Some (flows m !! f);
  co_queued f : f ∈ xs <-> exists x, flows m !! f = Some x /\ fl_is_queued x = true;
  co_asc : ascending (compare_flows (flows m)) xs;
  co_time f x : flows m !! f = Some x -> 0 <= fl_time x <= FAIRQUEUE_MAX_TIME;
  co_len f x : flows m !! f = Some x -> fl_is_queued x = true -> 0 <= fl_data_len x <= fq_mtu m;
  co_params : 0 <= fq_mtu m /\ 0 < packet_weight m /\ fq_mtu m + packet_weight m <= FAIRQUEUE_MAX_TIME }.

Record fq_inv (m : FQ) (xs l : list ptr) : Prop := {
  iv_core : core m xs l;
  iv_send f : sending_flow m = Some f ->
    exists x, flows m !! f = Some x /\ fl_is_queued x = false /\ forall g, g ∈ xs -> fl_time x <= flow_time (flows m) g;
  iv_prev f : previous_flow m = Some f -> exists x, flows m !! f = Some x /\ fl_is_queued x = false;
  iv_sending : sending_flow m <> None -> previous_flow m = None /\ schedule_job m = false;
  iv_job : previous_flow m <> None -> schedule_job m = true;
  iv_len : 0 <= sending_len m <= fq_mtu m;
  (* while the queue is in use *)
  iv_busy f x : freeing m = false -> flows m !! f = Some x ->
    (fl_busy x = true <-> fl_is_queued x = true \/ sending_flow m = Some f);
  iv_output : freeing m = false -> output_busy m = nonnull (sending_flow m);
  iv_work : freeing m = false -> xs <> [] -> sending_flow m <> None \/ schedule_job m = true }.

(** ** The flow of a finished packet *)

Definition lowered (d : Z) (x : Flow) : Flow := with_time x (Z.max 0 (fl_time x - d)).

Lemma subtracted_lowered flow d f x : f <> flow -> 0 <= fl_time x <= FAIRQUEUE_MAX_TIME -> 0 <= d -> subtracted flow d f x = lowered d x.
Proof.
  intros Hf Ht Hd. unfold subtracted, lowered, FAIRQUEUE_MAX_TIME in *. destruct (Z.eqb_spec f flow) as [|_]; [done|]. rewrite andb_true_r.
  destruct (Z.gtb_spec d (fl_time x)); [by rewrite Z.max_l by lia|]. rewrite Z.max_r by lia. by rewrite u64_small by lia.
Qed.

Lemma lowered_0 x : 0 <= fl_time x -> lowered 0 x = x.
Proof. intros Hx. unfold lowered. rewrite Z.sub_0_r, Z.max_r by lia. by destruct x. Qed.

Lemma rep_length (o : LinkedList1) (h : store) (l : list ptr) : LinkedList1.rep o h l -> (length l <= size h)%nat.
Proof.
  intros Hr. pose proof (rep_nodup _ _ _ Hr) as Hd. pose proof (rep_seg _ _ _ Hr) as Hs.
  rewrite <- (size_list_to_set (C := gset ptr) l Hd), <- size_dom. apply subseteq_size. intros f Hf%elem_of_list_to_set.
  apply elem_of_dom. apply list_elem_of_split in Hf as (l1 & l2 & ->). erewrite seg1_lookup by exact Hs. by eexists.
Qed.

(** The time of the flow grows by [amount] and all times are lowered by the
    same [d], which is at most the least time that is queued; only flows that are
    not queued stop at 0.  Nothing overflows. *)
Lemma increment_sent_flow_spec m xs l flow x amount :
  core m xs l -> sending_flow m = None -> flows m !! flow = Some x -> fl_is_queued x = false ->
  (forall g, g ∈ xs -> fl_time x <= flow_time (flows m) g) -> 0 <= amount <= FAIRQUEUE_MAX_TIME ->
  exists d fl', increment_sent_flow m flow amount = Some (set_flows m fl') /\ 0 <= d
    /\ (forall g, g <> flow -> fl' !! g = lowered d <$> flows m !! g)
    /\ fl' !! flow = Some (with_time x (fl_time x + amount - d)) /\ 0 <= fl_time x + amount - d <= FAIRQUEUE_MAX_TIME
    /\ (forall g, g ∈ xs -> d <= flow_time (flows m) g).
Proof.
  intros Hc Hs Ex Hq Hmin Ha. pose proof (co_time _ _ _ Hc flow x Ex) as Ht. unfold increment_sent_flow.
  replace (amount <=? FAIRQUEUE_MAX_TIME) with true by lia. rewrite Ex. cbn [mbind option_bind]. rewrite Hq, Hs. cbn [negb nonnull].
  destruct (amount >? FAIRQUEUE_MAX_TIME - fl_time x) eqn:Eo; zbool.
  2: { cbn [mbind option_bind]. rewrite Ex. cbn [mbind option_bind].
       rewrite u64_small by (unfold FAIRQUEUE_MAX_TIME in *; lia). exists 0, (<[flow := with_time x (fl_time x + amount)]> (flows m)).
       split; [done|]. split; [lia|]. rewrite lookup_insert_eq. split_and!; [|by rewrite Z.sub_0_r|lia|lia|].
       - intros g Hg. rewrite lookup_insert_ne by done. destruct (flows m !! g) as [y|] eqn:Ey; [|done]. simpl.
         by rewrite lowered_0 by (apply (co_time _ _ _ Hc) in Ey; lia).
       - intros g [y [Ey _]]%(co_queued _ _ _ Hc). rewrite (flow_time_lookup _ _ _ Ey). apply (co_time _ _ _ Hc) in Ey. lia. }
  rewrite (Tree_GetFirst_spec _ xs (co_tree _ _ _ Hc)). cbn [mbind option_bind].
  assert (exists d, (match head xs with None => Some (fl_time x) | Some f => y ← flows m !! f; ASSERT fl_is_queued y; Some (fl_time y) end) = Some d
            /\ fl_time x <= d <= FAIRQUEUE_MAX_TIME /\ forall g, g ∈ xs -> d <= flow_time (flows m) g) as (d & -> & Hd & Hmin').
  { destruct xs as [|q xs]; [exists (fl_time x); split_and!; [done|lia|lia|set_solver]|]. simpl.
    destruct (proj1 (co_queued _ _ _ Hc q) ltac:(left)) as (y & Ey & Eq). rewrite Ey. simpl. rewrite Eq. exists (fl_time y).
    split; [done|]. specialize (Hmin q ltac:(left)). rewrite (flow_time_lookup _ _ _ Ey) in Hmin.
    split; [apply (co_time _ _ _ Hc) in Ey; lia|]. intros g Hg. rewrite <- (flow_time_lookup _ _ _ Ey).
    eapply ascending_head_le; [exact (co_asc _ _ _ Hc)|done]. }
  cbn [mbind option_bind]. unfold LinkedList1_GetFirst. rewrite (rep_first _ _ _ (co_list _ _ _ Hc)).
  pose proof (rep_length _ _ _ (co_list _ _ _ Hc)) as Hl.
  destruct (subtract_loop_spec (list_nodes m) flow d l (S (size (list_nodes m))) (flows m) None) as (fl' & -> & Hfl').
  { apply (rep_seg _ _ _ (co_list _ _ _ Hc)). }
  { apply (rep_nodup _ _ _ (co_list _ _ _ Hc)). }
  { lia. }
  { intros f [y Ey]%(co_flows _ _ _ Hc). exists y. split; [done|]. intros Hgt _. apply not_true_is_false. intros Eq.
    specialize (Hmin' f ltac:(apply (co_queued _ _ _ Hc); by exists y)). rewrite (flow_time_lookup _ _ _ Ey) in Hmin'. lia. }
  cbn [mbind option_bind]. pose proof (Hfl' flow) as Hx. rewrite decide_True in Hx by (apply (co_flows _ _ _ Hc); by eexists).
  rewrite Ex in Hx. simpl in Hx. rewrite Hx. cbn [mbind option_bind]. unfold subtracted. rewrite Z.eqb_refl, andb_false_r. cbn [with_time fl_time].
  assert (u64 (u64 (fl_time x - d) + amount) = fl_time x + amount - d) as ->.
  { unfold u64, FAIRQUEUE_MAX_TIME in *. rewrite Zplus_mod_idemp_l.
    replace (fl_time x - d + amount) with (fl_time x + amount - d) by lia. apply Z.mod_small. lia. }
  exists d, (<[flow := with_time x (fl_time x + amount - d)]> fl'). split; [done|]. split; [lia|].
  rewrite lookup_insert_eq. split_and!; [|done|lia|lia|done].
  intros g Hg. rewrite lookup_insert_ne by done. rewrite Hfl'. destruct (decide (g ∈ l)) as [Hgl|Hgl].
  - destruct (flows m !! g) as [y|] eqn:Ey; [|done]. simpl. rewrite subtracted_lowered; [done|done|by eapply co_time|lia].
  - destruct (flows m !! g) as [y|] eqn:Ey; [|done]. destruct Hgl. apply (co_flows _ _ _ Hc). by eexists.
Qed.

(** ** Steps that keep the flows in order *)

Lemma core_flags m m' xs l :
  core m xs l -> queued_tree m' = queued_tree m -> flows_list m' = flows_list m -> list_nodes m' = list_nodes m ->
  flows m' = flows m -> fq_mtu m' = fq_mtu m -> packet_weight m' = packet_weight m -> core m' xs l.
Proof. intros [] E1 E2 E3 E4 E5 E6. by constructor; rewrite ?E1, ?E2, ?E3, ?E4, ?E5, ?E6. Qed.

(** The flow [y] in the place of [x] when queued times are lowered by [d]. *)
Definition similar (d : Z) (x y : Flow) : Prop :=
  fl_is_queued y = fl_is_queued x /\ fl_data_len y = fl_data_len x /\ 0 <= fl_time y <= FAIRQUEUE_MAX_TIME
  /\ (fl_is_queued x = true -> fl_time y = fl_time x - d).

Lemma core_map m xs l fl' d :
  core m xs l -> (forall g, option_Forall2 (similar d) (flows m !! g) (fl' !! g)) -> core (set_flows m fl') xs l.
Proof.
  intros Hc Hs. assert (Hl : forall g y, fl' !! g = Some y -> exists x, flows m !! g = Some x /\ similar d x y).
  { intros g y E. specialize (Hs g). rewrite E in Hs. inversion Hs; subst. by eexists. }
  assert (Hr : forall g x, flows m !! g = Some x -> exists y, fl' !! g = Some y /\ similar d x y).
  { intros g y E. specialize (Hs g). rewrite E in Hs. inversion Hs; subst. by eexists. }
  destruct Hc as [H1 H2 H3 H4 H5 H6 H7 H8]. constructor; simpl; try done.
  - intros f. rewrite H3. split; intros [x E]; [apply Hr in E as (? & ? & _)|apply Hl in E as (? & ? & _)]; by eexists.
  - intros f. rewrite H4. split; intros (x & E & Eq); [apply Hr in E as (y & ? & Ey & _)|apply Hl in E as (y & ? & Ey & _)];
      exists y; split; congruence.
  - eapply (ascending_shift _ _ d); [|exact H5]. intros f (x & E & Eq)%H4. apply Hr in E as E'. destruct E' as (y & Ey & _ & _ & _ & Et).
    rewrite (flow_time_lookup _ _ _ E), (flow_time_lookup _ _ _ Ey). auto.
  - intros f y E. by apply Hl in E as (x & E & _ & _ & Ht & _).
  - intros f y E Eq. apply Hl in E as (x & E & Eq' & -> & _). eapply H7; [done|congruence].
Qed.

Lemma similar_refl m xs l f x : core m xs l -> flows m !! f = Some x -> similar 0 x x.
Proof. intros Hc E. split_and!; [done..| | |lia]; apply (co_time _ _ _ Hc) in E; lia. Qed.

Lemma core_insert m xs l f x y :
  core m xs l -> flows m !! f = Some x -> similar 0 x y -> core (set_flows m (<[f := y]> (flows m))) xs l.
Proof.
  intros Hc E Hs. eapply (core_map _ _ _ _ 0); [done|]. intros g. destruct (decide (f = g)) as [<-|].
  - rewrite lookup_insert_eq, E. by constructor.
  - rewrite lookup_insert_ne by done. destruct (flows m !! g) eqn:Eg; constructor. by eapply similar_refl.
Qed.

Lemma schedule_spec m q xs l :
  core m (q :: xs) l -> sending_flow m = None -> previous_flow m = None -> freeing m = false -> output_busy m = false ->
  exists x tree, flows m !! q = Some x /\ fl_is_queued x = true
    /\ let m' := set_queue m true (Some q) (fl_data_len x) None tree (schedule_job m) (<[q := with_queued x false]> (flows m)) in
       schedule m = Some (m', [ESend (fl_data x) (fl_data_len x)]) /\ core m' xs l.
Proof.
  intros Hc Hs Hp Hf Ho. destruct (proj1 (co_queued _ _ _ Hc q) ltac:(left)) as (x & Ex & Eq).
  destruct (Tree_Remove_spec (queued_tree m) [] q xs (co_tree _ _ _ Hc)) as (tree & Et & Hr).
  exists x, tree. split; [done|]. split; [done|]. cbv zeta.
  pose proof (co_len _ _ _ Hc q x Ex Eq) as Hl. split.
  - unfold schedule. rewrite Hs, Hp, Hf. cbn [nonnull negb]. rewrite (Tree_IsEmpty_spec _ _ (co_tree _ _ _ Hc)).
    rewrite bool_decide_eq_false_2 by done. cbn [negb].
    rewrite (Tree_GetFirst_spec _ _ (co_tree _ _ _ Hc)). cbn [mbind option_bind head]. rewrite Ex. cbn [mbind option_bind]. rewrite Eq, Et, Ho.
    cbn [mbind option_bind negb]. replace ((0 <=? fl_data_len x) && (fl_data_len x <=? fq_mtu m)) with true by lia. done.
  - pose proof (tree_NoDup _ _ (co_tree _ _ _ Hc)) as Hd. apply NoDup_cons in Hd as [Hn Hd].
    destruct Hc as [H1 H2 H3 H4 H5 H6 H7 H8]. constructor; simpl; try done.
    + intros f. rewrite H3. destruct (decide (q = f)) as [<-|]; [rewrite lookup_insert_eq, Ex|by rewrite lookup_insert_ne].
      split; intros _; by eexists.
    + intros f. destruct (decide (q = f)) as [<-|Hne].
      * rewrite lookup_insert_eq. split; [by intros ?%Hn|]. intros (? & [= <-] & ?). done.
      * rewrite lookup_insert_ne by done. rewrite <- H4, elem_of_cons. naive_solver.
    + apply (ascending_shift (flows m) _ 0).
      * intros f Hx. rewrite Z.sub_0_r. by apply (flow_time_insert_same _ _ _ _ x).
      * by inversion H5.
    + intros f y. destruct (decide (q = f)) as [<-|Hne].
      * rewrite lookup_insert_eq. intros [= <-]. exact (H6 q x Ex).
      * rewrite lookup_insert_ne by done. apply H6.
    + intros f y. destruct (decide (q = f)) as [<-|Hne].
      * rewrite lookup_insert_eq. by intros [= <-].
      * rewrite lookup_insert_ne by done. apply H7.
Qed.

(** A packet of a flow that has none queued. *)
Lemma insert_spec m xs l f x t data len :
  core m xs l -> flows m !! f = Some x -> fl_is_queued x = false -> 0 <= t <= FAIRQUEUE_MAX_TIME -> 0 <= len <= fq_mtu m ->
  let y := with_packet (with_time x t) data len in
  exists tree ref xs', Tree_Insert (compare_flows (<[f := y]> (flows m))) (queued_tree m) f = Some (tree, true, ref)
    /\ (forall g, g ∈ xs' <-> g = f \/ g ∈ xs)
    /\ forall b s n p j, core (set_queue m b s n p tree j (<[f := with_queued y true]> (<[f := y]> (flows m)))) xs' l.
Proof.
  intros Hc Ex Eq Ht Hlen y. assert (Hn : f ∉ xs).
  { intros (x' & Ex' & ?)%(co_queued _ _ _ Hc). congruence. }
  assert (Hasc : ascending (compare_flows (<[f := y]> (flows m))) xs).
  { apply (ascending_shift (flows m) _ 0); [|apply (co_asc _ _ _ Hc)]. intros g Hg. rewrite Z.sub_0_r. apply flow_time_insert_ne. congruence. }
  destruct (Tree_Insert_new (compare_flows (<[f := y]> (flows m))) (queued_tree m) xs f _ (co_tree _ _ _ Hc) Hasc)
    as (tree & ref & l1 & l2 & E & Hr & -> & Hl1 & Hl2).
  { intros g Hg%list_elem_of_In. pose proof (compare_flows_spec (<[f := y]> (flows m)) f g) as Hcmp.
    assert (f <> g) by congruence. lia. }
  exists tree, ref, (l1 ++ f :: l2). split; [done|]. split; [intros g; set_solver|]. intros b s n p j.
  destruct Hc as [H1 H2 H3 H4 H5 H6 H7 H8].
  constructor; simpl; rewrite ?insert_insert_eq; try done.
  - intros g. rewrite H3. destruct (decide (f = g)) as [<-|]; [rewrite lookup_insert_eq, Ex|by rewrite lookup_insert_ne].
    split; intros _; by eexists.
  - intros g. destruct (decide (f = g)) as [<-|Hne].
    + rewrite lookup_insert_eq. split; [intros _; by eexists|]. intros _. set_solver.
    + rewrite lookup_insert_ne by done. rewrite <- H4. set_solver.
  - eapply (ascending_shift (<[f := y]> (flows m)) _ 0); [|by apply ascending_insert].
    intros g _. rewrite Z.sub_0_r. destruct (decide (f = g)) as [<-|]; [by rewrite !flow_time_insert|by rewrite !flow_time_insert_ne].
  - intros g z. destruct (decide (f = g)) as [<-|Hne].
    + rewrite lookup_insert_eq. by intros [= <-].
    + rewrite lookup_insert_ne by done. apply H6.
  - intros g z. destruct (decide (f = g)) as [<-|Hne].
    + rewrite lookup_insert_eq. by intros [= <-].
    + rewrite lookup_insert_ne by done. apply H7.
Qed.

Lemma get_current_time_spec m xs l :
  core m xs l -> (forall s, sending_flow m = Some s -> is_Some (flows m !! s)) ->
  (forall p, previous_flow m = Some p -> is_Some (flows m !! p)) ->
  exists now, get_current_time m = Some now /\ 0 <= now <= FAIRQUEUE_MAX_TIME
    /\ forall s, sending_flow m = Some s -> now = flow_time (flows m) s.
Proof.
  intros Hc Hse Hpr. unfold get_current_time.
  destruct (sending_flow m) as [s|] eqn:Es.
  - destruct (Hse s eq_refl) as (x & Ex). rewrite Ex. exists (fl_time x). split; [done|].
    split; [by eapply co_time|]. intros ? [= <-]. by rewrite (flow_time_lookup _ _ _ Ex).
  - rewrite (Tree_GetFirst_spec _ _ (co_tree _ _ _ Hc)). cbn [mbind option_bind].
    assert (exists h, (match head xs with Some f => x ← flows m !! f; ASSERT fl_is_queued x; Some (Some (fl_time x)) | None => Some None end) = Some h
              /\ forall t, h = Some t -> 0 <= t <= FAIRQUEUE_MAX_TIME) as (h & -> & Hh).
    { destruct xs as [|q xs]; [by exists None|]. destruct (proj1 (co_queued _ _ _ Hc q) ltac:(left)) as (x & Ex & Eq).
      simpl. rewrite Ex. simpl. rewrite Eq. eexists. split; [done|]. intros t [= <-]. by eapply co_time. }
    cbn [mbind option_bind]. destruct (previous_flow m) as [p|] eqn:Ep.
    + destruct (Hpr p eq_refl) as (x & Ex). rewrite Ex. cbn [mbind option_bind]. pose proof (co_time _ _ _ Hc p x Ex).
      destruct h as [t|]; eexists; (split; [done|]); (split; [|done]); [|done]. specialize (Hh t eq_refl). destruct (fl_time x <? t); lia.
    + eexists. split; [done|]. split; [|done]. destruct h; [by apply Hh|]. unfold FAIRQUEUE_MAX_TIME. lia.
Qed.

(** * What a step does *)

(** A flow that has a packet in the queue, at the output, or just finished one. *)
Definition active (m : FQ) (f : ptr) : Prop :=
  (exists x, flows m !! f = Some x /\ fl_is_queued x = true) \/ sending_flow m = Some f \/ previous_flow m = Some f.

(** The amount by which an event grows the time of a flow. *)
Definition served (m : FQ) (e : fq_event) (f : ptr) : Z :=
  match e with
  | OutputDone => if bool_decide (sending_flow m = Some f) then packet_weight m + sending_len m else 0
  | _ => 0
  end.

(** The packets that wait in the queue. *)
Definition packet_of (x : Flow) : option (ptr * Z) := if fl_is_queued x then Some (fl_data x, fl_data_len x) else None.
Definition queued_packets (fl : flowmap) : list (ptr * Z) := omap snd (map_to_list (packet_of <$> fl)).

Definition accepted (e : fq_event) : list (ptr * Z) := match e with FlowSend _ data len => [(data, len)] | _ => [] end.
Definition sent (eff : list fq_effect) : list (ptr * Z) := omap (fun a => match a with ESend data len => Some (data, len) | _ => None end) eff.
(** A packet is lost when its flow is freed. *)
Definition lost (m : FQ) (e : fq_event) : list (ptr * Z) :=
  match e with FlowFree f => option_list (flows m !! f ≫= packet_of) | _ => [] end.

(** The flows whose input is in the middle of an operation, and the flows of the
    queue, after an event. *)
Definition busyb (m : FQ) (f : ptr) : bool := match flows m !! f with Some x => fl_busy x | None => false end.
Definition busy_after (m : FQ) (e : fq_event) (g : ptr) : bool :=
  match e with
  | FlowSend f _ _ => (g =? f) || busyb m g
  | OutputDone => busyb m g && negb (bool_decide (sending_flow m = Some g))
  | FlowFree f => busyb m g && negb (g =? f)
  | _ => busyb m g
  end.
Definition flows_after (e : fq_event) (l : list ptr) : list ptr :=
  match e with FlowInit f => l ++ [f] | FlowFree f => LinkedList1.remove_one f l | _ => l end.

Record did (m : FQ) (e : fq_event) (m' : FQ) (eff : list fq_effect) : Prop := {
  did_times : exists d, forall g, active m g -> active m' g -> flow_time (flows m') g = flow_time (flows m) g - d + served m e g;
  did_packets : queued_packets (flows m) ++ accepted e ≡ₚ sent eff ++ lost m e ++ queued_packets (flows m');
  did_params : packet_weight m' = packet_weight m /\ fq_mtu m' = fq_mtu m;
  did_freeing : freeing m' = match e with PrepareFree => true | _ => freeing m end;
  did_busy g : busyb m' g = busy_after m e g;
  did_done g : EDone g ∈ eff <-> e = OutputDone /\ sending_flow m = Some g }.

Definition step_ok (m : FQ) (e : fq_event) (l : list ptr) : Prop :=
  exists m' eff xs', fq_step m e = Some (m', eff) /\ fq_inv m' xs' (flows_after e l) /\ did m e m' eff.

Lemma no_done m e (eff : list fq_effect) : (forall g, EDone g ∉ eff) -> e <> OutputDone -> forall g, EDone g ∈ eff <-> e = OutputDone /\ sending_flow (m : FQ) = Some g.
Proof. intros Hn He g. split; [by intros ?%Hn|by intros [? _]]. Qed.

Lemma queued_packets_same fl fl' :
  (forall g, packet_of <$> fl !! g = packet_of <$> fl' !! g) -> queued_packets fl = queued_packets fl'.
Proof. intros Hs. unfold queued_packets. f_equal. f_equal. apply map_eq. intros g. by rewrite !lookup_fmap. Qed.

Lemma queued_packets_delete fl f x : fl !! f = Some x ->
  queued_packets fl ≡ₚ option_list (packet_of x) ++ queued_packets (delete f fl).
Proof.
  intros E. unfold queued_packets.
  rewrite fmap_delete, <- (map_to_list_delete (packet_of <$> fl) f (packet_of x)) by (by rewrite lookup_fmap, E).
  cbn [omap list_omap]. by destruct (packet_of x).
Qed.

Lemma queued_packets_insert fl f y : queued_packets (<[f := y]> fl) ≡ₚ option_list (packet_of y) ++ queued_packets (delete f fl).
Proof.
  rewrite (queued_packets_delete _ f y) by apply lookup_insert_eq. by rewrite delete_insert_eq.
Qed.

Lemma queued_packets_update fl f x y : fl !! f = Some x -> packet_of y = packet_of x ->
  queued_packets (<[f := y]> fl) ≡ₚ queued_packets fl.
Proof. intros E Ep. by rewrite queued_packets_insert, (queued_packets_delete fl f x), Ep. Qed.

Lemma active_flows m xs l f : fq_inv m xs l -> active m f -> is_Some (flows m !! f).
Proof.
  intros Hi [(x & E & _)|[E|E]]; [by eexists|destruct (iv_send _ _ _ Hi f E) as (x & -> & _)|destruct (iv_prev _ _ _ Hi f E) as (x & -> & _)];
    by eexists.
Qed.

(** The invariant but for work that waits. *)
Record fq_ready (m : FQ) (xs l : list ptr) : Prop := {
  re_core : core m xs l;
  re_idle : sending_flow m = None /\ previous_flow m = None /\ schedule_job m = false /\ freeing m = false /\ output_busy m = false;
  re_len : 0 <= sending_len m <= fq_mtu m;
  re_busy f x : flows m !! f = Some x -> (fl_busy x = true <-> fl_is_queued x = true) }.

Lemma schedule_ready m xs l :
  fq_ready m xs l -> xs <> [] ->
  exists m' eff xs', schedule m = Some (m', eff) /\ fq_inv m' xs' l /\ (forall g, busyb m' g = busyb m g) /\ (forall g, EDone g ∉ eff)
    /\ (forall g, flow_time (flows m') g = flow_time (flows m) g) /\ (forall g, active m' g -> active m g)
    /\ queued_packets (flows m) ≡ₚ sent eff ++ queued_packets (flows m')
    /\ packet_weight m' = packet_weight m /\ fq_mtu m' = fq_mtu m /\ freeing m' = freeing m.
Proof.
  intros [Hc (Hs & Hp & Hj & Hf & Ho) Hl Hb] Hx. destruct xs as [|q xs]; [done|].
  destruct (schedule_spec m q xs l Hc Hs Hp Hf Ho) as (x & tree & Ex & Eq & E & Hc').
  assert (Hsame : forall g, flow_time (<[q := with_queued x false]> (flows m)) g = flow_time (flows m) g)
    by (intros g; by apply (flow_time_insert_same _ _ _ _ x)).
  do 3 eexists. split; [exact E|]. clear E. split_and!; try done.
  - constructor; simpl; try done.
    + intros f [= <-]. rewrite lookup_insert_eq. eexists. split_and!; [done|done|]. intros g Hg. rewrite Hsame. cbn [with_queued fl_time].
      rewrite <- (flow_time_lookup _ _ _ Ex). eapply ascending_head_le; [exact (co_asc _ _ _ Hc)|by right].
    + by eapply co_len.
    + intros f y _. destruct (decide (q = f)) as [<-|Hne].
      * rewrite lookup_insert_eq. intros [= <-]. simpl. rewrite (Hb q x Ex), Eq. naive_solver.
      * rewrite lookup_insert_ne by done. intros Ey. rewrite (Hb f y Ey). naive_solver.
    + by left.
  - intros g. unfold busyb. simpl. destruct (decide (q = g)) as [<-|]; [by rewrite lookup_insert_eq, Ex|by rewrite lookup_insert_ne].
  - intros g. by intros [?|?%elem_of_nil]%elem_of_cons.
  - intros g [(y & Ey & Eyq)|[[= <-]|Ey]]; simpl in *; [|left; by exists x|done]. left. destruct (decide (q = g)) as [<-|Hne].
    + rewrite lookup_insert_eq in Ey. by injection Ey as <-.
    + rewrite lookup_insert_ne in Ey by done. by exists y.
  - simpl. rewrite queued_packets_insert, (queued_packets_delete (flows m) q x Ex). unfold packet_of. simpl. by rewrite Eq.
Qed.

(** ** A packet of a flow *)

Definition prev_after (m : FQ) (f : ptr) : option ptr := if bool_decide (previous_flow m = Some f) then None else previous_flow m.

(** The flow is queued with its packet; what is left is whether to schedule. *)
Lemma send_spec m xs l f x data len :
  fq_inv m xs l -> freeing m = false -> flows m !! f = Some x -> fl_busy x = false -> 0 <= len <= fq_mtu m ->
  exists t tree xs' fl', let m' := set_queue m (output_busy m) (sending_flow m) (sending_len m) (prev_after m f) tree (schedule_job m) fl' in
    input_handler_send (set_flows m (<[f := with_busy x true]> (flows m))) f data len
      = (if negb (nonnull (sending_flow m)) && negb (schedule_job m) then schedule m' else Some (m', []))
    /\ core m' xs' l /\ (forall g, g ∈ xs' <-> g = f \/ g ∈ xs)
    /\ fl' !! f = Some (with_queued (with_packet (with_time (with_busy x true) t) data len) true)
    /\ (forall g, g <> f -> fl' !! g = flows m !! g)
    /\ (previous_flow m = Some f -> t = fl_time x) /\ (forall s, sending_flow m = Some s -> flow_time (flows m) s <= t).
Proof.
  intros Hi Hf Ex Hb Hl. pose proof (iv_core _ _ _ Hi) as Hc. pose proof (co_time _ _ _ Hc f x Ex) as Ht.
  destruct (decide (fl_is_queued x = true)) as [Eq|Eq%not_true_is_false].
  { destruct (iv_busy _ _ _ Hi f x Hf Ex) as [_ Hx]. rewrite Hx in Hb by auto. done. }
  assert (Hns : sending_flow m <> Some f).
  { intros Es. destruct (iv_busy _ _ _ Hi f x Hf Ex) as [_ Hx]. rewrite Hx in Hb by auto. done. }
  set (x0 := with_busy x true). set (m0 := set_flows m (<[f := x0]> (flows m))).
  assert (Hc0 : core m0 xs l) by (apply (core_insert m xs l f x x0 Hc Ex); split_and!; try done; simpl; lia).
  assert (E0 : flows m0 !! f = Some x0) by apply lookup_insert_eq.
  assert (Hsome : forall g, is_Some (flows m !! g) -> is_Some (flows m0 !! g)).
  { intros g Hg. simpl. destruct (decide (f = g)) as [<-|]; [rewrite lookup_insert_eq; by eexists|by rewrite lookup_insert_ne]. }
  destruct (get_current_time_spec m0 xs l Hc0) as (now & En & Hn & Hns').
  { intros s Es. apply Hsome. destruct (iv_send _ _ _ Hi s Es) as (y & -> & _). by eexists. }
  { intros s Es. apply Hsome. destruct (iv_prev _ _ _ Hi s Es) as (y & -> & _). by eexists. }
  set (t := if bool_decide (previous_flow m = Some f) then fl_time x else Z.max (fl_time x) now).
  assert (Htr : 0 <= t <= FAIRQUEUE_MAX_TIME) by (unfold t; case_bool_decide; lia).
  destruct (insert_spec m0 xs l f x0 t data len Hc0 E0 Eq Htr Hl) as (tree & ref & xs' & Ei & Hxs & Hci).
  exists t, tree, xs', (<[f := with_queued (with_packet (with_time x0 t) data len) true]>
    (<[f := with_packet (with_time x0 t) data len]> (flows m0))). cbv zeta. split_and!.
  - unfold input_handler_send. change (sending_flow m0) with (sending_flow m). rewrite bool_decide_eq_false_2 by done. cbn [negb].
    rewrite E0. cbn [mbind option_bind]. change (fl_is_queued x0) with (fl_is_queued x). rewrite Eq. change (freeing m0) with (freeing m). rewrite Hf.
    cbn [negb]. change (previous_flow m0) with (previous_flow m).
    assert ((if bool_decide (previous_flow m = Some f) then Some (None, x0)
             else now ← get_current_time m0; Some (previous_flow m, with_time x0 (Z.max (fl_time x0) now))) = Some (prev_after m f, with_time x0 t)) as ->.
    { unfold prev_after, t. case_bool_decide; [by destruct x|]. rewrite En. done. }
    cbn [mbind option_bind]. rewrite Ei. done.
  - specialize (Hci (output_busy m) (sending_flow m) (sending_len m) (prev_after m f) (schedule_job m)). exact Hci.
  - done.
  - by rewrite lookup_insert_eq.
  - intros g Hg. simpl. by rewrite !lookup_insert_ne by done.
  - intros E. unfold t. by rewrite bool_decide_eq_true_2.
  - intros s Es. specialize (Hns' s Es). simpl in Hns'. rewrite flow_time_insert_ne in Hns' by congruence.
    unfold t. rewrite bool_decide_eq_false_2; [lia|]. destruct (iv_sending _ _ _ Hi) as [-> _]; [by rewrite Es|done].
Qed.

Lemma send_ok m xs l f data len : fq_inv m xs l -> allowed m (FlowSend f data len) -> step_ok m (FlowSend f data len) l.
Proof.
  intros Hi (Hf & Hl & x & Ex & Hb).
  destruct (send_spec m xs l f x data len Hi Hf Ex Hb Hl) as (t & tree & xs' & fl' & E & Hc' & Hxs & Ef & Eg & Hp & Hs).
  set (m' := set_queue _ _ _ _ _ _ _ _) in *. unfold step_ok. cbn [fq_step]. rewrite Ex. cbn [mbind option_bind]. rewrite E. clear E.
  assert (Eqf : fl_is_queued x = false).
  { apply not_true_is_false. intros Eq. destruct (iv_busy _ _ _ Hi f x Hf Ex) as [_ Hx]. rewrite Hx in Hb by auto. done. }
  assert (Hns : sending_flow m <> Some f).
  { intros Es. destruct (iv_busy _ _ _ Hi f x Hf Ex) as [_ Hx]. rewrite Hx in Hb by auto. done. }
  assert (Hbusy : forall g y, fl' !! g = Some y -> (fl_busy y = true <-> fl_is_queued y = true \/ sending_flow m = Some g)).
  { intros g y. destruct (decide (g = f)) as [->|Hg]; [rewrite Ef; intros [= <-]; simpl; tauto|]. rewrite Eg by done. by apply (iv_busy _ _ _ Hi). }
  assert (Hpk : queued_packets (flows m) ++ [(data, len)] ≡ₚ queued_packets fl').
  { rewrite (queued_packets_delete fl' f _ Ef), (queued_packets_delete (flows m) f x Ex). unfold packet_of. rewrite Eqf. simpl.
    rewrite Permutation_app_comm. simpl. constructor. erewrite queued_packets_same; [done|]. intros g.
    destruct (decide (f = g)) as [<-|]; [by rewrite !lookup_delete_eq|]. rewrite !lookup_delete_ne by done. by rewrite Eg. }
  assert (Htm : forall g, active m g -> flow_time fl' g = flow_time (flows m) g).
  { intros g Ha. destruct (decide (g = f)) as [->|Hg]; [|unfold flow_time; by rewrite Eg].
    rewrite (flow_time_lookup _ _ _ Ef), (flow_time_lookup _ _ _ Ex). simpl. apply Hp.
    destruct Ha as [(y & Ey & ?)|[?|?]]; [congruence|done|done]. }
  assert (Hbu : forall g, busyb m' g = (g =? f) || busyb m g).
  { intros g. unfold busyb. simpl. destruct (Z.eqb_spec g f) as [->|Hg]; [by rewrite Ef|by rewrite Eg]. }
  pose proof (iv_output _ _ _ Hi Hf) as Ho.
  destruct (negb (nonnull (sending_flow m)) && negb (schedule_job m)) eqn:Esch.
  - apply andb_true_iff in Esch as [Es Ej]. apply negb_true_iff in Ej.
    assert (Esn : sending_flow m = None) by (by destruct (sending_flow m)).
    assert (Hre : fq_ready m' xs' l).
    { split; [done| |exact (iv_len _ _ _ Hi)|].
      - simpl. rewrite Ho, Esn. split_and!; try done. unfold prev_after. case_bool_decide; [done|]. destruct (previous_flow m) eqn:Ep; [|done].
        rewrite (iv_job _ _ _ Hi) in Ej by (by rewrite Ep). done.
      - intros g y Ey. rewrite (Hbusy g y Ey), Esn. naive_solver. }
    destruct (schedule_ready m' xs' l Hre) as (m2 & eff & xs2 & E2 & Hi2 & Hbu2 & Hnd & Ht2 & Ha2 & Hp2 & Hw2 & Hm2 & Hfr2).
    { intros ->. apply (not_elem_of_nil f). apply Hxs. by left. }
    exists m2, eff, xs2. split; [done|]. split; [done|].
    split; [|simpl; by rewrite Hpk|done|done|intros g; by rewrite Hbu2, Hbu|by apply no_done].
    exists 0. intros g Ha _. rewrite Ht2. simpl. rewrite Htm by done. lia.
  - exists m', [], xs'. split; [done|]. split; [|split; [|simpl; by rewrite Hpk|done|done|exact Hbu|by apply no_done; [intros g ?%elem_of_nil|]]; exists 0; intros g Ha _; simpl; rewrite Htm by done; lia].
    pose proof (iv_core _ _ _ Hi) as Hc. constructor; simpl; try done.
    + intros s Es. destruct (iv_send _ _ _ Hi s Es) as (y & Ey & Eyq & Hmin). assert (s <> f) by congruence. rewrite Eg by done.
      exists y. split_and!; [done|done|]. intros g [->|Hg]%Hxs.
      * rewrite (flow_time_lookup _ _ _ Ef). simpl. rewrite <- (flow_time_lookup _ _ _ Ey). by apply Hs.
      * destruct (decide (g = f)) as [->|]; [|unfold flow_time; rewrite Eg by done; by apply Hmin].
        rewrite (flow_time_lookup _ _ _ Ef). simpl. rewrite <- (flow_time_lookup _ _ _ Ey). by apply Hs.
    + intros p. unfold prev_after. case_bool_decide as Ep; [done|]. intros Ep'. destruct (iv_prev _ _ _ Hi p Ep') as (y & Ey & ?).
      rewrite Eg by congruence. by exists y.
    + intros Es. destruct (iv_sending _ _ _ Hi Es) as [Ep Ej]. unfold prev_after. rewrite Ep. done.
    + unfold prev_after. case_bool_decide; [done|]. apply (iv_job _ _ _ Hi).
    + exact (iv_len _ _ _ Hi).
    + intros g y _. apply Hbusy.
    + intros _ _. destruct (sending_flow m); [by left|]. right. simpl in Esch. by apply negb_false_iff in Esch.
Qed.

(** ** The output is done *)

Lemma done_ok m xs l : fq_inv m xs l -> allowed m OutputDone -> step_ok m OutputDone l.
Proof.
  intros Hi (Hf & Ho). pose proof (iv_core _ _ _ Hi) as Hc. rewrite (iv_output _ _ _ Hi Hf) in Ho.
  destruct (sending_flow m) as [f|] eqn:Es; [|done]. destruct (iv_send _ _ _ Hi f Es) as (x & Ex & Eq & Hmin).
  destruct (iv_sending _ _ _ Hi ltac:(by rewrite Es)) as [Hp Hj]. pose proof (co_params _ _ _ Hc) as Hpar. pose proof (iv_len _ _ _ Hi) as Hl.
  assert (Hfb : fl_busy x = true) by (apply (iv_busy _ _ _ Hi f x Hf Ex); auto).
  set (m0 := set_queue m false None (sending_len m) (Some f) (queued_tree m) false (flows m)).
  assert (Hc0 : core m0 xs l) by (by apply (core_flags m)).
  destruct (increment_sent_flow_spec m0 xs l f x (packet_weight m + sending_len m) Hc0 eq_refl Ex Eq Hmin ltac:(lia))
    as (d & fl' & Einc & Hd & Hg & Hx & Htx & Hdm).
  set (x' := with_time x (fl_time x + (packet_weight m + sending_len m) - d)) in *.
  set (y := if fl_handler_busy x then with_handler_busy (with_busy x' false) false else with_busy x' false).
  set (m' := set_queue m false None (sending_len m) (Some f) (queued_tree m) true
               (if fl_handler_busy x then <[f := y]> (<[f := with_busy x' false]> fl') else <[f := y]> fl')).
  assert (E : fq_step m OutputDone = Some (m', if fl_handler_busy x then [EDone f; EBusy f] else [EDone f])).
  { cbn [fq_step]. unfold output_handler_done. cbn [sending_flow set_queue]. rewrite Es. cbn [mbind option_bind previous_flow set_queue schedule_job freeing flows].
    rewrite Hp, Hj, Hf. cbn [nonnull negb]. rewrite Ex. cbn [mbind option_bind]. rewrite Eq. cbn [negb packet_weight sending_len set_queue].
    rewrite u64_small by (unfold FAIRQUEUE_MAX_TIME in *; lia).
    match goal with |- context [increment_sent_flow ?M f ?a] => change (increment_sent_flow M f a) with (increment_sent_flow m0 f a) end.
    rewrite Einc. cbn [mbind option_bind set_flows set_list flows set_queue]. rewrite Hx. cbn [mbind option_bind].
    change (fl_busy x') with (fl_busy x). rewrite Hfb. change (fl_handler_busy x') with (fl_handler_busy x).
    unfold m', y. destruct (fl_handler_busy x); reflexivity. }
  assert (Hf' : flows m' !! f = Some y) by (simpl; destruct (fl_handler_busy x); by rewrite lookup_insert_eq).
  assert (Hg' : forall g, g <> f -> flows m' !! g = lowered d <$> flows m !! g).
  { intros g Hgf. simpl. rewrite <- (Hg g Hgf : fl' !! g = lowered d <$> flows m !! g). destruct (fl_handler_busy x); by rewrite !lookup_insert_ne. }
  assert (Hy : fl_is_queued y = false /\ fl_busy y = false /\ fl_data_len y = fl_data_len x /\ fl_time y = fl_time x'
               /\ packet_of y = packet_of x).
  { unfold y, packet_of. destruct (fl_handler_busy x); simpl; rewrite Eq; done. }
  destruct Hy as (Hyq & Hyb & Hyl & Hyt & Hyp).
  assert (Hc' : core m' xs l).
  { apply (core_flags (set_flows m (flows m'))); try done. apply (core_map m xs l _ d Hc). intros g. destruct (decide (g = f)) as [->|Hgf].
    - rewrite Hf', Ex. constructor. split_and!; [by rewrite Eq|done|rewrite Hyt; simpl; lia..|]. by rewrite Eq.
    - rewrite Hg' by done. destruct (flows m !! g) as [z|] eqn:Ez; constructor. pose proof (co_time _ _ _ Hc g z Ez).
      split_and!; [done|done|simpl; lia..|]. intros Ezq. simpl.
      assert (Hzd : d <= flow_time (flows m) g) by (apply Hdm, (co_queued _ _ _ Hc); by exists z).
      rewrite (flow_time_lookup _ _ _ Ez) in Hzd. lia. }
  exists m', (if fl_handler_busy x then [EDone f; EBusy f] else [EDone f]), xs. split; [exact E|]. clear E. split.
  - constructor; try done; simpl.
    + intros p [= <-]. exists y. by split.
    + intros g z _ Ez. destruct (decide (g = f)) as [->|Hgf].
      * simpl in Hf'. rewrite Hf' in Ez. injection Ez as <-. rewrite Hyb, Hyq. naive_solver.
      * simpl in Hg'. rewrite Hg' in Ez by done. destruct (flows m !! g) as [w|] eqn:Ew; [|done]. injection Ez as <-. simpl.
        rewrite (iv_busy _ _ _ Hi g w Hf Ew), Es. naive_solver.
    + by right.
  - split; [|simpl; rewrite app_nil_r|done|done|..].
    + exists d. intros g Ha Ha'. unfold served. rewrite Es. case_bool_decide as Ef.
      * injection Ef as <-. rewrite (flow_time_lookup _ _ _ Hf'), (flow_time_lookup _ _ _ Ex), Hyt. simpl. lia.
      * assert (Hgf : g <> f) by congruence. destruct Ha as [(z & Ez & Ezq)|[?|?]]; [|congruence..].
        unfold flow_time at 1. rewrite Hg', Ez by done. simpl. rewrite (flow_time_lookup _ _ _ Ez).
        assert (Hzd : d <= flow_time (flows m) g) by (apply Hdm, (co_queued _ _ _ Hc); by exists z).
        rewrite (flow_time_lookup _ _ _ Ez) in Hzd. lia.
    + replace (sent _) with (@nil (ptr * Z)) by (by destruct (fl_handler_busy x)). simpl.
      erewrite queued_packets_same; [done|]. intros g. change (packet_of <$> flows m !! g = packet_of <$> flows m' !! g).
      destruct (decide (g = f)) as [->|Hgf]; [rewrite Hf', Ex; simpl; by rewrite Hyp|]. rewrite Hg' by done. by destruct (flows m !! g).
    + intros g. unfold busy_after, busyb. rewrite Es. case_bool_decide as Ef.
      * injection Ef as <-. by rewrite Hf', Hyb, andb_false_r.
      * rewrite Hg' by congruence. destruct (flows m !! g); simpl; by rewrite ?andb_true_r.
    + intros g. rewrite Es. destruct (fl_handler_busy x); set_solver.
Qed.

(** ** The job *)

Lemma job_ok m xs l : fq_inv m xs l -> allowed m ScheduleJob -> step_ok m ScheduleJob l.
Proof.
  intros Hi (Hf & Hj). pose proof (iv_core _ _ _ Hi) as Hc. unfold step_ok. cbn [fq_step]. unfold schedule_job_handler.
  assert (Es : sending_flow m = None).
  { destruct (sending_flow m) eqn:Es; [|done]. destruct (iv_sending _ _ _ Hi ltac:(by rewrite Es)) as [_ Hj']. congruence. }
  cbn [set_queue sending_flow freeing]. rewrite Es, Hf. cbn [nonnull negb output_busy sending_len queued_tree schedule_job flows].
  set (m' := set_queue _ _ None _ None _ _ _).
  assert (Hre : fq_ready m' xs l).
  { split; [by apply (core_flags m)| |exact (iv_len _ _ _ Hi)|].
    - simpl. rewrite (iv_output _ _ _ Hi Hf), Es. done.
    - intros g y Ey. simpl in Ey. rewrite (iv_busy _ _ _ Hi g y Hf Ey), Es. naive_solver. }
  change (queued_tree m') with (queued_tree m). rewrite (Tree_IsEmpty_spec _ _ (co_tree _ _ _ Hc)). case_bool_decide as Ex; cbn [negb].
  - subst xs. exists m', [], []. split; [done|]. split.
    + constructor; try done; simpl; [exact (re_core _ _ _ Hre)|exact (iv_len _ _ _ Hi)| |].
      * intros g y _ Ey. rewrite (re_busy _ _ _ Hre g y Ey). naive_solver.
      * intros _. by rewrite (iv_output _ _ _ Hi Hf), Es.
    + split; [|simpl; by rewrite app_nil_r|done|done|done|by apply no_done; [intros g ?%elem_of_nil|]]. exists 0. intros g _ _. simpl. lia.
  - destruct (schedule_ready m' xs l Hre Ex) as (m2 & eff & xs2 & E2 & Hi2 & Hbu2 & Hnd & Ht2 & Ha2 & Hp2 & Hw2 & Hm2 & Hfr2).
    exists m2, eff, xs2. split; [done|]. split; [done|].
    split; [|simpl; by rewrite app_nil_r, <- Hp2|done|done|intros g; by rewrite Hbu2|by apply no_done].
    exists 0. intros g _ _. rewrite Ht2. simpl. lia.
Qed.

(** ** The user *)

Lemma small_steps_ok m xs l e : fq_inv m xs l -> allowed m e ->
  match e with RequestCancel _ | SetBusyHandler _ _ | PrepareFree => True | _ => False end -> step_ok m e l.
Proof.
  intros Hi Ha He. pose proof (iv_core _ _ _ Hi) as Hc. destruct e as [| | | | |f|f h|]; try done; unfold step_ok; simpl in *.
  - destruct Ha as (Hf & Es & Hu). unfold PacketPassFairQueueFlow_RequestCancel.
    destruct (iv_sending _ _ _ Hi ltac:(by rewrite Es)) as [_ Hj]. rewrite (iv_output _ _ _ Hi Hf), Es, Hu, Hf, Hj. rewrite bool_decide_eq_true_2 by done.
    exists m, [ECancel], xs. split; [done|]. split; [done|].
    split; [|simpl; by rewrite app_nil_r|done|done|done|apply no_done; [set_solver|done]]. exists 0. intros g _ _. simpl. lia.
  - destruct Ha as (Hf & Es). unfold PacketPassFairQueueFlow_SetBusyHandler. destruct (iv_send _ _ _ Hi f Es) as (x & Ex & Eq & Hmin).
    rewrite Es, Hf, bool_decide_eq_true_2 by done. cbn [negb]. rewrite Ex. cbn [mbind option_bind].
    set (y := with_handler_busy x h).
    assert (Ht : forall g, flow_time (<[f := y]> (flows m)) g = flow_time (flows m) g)
      by (intros g; by apply (flow_time_insert_same _ _ _ _ x)).
    do 3 eexists. split; [done|]. split.
    + assert (Hc' : core (set_flows m (<[f := y]> (flows m))) xs l).
      { apply (core_insert m xs l f x y Hc Ex). by apply (similar_refl m xs l f x). }
      destruct Hi as [_ I2 I3 I4 I5 I6 I7 I8 I9]. constructor; simpl; try done.
      * intros s Es'. assert (s = f) as -> by congruence. rewrite lookup_insert_eq. exists y. split_and!; [done|done|].
        intros g Hg. rewrite Ht. by apply Hmin.
      * intros p Ep. destruct (I4 ltac:(by rewrite Es)) as [Hp _]. congruence.
      * intros g z _. destruct (decide (f = g)) as [<-|Hne].
        -- rewrite lookup_insert_eq. intros [= <-]. exact (I7 f x Hf Ex).
        -- rewrite lookup_insert_ne by done. by apply I7.
    + split; [|simpl; rewrite app_nil_r|done|done|..].
      * exists 0. intros g _ _. simpl. rewrite Ht. lia.
      * by rewrite (queued_packets_update _ _ x).
      * intros g. unfold busy_after, busyb. simpl. destruct (decide (f = g)) as [<-|]; [by rewrite lookup_insert_eq, Ex|by rewrite lookup_insert_ne].
      * apply no_done; [set_solver|done].
  - do 3 eexists. split; [done|]. split.
    + destruct Hi as [I1 I2 I3 I4 I5 I6 I7 I8 I9]. constructor; simpl; try done. by apply (core_flags m).
    + split; [|simpl; by rewrite app_nil_r|done|done|done|apply no_done; [set_solver|done]]. exists 0. intros g _ _. simpl. lia.
Qed.

Lemma init_ok m xs l f : fq_inv m xs l -> allowed m (FlowInit f) -> step_ok m (FlowInit f) l.
Proof.
  intros Hi (Hf & En). pose proof (iv_core _ _ _ Hi) as Hc. unfold step_ok. cbn [fq_step]. unfold PacketPassFairQueueFlow_Init. rewrite Hf. cbn [negb].
  assert (Hfl : f ∉ l) by (intros [? ?]%(co_flows _ _ _ Hc); congruence).
  assert (Hfx : f ∉ xs) by (intros (? & ? & _)%(co_queued _ _ _ Hc); congruence).
  set (h := <[f := {| l1_p := None; l1_n := None |}]> (list_nodes m)).
  assert (Hr : LinkedList1.rep (flows_list m) h l).
  { destruct (co_list _ _ _ Hc) as [R1 R2 R3 R4]. split; try done. eapply seg1_frame; [|exact R4]. intros g Hg. unfold h.
    apply lookup_insert_ne. congruence. }
  destruct (LinkedList1_Append_spec _ _ _ f Hr Hfl) as (o' & h' & -> & Hr' & _); [unfold h; set_solver|]. cbn [mbind option_bind].
  set (y := {| fl_handler_busy := false; fl_busy := false; fl_time := 0; fl_is_queued := false; fl_data := 0; fl_data_len := 0 |}).
  assert (Ht : forall g, is_Some (flows m !! g) -> flow_time (<[f := y]> (flows m)) g = flow_time (flows m) g).
  { intros g [z Ez]. apply flow_time_insert_ne. congruence. }
  do 3 eexists. split; [done|]. split.
  - destruct Hi as [_ I2 I3 I4 I5 I6 I7 I8 I9]. constructor; simpl; try done.
    + destruct Hc as [H1 H2 H3 H4 H5 H6 H7 H8]. constructor; simpl; try done.
      * intros g. rewrite elem_of_app, H3, list_elem_of_singleton. destruct (decide (f = g)) as [<-|Hne].
        -- rewrite lookup_insert_eq. split; [by eexists|by right].
        -- rewrite lookup_insert_ne by done. naive_solver.
      * intros g. destruct (decide (f = g)) as [<-|Hne].
        -- rewrite lookup_insert_eq. split; [done|]. intros (? & [= <-] & ?). done.
        -- by rewrite lookup_insert_ne by done.
      * apply (ascending_shift (flows m) _ 0); [|done]. intros g Hg%H4. rewrite Ht; [lia|]. destruct Hg as (z & -> & _). by eexists.
      * intros g z. destruct (decide (f = g)) as [<-|Hne]; [rewrite lookup_insert_eq; intros [= <-]; unfold FAIRQUEUE_MAX_TIME; simpl; lia|].
        rewrite lookup_insert_ne by done. apply H6.
      * intros g z. destruct (decide (f = g)) as [<-|Hne]; [rewrite lookup_insert_eq; by intros [= <-]|].
        rewrite lookup_insert_ne by done. apply H7.
    + intros s Es. destruct (I2 s Es) as (z & Ez & Ezq & Hm). rewrite lookup_insert_ne by congruence. exists z. split_and!; [done|done|].
      intros g Hg. rewrite Ht; [by apply Hm|]. apply (co_queued _ _ _ Hc) in Hg as (w & -> & _). by eexists.
    + intros p Ep. destruct (I3 p Ep) as (z & Ez & Ezq). rewrite lookup_insert_ne by congruence. by exists z.
    + intros g z _. destruct (decide (f = g)) as [<-|Hne].
      * rewrite lookup_insert_eq. intros [= <-]. simpl. split; [done|]. intros [?|Es]; [done|]. destruct (I2 f Es) as (? & ? & _). congruence.
      * rewrite lookup_insert_ne by done. by apply I7.
  - split; [|simpl; rewrite app_nil_r|done|done|..].
    + exists 0. intros g Ha _. simpl. rewrite Ht; [lia|]. by eapply active_flows.
    + rewrite queued_packets_insert. unfold y, packet_of. simpl. by rewrite delete_id.
    + intros g. unfold busy_after, busyb. simpl. destruct (decide (f = g)) as [<-|]; [by rewrite lookup_insert_eq, En|by rewrite lookup_insert_ne].
    + apply no_done; [set_solver|done].
Qed.

Lemma core_delete m xs l f x l1 l2 k1 k2 b s n p j tree o h :
  core m xs l -> flows m !! f = Some x -> l = l1 ++ f :: l2 -> tree_rep tree (k1 ++ k2) ->
  (xs = k1 ++ f :: k2 \/ xs = k1 ++ k2 /\ f ∉ xs) -> LinkedList1.rep o h (l1 ++ l2) ->
  core (set_list (set_queue m b s n p tree j (flows m)) o (delete f h) (delete f (flows m))) (k1 ++ k2) (l1 ++ l2).
Proof.
  intros Hc Ex -> Htr Hxs Hr. pose proof (rep_nodup _ _ _ (co_list _ _ _ Hc)) as Hd. apply NoDup_middle in Hd as (Hf1 & Hf2 & _).
  assert (Hin : forall g, g ∈ k1 ++ k2 <-> g <> f /\ g ∈ xs).
  { pose proof (tree_NoDup _ _ (co_tree _ _ _ Hc)) as Hd. destruct Hxs as [->|[-> Hn]].
    - apply NoDup_middle in Hd as (? & ? & _). set_solver.
    - set_solver. }
  destruct Hc as [H1 H2 H3 H4 H5 H6 H7 H8]. constructor; simpl; try done.
  - destruct Hr as [R1 R2 R3 R4]. split; try done. eapply seg1_frame; [|exact R4]. intros g Hg. apply lookup_delete_ne. set_solver.
  - intros g. specialize (H3 g). destruct (decide (f = g)) as [<-|Hne].
    + rewrite lookup_delete_eq. split; [set_solver|]. by intros [? ?].
    + rewrite lookup_delete_ne by done. rewrite <- H3. set_solver.
  - intros g. rewrite Hin. destruct (decide (f = g)) as [<-|Hne].
    + rewrite lookup_delete_eq. split; [by intros [? _]|]. by intros (? & ? & _).
    + rewrite lookup_delete_ne by done. rewrite <- H4. naive_solver.
  - apply (ascending_shift (flows m) _ 0).
    + intros g [Hg _]%Hin. unfold flow_time. rewrite lookup_delete_ne by done. lia.
    + destruct Hxs as [->|[-> _]]; [by eapply ascending_remove|done].
  - intros g z [_ Ez]%lookup_delete_Some. by eapply H6.
  - intros g z [_ Ez]%lookup_delete_Some. by eapply H7.
Qed.

Lemma free_ok m xs l f : fq_inv m xs l -> allowed m (FlowFree f) -> step_ok m (FlowFree f) l.
Proof.
  intros Hi ([x Ex] & Hff). pose proof (iv_core _ _ _ Hi) as Hc. unfold step_ok. cbn [fq_step]. unfold PacketPassFairQueueFlow_Free.
  replace (freeing m || negb (bool_decide (sending_flow m = Some f))) with true
    by (destruct Hff as [->|Hne]; [done|rewrite bool_decide_eq_false_2 by done; by rewrite orb_true_r]).
  rewrite Ex. cbn [mbind option_bind].
  assert (exists tree k1 k2, (if fl_is_queued x then Tree_Remove (queued_tree m) f else Some (queued_tree m)) = Some tree
    /\ tree_rep tree (k1 ++ k2) /\ (xs = k1 ++ f :: k2 \/ xs = k1 ++ k2 /\ f ∉ xs)) as (tree & k1 & k2 & -> & Htr & Hxs).
  { destruct (fl_is_queued x) eqn:Eq.
    - assert (Hin : f ∈ xs) by (apply (co_queued _ _ _ Hc); by exists x). apply list_elem_of_split in Hin as (k1 & k2 & E).
      pose proof (co_tree _ _ _ Hc) as Htree. rewrite E in Htree. destruct (Tree_Remove_spec _ _ _ _ Htree) as (tree & -> & Htr).
      exists tree, k1, k2. split_and!; [done|done|by left].
    - exists (queued_tree m), [], xs. split_and!; [done|apply (co_tree _ _ _ Hc)|]. right. split; [done|].
      intros (? & ? & ?)%(co_queued _ _ _ Hc). congruence. }
  cbn [mbind option_bind]. assert (Hin : f ∈ l) by (apply (co_flows _ _ _ Hc); by eexists). apply list_elem_of_split in Hin as (l1 & l2 & El).
  pose proof (co_list _ _ _ Hc) as Hlist. rewrite El in Hlist.
  destruct (LinkedList1_Remove_spec _ _ _ _ _ Hlist) as (o & h & -> & Hr & _). cbn [mbind option_bind].
  set (s' := if bool_decide (sending_flow m = Some f) then None else sending_flow m).
  set (p' := if bool_decide (previous_flow m = Some f) then None else previous_flow m).
  assert (Hs' : forall g, s' = Some g -> sending_flow m = Some g /\ g <> f).
  { intros g. unfold s'. case_bool_decide; [done|]. intros E. split; [done|]. congruence. }
  assert (Hp' : forall g, p' = Some g -> previous_flow m = Some g /\ g <> f).
  { intros g. unfold p'. case_bool_decide; [done|]. intros E. split; [done|]. congruence. }
  assert (Hsame : freeing m = false -> s' = sending_flow m).
  { intros Ef. unfold s'. rewrite bool_decide_eq_false_2; [done|]. destruct Hff; congruence. }
  do 3 eexists. split; [done|]. split.
  - cbn [flows_after].
    rewrite El, LinkedList1.remove_one_app by (pose proof (rep_nodup _ _ _ Hlist) as Hnd; by apply NoDup_middle in Hnd as (? & _)).
    constructor; simpl.
    + by apply (core_delete m xs l f x).
    + intros g [Es Hg]%Hs'. destruct (iv_send _ _ _ Hi g Es) as (z & Ez & Ezq & Hm). rewrite lookup_delete_ne by done. exists z.
      split_and!; [done|done|]. intros w Hw. assert (Hwx : w ∈ xs) by (destruct Hxs as [->|[-> _]]; set_solver).
      assert (w <> f).
      { destruct Hxs as [->|[-> Hn]]; [|set_solver]. pose proof (tree_NoDup _ _ (co_tree _ _ _ Hc)) as Hd.
        apply NoDup_middle in Hd as (? & ? & _). set_solver. }
      unfold flow_time. rewrite lookup_delete_ne by done. by apply Hm.
    + intros g [Ep Hg]%Hp'. rewrite lookup_delete_ne by done. by apply (iv_prev _ _ _ Hi).
    + intros Hne. destruct s' as [g|] eqn:Es; [|done]. destruct (Hs' g eq_refl) as [Es' _]. destruct (iv_sending _ _ _ Hi) as [Ep Ej]; [by rewrite Es'|].
      unfold p'. rewrite Ep. done.
    + intros Hne. destruct p' as [g|] eqn:Ep; [|done]. destruct (Hp' g eq_refl) as [Ep' _]. apply (iv_job _ _ _ Hi). by rewrite Ep'.
    + apply (iv_len _ _ _ Hi).
    + intros g z Hf' [_ Ez]%lookup_delete_Some. rewrite Hsame by done. by apply (iv_busy _ _ _ Hi).
    + intros Hf'. rewrite Hsame by done. by apply (iv_output _ _ _ Hi).
    + intros Hf' Hne. rewrite Hsame by done. apply (iv_work _ _ _ Hi Hf'). destruct Hxs as [->|[-> _]]; [by destruct k1|done].
  - split; [|simpl; rewrite app_nil_r, Ex; by apply queued_packets_delete|done|done|intros g|apply no_done; [set_solver|done]].
    2: { unfold busy_after, busyb. simpl. destruct (Z.eqb_spec g f) as [->|]; [by rewrite lookup_delete_eq, andb_false_r|].
         by rewrite lookup_delete_ne, andb_true_r. }
    exists 0. intros g _ Ha. simpl. unfold flow_time. rewrite lookup_delete_ne; [lia|]. intros <-.
    destruct Ha as [(z & Ez & _)|[Es|Ep]]; simpl in *; [by rewrite lookup_delete_eq in Ez|by apply Hs' in Es as [_ ?]|by apply Hp' in Ep as [_ ?]].
Qed.

(** Every event that the interfaces and the user may cause is handled. *)
Lemma fq_step_ok m xs l e : fq_inv m xs l -> allowed m e -> step_ok m e l.
Proof.
  intros Hi Ha. destruct e; eauto using init_ok, free_ok, send_ok, done_ok, job_ok; by eapply small_steps_ok.
Qed.

(** * Runs *)

(** A step of a run: the queue before it, the event and the effects. *)
Record fq_moment := { mo_queue : FQ; mo_event : fq_event; mo_effects : list fq_effect }.

Inductive fq_runs : FQ -> list fq_moment -> FQ -> Prop :=
| runs_nil m : fq_runs m [] m
| runs_cons m e m1 eff tr m' :
    allowed m e -> fq_step m e = Some (m1, eff) -> fq_runs m1 tr m' ->
    fq_runs m ({| mo_queue := m; mo_event := e; mo_effects := eff |} :: tr) m'.

Definition initial (m : FQ) : Prop :=
  exists mtu weight cancel has_cancel, 0 <= mtu <= INT_MAX /\ weight <= INT_MAX
    /\ PacketPassFairQueue_Init mtu weight cancel has_cancel = Some (Some m).
Definition reachable (m : FQ) : Prop := exists m0 tr, initial m0 /\ fq_runs m0 tr m.

Definition run_accepted (tr : list fq_moment) : list (ptr * Z) := tr ≫= fun a => accepted (mo_event a).
Definition run_sent (tr : list fq_moment) : list (ptr * Z) := tr ≫= fun a => sent (mo_effects a).
Definition run_lost (tr : list fq_moment) : list (ptr * Z) := tr ≫= fun a => lost (mo_queue a) (mo_event a).
(** The bytes of a flow that the output finished, with the weight of the packets. *)
Definition run_served (tr : list fq_moment) (f : ptr) : Z :=
  foldr (fun a n => served (mo_queue a) (mo_event a) f + n) 0 tr.

Lemma initial_inv m : initial m -> fq_inv m [] [].
Proof.
  intros (mtu & w & c & hc & Hm & Hw & E). unfold PacketPassFairQueue_Init in E. destruct (w >? 0) eqn:Ew; [|done].
  destruct (negb c || hc); [|done]. unfold INT_MAX in *. rewrite u64_small in E by (unfold FAIRQUEUE_MAX_TIME; lia).
  replace ((mtu <=? FAIRQUEUE_MAX_TIME) && (w <=? FAIRQUEUE_MAX_TIME - mtu)) with true in E by (unfold FAIRQUEUE_MAX_TIME; lia).
  injection E as <-. zbool. constructor; simpl; try done; [|lia].
  constructor; simpl; try done.
  - apply Tree_Init_spec.
  - split; [done|done|constructor|done].
  - intros f. rewrite lookup_empty. split; [by intros ?%elem_of_nil|by intros [? ?]].
  - intros f. rewrite lookup_empty. split; [by intros ?%elem_of_nil|by intros (? & ? & _)].
  - constructor.
  - unfold FAIRQUEUE_MAX_TIME. lia.
Qed.

Lemma runs_inv m tr m' xs l : fq_runs m tr m' -> fq_inv m xs l -> exists xs' l', fq_inv m' xs' l'.
Proof.
  intros Hr. revert xs l. induction Hr as [m|m e m1 eff tr m' Ha E _ IH]; intros xs l Hi; [by exists xs, l|].
  destruct (fq_step_ok m xs l e Hi Ha) as (m1' & eff' & xs1 & E' & Hi1 & _). rewrite E in E'. injection E' as <- <-. by eapply IH.
Qed.

Lemma runs_snoc m tr m1 e m2 eff : fq_runs m tr m1 -> allowed m1 e -> fq_step m1 e = Some (m2, eff) ->
  fq_runs m (tr ++ [{| mo_queue := m1; mo_event := e; mo_effects := eff |}]) m2.
Proof.
  intros Hr Ha E. induction Hr as [m|m e' m1' eff' tr m' Ha' E' _ IH]; simpl; (econstructor; [done|done|]); [constructor|by apply IH].
Qed.

Lemma reachable_inv m : reachable m -> exists xs l, fq_inv m xs l.
Proof. intros (m0 & tr & Hi%initial_inv & Hr). by eapply runs_inv. Qed.

Lemma runs_packets m tr m' xs l : fq_runs m tr m' -> fq_inv m xs l ->
  queued_packets (flows m) ++ run_accepted tr ≡ₚ run_sent tr ++ run_lost tr ++ queued_packets (flows m').
Proof.
  intros Hr. revert xs l. induction Hr as [m|m e m1 eff tr m' Ha E _ IH]; intros xs l Hi; [by rewrite app_nil_r|].
  destruct (fq_step_ok m xs l e Hi Ha) as (m1' & eff' & xs1 & E' & Hi1 & Hd). rewrite E in E'. injection E' as <- <-.
  pose proof (did_packets _ _ _ _ Hd) as Hp. specialize (IH xs1 _ Hi1). unfold run_accepted, run_sent, run_lost in *. simpl.
  rewrite (app_assoc (queued_packets (flows m))), Hp. rewrite <- !app_assoc, IH. solve_Permutation.
Qed.

(** While two flows stay active, their times keep pace with what they were
    served, and the one ahead is at most one packet further ahead than before. *)
Lemma runs_fair m tr m' xs l f g : fq_runs m tr m' -> fq_inv m xs l -> f <> g ->
  Forall (fun a => active (mo_queue a) f /\ active (mo_queue a) g) tr -> active m' f -> active m' g ->
  let gap m := flow_time (flows m) f - flow_time (flows m) g in
  gap m' = gap m + run_served tr f - run_served tr g /\ gap m' <= Z.max (gap m) (fq_mtu m + packet_weight m).
Proof.
  intros Hr. revert xs l. induction Hr as [m|m e m1 eff tr m' Ha E Hr IH]; intros xs l Hi Hne Hall Hf Hg; [simpl; lia|].
  destruct (fq_step_ok m xs l e Hi Ha) as (m1' & eff' & xs1 & E' & Hi1 & [[d Hd] _ [Hw Hmtu] _ _ _]). rewrite E in E'. injection E' as <- <-.
  apply Forall_cons_iff in Hall as [[Hf0 Hg0] Hall]. cbn [mo_queue] in Hf0, Hg0.
  assert (Ha1 : active m1 f /\ active m1 g).
  { inversion Hr; subst; [done|]. by apply Forall_cons_iff in Hall as [? _]. }
  destruct Ha1 as [Hf1 Hg1]. destruct (IH xs1 _ Hi1 Hne Hall Hf Hg) as [IH1 IH2]. rewrite Hw, Hmtu in IH2.
  pose proof (Hd f Hf0 Hf1) as Df. pose proof (Hd g Hg0 Hg1) as Dg. cbn [run_served foldr mo_queue mo_event] in *. unfold run_served in IH1.
  cbv zeta. split; [lia|].
  assert (0 <= served m e g /\ (served m e f <= 0 \/ flow_time (flows m) f <= flow_time (flows m) g /\ served m e f <= fq_mtu m + packet_weight m)); [|lia].
  destruct e; simpl; try lia. pose proof (iv_len _ _ _ Hi). pose proof (co_params _ _ _ (iv_core _ _ _ Hi)).
  split; [case_bool_decide; lia|]. case_bool_decide as Es; [|lia]. right. split; [|lia].
  destruct (iv_send _ _ _ Hi f Es) as (x & Ex & _ & Hmin). rewrite (flow_time_lookup _ _ _ Ex). apply Hmin.
  destruct (iv_sending _ _ _ Hi ltac:(by rewrite Es)) as [Hp _].
  destruct Hg0 as [?|[?|?]]; [by apply (co_queued _ _ _ (iv_core _ _ _ Hi))|congruence..].
Qed.

(** Without flows nothing is left, so that the queue can be freed. *)
Lemma free_empty_ok m xs l : fq_inv m xs l -> flows m = ∅ -> PacketPassFairQueue_Free m = Some ().
Proof.
  intros Hi E. pose proof (iv_core _ _ _ Hi) as Hc.
  assert (l = []) as ->.
  { destruct l as [|f l]; [done|]. assert (Hf : f ∈ f :: l) by left. apply (co_flows _ _ _ Hc) in Hf as [x Hx]. by rewrite E in Hx. }
  assert (xs = []) as ->.
  { destruct xs as [|f xs]; [done|]. assert (Hf : f ∈ f :: xs) by left. apply (co_queued _ _ _ Hc) in Hf as (x & Hx & _). by rewrite E in Hx. }
  unfold PacketPassFairQueue_Free, LinkedList1_IsEmpty. rewrite (rep_first _ _ _ (co_list _ _ _ Hc)), (Tree_IsEmpty_spec _ _ (co_tree _ _ _ Hc)).
  destruct (previous_flow m) as [f|] eqn:Ep; [destruct (iv_prev _ _ _ Hi f Ep) as (x & Hx & _); by rewrite E in Hx|].
  destruct (sending_flow m) as [f|] eqn:Es; [destruct (iv_send _ _ _ Hi f Es) as (x & Hx & _); by rewrite E in Hx|]. done.
Qed.

(** C17. In every state the queue can reach, every call that the interfaces and the
    user may make is handled, also while the queue is being freed (when any flow
    may be freed, even the one whose packet is being sent): no ASSERT fails (in
    particular the tree accepts every flow, the loop that lowers the times ends,
    and the output gets a packet only when it is free).  While the queue is in use
    a waiting packet never stays behind: the output is busy or the job is going to
    run.  And once the flows are freed, freeing the queue fails no ASSERT. *)
Theorem FairQueue_safe m e :
  reachable m -> allowed m e ->
  (exists m' eff, fq_step m e = Some (m', eff) /\ reachable m')
  /\ (freeing m = false -> queued_packets (flows m) <> [] -> output_busy m = true \/ schedule_job m = true)
  /\ (flows m = ∅ -> PacketPassFairQueue_Free m = Some ()).
Proof.
  intros Hr Ha. destruct (reachable_inv m Hr) as (xs & l & Hi). split_and!; [| |by eapply free_empty_ok].
  - destruct (fq_step_ok m xs l e Hi Ha) as (m' & eff & xs1 & E & _). exists m', eff. split; [done|].
    destruct Hr as (m0 & tr & Hini & Hr). exists m0, (tr ++ [{| mo_queue := m; mo_event := e; mo_effects := eff |}]). split; [done|].
    by eapply runs_snoc.
  - intros Hf Hq. assert (Hx : xs <> []).
    { intros ->. apply Hq. unfold queued_packets. destruct (omap snd _) as [|p r] eqn:E; [done|].
      assert (Hp : p ∈ omap snd (map_to_list (packet_of <$> flows m))) by (rewrite E; left).
      apply list_elem_of_omap in Hp as ([g o] & Hg & Ho). apply elem_of_map_to_list in Hg. rewrite lookup_fmap in Hg.
      destruct (flows m !! g) as [x|] eqn:Ex; [|done]. injection Hg as <-. simpl in Ho. unfold packet_of in Ho.
      destruct (fl_is_queued x) eqn:Eq; [|done]. destruct (not_elem_of_nil g). apply (co_queued _ _ _ (iv_core _ _ _ Hi)). by exists x. }
    destruct (iv_work _ _ _ Hi Hf Hx) as [Hs|Hj]; [left|by right]. rewrite (iv_output _ _ _ Hi Hf). by destruct (sending_flow m).
Qed.

(** C19. Nothing is lost, doubled or made up: after every run the packets that were
    accepted from the flows are, up to their order, those passed to the output,
    those whose flow was freed while they waited, and those that wait. *)
Theorem FairQueue_delivers m tr m' :
  initial m -> fq_runs m tr m' ->
  run_accepted tr ≡ₚ run_sent tr ++ run_lost tr ++ queued_packets (flows m').
Proof.
  intros Hi Hr. pose proof (runs_packets m tr m' [] [] Hr (initial_inv m Hi)) as Hp.
  assert (flows m = ∅) as E.
  { apply map_eq. intros f. destruct (flows m !! f) eqn:Ef; [|done].
    destruct (not_elem_of_nil f). apply (co_flows _ _ _ (iv_core _ _ _ (initial_inv m Hi))). by eexists. }
  rewrite E in Hp. exact Hp.
Qed.

(** C18. Fairness: while two flows both have something to send, the one gets at most
    one packet (with its weight) more than the other, beyond the lead in time the
    other had at the beginning; however the 64-bit times overflow in between. *)
Theorem FairQueue_fair m tr m' f g :
  reachable m -> fq_runs m tr m' -> f <> g ->
  Forall (fun a => active (mo_queue a) f /\ active (mo_queue a) g) tr -> active m' f -> active m' g ->
  run_served tr f - run_served tr g
    <= fq_mtu m + packet_weight m + Z.max 0 (flow_time (flows m) g - flow_time (flows m) f).
Proof.
  intros Hre Hr Hne Hall Hf Hg. destruct (reachable_inv m Hre) as (xs & l & Hi).
  destruct (runs_fair m tr m' xs l f g Hr Hi Hne Hall Hf Hg) as [E Hle]. cbv zeta in *.
  pose proof (co_params _ _ _ (iv_core _ _ _ Hi)). lia.
Qed.
End Correct.

(** * Concrete runs with the tree of CAvl.v *)

Abbreviation fairqueue := (PacketPassFairQueue (T := CAvl)).

Definition allowedb (m : fairqueue) (e : fq_event) : bool :=
  match e with
  | FlowInit f => negb (freeing m) && bool_decide (flows m !! f = None)
  | FlowFree f => nonnull (flows m !! f) && (freeing m || negb (bool_decide (sending_flow m = Some f)))
  | FlowSend f _ len => negb (freeing m) && (0 <=? len) && (len <=? fq_mtu m)
                        && match flows m !! f with Some x => negb (fl_busy x) | None => false end
  | OutputDone => negb (freeing m) && output_busy m
  | ScheduleJob => negb (freeing m) && schedule_job m
  | RequestCancel f => negb (freeing m) && bool_decide (sending_flow m = Some f) && use_cancel m
  | SetBusyHandler f _ => negb (freeing m) && bool_decide (sending_flow m = Some f)
  | PrepareFree => true
  end.

#[export] Instance option_flow_eq_dec : EqDecision Flow.
Proof. solve_decision. Defined.

Lemma allowedb_allowed m e : allowedb m e = true -> allowed m e.
Proof.
  destruct e; simpl; rewrite ?andb_true_iff, ?orb_true_iff, ?negb_true_iff, ?bool_decide_eq_true, ?bool_decide_eq_false; try tauto.
  - intros [Hn Hf]. split; [by destruct (flows m !! f)|tauto].
  - intros [[[? ?] ?] Hx]. split; [done|]. split; [lia|]. destruct (flows m !! f) as [x|]; [|done]. exists x. by apply negb_true_iff in Hx.
Qed.

Fixpoint fq_exec (m : fairqueue) (es : list fq_event) : option (list (fq_moment (T := CAvl)) * fairqueue) :=
  match es with
  | [] => Some ([], m)
  | e :: es =>
      ASSERT allowedb m e;
      '(m1, eff) ← fq_step m e;
      '(tr, m') ← fq_exec m1 es;
      Some ({| mo_queue := m; mo_event := e; mo_effects := eff |} :: tr, m')
  end.

Lemma fq_exec_runs es : forall m tr m', fq_exec m es = Some (tr, m') -> fq_runs m tr m'.
Proof.
  induction es as [|e es IH]; intros m tr m' E; simpl in E; [injection E as <- <-; constructor|].
  destruct (allowedb m e) eqn:Ea; [|done]. destruct (fq_step m e) as [[m1 eff]|] eqn:E1; [|done]. simpl in E.
  destruct (fq_exec m1 es) as [[tr1 m2]|] eqn:E2; [|done]. injection E as <- <-. econstructor; [by apply allowedb_allowed|done|by apply IH].
Qed.

Definition ex_init : fairqueue :=
  match PacketPassFairQueue_Init (T := CAvl) 100 1 false false with Some (Some m) => m
  | _ => set_freeing {| fq_mtu := 0; use_cancel := false; packet_weight := 0; output_busy := false; sending_flow := None; sending_len := 0;
      previous_flow := None; queued_tree := CAvl_Init; flows_list := LinkedList1_Init; list_nodes := ∅; freeing := true; schedule_job := false; flows := ∅ |}
  end.
Definition ex_run (m : fairqueue) (es : list fq_event) : list (fq_moment (T := CAvl)) * fairqueue := default ([], m) (fq_exec m es).

Lemma ex_init_initial : initial ex_init.
Proof. exists 100, 1, false, false. split; [done|]. split; [done|]. vm_compute. reflexivity. Qed.

Lemma ex_run_runs m es : fq_runs m (ex_run m es).1 (ex_run m es).2.
Proof.
  unfold ex_run. destruct (fq_exec m es) as [[tr m']|] eqn:E; [by apply fq_exec_runs in E|constructor].
Qed.

(** Flow 1000 sends packets of 10 bytes and flow 2000 packets of 100 bytes, each
    as soon as its last one is finished. *)
Definition ex_start : list fq_event := [FlowInit 1000; FlowInit 2000; FlowSend 1000 11 10; FlowSend 2000 21 100].
Definition ex_small : list fq_event := [OutputDone; FlowSend 1000 11 10; ScheduleJob].
Definition ex_large : list fq_event := [OutputDone; FlowSend 2000 21 100; ScheduleJob].
Definition ex_share : list fq_event :=
  ex_small ++ ex_large ++ ex_small ++ ex_small ++ ex_small ++ ex_small ++ ex_small ++ ex_small ++ ex_small ++ ex_small ++ ex_small ++ ex_large.

Definition ex_queue : fairqueue := (ex_run ex_init ex_start).2.

Lemma ex_queue_reachable : reachable ex_queue.
Proof. exists ex_init, (ex_run ex_init ex_start).1. split; [apply ex_init_initial|apply ex_run_runs]. Qed.

Definition activeb (m : fairqueue) (f : ptr) : bool :=
  match flows m !! f with Some x => fl_is_queued x | None => false end
  || bool_decide (sending_flow m = Some f) || bool_decide (previous_flow m = Some f).
Lemma activeb_active m f : activeb m f = true -> active m f.
Proof.
  unfold activeb. rewrite !orb_true_iff, !bool_decide_eq_true. intros [[Hq|?]|?]; [left|by right; left|by right; right].
  destruct (flows m !! f) as [x|]; [by exists x|done].
Qed.
Lemma activeb_all tr f g : forallb (fun a => activeb (mo_queue a) f && activeb (mo_queue a) g) tr = true ->
  Forall (fun a => active (mo_queue a) f /\ active (mo_queue a) g) tr.
Proof.
  intros E. apply List.Forall_forall. intros a Ha. rewrite forallb_forall in E. specialize (E a Ha).
  apply andb_true_iff in E as [? ?]. split; by apply activeb_active.
Qed.

Lemma FairQueue_fair_witness :
  run_served (ex_run ex_queue ex_share).1 1000 = 110 /\ run_served (ex_run ex_queue ex_share).1 2000 = 202
  /\ run_served (ex_run ex_queue ex_share).1 2000 - run_served (ex_run ex_queue ex_share).1 1000 <= 101.
Proof.
  split; [vm_compute; reflexivity|]. split; [vm_compute; reflexivity|].
  change 101 with (100 + 1 + Z.max 0 (0 - 0)).
  refine (FairQueue_fair ex_queue (ex_run ex_queue ex_share).1 (ex_run ex_queue ex_share).2 2000 1000 ex_queue_reachable (ex_run_runs _ _) _ _ _ _);
    [discriminate|apply activeb_all; vm_compute; reflexivity|apply activeb_active; vm_compute; reflexivity..].
Defined.

(** The sender is freed while its packet is on the way. *)
Definition ex_freeing : fairqueue := (ex_run ex_queue [PrepareFree]).2.

Lemma FairQueue_safe_witness :
  sending_flow ex_freeing = Some 1000
  /\ (exists m' eff, fq_step ex_freeing (FlowFree 1000) = Some (m', eff) /\ reachable m')
  /\ (exists m' eff, fq_step ex_queue OutputDone = Some (m', eff) /\ reachable m')
  /\ (output_busy ex_queue = true \/ schedule_job ex_queue = true).
Proof.
  assert (Hr : reachable ex_freeing).
  { destruct (FairQueue_safe ex_queue PrepareFree ex_queue_reachable I) as [(m' & eff & E & Hr) _]. cbn [fq_step] in E. injection E as <- _. exact Hr. }
  assert (Ha : allowed ex_freeing (FlowFree 1000)) by (apply allowedb_allowed; vm_compute; reflexivity).
  assert (Ha' : allowed ex_queue OutputDone) by (apply allowedb_allowed; vm_compute; reflexivity).
  destruct (FairQueue_safe ex_freeing (FlowFree 1000) Hr Ha) as (H1 & _).
  destruct (FairQueue_safe ex_queue OutputDone ex_queue_reachable Ha') as (H2 & H3 & _).
  split; [vm_compute; reflexivity|]. split; [exact H1|]. split; [exact H2|]. apply H3; [vm_compute; reflexivity|vm_compute; discriminate].
Defined.

Lemma FairQueue_delivers_witness :
  [(11, 10); (21, 100); (11, 10)] ≡ₚ [(11, 10); (21, 100)] ++ [] ++ [(11, 10)].
Proof.
  exact (FairQueue_delivers ex_init (ex_run ex_init (ex_start ++ ex_small)).1 (ex_run ex_init (ex_start ++ ex_small)).2 ex_init_initial (ex_run_runs _ _)).
Defined.

(** The time of a flow that finished a packet and has no other is not taken back
    by the job: flow 1000 sends three packets alone and pauses; flow 2000, new,
    then sends three packets before the next packet of flow 1000. *)
Definition ex_alone : list fq_event := [FlowInit 1000; FlowSend 1000 11 100] ++ [OutputDone; FlowSend 1000 11 100; ScheduleJob]
  ++ [OutputDone; FlowSend 1000 11 100; ScheduleJob] ++ [OutputDone; ScheduleJob].
Definition ex_new : list fq_event := [FlowInit 2000; FlowSend 2000 21 100; FlowSend 1000 11 100]
  ++ ex_large ++ ex_large ++ ex_large.

Example FairQueue_pause_is_charged :
  run_sent (ex_run ex_init (ex_alone ++ ex_new)).1
  = [(11, 100); (11, 100); (11, 100)] ++ [(21, 100); (21, 100); (21, 100)] ++ [(11, 100)].
Proof. vm_compute. reflexivity. Qed.
