(* ===== verification/PacketFlow.v ===== *)
(** The flow components that carry packets of a UDP connection to the packet
    queue: flow/BufferWriter.c, flow/PacketProtoEncoder.c, flow/PacketBuffer.c
    and their composition flow/PacketProtoFlow.c.

    A component's functions take and return its own record, the records of the
    interfaces they call and the job stack.  Data pointers are byte addresses in
    the memory of the PacketBuffer's ring, which is where BufferWriter's client
    and the encoder write.  [ppf_step] is the event loop of the composition: the
    client, the provider of the output interface and the execution of the next
    pending job, in any order. *)

From S2P Require Import Prelude ByteOrder SLinkedList BPending ChunkBuffer2 FlowInterface.
Open Scope Z_scope.

Section Components.
Context {J : Type} `{EqDecision J}.

(** * flow/BufferWriter.c *)

Record BufferWriter := {
  bw_recv_interface : PacketRecvInterface ptr;
  bw_out_have : bool;
  bw_out : option ptr }.

Definition BufferWriter_output_handler_recv (o : BufferWriter) (data : option ptr) : option BufferWriter :=
  ASSERT negb (bw_out_have o);
  Some {| bw_recv_interface := bw_recv_interface o; bw_out_have := true; bw_out := data |}.

Definition BufferWriter_Init (mtu : Z) : option BufferWriter :=
  ASSERT mtu >=? 0;
  i ← PacketRecvInterface_Init mtu;
  Some {| bw_recv_interface := i; bw_out_have := false; bw_out := None |}.

Definition BufferWriter_Free (k : ijobs J) (jobs : list J) : list J := PacketRecvInterface_Free k jobs.

(** [None] is the return value 0; otherwise the buffer handed to the caller. *)
Definition BufferWriter_StartPacket (o : BufferWriter) : option (option ptr) :=
  if bw_out_have o then Some (bw_out o) else None.

Definition BufferWriter_EndPacket (k : ijobs J) (o : BufferWriter) (len : Z) (jobs : list J)
    : option (BufferWriter * list J) :=
  ASSERT len >=? 0;
  ASSERT len <=? PacketRecvInterface_GetMTU (bw_recv_interface o);
  ASSERT bw_out_have o;
  '(i, jobs) ← PacketRecvInterface_Done k (bw_recv_interface o) len jobs;
  Some ({| bw_recv_interface := i; bw_out_have := false; bw_out := bw_out o |}, jobs).

(** * flow/PacketProtoEncoder.c *)

Definition sizeof_packetproto_header : Z := 2.
Definition PACKETPROTO_ENCLEN (len : Z) : Z := sizeof_packetproto_header + len.
Definition PACKETPROTO_MAXPAYLOAD : Z := UINT16_MAX.

Record PacketProtoEncoder := {
  enc_output : PacketRecvInterface ptr;
  enc_output_packet : option ptr }.

(** [input] is the interface the encoder receives packets from. *)
Definition PacketProtoEncoder_output_handler_recv (k : ijobs J) (enc : PacketProtoEncoder)
    (input : PacketRecvInterface ptr) (data : option ptr) (jobs : list J)
    : option (PacketProtoEncoder * PacketRecvInterface ptr * list J) :=
  ASSERT negb (nonnull (enc_output_packet enc));
  ASSERT nonnull data;
  '(input, jobs) ← PacketRecvInterface_Receiver_Recv k input
                     (option_map (Z.add sizeof_packetproto_header) data) jobs;
  Some ({| enc_output := enc_output enc; enc_output_packet := data |}, input, jobs).

(** [mem] is the memory [output_packet] points into. *)
Definition PacketProtoEncoder_input_handler_done (k : ijobs J) (enc : PacketProtoEncoder)
    (mem : bytes) (in_len : Z) (jobs : list J) : option (PacketProtoEncoder * bytes * list J) :=
  packet ← enc_output_packet enc;
  mem ← mem_write mem packet (mem16 (htol16 in_len));
  '(out, jobs) ← PacketRecvInterface_Done k (enc_output enc) (PACKETPROTO_ENCLEN in_len) jobs;
  Some ({| enc_output := out; enc_output_packet := None |}, mem, jobs).

Definition PacketProtoEncoder_Init (input : PacketRecvInterface ptr)
    : option (PacketProtoEncoder * PacketRecvInterface ptr) :=
  ASSERT PacketRecvInterface_GetMTU input <=? PACKETPROTO_MAXPAYLOAD;
  input ← PacketRecvInterface_Receiver_Init input;
  out ← PacketRecvInterface_Init (PACKETPROTO_ENCLEN (PacketRecvInterface_GetMTU input));
  Some ({| enc_output := out; enc_output_packet := None |}, input).

Definition PacketProtoEncoder_Free (k : ijobs J) (jobs : list J) : list J := PacketRecvInterface_Free k jobs.

(** * flow/PacketBuffer.c *)

Record PacketBuffer := { pb_buf : ChunkBuffer2; pb_input_mtu : Z }.

(** The address of a block of the ring. *)
Definition block_addr (i : option Z) : option ptr := option_map (fun i => i * sizeof_block) i.

(** Schedule a receive if the ring has room for a packet of the input's MTU. *)
Definition pb_schedule_recv (k : ijobs J) (buf : PacketBuffer) (input : PacketRecvInterface ptr)
    (jobs : list J) : option (PacketRecvInterface ptr * list J) :=
  if input_avail (pb_buf buf) >=? pb_input_mtu buf
  then PacketRecvInterface_Receiver_Recv k input (block_addr (input_dest (pb_buf buf))) jobs
  else Some (input, jobs).

Definition pb_send (k : pjobs J) (buf : PacketBuffer) (output : PacketPassInterface ptr) (jobs : list J) :=
  PacketPassInterface_Sender_Send k output (block_addr (output_dest (pb_buf buf)))
    (output_avail (pb_buf buf)) jobs.

Definition PacketBuffer_input_handler_done (ki : ijobs J) (ko : pjobs J) (buf : PacketBuffer)
    (input : PacketRecvInterface ptr) (output : PacketPassInterface ptr) (in_len : Z) (jobs : list J)
    : option (PacketBuffer * PacketRecvInterface ptr * PacketPassInterface ptr * list J) :=
  ASSERT in_len >=? 0;
  ASSERT in_len <=? pb_input_mtu buf;
  let was_empty := output_avail (pb_buf buf) <? 0 in
  cb ← ChunkBuffer2_SubmitPacket (pb_buf buf) in_len;
  let buf := {| pb_buf := cb; pb_input_mtu := pb_input_mtu buf |} in
  '(input, jobs) ← pb_schedule_recv ki buf input jobs;
  '(output, jobs) ← (if was_empty then pb_send ko buf output jobs else Some (output, jobs));
  Some (buf, input, output, jobs).

Definition PacketBuffer_output_handler_done (ki : ijobs J) (ko : pjobs J) (buf : PacketBuffer)
    (input : PacketRecvInterface ptr) (output : PacketPassInterface ptr) (jobs : list J)
    : option (PacketBuffer * PacketRecvInterface ptr * PacketPassInterface ptr * list J) :=
  let was_full := input_avail (pb_buf buf) <? pb_input_mtu buf in
  cb ← ChunkBuffer2_ConsumePacket (pb_buf buf);
  let buf := {| pb_buf := cb; pb_input_mtu := pb_input_mtu buf |} in
  '(input, jobs) ← (if was_full then pb_schedule_recv ki buf input jobs else Some (input, jobs));
  '(output, jobs) ← (if output_avail cb >=? 0 then pb_send ko buf output jobs else Some (output, jobs));
  Some (buf, input, output, jobs).

(** [alloc n] is what BAllocArray returns for [n] bytes.  The result is [None]
    inside when the function returns 0. *)
Definition PacketBuffer_Init (alloc : Z -> option bytes) (ki : ijobs J)
    (input : PacketRecvInterface ptr) (output : PacketPassInterface ptr) (num_packets : Z) (jobs : list J)
    : option (option (PacketBuffer * PacketRecvInterface ptr * PacketPassInterface ptr * list J)) :=
  ASSERT PacketPassInterface_GetMTU output >=? PacketRecvInterface_GetMTU input;
  ASSERT num_packets >? 0;
  input ← PacketRecvInterface_Receiver_Init input;
  let input_mtu := PacketRecvInterface_GetMTU input in
  output ← PacketPassInterface_Sender_Init output;
  let num_blocks := ChunkBuffer2_calc_blocks input_mtu num_packets in
  if num_blocks <? 0 then Some None else
  match alloc (num_blocks * sizeof_block) with
  | None => Some None
  | Some buf_data =>
      cb ← ChunkBuffer2_Init buf_data num_blocks input_mtu;
      '(input, jobs) ← PacketRecvInterface_Receiver_Recv ki input (block_addr (input_dest cb)) jobs;
      Some (Some ({| pb_buf := cb; pb_input_mtu := input_mtu |}, input, output, jobs))
  end.
End Components.

(** * flow/PacketProtoFlow.c *)

Inductive ppf_job :=
| WriterOperation | WriterDone | EncoderOperation | EncoderDone
| OutOperation | OutRequestCancel | OutDone.
#[export] Instance ppf_job_eq_dec : EqDecision ppf_job.
Proof. solve_decision. Defined.

Definition kw : ijobs ppf_job := {| j_op := WriterOperation; j_done := WriterDone |}.
Definition ke : ijobs ppf_job := {| j_op := EncoderOperation; j_done := EncoderDone |}.
Definition ko : pjobs ppf_job :=
  {| pj := {| j_op := OutOperation; j_done := OutDone |}; j_requestcancel := OutRequestCancel |}.

Record PacketProtoFlow := {
  ppf_ainput : BufferWriter;
  ppf_encoder : PacketProtoEncoder;
  ppf_buffer : PacketBuffer;
  ppf_output : PacketPassInterface ptr;
  ppf_jobs : list ppf_job }.

Definition PacketProtoFlow_Init (alloc : Z -> option bytes) (input_mtu num_packets : Z)
    (output : PacketPassInterface ptr) (jobs : list ppf_job) : option (option PacketProtoFlow) :=
  ASSERT input_mtu >=? 0;
  ASSERT input_mtu <=? PACKETPROTO_MAXPAYLOAD;
  ASSERT num_packets >? 0;
  ASSERT PacketPassInterface_GetMTU output >=? PACKETPROTO_ENCLEN input_mtu;
  w ← BufferWriter_Init input_mtu;
  '(enc, winput) ← PacketProtoEncoder_Init (bw_recv_interface w);
  let w := {| bw_recv_interface := winput; bw_out_have := bw_out_have w; bw_out := bw_out w |} in
  r ← PacketBuffer_Init alloc ke (enc_output enc) output num_packets jobs;
  match r with
  | None => Some None
  | Some (buf, einput, output, jobs) =>
      Some (Some {| ppf_ainput := w;
                    ppf_encoder := {| enc_output := einput; enc_output_packet := enc_output_packet enc |};
                    ppf_buffer := buf; ppf_output := output; ppf_jobs := jobs |})
  end.

Definition PacketProtoFlow_Free (jobs : list ppf_job) : list ppf_job :=
  BufferWriter_Free kw (PacketProtoEncoder_Free ke jobs).

(** * The event loop of the composition *)

Definition set_mem (buf : PacketBuffer) (mem : bytes) : PacketBuffer :=
  let cb := pb_buf buf in
  {| pb_buf := set_ring cb mem (wrap cb) (start cb) (used cb); pb_input_mtu := pb_input_mtu buf |}.

Definition ppf_mem (s : PacketProtoFlow) : bytes := buffer (pb_buf (ppf_buffer s)).

Inductive ppf_op :=
| ClientSend (p : bytes)     (* StartPacket, the bytes, EndPacket *)
| OutputDone                 (* the provider of the output completes the packet *)
| Execute.                   (* the event loop runs the next job *)

Inductive ppf_event :=
| PacketAccepted (p : bytes)
| PacketDropped (p : bytes)  (* StartPacket returned 0 *)
| PacketOut (f : bytes).     (* the output's provider is given these bytes *)

Definition client_send (s : PacketProtoFlow) (p : bytes) : option (PacketProtoFlow * list ppf_event) :=
  match BufferWriter_StartPacket (ppf_ainput s) with
  | None => Some (s, [PacketDropped p])
  | Some out =>
      out ← out;
      mem ← mem_write (ppf_mem s) out p;
      '(w, jobs) ← BufferWriter_EndPacket kw (ppf_ainput s) (blen p) (ppf_jobs s);
      Some ({| ppf_ainput := w; ppf_encoder := ppf_encoder s; ppf_buffer := set_mem (ppf_buffer s) mem;
               ppf_output := ppf_output s; ppf_jobs := jobs |}, [PacketAccepted p])
  end.

Definition set_writer_if (w : BufferWriter) (i : PacketRecvInterface ptr) : BufferWriter :=
  {| bw_recv_interface := i; bw_out_have := bw_out_have w; bw_out := bw_out w |}.
Definition set_encoder_if (e : PacketProtoEncoder) (i : PacketRecvInterface ptr) : PacketProtoEncoder :=
  {| enc_output := i; enc_output_packet := enc_output_packet e |}.

(** BPendingGroup_ExecuteJob on the jobs of the composition: the first job is
    taken off the stack and its interface calls the handler of the component it
    was initialised with. *)
Definition ppf_execute (s : PacketProtoFlow) : option (PacketProtoFlow * list ppf_event) :=
  match ppf_jobs s with
  | [] => None
  | WriterOperation :: jobs =>
      '(data, i) ← _PacketRecvInterface_job_operation (bw_recv_interface (ppf_ainput s));
      w ← BufferWriter_output_handler_recv (set_writer_if (ppf_ainput s) i) data;
      Some ({| ppf_ainput := w; ppf_encoder := ppf_encoder s; ppf_buffer := ppf_buffer s;
               ppf_output := ppf_output s; ppf_jobs := jobs |}, [])
  | WriterDone :: jobs =>
      '(len, i) ← _PacketRecvInterface_job_done (bw_recv_interface (ppf_ainput s));
      '(e, mem, jobs) ← PacketProtoEncoder_input_handler_done ke (ppf_encoder s) (ppf_mem s) len jobs;
      Some ({| ppf_ainput := set_writer_if (ppf_ainput s) i; ppf_encoder := e;
               ppf_buffer := set_mem (ppf_buffer s) mem; ppf_output := ppf_output s;
               ppf_jobs := jobs |}, [])
  | EncoderOperation :: jobs =>
      '(data, i) ← _PacketRecvInterface_job_operation (enc_output (ppf_encoder s));
      '(e, wi, jobs) ← PacketProtoEncoder_output_handler_recv kw (set_encoder_if (ppf_encoder s) i)
                         (bw_recv_interface (ppf_ainput s)) data jobs;
      Some ({| ppf_ainput := set_writer_if (ppf_ainput s) wi; ppf_encoder := e;
               ppf_buffer := ppf_buffer s; ppf_output := ppf_output s; ppf_jobs := jobs |}, [])
  | EncoderDone :: jobs =>
      '(len, i) ← _PacketRecvInterface_job_done (enc_output (ppf_encoder s));
      '(buf, i, out, jobs) ← PacketBuffer_input_handler_done ke ko (ppf_buffer s) i (ppf_output s) len jobs;
      Some ({| ppf_ainput := ppf_ainput s; ppf_encoder := set_encoder_if (ppf_encoder s) i;
               ppf_buffer := buf; ppf_output := out; ppf_jobs := jobs |}, [])
  | OutOperation :: jobs =>
      '(a, out) ← _PacketPassInterface_job_operation (ppf_output s);
      data ← fst a;
      f ← mem_read (ppf_mem s) data (snd a);
      Some ({| ppf_ainput := ppf_ainput s; ppf_encoder := ppf_encoder s; ppf_buffer := ppf_buffer s;
               ppf_output := out; ppf_jobs := jobs |}, [PacketOut f])
  | OutRequestCancel :: jobs => None
  | OutDone :: jobs =>
      out ← _PacketPassInterface_job_done (ppf_output s);
      '(buf, i, out, jobs) ← PacketBuffer_output_handler_done ke ko (ppf_buffer s)
                               (enc_output (ppf_encoder s)) out jobs;
      Some ({| ppf_ainput := ppf_ainput s; ppf_encoder := set_encoder_if (ppf_encoder s) i;
               ppf_buffer := buf; ppf_output := out; ppf_jobs := jobs |}, [])
  end.

Definition ppf_step (s : PacketProtoFlow) (op : ppf_op) : option (PacketProtoFlow * list ppf_event) :=
  match op with
  | ClientSend p => client_send s p
  | OutputDone =>
      '(out, jobs) ← PacketPassInterface_Done ko (ppf_output s) (ppf_jobs s);
      Some ({| ppf_ainput := ppf_ainput s; ppf_encoder := ppf_encoder s; ppf_buffer := ppf_buffer s;
               ppf_output := out; ppf_jobs := jobs |}, [])
  | Execute => ppf_execute s
  end.

(** The frame of a packet on the stream (protocol/packetproto.h). *)
Definition packetproto_frame (p : bytes) : bytes := mem16 (htol16 (blen p)) ++ p.

(** * The invariant of the composition *)

(** Where the receive request of the ring is: nowhere (no room), waiting for
    the encoder or the writer, held by the writer, or on its way back with a
    packet. *)
Inductive tphase :=
| TIdle | TEncOp (d : Z) | TWriterOp (d : Z) | TWriterBusy (d : Z)
| TWriterDone (d : Z) (p : bytes) | TEncDone (d : Z) (p : bytes).

(** Where the head of the queue is: no packet, waiting for the output's
    provider, held by it, or completed. *)
Inductive ophase := ONone | OOp | OBusy | ODone.

Definition job_active (t : tphase) (o : ophase) (j : ppf_job) : Prop :=
  match j, t, o with
  | WriterOperation, TWriterOp _, _ | WriterDone, TWriterDone _ _, _
  | EncoderOperation, TEncOp _, _ | EncoderDone, TEncDone _ _, _
  | OutOperation, _, OOp | OutDone, _, ODone => True
  | _, _, _ => False
  end.

(** [m] is the MTU of the input and [num] the number of packets the ring is
    sized for. *)
Section Invariant.
Context (m num : Z).

Definition e_if (s : PacketProtoFlow) := pri_if (enc_output (ppf_encoder s)).
Definition w_if (s : PacketProtoFlow) := pri_if (bw_recv_interface (ppf_ainput s)).
Definition o_if (s : PacketProtoFlow) := ppi_if (ppf_output s).
Definition ring (s : PacketProtoFlow) := pb_buf (ppf_buffer s).

Definition room (s : PacketProtoFlow) (d : Z) : Prop :=
  input_dest (ring s) = Some d /\ 2 + m <= input_avail (ring s).

Definition tok_ok (s : PacketProtoFlow) (t : tphase) : Prop :=
  match t with
  | TIdle =>
      if_state (e_if s) = STATE_NONE /\ if_state (w_if s) = STATE_NONE
      /\ enc_output_packet (ppf_encoder s) = None /\ bw_out_have (ppf_ainput s) = false
      /\ input_avail (ring s) < 2 + m
  | TEncOp d =>
      if_state (e_if s) = STATE_OPERATION_PENDING /\ if_operation (e_if s) = Some (Some (d * sizeof_block))
      /\ if_state (w_if s) = STATE_NONE
      /\ enc_output_packet (ppf_encoder s) = None /\ bw_out_have (ppf_ainput s) = false /\ room s d
  | TWriterOp d =>
      if_state (e_if s) = STATE_BUSY
      /\ if_state (w_if s) = STATE_OPERATION_PENDING /\ if_operation (w_if s) = Some (Some (2 + d * sizeof_block))
      /\ enc_output_packet (ppf_encoder s) = Some (d * sizeof_block)
      /\ bw_out_have (ppf_ainput s) = false /\ room s d
  | TWriterBusy d =>
      if_state (e_if s) = STATE_BUSY /\ if_state (w_if s) = STATE_BUSY
      /\ enc_output_packet (ppf_encoder s) = Some (d * sizeof_block)
      /\ bw_out_have (ppf_ainput s) = true /\ bw_out (ppf_ainput s) = Some (2 + d * sizeof_block) /\ room s d
  | TWriterDone d p =>
      if_state (e_if s) = STATE_BUSY
      /\ if_state (w_if s) = STATE_DONE_PENDING /\ if_done (w_if s) = Some (blen p)
      /\ enc_output_packet (ppf_encoder s) = Some (d * sizeof_block)
      /\ bw_out_have (ppf_ainput s) = false /\ room s d
      /\ blen p <= m /\ mem_read (ppf_mem s) (2 + d * sizeof_block) (blen p) = Some p
  | TEncDone d p =>
      if_state (e_if s) = STATE_DONE_PENDING /\ if_done (e_if s) = Some (2 + blen p)
      /\ if_state (w_if s) = STATE_NONE
      /\ enc_output_packet (ppf_encoder s) = None /\ bw_out_have (ppf_ainput s) = false /\ room s d
      /\ blen p <= m /\ mem_read (ppf_mem s) (d * sizeof_block) (2 + blen p) = Some (packetproto_frame p)
  end.

Definition out_ok (s : PacketProtoFlow) (o : ophase) (q : list bytes) : Prop :=
  match o with
  | ONone => if_state (o_if s) = STATE_NONE /\ q = []
  | OOp => if_state (o_if s) = STATE_OPERATION_PENDING /\ q <> []
           /\ if_operation (o_if s) = Some (block_addr (output_dest (ring s)), output_avail (ring s))
  | OBusy => if_state (o_if s) = STATE_BUSY /\ q <> []
  | ODone => if_state (o_if s) = STATE_DONE_PENDING /\ q <> [] /\ if_done (o_if s) = Some tt
  end.

(** What never changes. *)
Record static_ok (s : PacketProtoFlow) : Prop := {
  st_m : 0 <= m <= PACKETPROTO_MAXPAYLOAD;
  st_emtu : pri_mtu (enc_output (ppf_encoder s)) = 2 + m;
  st_wmtu : pri_mtu (bw_recv_interface (ppf_ainput s)) = m;
  st_omtu : 2 + m <= ppi_mtu (ppf_output s);
  st_bmtu : pb_input_mtu (ppf_buffer s) = 2 + m;
  st_ring : mtu (ring s) = bdivide_up (2 + m) sizeof_block;
  st_num : 0 < num;
  st_size : (1 + mtu (ring s)) * (num + 1) <= size (ring s);
  st_euser : if_handler_done (e_if s) = true;
  st_wuser : if_handler_done (w_if s) = true;
  st_ouser : if_handler_done (o_if s) = true }.

Record ppf_inv (s : PacketProtoFlow) (t : tphase) (o : ophase) (q : list bytes) : Prop := {
  inv_static : static_ok s;
  inv_rep : cb_rep (ring s) q;
  inv_fits : Forall (fun f => blen f <= 2 + m) q;
  inv_nodup : NoDup (ppf_jobs s);
  inv_jobs : forall j, j ∈ ppf_jobs s <-> job_active t o j;
  inv_tok : tok_ok s t;
  inv_out : out_ok s o q }.

(** The packets on the way into the ring, and the frames in it that the
    output's provider has not been given. *)
Definition incoming (t : tphase) : list bytes :=
  match t with TWriterDone _ p | TEncDone _ p => [p] | _ => [] end.
Definition unsent (o : ophase) (q : list bytes) : list bytes :=
  match o with ONone | OOp => q | OBusy | ODone => tail q end.

Definition accepted_packets (l : list ppf_event) : list bytes :=
  omap (fun e => match e with PacketAccepted p => Some p | _ => None end) l.
Definition out_frames (l : list ppf_event) : list bytes :=
  omap (fun e => match e with PacketOut f => Some f | _ => None end) l.

(** What enters and what leaves. *)
Definition balanced (ev : list ppf_event) t o q t' o' q' : Prop :=
  out_frames ev ++ unsent o' q' ++ map packetproto_frame (incoming t')
  = unsent o q ++ map packetproto_frame (incoming t ++ accepted_packets ev).

(** The jobs after the first one was taken and others were set. *)
Lemma jobs_taken j0 (l : list ppf_job) x : NoDup (j0 :: l) -> x ∈ l <-> x ∈ j0 :: l /\ x <> j0.
Proof. intros [? _]%NoDup_cons. rewrite elem_of_cons. set_solver. Qed.

Definition allowed (s : PacketProtoFlow) (op : ppf_op) : Prop :=
  match op with
  | ClientSend p => blen p <= m
  | OutputDone => if_state (o_if s) = STATE_BUSY
  | Execute => ppf_jobs s <> []
  end.

Definition step_ok (s : PacketProtoFlow) (op : ppf_op) t o q : Prop :=
  exists s' ev t' o' q', ppf_step s op = Some (s', ev) /\ ppf_inv s' t' o' q'
    /\ balanced ev t o q t' o' q'.
End Invariant.

(** Membership of the new stack, from the old one. *)
Ltac jobs_tac I :=
  intros j; rewrite ?elem_of_set; rewrite ?(jobs_taken _ _ j I);
  match goal with H : forall j, _ |- _ => rewrite ?H end;
  destruct j; simpl; intuition (congruence || discriminate || eauto).

(** Open the records of a state whose invariant is known. *)
Ltac unpack I :=
  let St := fresh "St" in let R := fresh "R" in let F := fresh "F" in
  let N := fresh "N" in let Jb := fresh "Jb" in let T := fresh "T" in let O := fresh "O" in
  destruct I as [St R F N Jb T O]; destruct St;
  match goal with
  | s : PacketProtoFlow |- _ =>
      destruct s as [[[wmtu [wuser wop wdone wst]] have out] [[emtu [euser eop edone est]] opkt]
                     [cb imtu] [omtu hc [ouser oop odone ost] cr] jobs]
  end;
  unfold tok_ok, out_ok in T, O; unfold room, e_if, w_if, o_if, ring, ppf_mem in *; simpl in *; subst.

Section Steps.
Context (m num : Z).

Lemma head_active s t o q j l : ppf_inv m num s t o q -> ppf_jobs s = j :: l -> job_active t o j.
Proof. intros I E. apply (inv_jobs _ _ _ _ _ _ I). rewrite E. set_solver. Qed.

Lemma step_client s t o q p : ppf_inv m num s t o q -> blen p <= m -> step_ok m num s (ClientSend p) t o q.
Proof.
  intros I Hp. pose proof (blen_nonneg p). destruct (bw_out_have (ppf_ainput s)) eqn:Hh.
  2: { exists s, [PacketDropped p], t, o, q. unfold ppf_step, client_send, BufferWriter_StartPacket.
       rewrite Hh. split; [done|]. split; [done|]. unfold balanced. simpl. by rewrite app_nil_r. }
  unpack I. destruct t; simpl in T; destruct_and! T; simplify_eq.
  destruct (rep_write_free cb q d (2 + d * sizeof_block) p R) as (buf & W & R'); [done|lia..|].
  unfold step_ok, ppf_step, client_send. simpl. unfold ppf_mem. simpl. rewrite W. simpl.
  unfold BufferWriter_EndPacket, PacketRecvInterface_Done, PacketRecvInterface_GetMTU. simpl.
  zbool. zdecide. simpl. eexists _, _, (TWriterDone d p), o, q. split; [reflexivity|].
  split; [|done].
  split; try done; simpl; try (split; done).
  - apply job_set_nodup; done.
  - jobs_tac N.
  - unfold e_if, w_if, ppf_mem, room; simpl. split_and!; try done; try lia. by apply mem_read_write_same in W.
Qed.

Lemma step_output_done s t o q : ppf_inv m num s t o q -> if_state (o_if s) = STATE_BUSY ->
  step_ok m num s OutputDone t o q.
Proof.
  intros I Hb. unpack I. destruct o; destruct_and! O; simplify_eq.
  unfold step_ok, ppf_step, PacketPassInterface_Done. simpl.
  eexists _, _, t, ODone, q. split; [reflexivity|]. split; [|unfold balanced; simpl; by rewrite ?app_nil_r].
  split; try done; simpl; try (split; done).
  - apply job_set_nodup, job_unset_nodup, N.
  - intros j. rewrite elem_of_set, elem_of_unset, Jb. destruct j, t; simpl; intuition congruence.
Qed.

Lemma exec_writer_operation s t o q l : ppf_inv m num s t o q -> ppf_jobs s = WriterOperation :: l ->
  step_ok m num s Execute t o q.
Proof.
  intros I E. pose proof (head_active _ _ _ _ _ _ I E) as A. unpack I. destruct t; try done. destruct_and! T; simplify_eq.
  unfold step_ok, ppf_step, ppf_execute. simpl.
  eexists _, _, (TWriterBusy d), o, q. split; [reflexivity|]. split; [|unfold balanced; simpl; by rewrite ?app_nil_r].
  split; try done; simpl; try (split; done).
  - by apply NoDup_cons in N as [_ N].
  - jobs_tac N.
Qed.

Lemma exec_encoder_operation s t o q l : ppf_inv m num s t o q -> ppf_jobs s = EncoderOperation :: l ->
  step_ok m num s Execute t o q.
Proof.
  intros I E. pose proof (head_active _ _ _ _ _ _ I E) as A. unpack I.
  destruct t; try done. destruct_and! T; simplify_eq.
  unfold step_ok, ppf_step, ppf_execute. simpl.
  unfold PacketProtoEncoder_output_handler_recv, PacketRecvInterface_Receiver_Recv. simpl.
  rewrite orb_true_r. simpl.
  eexists _, _, (TWriterOp d), o, q. split; [reflexivity|]. split; [|unfold balanced; simpl; by rewrite ?app_nil_r].
  split; try done; simpl; try (split; done).
  - apply job_set_nodup. by apply NoDup_cons in N as [_ N].
  - jobs_tac N.
Qed.

Lemma exec_writer_done s t o q l : ppf_inv m num s t o q -> ppf_jobs s = WriterDone :: l ->
  step_ok m num s Execute t o q.
Proof.
  intros I E. pose proof (head_active _ _ _ _ _ _ I E) as A. unpack I.
  destruct t; try done. destruct_and! T; simplify_eq. pose proof (blen_nonneg p).
  destruct (rep_write_free cb q d (d * sizeof_block) (mem16 (htol16 (blen p))) R) as (buf & W & R');
    [done|lia|rewrite write_le16_length; lia|].
  unfold step_ok, ppf_step, ppf_execute. simpl.
  unfold PacketProtoEncoder_input_handler_done, ppf_mem, PacketRecvInterface_Done. simpl. rewrite W. simpl.
  unfold PACKETPROTO_ENCLEN, sizeof_packetproto_header. zbool. zdecide. simpl.
  eexists _, _, (TEncDone d p), o, q. split; [reflexivity|]. split; [|unfold balanced; simpl; by rewrite ?app_nil_r].
  split; try done; simpl; try (split; done).
  - apply job_set_nodup. by apply NoDup_cons in N as [_ N].
  - jobs_tac N.
  - unfold e_if, w_if, ppf_mem, room; simpl. split_and!; try done; try lia.
    pose proof (mem_read_write_same _ _ _ _ W) as Hh. rewrite write_le16_length in Hh.
    eapply mem_read_join; [exact Hh|]. rewrite (mem_read_write_disjoint _ _ _ _ _ _ W).
    + by replace (d * sizeof_block + 2) with (2 + d * sizeof_block) by lia.
    + rewrite write_le16_length. lia.
Qed.

Lemma exec_out_operation s t o q l : ppf_inv m num s t o q -> ppf_jobs s = OutOperation :: l ->
  step_ok m num s Execute t o q.
Proof.
  intros I E. pose proof (head_active _ _ _ _ _ _ I E) as A. unpack I.
  destruct o; try (by destruct t). destruct_and! O; simplify_eq. destruct q as [|f q]; [done|].
  pose proof (rep_output _ _ R) as Ho. simpl in Ho. apply (inj2 pair) in Ho as [Hd Ha].
  destruct (layout_head cb f q (rep_geo _ _ R) (rep_layout _ _ R)) as (_ & Hf & _).
  unfold step_ok, ppf_step, ppf_execute, ppf_mem. simpl. rewrite Hd, Ha. simpl. rewrite Hf. simpl.
  eexists _, _, t, OBusy, (f :: q). split; [reflexivity|]. split; [|unfold balanced; simpl; by rewrite ?app_nil_r].
  split; try done; simpl; try (split; done).
  - by apply NoDup_cons in N as [_ N].
  - jobs_tac N.
Qed.

Lemma frame_len p : blen (packetproto_frame p) = 2 + blen p.
Proof. unfold packetproto_frame. by rewrite blen_app, write_le16_length. Qed.

(** Whether a receive is scheduled depends on the room alone. *)
Definition recv_tok (cb : ChunkBuffer2) (t : tphase) (st : istate) (op : option (option ptr)) : Prop :=
  match t with
  | TIdle => st = STATE_NONE /\ input_avail cb < 2 + m
  | TEncOp d => st = STATE_OPERATION_PENDING /\ op = Some (Some (d * sizeof_block))
                /\ input_dest cb = Some d /\ 2 + m <= input_avail cb
  | _ => False
  end.

Lemma schedule_recv_spec cb eop edone q jobs : cb_rep cb q -> 0 <= m -> NoDup jobs ->
  let e st op := {| pri_mtu := 2 + m;
                    pri_if := {| if_handler_done := true; if_operation := op; if_done := edone; if_state := st |} |} in
  exists t st op jobs',
    pb_schedule_recv ke {| pb_buf := cb; pb_input_mtu := 2 + m |} (e STATE_NONE eop) jobs
    = Some (e st op, jobs')
    /\ recv_tok cb t st op /\ NoDup jobs'
    /\ (forall j, j ∈ jobs' <-> j ∈ jobs \/ j = EncoderOperation /\ t <> TIdle).
Proof.
  intros R Hm N e. unfold pb_schedule_recv. simpl. zbool. ztest.
  - destruct (rep_avail_dest cb q R) as [d D]; [lia|].
    exists (TEncOp d), STATE_OPERATION_PENDING, (Some (Some (d * sizeof_block))), (job_set EncoderOperation jobs).
    unfold PacketRecvInterface_Receiver_Recv. rewrite D. simpl. rewrite orb_true_r.
    split_and!; try done; auto with jobs. intros j. rewrite elem_of_set. intuition congruence.
  - exists TIdle, STATE_NONE, eop, jobs. split_and!; try done. intros j. intuition congruence.
Qed.

(** The head of the queue is sent. *)
Lemma pb_send_spec cb omtu hc oop odone cr f q jobs : cb_rep cb (f :: q) -> blen f <= omtu ->
  pb_send ko {| pb_buf := cb; pb_input_mtu := 2 + m |}
    {| ppi_mtu := omtu; ppi_handler_requestcancel := hc;
       ppi_if := {| if_handler_done := true; if_operation := oop; if_done := odone; if_state := STATE_NONE |};
       ppi_cancel_requested := cr |} jobs
  = Some ({| ppi_mtu := omtu; ppi_handler_requestcancel := hc;
             ppi_if := {| if_handler_done := true;
                          if_operation := Some (block_addr (output_dest cb), output_avail cb);
                          if_done := odone; if_state := STATE_OPERATION_PENDING |};
             ppi_cancel_requested := false |}, job_set OutOperation jobs).
Proof.
  intros R Hf. unfold pb_send, PacketPassInterface_Sender_Send. simpl.
  pose proof (rep_output _ _ R) as Ho. simpl in Ho. apply (inj2 pair) in Ho as [-> ->].
  pose proof (blen_nonneg f). zbool. zdecide. simpl. by rewrite orb_true_r.
Qed.

Lemma tok_after_recv cb t st op wop wdone edone out buf o jobs : recv_tok cb t st op ->
  tok_ok m
    {| ppf_ainput :=
         {| bw_recv_interface :=
              {| pri_mtu := m;
                 pri_if := {| if_handler_done := true; if_operation := wop; if_done := wdone;
                              if_state := STATE_NONE |} |};
            bw_out_have := false; bw_out := out |};
       ppf_encoder :=
         {| enc_output :=
              {| pri_mtu := 2 + m;
                 pri_if := {| if_handler_done := true; if_operation := op; if_done := edone; if_state := st |} |};
            enc_output_packet := None |};
       ppf_buffer := {| pb_buf := cb; pb_input_mtu := buf |}; ppf_output := o; ppf_jobs := jobs |} t.
Proof. destruct t; try done; simpl; intros H; destruct_and! H; subst; done. Qed.

Lemma exec_encoder_done s t o q l : ppf_inv m num s t o q -> ppf_jobs s = EncoderDone :: l ->
  step_ok m num s Execute t o q.
Proof.
  intros I E. pose proof (head_active _ _ _ _ _ _ I E) as A. unpack I.
  destruct t; try done. destruct_and! T; simplify_eq. pose proof (blen_nonneg p).
  destruct (SubmitPacket_rep cb q (packetproto_frame p) d R) as (cb' & Es & R' & [Sz Sm] & Ss);
    [done|rewrite frame_len; lia|by rewrite frame_len|].
  rewrite frame_len in Es.
  assert (F' : Forall (fun f => blen f <= 2 + m) (q ++ [packetproto_frame p])).
  { apply Forall_app. split; [done|]. apply Forall_singleton. rewrite frame_len. lia. }
  pose proof (rep_output _ _ R) as Ho. pose proof (rep_output _ _ R') as Ho'.
  apply NoDup_cons in N as N'. destruct N' as [_ N'].
  unfold step_ok, ppf_step, ppf_execute. simpl. unfold PacketBuffer_input_handler_done. simpl.
  zbool. zdecide. rewrite Es. simpl.
  destruct (schedule_recv_spec cb' eop (Some (2 + blen p)) _ l R') as (t' & st & op & l' & Er & Ht & Nl & Jl);
    [lia|done|]. unfold set_encoder_if. simpl. rewrite Er. simpl.
  destruct q as [|f q].
  - destruct o; destruct_and! O; simplify_eq. simpl in Ho. apply (inj2 pair) in Ho as [_ ->].
    rewrite (pb_send_spec _ _ _ _ _ _ _ _ _ R') by (rewrite frame_len; lia). simpl.
    eexists _, _, t', OOp, [packetproto_frame p]. split; [reflexivity|]. 
    split; [|destruct t'; try done; unfold balanced; simpl; by rewrite ?app_nil_r].
    split; try done; simpl; [split; unfold ring; simpl; try done; by rewrite ?Sz, ?Sm|auto with jobs| |].
    + intros j. rewrite elem_of_set, Jl, (jobs_taken _ _ j N), Jb. destruct t'; try done; destruct j; simpl; intuition congruence.
    + by apply tok_after_recv.
  - simpl in Ho. apply (inj2 pair) in Ho as [Hd Ha]. rewrite Ha. pose proof (blen_nonneg f). zdecide. simpl.
    eexists _, _, t', o, (f :: q ++ [packetproto_frame p]). split; [reflexivity|].
    split; [|destruct t', o; try done; unfold balanced; simpl; by rewrite ?app_nil_r].
    split; try done; simpl; [split; unfold ring; simpl; try done; by rewrite ?Sz, ?Sm| | |].
    + intros j. rewrite Jl, (jobs_taken _ _ j N), Jb. destruct t'; try done; destruct j; simpl; intuition congruence.
    + by apply tok_after_recv.
    + simpl in Ho'. apply (inj2 pair) in Ho' as [Hd' Ha']. destruct o; destruct_and! O; try done.
      unfold out_ok, o_if, ring. simpl. split_and!; try done. rewrite Hd', Ha', Ss, <- Hd, <- Ha. done.
Qed.

(** Consuming keeps the place offered for the next packet. *)
Lemma consume_input cb cb' f q d : cb_rep cb (f :: q) -> cb_rep cb' q ->
  _ChunkBuffer2_end cb' = _ChunkBuffer2_end cb -> free_blocks cb <= free_blocks cb' ->
  input_dest cb = Some d -> input_dest cb' = Some d /\ input_avail cb <= input_avail cb'.
Proof.
  intros R R' He Hf D. destruct (rep_input_some _ _ _ R D) as (-> & F & Av).
  pose proof (rep_input _ _ R') as I. rewrite (layout_input cb' q (rep_geo _ _ R') (rep_layout _ _ R')) in I.
  revert I. zbool. zdecide. intros I. apply (inj2 pair) in I as [-> ->]. rewrite He. split; [done|].
  unfold sizeof_block in *. lia.
Qed.

(** What a completed output packet does to the receive request. *)
Lemma out_done_recv s t q f cb' l : ppf_inv m num s t ODone (f :: q) -> ppf_jobs s = OutDone :: l ->
  cb_rep cb' q -> buffer cb' = buffer (ring s) ->
  _ChunkBuffer2_end cb' = _ChunkBuffer2_end (ring s) -> free_blocks (ring s) <= free_blocks cb' ->
  exists t' i' l',
    (if input_avail (ring s) <? 2 + m
     then pb_schedule_recv ke {| pb_buf := cb'; pb_input_mtu := 2 + m |} (enc_output (ppf_encoder s)) l
     else Some (enc_output (ppf_encoder s), l)) = Some (i', l')
    /\ incoming t' = incoming t /\ NoDup l' /\ (forall j, j ∈ l' <-> job_active t' ONone j)
    /\ pri_mtu i' = 2 + m /\ if_handler_done (pri_if i') = true
    /\ forall o jobs, tok_ok m {| ppf_ainput := ppf_ainput s; ppf_encoder := set_encoder_if (ppf_encoder s) i';
                             ppf_buffer := {| pb_buf := cb'; pb_input_mtu := 2 + m |};
                             ppf_output := o; ppf_jobs := jobs |} t'.
Proof.
  intros I E R' Sb Se Sf. unpack I. apply NoDup_cons in N as N'. destruct N' as [_ N'].
  assert (Jl : forall j, j ∈ l <-> job_active t ONone j).
  { intros j. rewrite (jobs_taken _ _ j N), Jb. destruct j, t; simpl; intuition congruence. }
  destruct (Z.ltb_spec (input_avail cb) (2 + m)) as [Hfull|Hroom].
  - destruct t; destruct_and! T; try lia. subst.
    destruct (schedule_recv_spec cb' eop edone q l R') as (t' & st & op & l' & Er & Ht & Nl & Jl'); [lia|done|].
    eexists t', _, l'. split; [exact Er|]. split; [by destruct t'|]. split; [done|].
    split; [|split; [done|split; [done|intros o jobs; by apply tok_after_recv]]].
    intros j. rewrite Jl', Jl. destruct t'; try done; destruct j; simpl; intuition congruence.
  - exists t. eexists _, l. split; [reflexivity|]. split; [done|]. split; [done|]. split; [done|].
    split; [done|]. split; [done|]. intros o jobs. simpl. unfold set_encoder_if; simpl.
    destruct t; destruct_and! T; [lia|..];
      (destruct (consume_input cb cb' f q d R R' Se Sf) as [? ?]; [done|]);
      unfold tok_ok, e_if, w_if, room, ring, ppf_mem; simpl; rewrite ?Sb; split_and!; done || lia.
Qed.

Lemma exec_out_done s t o q l : ppf_inv m num s t o q -> ppf_jobs s = OutDone :: l ->
  step_ok m num s Execute t o q.
Proof.
  intros I E. pose proof (head_active _ _ _ _ _ _ I E) as A. destruct o; try (by destruct t).
  destruct q as [|f q]; [by destruct (inv_out _ _ _ _ _ _ I) as (_ & ? & _)|].
  destruct (ConsumePacket_rep (ring s) f q (inv_rep _ _ _ _ _ _ I)) as (cb' & Es & R' & [Sz Sm] & Sb & Se & Sf).
  destruct (out_done_recv s t q f cb' l I E R' Sb Se Sf) as (t' & i' & l' & Er & Hi & Nl & Jl & Hm' & Hu & Ht).
  unpack I. destruct_and! O; simplify_eq. apply Forall_cons in F as [Hf F'].
  unfold step_ok, ppf_step, ppf_execute. simpl. unfold PacketBuffer_output_handler_done. simpl.
  rewrite Es. simpl. rewrite Er. unfold set_ppi_if. simpl. pose proof (rep_output _ _ R') as Ho.
  destruct q as [|f' q']; simpl in Ho; apply (inj2 pair) in Ho as [Hd Ha].
  - rewrite Ha. simpl. eexists _, _, t', ONone, []. split; [reflexivity|].
    split; [|unfold balanced; simpl; by rewrite Hi, ?app_nil_r].
    split; simpl; [split; unfold ring, e_if; simpl; try done; by rewrite ?Sz, ?Sm|done|done|done|done|apply Ht|done].
  - apply Forall_cons in F' as F''. destruct F'' as [Hf' _].
    rewrite Ha. pose proof (blen_nonneg f'). zbool. zdecide.
    rewrite (pb_send_spec _ _ _ _ _ _ _ _ _ R') by lia. simpl.
    eexists _, _, t', OOp, (f' :: q'). split; [reflexivity|].
    split; [|unfold balanced; simpl; by rewrite Hi, ?app_nil_r].
    split; simpl; [split; unfold ring, e_if; simpl; try done; by rewrite ?Sz, ?Sm|done|done|auto with jobs| |apply Ht|done].
    intros j. rewrite elem_of_set, Jl. destruct t'; destruct j; simpl; intuition congruence.
Qed.

(** Every allowed step succeeds, keeps the invariant and loses nothing. *)
Lemma ppf_step_ok s op t o q : ppf_inv m num s t o q -> allowed m s op -> step_ok m num s op t o q.
Proof.
  intros I A. destruct op as [p| |]; [by apply step_client|by apply step_output_done|].
  simpl in A. destruct (ppf_jobs s) as [|j l] eqn:E; [done|]. destruct j;
    eauto using exec_writer_operation, exec_writer_done, exec_encoder_operation, exec_encoder_done,
      exec_out_operation, exec_out_done.
  pose proof (head_active _ _ _ _ _ _ I E) as A'. by destruct t.
Qed.

End Steps.

(** * Sessions *)

Definition allowedb (m : Z) (s : PacketProtoFlow) (op : ppf_op) : bool :=
  match op with
  | ClientSend p => blen p <=? m
  | OutputDone => state_is (if_state (o_if s)) STATE_BUSY
  | Execute => match ppf_jobs s with [] => false | _ => true end
  end.

(** The environment: a client that keeps to the MTU, a provider that completes
    only what it was given, an event loop that runs a job if there is one; what
    is not possible is skipped. *)
Fixpoint ppf_run (m : Z) (s : PacketProtoFlow) (ops : list ppf_op)
    : option (PacketProtoFlow * list ppf_event) :=
  match ops with
  | [] => Some (s, [])
  | op :: ops' =>
      '(s1, e1) ← (if allowedb m s op then ppf_step s op else Some (s, []));
      '(s2, e2) ← ppf_run m s1 ops';
      Some (s2, e1 ++ e2)
  end.

Lemma allowedb_spec m s op : allowedb m s op = true <-> allowed m s op.
Proof.
  destruct op as [p| |]; simpl; [apply Z.leb_le| |by destruct (ppf_jobs s)].
  unfold state_is. apply bool_decide_eq_true.
Qed.

Lemma ppf_run_ok m num s t o q ops : ppf_inv m num s t o q ->
  exists s' ev t' o' q', ppf_run m s ops = Some (s', ev) /\ ppf_inv m num s' t' o' q'
    /\ balanced ev t o q t' o' q'.
Proof.
  revert s t o q. induction ops as [|op ops IH]; intros s t o q I; simpl.
  - exists s, [], t, o, q. split; [done|]. split; [done|]. unfold balanced. simpl. by rewrite app_nil_r.
  - destruct (allowedb m s op) eqn:A.
    + apply allowedb_spec in A. destruct (ppf_step_ok m num s op t o q I A) as (s1 & e1 & t1 & o1 & q1 & -> & I1 & B1).
      destruct (IH s1 t1 o1 q1 I1) as (s2 & e2 & t2 & o2 & q2 & E2 & I2 & B2). simpl. rewrite E2. simpl.
      exists s2, (e1 ++ e2), t2, o2, q2. split; [done|]. split; [done|]. unfold balanced in *.
      unfold out_frames, accepted_packets in *. rewrite !omap_app, <- app_assoc, B2, map_app.
      rewrite (app_assoc (unsent o1 q1)), app_assoc, B1. by rewrite !map_app, !app_assoc.
    + simpl. destruct (IH s t o q I) as (s2 & e2 & t2 & o2 & q2 & E2 & I2 & B2). rewrite E2. simpl.
      exists s2, e2, t2, o2, q2. done.
Qed.

(** The output interface a PacketProtoFlow is given: fresh, with MTU [omtu]. *)
Definition fresh_output (omtu : Z) : PacketPassInterface ptr :=
  {| ppi_mtu := omtu; ppi_handler_requestcancel := false; ppi_if := iface_Init; ppi_cancel_requested := false |}.

Section Contract.
Context (alloc : Z -> option bytes) (m num omtu : Z).
Hypothesis alloc_size : forall n mem, alloc n = Some mem -> blen mem = n.
Hypothesis m_range : 0 <= m <= PACKETPROTO_MAXPAYLOAD.
Hypothesis num_range : 0 < num <= INT_MAX.
Hypothesis omtu_range : PACKETPROTO_ENCLEN m <= omtu.
Hypothesis ring_fits : ChunkBuffer2_calc_blocks (PACKETPROTO_ENCLEN m) num * sizeof_block <= INT_MAX.

Lemma ppf_Init_inv s : PacketProtoFlow_Init alloc m num (fresh_output omtu) [] = Some (Some s) ->
  exists d, ppf_inv m num s (TEncOp d) ONone [].
Proof.
  unfold PacketProtoFlow_Init, PACKETPROTO_MAXPAYLOAD, UINT16_MAX, PacketPassInterface_GetMTU in *.
  unfold fresh_output. cbn [ppi_mtu]. zbool. zdecide.
  unfold BufferWriter_Init, PacketRecvInterface_Init. zbool. zdecide. simpl.
  unfold PacketProtoEncoder_Init, PacketRecvInterface_GetMTU. simpl.
  unfold PACKETPROTO_MAXPAYLOAD, UINT16_MAX. zdecide. unfold PacketRecvInterface_Init.
  unfold PACKETPROTO_ENCLEN, sizeof_packetproto_header in *. zbool. zdecide. simpl.
  unfold PacketBuffer_Init, PacketPassInterface_GetMTU, PacketRecvInterface_GetMTU. simpl. zbool. zdecide.
  destruct (Z.ltb_spec (ChunkBuffer2_calc_blocks (2 + m) num) 0); [done|].
  destruct (alloc _) as [mem|] eqn:Ea; [|done]. apply alloc_size in Ea.
  destruct (calc_blocks_spec (2 + m) num) as [Hc|[Hc _]]; [unfold INT_MAX; lia|lia|lia|].
  pose proof (bdivide_up_4 (2 + m)) as Dm.
  assert (Dp : 0 <= bdivide_up (2 + m) sizeof_block) by (unfold sizeof_block; rewrite Dm; dlia).
  destruct (Init_rep mem (ChunkBuffer2_calc_blocks (2 + m) num) (2 + m)) as (cb & Ei & R & Hsz & Hmt); [lia|nia|lia|lia|].
  rewrite Ei. simpl.
  destruct (rep_capacity cb [] num R) as [Hd Hav]; [lia|rewrite Hmt, Hsz; lia|simpl; lia|constructor|].
  destruct (input_dest cb) as [d|] eqn:D; [|done].
  unfold PacketRecvInterface_Receiver_Recv. simpl. rewrite orb_true_r. simpl. intros Hs. simplify_eq.
  exists d. split; simpl; try done.
  - split; unfold ring, PACKETPROTO_MAXPAYLOAD, UINT16_MAX; simpl; try done; lia.
  - auto with jobs. unfold job_set. simpl. apply NoDup_singleton.
  - intros j. unfold job_set. simpl. rewrite list_elem_of_singleton. destruct j; simpl; intuition congruence.
  - unfold e_if, w_if, room, ring. simpl. split_and!; try done.
    rewrite Hmt in Hav. unfold sizeof_block in *. rewrite Dm in Hav by lia. dlia.
Qed.

(** The packets still inside when no job is pending. *)
Definition output_busy (s : PacketProtoFlow) : Z :=
  if state_is (if_state (o_if s)) STATE_BUSY then 1 else 0.

(** C4. From PacketProtoFlow_Init on, for every client, output and scheduling of
    the pending jobs, no ASSERT of the five components fails and no access
    leaves the ring; the output is given the frames of the accepted packets, in
    order; all of them once nothing is pending and the output is idle; and when
    nothing is pending and fewer than [num] packets are inside, the client is
    offered a buffer. *)
Theorem PacketProtoFlow_delivers s0 ops :
  PacketProtoFlow_Init alloc m num (fresh_output omtu) [] = Some (Some s0) ->
  exists s ev, ppf_run m s0 ops = Some (s, ev)
    /\ out_frames ev `prefix_of` map packetproto_frame (accepted_packets ev)
    /\ (ppf_jobs s = [] -> if_state (o_if s) = STATE_NONE ->
        out_frames ev = map packetproto_frame (accepted_packets ev))
    /\ (ppf_jobs s = [] ->
        Z.of_nat (length (accepted_packets ev)) - Z.of_nat (length (out_frames ev)) + output_busy s < num ->
        exists d, BufferWriter_StartPacket (ppf_ainput s) = Some (Some d)).
Proof.
  intros Hi. destruct (ppf_Init_inv s0 Hi) as [d0 I0].
  destruct (ppf_run_ok m num s0 _ _ _ ops I0) as (s & ev & t & o & q & E & I & B).
  exists s, ev. split; [done|]. unfold balanced in B. simpl in B.
  assert (Quiet : ppf_jobs s = [] -> (t = TIdle \/ exists d, t = TWriterBusy d) /\ (o = ONone \/ o = OBusy)).
  { intros Hj. pose proof (inv_jobs _ _ _ _ _ _ I) as Jb. rewrite Hj in Jb.
    assert (Hn : forall j, ~ job_active t o j) by (intros j Ha; apply Jb in Ha; set_solver).
    split; [destruct t; eauto|destruct o; eauto]; exfalso.
    - by apply (Hn EncoderOperation).
    - by apply (Hn WriterOperation).
    - by apply (Hn WriterDone).
    - by apply (Hn EncoderDone).
    - apply (Hn OutOperation). by destruct t.
    - apply (Hn OutDone). by destruct t. }
  split; [by eexists; rewrite <- B|]. split.
  - intros Hj Ho. destruct (Quiet Hj) as [Ht [-> | ->]]; pose proof (inv_out _ _ _ _ _ _ I) as Oo; simpl in Oo.
    + destruct Oo as [_ ->]. rewrite <- B. destruct Ht as [->|[d ->]]; by rewrite app_nil_r.
    + destruct Oo. congruence.
  - intros Hj Hlt. destruct (Quiet Hj) as [Ht Ho].
    assert (Hq : Z.of_nat (length q) < num).
    { apply (f_equal length) in B. rewrite !length_app, !length_map in B. unfold output_busy in Hlt.
      pose proof (inv_out _ _ _ _ _ _ I) as Oo.
      destruct Ho as [-> | ->]; simpl in Oo, B; destruct_and! Oo; rewrite H in Hlt; simpl in Hlt.
      - subst q. simpl in *. lia.
      - destruct q as [|f q]; [done|]. simpl in *. lia. }
    pose proof (inv_tok _ _ _ _ _ _ I) as T. destruct Ht as [->|[d ->]]; simpl in T; destruct_and! T.
    + exfalso. destruct (inv_static _ _ _ _ _ _ I).
      destruct (rep_capacity (ring s) q num (inv_rep _ _ _ _ _ _ I)) as [_ Hav]; [lia|done|done| |].
      * eapply Forall_impl; [apply (inv_fits _ _ _ _ _ _ I)|]. intros f Hf. simpl in Hf.
        unfold nblocks, sizeof_block in *. pose proof (blen_nonneg f).
        rewrite st_ring0, !bdivide_up_4 by lia. apply Z.div_le_mono; lia.
      * rewrite st_ring0 in Hav. unfold sizeof_block in *. rewrite bdivide_up_4 in Hav by lia. dlia.
    + exists (2 + d * sizeof_block). unfold BufferWriter_StartPacket. by rewrite H2, H3.
Qed.
End Contract.

(** A memory allocator that always succeeds. *)
Definition ex_alloc (n : Z) : option bytes := if 0 <=? n then Some (replicate (Z.to_nat n) 0) else None.

Lemma ex_alloc_size n mem : ex_alloc n = Some mem -> blen mem = n.
Proof.
  unfold ex_alloc. destruct (Z.leb_spec 0 n); [|done]. intros [= <-]. unfold blen. rewrite length_replicate. lia.
Qed.

Lemma PacketProtoFlow_delivers_witness :
  match PacketProtoFlow_Init ex_alloc 10 2 (fresh_output 100) [] with
  | Some (Some s0) =>
      exists s ev, ppf_run 10 s0
        [Execute; Execute; ClientSend [1;2;3]; Execute; Execute; Execute; Execute; Execute; ClientSend [4];
         OutputDone; Execute; Execute; Execute; Execute; Execute; OutputDone; Execute] = Some (s, ev)
        /\ out_frames ev `prefix_of` map packetproto_frame (accepted_packets ev)
  | _ => False
  end.
Proof.
  destruct (PacketProtoFlow_Init ex_alloc 10 2 (fresh_output 100) []) as [[s0|]|] eqn:E;
    [|vm_compute in E; discriminate..].
  edestruct (PacketProtoFlow_delivers ex_alloc 10 2 100) as (s & ev & Er & P & _);
    [exact ex_alloc_size| | | | |exact E|exists s, ev; split; [exact Er|exact P]]; by vm_compute.
Defined.

(** The same session, run: both packets come out, framed and in order. *)
Example PacketProtoFlow_session :
  match PacketProtoFlow_Init ex_alloc 10 2 (fresh_output 100) [] with
  | Some (Some s0) =>
      option_map (fun r => out_frames (snd r)) (ppf_run 10 s0
        [Execute; Execute; ClientSend [1;2;3]; Execute; Execute; Execute; Execute; Execute; Execute; ClientSend [4];
         OutputDone; Execute; Execute; Execute; Execute; Execute; Execute; Execute; Execute; OutputDone; Execute])
      = Some [[3;0;1;2;3]; [1;0;4]]
  | _ => False
  end.
Proof. vm_compute. reflexivity. Qed.
