(* ===== verification/PacketProtoDecoder.v ===== *)
(** The deframer flow/PacketProtoDecoder.c: a stream of length-prefixed frames
    comes in through a StreamRecvInterface in pieces of any size, packets go out
    through a PacketPassInterface.

    [dec_step] is the event loop around the decoder: the stream's provider
    writes some bytes where the decoder asked for them, the provider of the
    output completes a packet, or the next pending job runs.  The theorems show
    that no input makes the decoder leave its buffer or get stuck, and that the
    frames written by the encoder come out as the packets they were made of,
    wherever the stream is cut. *)

From S2P Require Import Prelude ByteOrder SLinkedList BPending ChunkBuffer2 FlowInterface PacketFlow.
Open Scope Z_scope.

Section Decoder.
Context {J : Type} `{EqDecision J}.

Record PacketProtoDecoder := {
  dec_output_mtu : Z;
  dec_buf : bytes;
  dec_buf_size : Z;
  dec_buf_start : Z;
  dec_buf_used : Z }.

Definition set_dec (enc : PacketProtoDecoder) (buf : bytes) (start used : Z) : PacketProtoDecoder :=
  {| dec_output_mtu := dec_output_mtu enc; dec_buf := buf; dec_buf_size := dec_buf_size enc;
     dec_buf_start := start; dec_buf_used := used |}.

(** How the do-while block of process_data ends. *)
Inductive dec_outcome := Incomplete | TooLarge | Whole (data data_len : Z).

Definition dec_next (enc : PacketProtoDecoder) : option dec_outcome :=
  let data := dec_buf_start enc in
  let left := dec_buf_used enc in
  if u64 left <? sizeof_packetproto_header then Some Incomplete else
  header ← mem_read (dec_buf enc) data sizeof_packetproto_header;
  let data := data + sizeof_packetproto_header in
  let left := left - sizeof_packetproto_header in
  let data_len := ltoh16 (load16 header) in
  if data_len >? dec_output_mtu enc then Some TooLarge else
  if left <? data_len then Some Incomplete else
  Some (Whole data data_len).

(** The last component is whether handler_error is called. *)
Definition process_data (ki : ijobs J) (ko : pjobs J) (enc : PacketProtoDecoder)
    (input : StreamRecvInterface (P := ptr)) (output : PacketPassInterface ptr) (jobs : list J)
    : option (PacketProtoDecoder * StreamRecvInterface * PacketPassInterface ptr * list J * bool) :=
  next ← dec_next enc;
  match next with
  | Whole data data_len =>
      let enc := set_dec enc (dec_buf enc)
                   (dec_buf_start enc + (sizeof_packetproto_header + data_len))
                   (dec_buf_used enc - (sizeof_packetproto_header + data_len)) in
      '(output, jobs) ← PacketPassInterface_Sender_Send ko output (Some data) data_len jobs;
      Some (enc, input, output, jobs, false)
  | _ =>
      let was_error := match next with TooLarge => true | _ => false end in
      enc ← (if was_error then Some (set_dec enc (dec_buf enc) 0 0)
             else if dec_buf_start enc + dec_buf_used enc =? dec_buf_size enc then
               moved ← mem_read (dec_buf enc) (dec_buf_start enc) (dec_buf_used enc);
               buf ← mem_write (dec_buf enc) 0 moved;
               Some (set_dec enc buf 0 (dec_buf_used enc))
             else Some enc);
      '(input, jobs) ← StreamRecvInterface_Receiver_Recv ki input
                         (Some (dec_buf_start enc + dec_buf_used enc))
                         (dec_buf_size enc - (dec_buf_start enc + dec_buf_used enc)) jobs;
      Some (enc, input, output, jobs, was_error)
  end.

Definition PacketProtoDecoder_input_handler_done (ki : ijobs J) (ko : pjobs J) (enc : PacketProtoDecoder)
    (input : StreamRecvInterface) (output : PacketPassInterface ptr) (data_len : Z) (jobs : list J) :=
  ASSERT data_len >? 0;
  ASSERT data_len <=? dec_buf_size enc - (dec_buf_start enc + dec_buf_used enc);
  process_data ki ko (set_dec enc (dec_buf enc) (dec_buf_start enc) (dec_buf_used enc + data_len))
    input output jobs.

Definition PacketProtoDecoder_output_handler_done (ki : ijobs J) (ko : pjobs J) (enc : PacketProtoDecoder)
    (input : StreamRecvInterface) (output : PacketPassInterface ptr) (jobs : list J) :=
  process_data ki ko enc input output jobs.

Definition PacketProtoDecoder_Init (malloc : Z -> option bytes) (ki : ijobs J)
    (input : StreamRecvInterface) (output : PacketPassInterface ptr) (jobs : list J)
    : option (option (PacketProtoDecoder * StreamRecvInterface * PacketPassInterface ptr * list J)) :=
  input ← StreamRecvInterface_Receiver_Init input;
  output ← PacketPassInterface_Sender_Init output;
  let output_mtu := Z.min (PacketPassInterface_GetMTU output) PACKETPROTO_MAXPAYLOAD in
  let buf_size := PACKETPROTO_ENCLEN output_mtu in
  match malloc buf_size with
  | None => Some None
  | Some buf =>
      let enc := {| dec_output_mtu := output_mtu; dec_buf := buf; dec_buf_size := buf_size;
                    dec_buf_start := 0; dec_buf_used := 0 |} in
      '(input, jobs) ← StreamRecvInterface_Receiver_Recv ki input (Some 0) buf_size jobs;
      Some (Some (enc, input, output, jobs))
  end.

Definition PacketProtoDecoder_Reset (enc : PacketProtoDecoder) : PacketProtoDecoder :=
  set_dec enc (dec_buf enc) (dec_buf_start enc + dec_buf_used enc) 0.
End Decoder.

(** * The event loop around the decoder *)

Inductive dec_job := DRecvOperation | DRecvDone | DSendOperation | DSendRequestCancel | DSendDone.
#[export] Instance dec_job_eq_dec : EqDecision dec_job.
Proof. solve_decision. Defined.

Definition kdi : ijobs dec_job := {| j_op := DRecvOperation; j_done := DRecvDone |}.
Definition kdo : pjobs dec_job :=
  {| pj := {| j_op := DSendOperation; j_done := DSendDone |}; j_requestcancel := DSendRequestCancel |}.

Record dec_world := {
  dw_dec : PacketProtoDecoder;
  dw_input : StreamRecvInterface (P := ptr);
  dw_output : PacketPassInterface ptr;
  dw_jobs : list dec_job;
  dw_stream : bytes }.           (* bytes of the stream not yet received *)

Inductive dec_op :=
| StreamBytes (n : Z)            (* the stream's provider delivers n bytes *)
| PacketDone                     (* the output's provider completes a packet *)
| DecExecute                     (* the event loop runs the next job *)
| DecReset.                      (* the decoder's user resets it *)

#[export] Instance dec_op_eq_dec : EqDecision dec_op.
Proof. solve_decision. Defined.

Inductive dec_event := Packet (p : bytes) | DecError.

Definition dec_events (e : bool) : list dec_event := if e then [DecError] else [].

Definition dec_step (w : dec_world) (op : dec_op) : option (dec_world * list dec_event) :=
  match op with
  | StreamBytes n =>
      a ← if_operation (dw_input w);
      dest ← fst a;
      buf ← mem_write (dec_buf (dw_dec w)) dest (btake n (dw_stream w));
      '(input, jobs) ← StreamRecvInterface_Done kdi (dw_input w) n (dw_jobs w);
      let enc := dw_dec w in
      Some ({| dw_dec := set_dec enc buf (dec_buf_start enc) (dec_buf_used enc); dw_input := input;
               dw_output := dw_output w; dw_jobs := jobs; dw_stream := bdrop n (dw_stream w) |}, [])
  | PacketDone =>
      '(output, jobs) ← PacketPassInterface_Done kdo (dw_output w) (dw_jobs w);
      Some ({| dw_dec := dw_dec w; dw_input := dw_input w; dw_output := output; dw_jobs := jobs;
               dw_stream := dw_stream w |}, [])
  | DecExecute =>
      match dw_jobs w with
      | [] => None
      | DRecvOperation :: jobs =>
          '(_, input) ← _StreamRecvInterface_job_operation (dw_input w);
          Some ({| dw_dec := dw_dec w; dw_input := input; dw_output := dw_output w; dw_jobs := jobs;
                   dw_stream := dw_stream w |}, [])
      | DRecvDone :: jobs =>
          '(n, input) ← _StreamRecvInterface_job_done (dw_input w);
          '(enc, input, output, jobs, err) ←
            PacketProtoDecoder_input_handler_done kdi kdo (dw_dec w) input (dw_output w) n jobs;
          Some ({| dw_dec := enc; dw_input := input; dw_output := output; dw_jobs := jobs;
                   dw_stream := dw_stream w |}, dec_events err)
      | DSendOperation :: jobs =>
          '(a, output) ← _PacketPassInterface_job_operation (dw_output w);
          data ← fst a;
          p ← mem_read (dec_buf (dw_dec w)) data (snd a);
          Some ({| dw_dec := dw_dec w; dw_input := dw_input w; dw_output := output; dw_jobs := jobs;
                   dw_stream := dw_stream w |}, [Packet p])
      | DSendRequestCancel :: _ => None
      | DSendDone :: jobs =>
          output ← _PacketPassInterface_job_done (dw_output w);
          '(enc, input, output, jobs, err) ←
            PacketProtoDecoder_output_handler_done kdi kdo (dw_dec w) (dw_input w) output jobs;
          Some ({| dw_dec := enc; dw_input := input; dw_output := output; dw_jobs := jobs;
                   dw_stream := dw_stream w |}, dec_events err)
      end
  | DecReset =>
      Some ({| dw_dec := PacketProtoDecoder_Reset (dw_dec w); dw_input := dw_input w;
               dw_output := dw_output w; dw_jobs := dw_jobs w; dw_stream := dw_stream w |}, [])
  end.

(** * The invariant *)

(** The one operation the decoder has outstanding. *)
Inductive dphase :=
| PRecvOp | PRecvBusy | PRecvDone (n : Z) | PSendOp (p : bytes) | PSendBusy | PSendDone.

Record dec_geom (enc : PacketProtoDecoder) : Prop := {
  dg_mtu : 0 <= dec_output_mtu enc <= PACKETPROTO_MAXPAYLOAD;
  dg_size : dec_buf_size enc = 2 + dec_output_mtu enc;
  dg_mem : blen (dec_buf enc) = dec_buf_size enc;
  dg_start : 0 <= dec_buf_start enc;
  dg_used : 0 <= dec_buf_used enc;
  dg_end : dec_buf_start enc + dec_buf_used enc <= dec_buf_size enc }.

(** The bytes received and not yet turned into packets. *)
Definition held (enc : PacketProtoDecoder) : bytes :=
  btake (dec_buf_used enc) (bdrop (dec_buf_start enc) (dec_buf enc)).

(** What process_data makes of the bytes held. *)
Inductive dec_view := VIncomplete | VTooLarge | VWhole (p rest : bytes).
Definition view (omtu : Z) (c : bytes) : dec_view :=
  if blen c <? 2 then VIncomplete else
  let n := ltoh16 (load16 (btake 2 c)) in
  if n >? omtu then VTooLarge else
  if blen c - 2 <? n then VIncomplete else
  VWhole (btake n (bdrop 2 c)) (bdrop (2 + n) c).

(** The receive the decoder asked for: the rest of the buffer. *)
Definition recv_args (enc : PacketProtoDecoder) : option ptr * Z :=
  (Some (dec_buf_start enc + dec_buf_used enc),
   dec_buf_size enc - (dec_buf_start enc + dec_buf_used enc)).

Definition recv_posted (w : dec_world) : Prop :=
  if_operation (dw_input w) = Some (recv_args (dw_dec w)) /\ 0 < snd (recv_args (dw_dec w))
  /\ view (dec_output_mtu (dw_dec w)) (held (dw_dec w)) = VIncomplete.

Definition phase_ok (w : dec_world) (ph : dphase) : Prop :=
  let istate := if_state (dw_input w) in
  let ostate := if_state (ppi_if (dw_output w)) in
  match ph with
  | PRecvOp => istate = STATE_OPERATION_PENDING /\ ostate = STATE_NONE /\ dw_jobs w = [DRecvOperation]
               /\ recv_posted w
  | PRecvBusy => istate = STATE_BUSY /\ ostate = STATE_NONE /\ dw_jobs w = [] /\ recv_posted w
  | PRecvDone n => istate = STATE_DONE_PENDING /\ ostate = STATE_NONE /\ dw_jobs w = [DRecvDone]
                   /\ if_done (dw_input w) = Some n /\ 0 < n <= snd (recv_args (dw_dec w))
  | PSendOp p => istate = STATE_NONE /\ ostate = STATE_OPERATION_PENDING /\ dw_jobs w = [DSendOperation]
                 /\ exists data, if_operation (ppi_if (dw_output w)) = Some (Some data, blen p)
                      /\ mem_read (dec_buf (dw_dec w)) data (blen p) = Some p
                      /\ blen p <= dec_output_mtu (dw_dec w)
  | PSendBusy => istate = STATE_NONE /\ ostate = STATE_BUSY /\ dw_jobs w = []
  | PSendDone => istate = STATE_NONE /\ ostate = STATE_DONE_PENDING /\ dw_jobs w = [DSendDone]
                 /\ if_done (ppi_if (dw_output w)) = Some tt
  end.

Record dec_inv (w : dec_world) (ph : dphase) : Prop := {
  di_geom : dec_geom (dw_dec w);
  di_omtu : dec_output_mtu (dw_dec w) <= ppi_mtu (dw_output w);
  di_iuser : if_handler_done (dw_input w) = true;
  di_ouser : if_handler_done (ppi_if (dw_output w)) = true;
  di_phase : phase_ok w ph }.

Lemma held_read enc : dec_geom enc ->
  mem_read (dec_buf enc) (dec_buf_start enc) (dec_buf_used enc) = Some (held enc).
Proof. intros []. apply mem_read_in; lia. Qed.

Lemma held_len enc : dec_geom enc -> blen (held enc) = dec_buf_used enc.
Proof. intros []. unfold held. rewrite blen_btake; [done|]. rewrite blen_bdrop by lia. lia. Qed.

(** A load of a part of an object that was loaded is a part of what was loaded. *)
Lemma mem_read_part m off n c k j : mem_read m off n = Some c -> 0 <= k -> 0 <= j -> k + j <= n ->
  mem_read m (off + k) j = Some (btake j (bdrop k c)).
Proof.
  intros (? & ? & ? & ->)%mem_read_inv ? ? ?. rewrite mem_read_in by lia. f_equal.
  rewrite <- (bdrop_bdrop k off) by lia. unfold btake, bdrop.
  rewrite skipn_firstn_comm, take_take. f_equal. lia.
Qed.

Lemma dec_next_view enc : dec_geom enc ->
  match dec_next enc, view (dec_output_mtu enc) (held enc) with
  | Some Incomplete, VIncomplete => dec_buf_used enc < dec_buf_size enc
  | Some TooLarge, VTooLarge => True
  | Some (Whole data n), VWhole p rest =>
      data = dec_buf_start enc + 2 /\ n = blen p /\ 0 <= n <= dec_output_mtu enc /\ 2 + n <= dec_buf_used enc
      /\ mem_read (dec_buf enc) data n = Some p
      /\ rest = btake (dec_buf_used enc - (2 + n)) (bdrop (dec_buf_start enc + (2 + n)) (dec_buf enc))
  | _, _ => False
  end.
Proof.
  intros G. pose proof (held_read enc G) as Hr. pose proof (held_len enc G) as Hl. destruct G.
  unfold dec_next, view, sizeof_packetproto_header. rewrite Hl.
  unfold PACKETPROTO_MAXPAYLOAD, UINT16_MAX in *. rewrite u64_small by lia.
  destruct (Z.ltb_spec (dec_buf_used enc) 2); [lia|].
  pose proof (mem_read_part _ _ _ _ 0 2 Hr) as Hh. rewrite Z.add_0_r, bdrop_0 in Hh. rewrite Hh by lia.
  cbn [mbind option_bind]. pose proof (u16_range (load16 (btake 2 (held enc)))) as Hn.
  change (ltoh16 (load16 (btake 2 (held enc)))) with (u16 (load16 (btake 2 (held enc)))).
  set (n := u16 _) in *. zbool. destruct (Z.ltb_spec (dec_output_mtu enc) n); [done|].
  destruct (Z.ltb_spec (dec_buf_used enc - 2) n); [lia|].
  split_and!; try lia.
  - rewrite blen_btake; [done|]. rewrite blen_bdrop; lia.
  - apply (mem_read_part _ _ _ _ 2 n Hr); lia.
  - unfold held, btake, bdrop. rewrite skipn_firstn_comm, drop_drop. repeat f_equal; lia.
Qed.

(** Wherever process_data is called, nothing is outstanding; it leaves exactly
    one operation outstanding, according to the bytes held. *)
Lemma process_data_ok enc input output stream : dec_geom enc -> dec_output_mtu enc <= ppi_mtu output ->
  if_handler_done input = true -> if_handler_done (ppi_if output) = true ->
  if_state input = STATE_NONE -> if_state (ppi_if output) = STATE_NONE ->
  exists enc' input' output' jobs' err ph,
    process_data kdi kdo enc input output [] = Some (enc', input', output', jobs', err)
    /\ dec_inv {| dw_dec := enc'; dw_input := input'; dw_output := output'; dw_jobs := jobs';
                  dw_stream := stream |} ph
    /\ dec_output_mtu enc' = dec_output_mtu enc
    /\ match view (dec_output_mtu enc) (held enc) with
       | VIncomplete => ph = PRecvOp /\ err = false /\ held enc' = held enc
       | VTooLarge => ph = PRecvOp /\ err = true /\ held enc' = []
       | VWhole p rest => ph = PSendOp p /\ err = false /\ held enc' = rest
       end.
Proof.
  intros G Hm Hi Ho Si So. destruct input as [iu iop idn ist], output as [omtu hc [ou oop odn ost] cr].
  simpl in *. subst. pose proof (dec_next_view enc G) as V. pose proof (held_read enc G) as Hr.
  unfold process_data. destruct (dec_next enc) as [next|]; [|done]. simpl. destruct G.
  destruct (view (dec_output_mtu enc) (held enc)) as [| |p rest] eqn:Vh; destruct next as [| |data n]; try done.
  - destruct (Z.eqb_spec (dec_buf_start enc + dec_buf_used enc) (dec_buf_size enc)).
    + rewrite Hr. simpl. destruct (mem_write_some (dec_buf enc) 0 (held enc)) as (buf & W & Wl).
      1, 2: apply mem_read_inv in Hr as (_ & _ & _ & Hh); rewrite ?Hh, ?blen_btake; rewrite ?blen_bdrop; lia.
      rewrite W. simpl. unfold StreamRecvInterface_Receiver_Recv, stream_start. simpl. zbool. zdecide. simpl.
      eexists _, _, _, _, _, PRecvOp. split; [reflexivity|].
      assert (Hd : held (set_dec enc buf 0 (dec_buf_used enc)) = held enc).
      { unfold held at 1. simpl. rewrite bdrop_0. pose proof (mem_write_prefix _ _ _ _ W) as Hp.
        assert (Hl : blen (held enc) = dec_buf_used enc) by (unfold held; rewrite blen_btake; [done|rewrite blen_bdrop; lia]).
        rewrite Hl in Hp. exact Hp. }
      split; [split; try done|done].
      * by split; simpl; try lia.
      * split_and!; try done. split; [done|]. simpl. rewrite Hd, Vh. split; [lia|done].
    + simpl. unfold StreamRecvInterface_Receiver_Recv, stream_start. zbool. zdecide. simpl.
      eexists _, _, _, _, _, PRecvOp. split; [reflexivity|]. split; [split; try done|done].
      split_and!; try done. split; [done|]. simpl. split; [lia|done].
  - simpl. unfold StreamRecvInterface_Receiver_Recv, stream_start. simpl. zbool. zdecide. simpl.
    eexists _, _, _, _, _, PRecvOp. split; [reflexivity|]. split; [split; try done|done].
    + by split; simpl; try lia.
    + split_and!; try done. split; [done|]. simpl. split; [lia|done].
  - destruct V as (-> & -> & ? & ? & Hp & ->). unfold PacketPassInterface_Sender_Send. simpl. zbool. zdecide. simpl.
    rewrite orb_true_r. simpl. unfold sizeof_packetproto_header.
    eexists _, _, _, _, _, (PSendOp p). split; [reflexivity|]. split; [split; try done|done].
    + by split; simpl; try lia.
    + split_and!; try done. eexists. split; [reflexivity|]. split; [exact Hp|simpl; lia].
Qed.

(** * Steps *)

Definition dec_allowed (w : dec_world) (op : dec_op) : bool :=
  match op with
  | StreamBytes n =>
      state_is (if_state (dw_input w)) STATE_BUSY && (0 <? n) && (n <=? blen (dw_stream w))
      && match if_operation (dw_input w) with Some (_, len) => n <=? len | None => false end
  | PacketDone => state_is (if_state (ppi_if (dw_output w))) STATE_BUSY
  | DecExecute => match dw_jobs w with [] => false | _ => true end
  | DecReset => true
  end.

(** The stream as the decoder sees it: what it holds, what is in its buffer
    but not reported yet, and what has not been received. *)
Definition content (w : dec_world) (ph : dphase) : bytes :=
  let enc := dw_dec w in
  let n := match ph with PRecvDone n => n | _ => 0 end in
  btake (dec_buf_used enc + n) (bdrop (dec_buf_start enc) (dec_buf enc)) ++ dw_stream w.

Definition pending (ph : dphase) : list bytes := match ph with PSendOp p => [p] | _ => [] end.
Definition packets (ev : list dec_event) : list bytes :=
  omap (fun e => match e with Packet p => Some p | _ => None end) ev.

Definition mtu_of (w : dec_world) : Z := dec_output_mtu (dw_dec w).

(** What a step does to the stream: nothing, unless it hands the bytes held to
    process_data. *)
Definition content_step (w : dec_world) (ph : dphase) (w' : dec_world) (ph' : dphase) ev : Prop :=
  (content w' ph' = content w ph /\ packets ev ++ pending ph' = pending ph /\ DecError ∉ ev)
  \/ (pending ph = [] /\ exists c, content w ph = c ++ dw_stream w /\ dw_stream w' = dw_stream w
      /\ match view (mtu_of w) c with
         | VIncomplete => content w' ph' = content w ph /\ pending ph' = [] /\ ev = []
         | VTooLarge => content w' ph' = dw_stream w /\ pending ph' = [] /\ ev = [DecError]
         | VWhole p rest => content w' ph' = rest ++ dw_stream w /\ pending ph' = [p] /\ ev = []
         end).

Ltac dunpack I :=
  let G := fresh "G" in let P := fresh "P" in
  destruct I as [G ? ? ? P]; unfold phase_ok, recv_posted in P;
  match goal with
  | w : dec_world |- _ =>
      destruct w as [enc [iu iop idn ist] [omtu hc [ou oop odn ost] cr] jobs stream]
  end; simpl in *.

(** After process_data the content is what is held, and the stream. *)
Lemma process_step enc input output stream w ph : dec_geom enc -> dec_output_mtu enc <= ppi_mtu output ->
  if_handler_done input = true -> if_handler_done (ppi_if output) = true ->
  if_state input = STATE_NONE -> if_state (ppi_if output) = STATE_NONE ->
  mtu_of w = dec_output_mtu enc -> dw_stream w = stream -> pending ph = [] ->
  content w ph = held enc ++ stream ->
  exists enc' input' output' jobs' err ph',
    process_data kdi kdo enc input output [] = Some (enc', input', output', jobs', err)
    /\ let w' := {| dw_dec := enc'; dw_input := input'; dw_output := output'; dw_jobs := jobs';
                    dw_stream := stream |} in
       dec_inv w' ph' /\ mtu_of w' = mtu_of w /\ content_step w ph w' ph' (dec_events err).
Proof.
  intros G Hm Hi Ho Si So Hw Hs Hp Hc.
  destruct (process_data_ok enc input output stream G Hm Hi Ho Si So)
    as (enc' & input' & output' & jobs' & err & ph' & E & I & Em & V).
  exists enc', input', output', jobs', err, ph'. split; [done|]. split; [done|].
  unfold mtu_of in *. simpl. split; [congruence|]. right. split; [done|]. exists (held enc).
  rewrite Hs. split; [done|]. split; [done|]. unfold mtu_of. rewrite Hw.
  assert (Hh : content {| dw_dec := enc'; dw_input := input'; dw_output := output'; dw_jobs := jobs';
                          dw_stream := stream |} ph'
               = btake (dec_buf_used enc' + match ph' with PRecvDone n => n | _ => 0 end)
                   (bdrop (dec_buf_start enc') (dec_buf enc')) ++ stream) by done.
  destruct (view _ _) as [| |p rest]; destruct V as (-> & -> & Hd); rewrite Hh, Z.add_0_r; simpl;
    fold (held enc'); rewrite Hd; split_and!; done.
Qed.

Definition dec_step_good (w : dec_world) (ph : dphase) (op : dec_op) : Prop :=
  exists w' ev ph', dec_step w op = Some (w', ev) /\ dec_inv w' ph' /\ mtu_of w' = mtu_of w
    /\ content_step w ph w' ph' ev.

Lemma step_stream w ph n : dec_inv w ph -> dec_allowed w (StreamBytes n) = true ->
  dec_step_good w ph (StreamBytes n).
Proof.
  intros I A. simpl in A. apply andb_true_iff in A as [[[A1%bool_decide_eq_true A2]%andb_true_iff A3]%andb_true_iff A4].
  dunpack I.
  destruct ph; destruct_and! P; subst; try done. simpl in A4. zbool. destruct G.
  destruct (mem_write_some (dec_buf enc) (dec_buf_start enc + dec_buf_used enc) (btake n stream))
    as (buf & W & Wl); [lia|rewrite blen_btake; lia|].
  unfold dec_step_good, dec_step, StreamRecvInterface_Done, stream_done. simpl. rewrite W. simpl. zbool. zdecide. simpl.
  eexists _, _, (PRecvDone n). split; [reflexivity|]. split; [split; simpl; try done|].
  - by split; simpl; try lia.
  - split; [done|]. left. split; [|split; [done|apply not_elem_of_nil]]. unfold content. simpl. rewrite Z.add_0_r.
    pose proof (mem_write_extend _ _ _ _ _ W) as X. rewrite blen_btake in X by lia. rewrite X by lia.
    rewrite <- app_assoc. by rewrite btake_bdrop.
Qed.

Lemma step_packet_done w ph : dec_inv w ph -> dec_allowed w PacketDone = true ->
  dec_step_good w ph PacketDone.
Proof.
  intros I A. simpl in A. apply bool_decide_eq_true in A. dunpack I.
  destruct ph; destruct_and! P; subst; try done.
  unfold dec_step_good. simpl. eexists _, _, PSendDone. split; [reflexivity|]. split; [by split|].
  split; [done|]. left. split; [done|]. split; [done|apply not_elem_of_nil].
Qed.

Lemma step_execute w ph : dec_inv w ph -> dec_allowed w DecExecute = true -> dec_step_good w ph DecExecute.
Proof.
  intros I A. simpl in A. pose proof I as I'. dunpack I.
  destruct ph as [| |n|p| |]; destruct_and! P; subst; try done; unfold dec_step_good; simpl.
  - eexists _, _, PRecvBusy. split; [reflexivity|]. split; [by split|]. split; [done|].
    left. split; [done|]. split; [done|apply not_elem_of_nil].
  - set (enc' := set_dec enc (dec_buf enc) (dec_buf_start enc) (dec_buf_used enc + n)).
    assert (G' : dec_geom enc') by (destruct G; split; simpl in *; try done; lia).
    unfold PacketProtoDecoder_input_handler_done. destruct G. simpl in *. zbool. zdecide. fold enc'.
    edestruct (process_step enc') as (e1 & i1 & o1 & j1 & err & ph' & E & Hi & Hm & Hc);
      [exact G'| | | | | | | | | |rewrite E; simpl; by eexists _, _, ph'].
    all: try done.
  - match goal with H : exists data, _ |- _ => destruct H as (data & -> & Hr & Hl) end. simpl. rewrite Hr. simpl.
    eexists _, _, PSendBusy. split; [reflexivity|]. split; [by split|]. split; [done|]. left.
    split; [done|]. split; [done|]. set_solver.
  - unfold PacketProtoDecoder_output_handler_done.
    edestruct (process_step enc) as (e1 & i1 & o1 & j1 & err & ph' & E & Hi & Hm & Hc);
      [exact G| | | | | | | | | |rewrite E; simpl; by eexists _, _, ph'].
    all: try done. unfold content. simpl. by rewrite Z.add_0_r.
Qed.

Lemma dec_step_ok w op ph : dec_inv w ph -> dec_allowed w op = true -> op <> DecReset ->
  dec_step_good w ph op.
Proof.
  intros I A Hr. destruct op; [by apply step_stream|by apply step_packet_done|by apply step_execute|done].
Qed.

(** The user's reset drops what is held and keeps the outstanding operation. *)
Lemma step_reset w ph : dec_inv w ph -> exists w', dec_step w DecReset = Some (w', []) /\ dec_inv w' ph.
Proof.
  intros I. dunpack I. eexists. split; [reflexivity|]. destruct G. split; simpl; try done.
  - by split; simpl; try lia.
  - destruct ph; destruct_and! P; subst; unfold phase_ok, recv_posted, recv_args in *; simpl in *;
      rewrite ?Z.add_0_r; split_and!; try done. 
Qed.

(** * Sessions *)

(** What cannot happen is skipped. *)
Fixpoint dec_run (w : dec_world) (ops : list dec_op) : option (dec_world * list dec_event) :=
  match ops with
  | [] => Some (w, [])
  | op :: ops' =>
      '(w1, e1) ← (if dec_allowed w op then dec_step w op else Some (w, []));
      '(w2, e2) ← dec_run w1 ops';
      Some (w2, e1 ++ e2)
  end.

(** PacketProtoDecoder_Init with fresh interfaces, an output of MTU [omtu], and
    the bytes that will come through the stream. *)
Definition dec_start (malloc : Z -> option bytes) (omtu : Z) (stream : bytes) : option (option dec_world) :=
  r ← PacketProtoDecoder_Init malloc kdi iface_Init (fresh_output omtu) [];
  match r with
  | None => Some None
  | Some (enc, input, output, jobs) =>
      Some (Some {| dw_dec := enc; dw_input := input; dw_output := output; dw_jobs := jobs; dw_stream := stream |})
  end.

Definition is_frames (omtu : Z) (ps : list bytes) (c : bytes) : Prop :=
  c = concat (map packetproto_frame ps) /\ Forall (fun p => blen p <= omtu) ps.

(** A piece of a framed stream never looks like an error, and a whole frame is
    recognised as soon as it is there. *)
Lemma view_frames omtu ps c s : omtu <= UINT16_MAX -> is_frames omtu ps (c ++ s) ->
  match view omtu c with
  | VIncomplete => True
  | VTooLarge => False
  | VWhole p rest => exists ps', ps = p :: ps' /\ is_frames omtu ps' (rest ++ s)
  end /\ (s = [] -> view omtu c = VIncomplete -> ps = []).
Proof.
  unfold UINT16_MAX. intros Hm [E F]. unfold view. destruct (Z.ltb_spec (blen c) 2) as [Hc|Hc].
  { split; [done|]. intros -> _. destruct ps as [|p ps]; [done|]. rewrite app_nil_r in E. cbn [map concat] in E.
    apply (f_equal blen) in E. rewrite blen_app, frame_len in E. pose proof (blen_nonneg p).
    pose proof (blen_nonneg (concat (map packetproto_frame ps))). lia. }
  destruct ps as [|p ps]; [apply app_eq_nil in E as [-> _]; rewrite blen_nil in Hc; lia|].
  apply Forall_cons in F as [Fp F]. pose proof (blen_nonneg p). cbn [map concat] in E.
  assert (Hh : btake 2 c = mem16 (htol16 (blen p))).
  { rewrite <- (btake_app_le 2 c s) by lia. rewrite E. unfold packetproto_frame.
    rewrite <- !app_assoc. by apply btake_app_exact. }
  rewrite Hh, <- (app_nil_r (mem16 _)), load16_mem16 by apply u16_range.
  unfold ltoh16, htol16. rewrite !u16_small by (rewrite ?u16_small; lia). zbool. zdecide.
  destruct (Z.ltb_spec (blen c - 2) (blen p)) as [Hs|Hs].
  { split; [done|]. intros -> _. rewrite app_nil_r in E. apply (f_equal blen) in E.
    rewrite blen_app, frame_len in E. pose proof (blen_nonneg (concat (map packetproto_frame ps))). lia. }
  split; [|done]. exists ps.
  assert (Hf : btake (2 + blen p) c = packetproto_frame p).
  { rewrite <- (btake_app_le (2 + blen p) c s) by lia. rewrite E. apply btake_app_exact, frame_len. }
  split.
  - f_equal. rewrite <- bdrop_btake, Hf by lia. unfold packetproto_frame. by rewrite bdrop_app_exact.
  - split; [|done]. rewrite <- bdrop_app_le by lia. rewrite E. apply bdrop_app_exact, frame_len.
Qed.

Lemma step_packets w ph w' ph' ev : dec_inv w ph -> content_step w ph w' ph' ev ->
  Forall (fun p => blen p <= mtu_of w) (packets ev).
Proof.
  intros I C. assert (P : Forall (fun p => blen p <= mtu_of w) (pending ph)).
  { destruct ph; try constructor; [|constructor]. by destruct (di_phase _ _ I) as (_ & _ & _ & ? & _ & _ & ?). }
  destruct C as [(_ & Hp & _)|(_ & c & _ & _ & V)].
  - rewrite <- Hp in P. by apply Forall_app in P as [P _].
  - destruct (view _ c); destruct V as (_ & _ & ->); constructor.
Qed.

Lemma dec_run_inv w ph ops : dec_inv w ph ->
  exists w' ev ph', dec_run w ops = Some (w', ev) /\ dec_inv w' ph' /\ mtu_of w' = mtu_of w
    /\ Forall (fun p => blen p <= mtu_of w) (packets ev).
Proof.
  revert w ph. induction ops as [|op ops IH]; intros w ph I; simpl.
  { exists w, [], ph. done. }
  assert (S1 : exists w1 e1 ph1, (if dec_allowed w op then dec_step w op else Some (w, [])) = Some (w1, e1)
    /\ dec_inv w1 ph1 /\ mtu_of w1 = mtu_of w /\ Forall (fun p => blen p <= mtu_of w) (packets e1)).
  { destruct (dec_allowed w op) eqn:A; [|exists w, [], ph; split_and!; try done; constructor].
    destruct (decide (op = DecReset)) as [->|Hr].
    - destruct (step_reset w ph I) as (w1 & E & I1). exists w1, [], ph. split; [done|].
      split; [done|]. split; [|constructor]. simpl in E. by injection E as <-.
    - destruct (dec_step_ok w op ph I A Hr) as (w1 & e1 & ph1 & E & I1 & M1 & C).
      exists w1, e1, ph1. split_and!; try done. by eapply step_packets. }
  destruct S1 as (w1 & e1 & ph1 & -> & I1 & M1 & F1). simpl.
  destruct (IH w1 ph1 I1) as (w2 & e2 & ph2 & -> & I2 & M2 & F2). simpl.
  exists w2, (e1 ++ e2), ph2. split_and!; try done; [congruence|].
  unfold packets in *. rewrite omap_app. apply Forall_app. rewrite M1 in F2. done.
Qed.

(** One step of a session on a framed stream. *)
Lemma step_frames w ph w' ph' ev ps : content_step w ph w' ph' ev -> mtu_of w <= UINT16_MAX ->
  is_frames (mtu_of w) ps (content w ph) ->
  exists rest, DecError ∉ ev /\ packets ev ++ pending ph' ++ rest = pending ph ++ ps
    /\ is_frames (mtu_of w) rest (content w' ph').
Proof.
  intros [(Hc & Hp & He)|(Hn & c & Hc & Hs & V)] Hu F.
  - exists ps. split; [done|]. rewrite Hc. split; [|done]. by rewrite app_assoc, Hp.
  - rewrite Hc in F. pose proof (view_frames _ _ _ _ Hu F) as [W _]. rewrite Hn.
    destruct (view (mtu_of w) c) as [| |p rest]; [| done|]; destruct V as (V1 & V2 & ->).
    + exists ps. split; [apply not_elem_of_nil|]. rewrite V1, V2, Hc. done.
    + destruct W as (ps' & -> & F'). exists ps'. split; [apply not_elem_of_nil|]. by rewrite V1, V2.
Qed.

Lemma dec_run_frames w ph ps ops : dec_inv w ph -> is_frames (mtu_of w) ps (content w ph) ->
  mtu_of w <= UINT16_MAX -> DecReset ∉ ops ->
  exists w' ev ph' rest, dec_run w ops = Some (w', ev) /\ dec_inv w' ph' /\ DecError ∉ ev
    /\ packets ev ++ pending ph' ++ rest = pending ph ++ ps
    /\ is_frames (mtu_of w') rest (content w' ph') /\ mtu_of w' = mtu_of w.
Proof.
  revert w ph ps. induction ops as [|op ops IH]; intros w ph ps I F Hu Hr; simpl.
  { exists w, [], ph, ps. split_and!; try done. apply not_elem_of_nil. }
  apply not_elem_of_cons in Hr as [Hr Hr']. destruct (dec_allowed w op) eqn:A; simpl.
  - destruct (dec_step_ok w op ph I A) as (w1 & e1 & ph1 & -> & I1 & M1 & C); [congruence|]. simpl.
    destruct (step_frames _ _ _ _ _ ps C Hu F) as (rest1 & Ee & Ep & F1).
    destruct (IH w1 ph1 rest1 I1) as (w2 & e2 & ph2 & rest2 & -> & I2 & Ee2 & Ep2 & F2 & M2);
      [by rewrite M1|by rewrite M1|done|]. simpl.
    exists w2, (e1 ++ e2), ph2, rest2. split_and!; try done; [set_solver| |congruence].
    unfold packets in *. by rewrite omap_app, <- app_assoc, Ep2.
  - destruct (IH w ph ps I F Hu Hr') as (w2 & e2 & ph2 & rest2 & -> & ?). simpl. by exists w2, e2, ph2, rest2.
Qed.

Section DecContract.
Context (malloc : Z -> option bytes) (omtu : Z) (stream : bytes).
Hypothesis malloc_size : forall n mem, malloc n = Some mem -> blen mem = n.
Hypothesis omtu_nonneg : 0 <= omtu.

Lemma dec_start_inv w : dec_start malloc omtu stream = Some (Some w) ->
  dec_inv w PRecvOp /\ mtu_of w = Z.min omtu PACKETPROTO_MAXPAYLOAD /\ content w PRecvOp = stream.
Proof.
  unfold dec_start, PacketProtoDecoder_Init, PacketPassInterface_GetMTU, fresh_output. simpl.
  destruct (malloc _) as [mem|] eqn:Em; [|done]. apply malloc_size in Em.
  unfold PACKETPROTO_MAXPAYLOAD, PACKETPROTO_ENCLEN, sizeof_packetproto_header, UINT16_MAX in *.
  unfold StreamRecvInterface_Receiver_Recv, stream_start. zbool. zdecide. simpl. intros Hs. simplify_eq.
  split; [split; simpl; try done; try lia|done].
  - by split; simpl; unfold PACKETPROTO_MAXPAYLOAD, UINT16_MAX; try lia.
  - split_and!; try done. unfold recv_posted, recv_args. simpl. rewrite Z.sub_0_r. split_and!; [done|lia|done].
Qed.

(** C33. For every stream and every scheduling of its pieces, of the output, of the
    jobs and of resets, the decoder fails no ASSERT and leaves its buffer
    nowhere; the packets it passes on respect the output's MTU; and it is never
    stuck: a job is pending, or it waits for the stream with a non-empty buffer,
    or for the output. *)
Theorem PacketProtoDecoder_safe w0 ops : dec_start malloc omtu stream = Some (Some w0) ->
  exists w ev, dec_run w0 ops = Some (w, ev)
    /\ Forall (fun p => blen p <= omtu) (packets ev)
    /\ (dw_jobs w <> []
        \/ if_state (dw_input w) = STATE_BUSY
           /\ (exists dest len, if_operation (dw_input w) = Some (Some dest, len) /\ 0 < len)
        \/ if_state (ppi_if (dw_output w)) = STATE_BUSY).
Proof.
  intros Hs. destruct (dec_start_inv w0 Hs) as (I0 & Hm & _).
  destruct (dec_run_inv w0 PRecvOp ops I0) as (w & ev & ph & E & I & M & F). exists w, ev. split; [done|].
  split.
  - eapply Forall_impl; [exact F|]. intros p Hp. rewrite Hm in Hp. simpl in Hp. lia.
  - pose proof (di_phase _ _ I) as P. destruct ph; simpl in P; destruct_and! P;
      try (left; match goal with H : dw_jobs _ = _ |- _ => by rewrite H end); [|by right; right].
    right. left. split; [done|]. match goal with H : recv_posted _ |- _ => destruct H as (? & ? & _) end.
    by eexists _, _.
Qed.

(** C5. Encoder and decoder are inverse: when the stream consists of the frames of
    [ps], none longer than the output's MTU, then however the stream is cut into
    pieces and the jobs are scheduled, the decoder reports no error, passes on
    packets of [ps] in order, and has passed on all of them when the stream is
    exhausted and the decoder waits for more. *)
Theorem PacketProtoDecoder_roundtrip w0 ps ops : dec_start malloc omtu stream = Some (Some w0) ->
  stream = concat (map packetproto_frame ps) ->
  Forall (fun p => blen p <= Z.min omtu PACKETPROTO_MAXPAYLOAD) ps -> DecReset ∉ ops ->
  exists w ev, dec_run w0 ops = Some (w, ev) /\ DecError ∉ ev /\ packets ev `prefix_of` ps
    /\ (dw_stream w = [] -> if_state (dw_input w) = STATE_BUSY -> packets ev = ps).
Proof.
  intros Hs Hst Hps Hr. destruct (dec_start_inv w0 Hs) as (I0 & Hm & C0).
  assert (F0 : is_frames (mtu_of w0) ps (content w0 PRecvOp)) by (rewrite C0, Hm; done).
  assert (Hu : mtu_of w0 <= UINT16_MAX) by (rewrite Hm; unfold PACKETPROTO_MAXPAYLOAD; lia).
  destruct (dec_run_frames w0 PRecvOp ps ops I0 F0 Hu Hr) as (w & ev & ph & rest & E & I & Ee & Ep & Fr & Hw).
  exists w, ev. split; [done|]. split; [done|]. simpl in Ep. split; [by eexists|].
  intros Hd Hb. pose proof (di_phase _ _ I) as P. destruct ph; simpl in P; destruct_and! P; try congruence.
  match goal with H : recv_posted _ |- _ => destruct H as (_ & _ & V) end. unfold content in Fr. rewrite Hd, Z.add_0_r in Fr. simpl in Fr. fold (held (dw_dec w)) in Fr.
  destruct (view_frames (mtu_of w) rest (held (dw_dec w)) []) as [_ Hn]; [lia|done|].
  rewrite Hn in Ep; [|done|done]. rewrite app_nil_r in Ep. done.
Qed.
End DecContract.

Definition ex_ops : list dec_op :=
  [DecExecute; StreamBytes 3; DecExecute; DecExecute; StreamBytes 3; DecExecute; DecExecute; PacketDone;
   DecExecute; DecExecute; StreamBytes 2; DecExecute; DecExecute; PacketDone; DecExecute; DecExecute].

Lemma PacketProtoDecoder_safe_witness :
  match dec_start ex_alloc 4 [9; 0; 7; 7; 1; 0; 5; 5] with
  | Some (Some w0) =>
      exists w ev, dec_run w0 ex_ops = Some (w, ev) /\ Forall (fun p => blen p <= 4) (packets ev)
  | _ => False
  end.
Proof.
  destruct (dec_start ex_alloc 4 [9; 0; 7; 7; 1; 0; 5; 5]) as [[w0|]|] eqn:E; [|vm_compute in E; discriminate..].
  edestruct (PacketProtoDecoder_safe ex_alloc 4 [9; 0; 7; 7; 1; 0; 5; 5] ex_alloc_size) as (w & ev & Er & P & _);
    [done|exact E|exists w, ev; split; [exact Er|exact P]].
Defined.

Lemma PacketProtoDecoder_roundtrip_witness :
  match dec_start ex_alloc 4 [3; 0; 1; 2; 3; 1; 0; 9] with
  | Some (Some w0) =>
      exists w ev, dec_run w0 ex_ops = Some (w, ev) /\ DecError ∉ ev /\ packets ev `prefix_of` [[1;2;3]; [9]]
        /\ (dw_stream w = [] -> if_state (dw_input w) = STATE_BUSY -> packets ev = [[1;2;3]; [9]])
  | _ => False
  end.
Proof.
  destruct (dec_start ex_alloc 4 [3; 0; 1; 2; 3; 1; 0; 9]) as [[w0|]|] eqn:E; [|vm_compute in E; discriminate..].
  apply (PacketProtoDecoder_roundtrip ex_alloc 4 [3; 0; 1; 2; 3; 1; 0; 9] ex_alloc_size); [done|exact E|done| |].
  - by repeat constructor.
  - by apply (bool_decide_unpack _).
Defined.

(** The session of the witness, run to the end. *)
Example PacketProtoDecoder_session :
  match dec_start ex_alloc 4 [3; 0; 1; 2; 3; 1; 0; 9] with
  | Some (Some w0) => option_map (fun r => packets (snd r)) (dec_run w0 ex_ops) = Some [[1;2;3]; [9]]
  | _ => False
  end.
Proof. vm_compute. reflexivity. Qed.
