(* ===== verification/BSocksClient.v ===== *)
(** The SOCKS5 client socksclient/BSocksClient.c.

    A handler of the client takes its record and returns it with the calls it
    makes on its surroundings, in order: the I/O objects it sets up and frees,
    the packet it starts sending, the receive it starts, the event it reports.
    [io] is the state of those surroundings, which rejects calls that break the
    rules of the flow interfaces (one operation at a time, only on initialised
    I/O, no use or second release of what was freed); [sc_step] couples the two
    with a server and with the user, who may free the client at any time.

    The array that [auth_info] points to is not copied by the client: every
    handler reads the contents it has at that moment, the argument [auth]. *)

From S2P Require Import Prelude ByteOrder BAddr.

Definition SOCKS_VERSION : Z := 5.
Definition SOCKS_METHOD_NO_AUTHENTICATION_REQUIRED : Z := 0.
Definition SOCKS_METHOD_USERNAME_PASSWORD : Z := 2.
Definition SOCKS_CMD_CONNECT : Z := 1.
Definition SOCKS_ATYP_IPV4 : Z := 1.
Definition SOCKS_ATYP_IPV6 : Z := 4.
Definition SOCKS_REP_SUCCEEDED : Z := 0.

Definition sizeof_socks_client_hello_header : Z := 2.
Definition sizeof_socks_client_hello_method : Z := 1.
Definition sizeof_socks_server_hello : Z := 2.
Definition sizeof_socks_request_header : Z := 4.
Definition sizeof_socks_reply_header : Z := 4.
Definition sizeof_socks_addr_ipv4 : Z := 6.
Definition sizeof_socks_addr_ipv6 : Z := 18.

(** struct BSocksClient_auth_info. *)
Inductive auth_info :=
| auth_none
| auth_password (username password : bytes).

Definition BSocksClient_auth_none : auth_info := auth_none.
Definition BSocksClient_auth_password (username password : bytes) : auth_info :=
  auth_password username password.

Definition auth_type (a : auth_info) : Z :=
  match a with
  | auth_none => SOCKS_METHOD_NO_AUTHENTICATION_REQUIRED
  | auth_password _ _ => SOCKS_METHOD_USERNAME_PASSWORD
  end.

Inductive sc_state :=
| STATE_CONNECTING | STATE_SENDING_HELLO | STATE_SENT_HELLO | STATE_SENDING_PASSWORD | STATE_SENT_PASSWORD
| STATE_SENDING_REQUEST | STATE_SENT_REQUEST | STATE_RECEIVED_REPLY_HEADER | STATE_UP.

#[export] Instance sc_state_eq_dec : EqDecision sc_state.
Proof. solve_decision. Defined.

(** The pointer to the buffer, and the block of memory it was last given.  A pointer
    that is not NULL may be dangling: its block was freed; a block may be lost:
    the pointer to it was overwritten. *)
Record buffer := { buf_set : bool; buf_block : option bytes }.
Definition NULL : buffer := {| buf_set := false; buf_block := None |}.
Definition Block (b : bytes) : buffer := {| buf_set := true; buf_block := Some b |}.
Definition assign_NULL (x : buffer) : buffer := {| buf_set := false; buf_block := buf_block x |}.

(** What the pointer points to; [None] is an access through NULL or after BFree. *)
Definition contents (x : buffer) : option bytes := if buf_set x then buf_block x else None.
(** BFree; [None] is a second one on the same block. *)
Definition BFree (x : buffer) : option buffer :=
  if buf_set x then _ ← buf_block x; Some {| buf_set := true; buf_block := None |} else Some x.

Record BSocksClient := {
  sc_dest_addr : BAddr;
  sc_st : sc_state;
  sc_buffer : buffer;
  sc_recv_dest : Z;             (* offset in buffer *)
  sc_recv_len : Z;
  sc_recv_total : Z }.

Inductive sc_event := BSOCKSCLIENT_EVENT_ERROR | BSOCKSCLIENT_EVENT_UP | BSOCKSCLIENT_EVENT_ERROR_CLOSED.

(** The calls a handler makes. *)
Inductive sc_call :=
| Connector_Free | Connection_Init | Connection_Free
| init_control_io | free_control_io | init_up_io | free_up_io
| Send (len : Z)                 (* len bytes from the start of the buffer *)
| Recv (dest len : Z)            (* into the buffer at dest *)
| Report (e : sc_event).

Definition set_state (o : BSocksClient) (s : sc_state) : BSocksClient :=
  {| sc_dest_addr := sc_dest_addr o; sc_st := s; sc_buffer := sc_buffer o; sc_recv_dest := sc_recv_dest o;
     sc_recv_len := sc_recv_len o; sc_recv_total := sc_recv_total o |}.
Definition set_buffer (o : BSocksClient) (b : buffer) : BSocksClient :=
  {| sc_dest_addr := sc_dest_addr o; sc_st := sc_st o; sc_buffer := b; sc_recv_dest := sc_recv_dest o;
     sc_recv_len := sc_recv_len o; sc_recv_total := sc_recv_total o |}.
Definition set_recv (o : BSocksClient) (dest len total : Z) : BSocksClient :=
  {| sc_dest_addr := sc_dest_addr o; sc_st := sc_st o; sc_buffer := sc_buffer o; sc_recv_dest := dest;
     sc_recv_len := len; sc_recv_total := total |}.

(** A handler's result: the client, and its calls. *)
Definition sc_result := (BSocksClient * list sc_call)%type.

Definition report_error (o : BSocksClient) : option sc_result :=
  Some (o, [Report BSOCKSCLIENT_EVENT_ERROR]).

Definition do_receive (o : BSocksClient) : option sc_result :=
  ASSERT sc_recv_len o <? sc_recv_total o;
  Some (o, [Recv (sc_recv_dest o + sc_recv_len o) (sc_recv_total o - sc_recv_len o)]).

Definition start_receive (o : BSocksClient) (dest total : Z) : option sc_result :=
  ASSERT total >? 0;
  do_receive (set_recv o dest 0 total).

(** *buffer = d at offset off *)
Definition poke (o : BSocksClient) (off : Z) (d : bytes) : option BSocksClient :=
  b ← contents (sc_buffer o);
  b ← mem_write b off d;
  Some (set_buffer o (Block b)).

(** The loop that writes the methods of the hello. *)
Fixpoint write_methods (o : BSocksClient) (i : Z) (auth : list auth_info) : option BSocksClient :=
  match auth with
  | [] => Some o
  | a :: auth' =>
      o ← poke o (sizeof_socks_client_hello_header + i * sizeof_socks_client_hello_method)
            [hton8 (u8 (auth_type a))];
      write_methods o (i + 1) auth'
  end.

(** The first entry of the method the server chose. *)
Definition find_auth (auth : list auth_info) (method : Z) : option auth_info :=
  head (filter (fun a => auth_type a = method) auth).

Section Handlers.
(** The answer of BRealloc of misc/balloc.h: the new memory, or [None]. *)
Context (BRealloc : option bytes -> Z -> option bytes).

(** [Some None] is a failure, which leaves the old block as it is; [None] is a
    BRealloc of a freed block, or one of NULL while a block is still allocated. *)
Definition reserve_buffer (o : BSocksClient) (size : bsize_t) : option (option BSocksClient) :=
  if is_overflow size then Some None else
  old ← (if buf_set (sc_buffer o) then option_map Some (buf_block (sc_buffer o))
         else match buf_block (sc_buffer o) with Some _ => None | None => Some None end);
  match BRealloc old (bs_value size) with
  | None => Some None
  | Some b => Some (Some (set_buffer o (Block b)))
  end.

Definition addr_size (a : BAddr) (size : bsize_t) : bsize_t :=
  if BAddr_type a =? BADDR_TYPE_IPV4 then bsize_add size (bsize_fromsize sizeof_socks_addr_ipv4)
  else if BAddr_type a =? BADDR_TYPE_IPV6 then bsize_add size (bsize_fromsize sizeof_socks_addr_ipv6)
  else size.

(** The request, written into the buffer: the address, then the header. *)
Definition write_request (o : BSocksClient) : option BSocksClient :=
  '(o, atyp) ← match sc_dest_addr o with
               | BAddr_ipv4 ip port =>
                   o ← poke o sizeof_socks_request_header (mem32 ip ++ mem16 port);
                   Some (o, SOCKS_ATYP_IPV4)
               | BAddr_ipv6 ip port =>
                   o ← poke o sizeof_socks_request_header (ip ++ mem16 port);
                   Some (o, SOCKS_ATYP_IPV6)
               | _ => None
               end;
  poke o 0 [hton8 SOCKS_VERSION; hton8 SOCKS_CMD_CONNECT; hton8 0; hton8 atyp].

Definition auth_finished (o : BSocksClient) : option sc_result :=
  let size := addr_size (sc_dest_addr o) (bsize_fromsize sizeof_socks_request_header) in
  r ← reserve_buffer o size;
  match r with
  | None => report_error o
  | Some o =>
      o ← write_request o;
      Some (set_state o STATE_SENDING_REQUEST, [Send (bs_value size)])
  end.

Definition connector_handler (auth : list auth_info) (o : BSocksClient) (is_error con_init_ok : bool)
    : option sc_result :=
  ASSERT bool_decide (sc_st o = STATE_CONNECTING);
  if is_error then report_error o else
  if negb con_init_ok then report_error o else
  let num_auth_info := Z.of_nat (length auth) in
  let fail1 := Some (o, [Connection_Init; init_control_io; free_control_io; Connection_Free;
                         Report BSOCKSCLIENT_EVENT_ERROR]) in
  if (num_auth_info =? 0) || (num_auth_info >? 255) then fail1 else
  let size := bsize_add (bsize_fromsize sizeof_socks_client_hello_header)
                (bsize_mul (bsize_fromsize num_auth_info) (bsize_fromsize sizeof_socks_client_hello_method)) in
  r ← reserve_buffer o size;
  match r with
  | None => fail1
  | Some o =>
      o ← poke o 0 [hton8 SOCKS_VERSION; hton8 (u8 num_auth_info)];
      o ← write_methods o 0 auth;
      Some (set_state o STATE_SENDING_HELLO, [Connection_Init; init_control_io; Send (bs_value size)])
  end.

Definition connection_handler (o : BSocksClient) (recv_closed : bool) : option sc_result :=
  ASSERT negb (bool_decide (sc_st o = STATE_CONNECTING));
  if bool_decide (sc_st o = STATE_UP) && recv_closed
  then Some (o, [Report BSOCKSCLIENT_EVENT_ERROR_CLOSED])
  else report_error o.

(** The username/password message of recv_handler_done. *)
Definition send_password (o : BSocksClient) (username password : bytes) : option sc_result :=
  let ul := blen username in
  let pl := blen password in
  if (ul =? 0) || (ul >? 255) || (pl =? 0) || (pl >? 255) then report_error o else
  let size := bsize_fromsize (1 + 1 + ul + 1 + pl) in
  r ← reserve_buffer o size;
  match r with
  | None => report_error o
  | Some o =>
      o ← poke o 0 [1];
      o ← poke o 1 [u8 ul];
      o ← poke o 2 username;
      o ← poke o (2 + ul) [u8 pl];
      o ← poke o (2 + ul + 1) password;
      Some (set_state o STATE_SENDING_PASSWORD, [Send (bs_value size)])
  end.

Definition recv_handler_done (auth : list auth_info) (o : BSocksClient) (data_len : Z) : option sc_result :=
  ASSERT data_len >=? 0;
  ASSERT data_len <=? sc_recv_total o - sc_recv_len o;
  let o := set_recv o (sc_recv_dest o) (sc_recv_len o + data_len) (sc_recv_total o) in
  if sc_recv_len o <? sc_recv_total o then do_receive o else
  match sc_st o with
  | STATE_SENT_HELLO =>
      b ← contents (sc_buffer o);
      imsg ← mem_read b 0 sizeof_socks_server_hello;
      if negb (ntoh8 (nth 0 imsg 0) =? SOCKS_VERSION) then report_error o else
      match find_auth auth (ntoh8 (nth 1 imsg 0)) with
      | None => report_error o
      | Some auth_none => auth_finished o
      | Some (auth_password username password) => send_password o username password
      end
  | STATE_SENT_REQUEST =>
      b ← contents (sc_buffer o);
      imsg ← mem_read b 0 sizeof_socks_reply_header;
      if negb (ntoh8 (nth 0 imsg 0) =? SOCKS_VERSION) then report_error o else
      if negb (ntoh8 (nth 1 imsg 0) =? SOCKS_REP_SUCCEEDED) then report_error o else
      let atyp := ntoh8 (nth 3 imsg 0) in
      let receive_rest addr_len :=
        '(o, calls) ← start_receive o sizeof_socks_reply_header addr_len;
        Some (set_state o STATE_RECEIVED_REPLY_HEADER, calls) in
      if atyp =? SOCKS_ATYP_IPV4 then receive_rest sizeof_socks_addr_ipv4
      else if atyp =? SOCKS_ATYP_IPV6 then receive_rest sizeof_socks_addr_ipv6
      else report_error o
  | STATE_SENT_PASSWORD =>
      b ← contents (sc_buffer o);
      imsg ← mem_read b 0 2;
      if negb (nth 0 imsg 0 =? 1) then report_error o else
      if negb (nth 1 imsg 0 =? 0) then report_error o else
      auth_finished o
  | STATE_RECEIVED_REPLY_HEADER =>
      b ← BFree (sc_buffer o);
      Some (set_state (set_buffer o (assign_NULL b)) STATE_UP,
            [free_control_io; init_up_io; Report BSOCKSCLIENT_EVENT_UP])
  | _ => None
  end.

(** Allocate a buffer of [size] bytes, receive [total] of them, go to [s]. *)
Definition receive_reply (o : BSocksClient) (size : bsize_t) (total : Z) (s : sc_state) : option sc_result :=
  r ← reserve_buffer o size;
  match r with
  | None => report_error o
  | Some o => '(o, calls) ← start_receive o 0 total; Some (set_state o s, calls)
  end.

Definition send_handler_done (o : BSocksClient) : option sc_result :=
  _ ← contents (sc_buffer o);
  match sc_st o with
  | STATE_SENDING_HELLO =>
      let size := bsize_fromsize sizeof_socks_server_hello in
      receive_reply o size (bs_value size) STATE_SENT_HELLO
  | STATE_SENDING_REQUEST =>
      let size := bsize_add (bsize_fromsize sizeof_socks_reply_header)
                    (bsize_max (bsize_fromsize sizeof_socks_addr_ipv4) (bsize_fromsize sizeof_socks_addr_ipv6)) in
      receive_reply o size sizeof_socks_reply_header STATE_SENT_REQUEST
  | STATE_SENDING_PASSWORD =>
      let size := bsize_fromsize 2 in
      receive_reply o size (bs_value size) STATE_SENT_PASSWORD
  | _ => None
  end.

Definition BSocksClient_Init (server_addr : BAddr) (auth : list auth_info) (dest_addr : BAddr)
    (connector_init_ok : bool) : option (option BSocksClient) :=
  ASSERT negb (BAddr_IsInvalid server_addr);
  ASSERT (BAddr_type dest_addr =? BADDR_TYPE_IPV4) || (BAddr_type dest_addr =? BADDR_TYPE_IPV6);
  if connector_init_ok
  then Some (Some {| sc_dest_addr := dest_addr; sc_st := STATE_CONNECTING; sc_buffer := NULL;
                     sc_recv_dest := 0; sc_recv_len := 0; sc_recv_total := 0 |})
  else Some None.

Definition BSocksClient_Free (o : BSocksClient) : option sc_result :=
  let calls := match sc_st o with
               | STATE_CONNECTING => []
               | STATE_UP => [free_up_io; Connection_Free]
               | _ => [free_control_io; Connection_Free]
               end ++ [Connector_Free] in
  b ← (if buf_set (sc_buffer o) then BFree (sc_buffer o) else Some (sc_buffer o));
  Some (set_buffer o b, calls).
End Handlers.

(** * The client and its surroundings *)

(** What is set up around the client. *)
Inductive io :=
| IoGone                                            (* neither connector nor connection *)
| IoNone                                            (* a connector, no connection *)
| IoConn                                            (* a connection without I/O *)
| IoControl (sending : option Z) (receiving : option (Z * Z))
| IoUp.

(** One call; [None] is a call the called object forbids. *)
Definition io_call (i : io) (c : sc_call) : option io :=
  match c, i with
  | Connector_Free, IoNone => Some IoGone
  | Connection_Init, IoNone => Some IoConn
  | Connection_Free, IoConn => Some IoNone
  | init_control_io, IoConn => Some (IoControl None None)
  | free_control_io, IoControl _ _ => Some IoConn
  | init_up_io, IoConn => Some IoUp
  | free_up_io, IoUp => Some IoConn
  | Send len, IoControl None r => ASSERT (0 <=? len) && (len <=? INT_MAX); Some (IoControl (Some len) r)
  | Recv dest len, IoControl s None => ASSERT len >? 0; Some (IoControl s (Some (dest, len)))
  | Report _, _ => Some i
  | _, _ => None
  end.

Fixpoint io_calls (i : io) (cs : list sc_call) : option io :=
  match cs with [] => Some i | c :: cs' => i ← io_call i c; io_calls i cs' end.

Definition events_of (cs : list sc_call) : list sc_event :=
  omap (fun c => match c with Report e => Some e | _ => None end) cs.

Record sc_world := {
  w_cl : BSocksClient;
  w_io : io;
  w_in : bytes;              (* what the server still sends *)
  w_consumed : bytes;        (* what the client received *)
  w_out : bytes;             (* what the client sent *)
  w_events : list sc_event;
  w_freed : bool }.

Inductive sc_op :=
| Connected (is_error con_init_ok : bool)   (* the connector is done *)
| SendDone                                  (* the packet was sent *)
| Received (n : Z)                          (* n bytes arrived *)
| ConnEvent (recv_closed : bool)            (* the connection failed or was closed *)
| UserFree.                                 (* the user has no more use for the client *)

Definition is_error_event (e : sc_event) : bool :=
  match e with BSOCKSCLIENT_EVENT_UP => false | _ => true end.

(** BSocksClient_Free with the effect of its calls. *)
Definition sc_free (o : BSocksClient) (i : io) : option (BSocksClient * io) :=
  '(o, cs) ← BSocksClient_Free o;
  i ← io_calls i cs;
  Some (o, i).

(** The calls of a handler take effect; after an error event the user frees
    the client from within the handler, as the header file demands. *)
Definition sc_apply (w : sc_world) (i : io) (input consumed out : bytes) (r : sc_result) : option sc_world :=
  let '(o, cs) := r in
  i ← io_calls i cs;
  let ev := events_of cs in
  let failed := existsb is_error_event ev in
  '(o, i) ← (if failed then sc_free o i else Some (o, i));
  Some {| w_cl := o; w_io := i; w_in := input; w_consumed := consumed; w_out := out;
          w_events := w_events w ++ ev; w_freed := failed |}.

Section World.
Context (BRealloc : option bytes -> Z -> option bytes).
Context (auth : list auth_info).

Definition sc_allowed (w : sc_world) (op : sc_op) : bool :=
  negb (w_freed w) &&
  match op with
  | Connected _ _ => bool_decide (sc_st (w_cl w) = STATE_CONNECTING)
  | SendDone => match w_io w with IoControl (Some _) _ => true | _ => false end
  | Received n => match w_io w with
                  | IoControl _ (Some (_, len)) => (0 <? n) && (n <=? len) && (n <=? blen (w_in w))
                  | _ => false
                  end
  | ConnEvent _ => negb (bool_decide (sc_st (w_cl w) = STATE_CONNECTING))
  | UserFree => true
  end.

Definition sc_step (w : sc_world) (op : sc_op) : option sc_world :=
  match op, w_io w with
  | Connected err ok, _ =>
      r ← connector_handler BRealloc auth (w_cl w) err ok;
      sc_apply w (w_io w) (w_in w) (w_consumed w) (w_out w) r
  | SendDone, IoControl (Some len) rcv =>
      b ← contents (sc_buffer (w_cl w));
      d ← mem_read b 0 len;
      r ← send_handler_done BRealloc (w_cl w);
      sc_apply w (IoControl None rcv) (w_in w) (w_consumed w) (w_out w ++ d) r
  | Received n, IoControl snd (Some (dest, _)) =>
      o ← poke (w_cl w) dest (btake n (w_in w));
      r ← recv_handler_done BRealloc auth o n;
      sc_apply w (IoControl snd None) (bdrop n (w_in w)) (w_consumed w ++ btake n (w_in w)) (w_out w) r
  | ConnEvent closed, _ =>
      r ← connection_handler (w_cl w) closed;
      sc_apply w (w_io w) (w_in w) (w_consumed w) (w_out w) r
  | UserFree, i =>
      '(o, i) ← sc_free (w_cl w) i;
      Some {| w_cl := o; w_io := i; w_in := w_in w; w_consumed := w_consumed w; w_out := w_out w;
              w_events := w_events w; w_freed := true |}
  | _, _ => None
  end.

(** What cannot happen is skipped. *)
Fixpoint sc_run (w : sc_world) (ops : list sc_op) : option sc_world :=
  match ops with
  | [] => Some w
  | op :: ops' => w1 ← (if sc_allowed w op then sc_step w op else Some w); sc_run w1 ops'
  end.

(** * The handshake on the wire (RFC 1928 and RFC 1929) *)

Definition hello : bytes :=
  [SOCKS_VERSION; Z.of_nat (length auth)] ++ map auth_type auth.
Definition password_msg (u p : bytes) : bytes := [1; blen u] ++ u ++ [blen p] ++ p.
Definition request (a : BAddr) : bytes :=
  match a with
  | BAddr_ipv4 ip port => [SOCKS_VERSION; SOCKS_CMD_CONNECT; 0; SOCKS_ATYP_IPV4] ++ mem32 ip ++ mem16 port
  | BAddr_ipv6 ip port => [SOCKS_VERSION; SOCKS_CMD_CONNECT; 0; SOCKS_ATYP_IPV6] ++ ip ++ mem16 port
  | _ => []
  end.

Definition password_ok (u p : bytes) : Prop := 1 <= blen u <= 255 /\ 1 <= blen p <= 255.

(** The authentication: what the server sent and what the client sent. *)
Inductive authed : bytes -> bytes -> Prop :=
| authed_none : find_auth auth SOCKS_METHOD_NO_AUTHENTICATION_REQUIRED = Some auth_none ->
    authed [SOCKS_VERSION; SOCKS_METHOD_NO_AUTHENTICATION_REQUIRED] hello
| authed_password u p : find_auth auth SOCKS_METHOD_USERNAME_PASSWORD = Some (auth_password u p) ->
    password_ok u p ->
    authed [SOCKS_VERSION; SOCKS_METHOD_USERNAME_PASSWORD; 1; 0] (hello ++ password_msg u p).

(** The server's reply to the request. *)
Definition reply_ok (r : bytes) : Prop :=
  exists rsv atyp addr, r = [SOCKS_VERSION; SOCKS_REP_SUCCEEDED; rsv; atyp] ++ addr
    /\ (atyp = SOCKS_ATYP_IPV4 /\ blen addr = sizeof_socks_addr_ipv4
        \/ atyp = SOCKS_ATYP_IPV6 /\ blen addr = sizeof_socks_addr_ipv6).

(** * The invariant *)

Definition sending (w : sc_world) (d : bytes) : Prop :=
  w_io w = IoControl (Some (blen d)) None /\ sc_buffer (w_cl w) = Block d.

(** The client receives [total] bytes at [dest] of a buffer of [size] bytes. *)
Definition receiving (w : sc_world) (b : bytes) (dest total size : Z) : Prop :=
  let o := w_cl w in
  sc_buffer o = Block b /\ blen b = size /\ sc_recv_dest o = dest /\ sc_recv_total o = total
  /\ 0 <= sc_recv_len o < total
  /\ w_io w = IoControl None (Some (dest + sc_recv_len o, total - sc_recv_len o)).

Definition reply_header_ok (b : bytes) (addr_len : Z) : Prop :=
  nth 0 b 0 = SOCKS_VERSION /\ nth 1 b 0 = SOCKS_REP_SUCCEEDED
  /\ (nth 3 b 0 = SOCKS_ATYP_IPV4 /\ addr_len = sizeof_socks_addr_ipv4
      \/ nth 3 b 0 = SOCKS_ATYP_IPV6 /\ addr_len = sizeof_socks_addr_ipv6).

Definition state_ok (dest : BAddr) (w : sc_world) : Prop :=
  let o := w_cl w in
  let got := sc_recv_len o in
  match sc_st o with
  | STATE_CONNECTING => w_io w = IoNone /\ sc_buffer o = NULL /\ w_consumed w = [] /\ w_out w = [] /\ w_events w = []
  | STATE_SENDING_HELLO => sending w hello /\ w_consumed w = [] /\ w_out w = [] /\ w_events w = []
  | STATE_SENT_HELLO =>
      exists b, receiving w b 0 2 2 /\ w_consumed w = btake got b /\ w_out w = hello /\ w_events w = []
  | STATE_SENDING_PASSWORD =>
      exists u p, find_auth auth SOCKS_METHOD_USERNAME_PASSWORD = Some (auth_password u p)
        /\ password_ok u p /\ sending w (password_msg u p)
        /\ w_consumed w = [SOCKS_VERSION; SOCKS_METHOD_USERNAME_PASSWORD] /\ w_out w = hello /\ w_events w = []
  | STATE_SENT_PASSWORD =>
      exists u p b, find_auth auth SOCKS_METHOD_USERNAME_PASSWORD = Some (auth_password u p)
        /\ password_ok u p /\ receiving w b 0 2 2
        /\ w_consumed w = [SOCKS_VERSION; SOCKS_METHOD_USERNAME_PASSWORD] ++ btake got b
        /\ w_out w = hello ++ password_msg u p /\ w_events w = []
  | STATE_SENDING_REQUEST =>
      authed (w_consumed w) (w_out w) /\ sending w (request dest) /\ w_events w = []
  | STATE_SENT_REQUEST =>
      exists cs co b, authed cs co /\ receiving w b 0 4 22
        /\ w_consumed w = cs ++ btake got b /\ w_out w = co ++ request dest /\ w_events w = []
  | STATE_RECEIVED_REPLY_HEADER =>
      exists cs co b total, authed cs co /\ receiving w b 4 total 22 /\ reply_header_ok b total
        /\ w_consumed w = cs ++ btake (4 + got) b /\ w_out w = co ++ request dest /\ w_events w = []
  | STATE_UP =>
      exists cs co reply, authed cs co /\ w_io w = IoUp /\ sc_buffer o = NULL /\ reply_ok reply
        /\ w_consumed w = cs ++ reply /\ w_out w = co ++ request dest
        /\ w_events w = [BSOCKSCLIENT_EVENT_UP]
  end.

(** A client that was freed has reported what it had to. *)
Definition freed_ok (w : sc_world) : Prop :=
  w_io w = IoGone /\ buf_block (sc_buffer (w_cl w)) = None
  /\ (w_events w = [] \/ w_events w = [BSOCKSCLIENT_EVENT_UP] \/ w_events w = [BSOCKSCLIENT_EVENT_ERROR]
      \/ exists e, is_error_event e = true /\ w_events w = [BSOCKSCLIENT_EVENT_UP; e]).

Definition sc_inv (dest : BAddr) (w : sc_world) : Prop :=
  sc_dest_addr (w_cl w) = dest /\ if w_freed w then freed_ok w else state_ok dest w.
End World.

(** * Preservation *)

Section Preservation.
Context (BRealloc : option bytes -> Z -> option bytes) (auth : list auth_info) (dest : BAddr).
Hypothesis BRealloc_size : forall b n m, BRealloc b n = Some m -> blen m = n.
Hypothesis dest_wf : BAddr_wf dest.
Hypothesis dest_ip : BAddr_is_ip dest = true.

(** The pointer is NULL, or to the one block that is allocated. *)
Definition owned (x : buffer) : Prop := x = NULL \/ exists b, x = Block b.

Lemma owned_block x b : x = Block b -> owned x.
Proof. intros ->. right. by exists b. Qed.

Lemma reserve_cases o size : is_overflow size = false -> owned (sc_buffer o) ->
  reserve_buffer BRealloc o size = Some None
  \/ exists b, reserve_buffer BRealloc o size = Some (Some (set_buffer o (Block b))) /\ blen b = bs_value size.
Proof.
  intros Hs Ho. unfold reserve_buffer. rewrite Hs. destruct Ho as [->|[b0 ->]]; cbn [buf_set buf_block NULL Block option_map mbind option_bind].
  all: destruct (BRealloc _ _) as [b|] eqn:E; [right|by left]; exists b; (split; [done|]); by eapply BRealloc_size.
Qed.

(** What is set up in a state. *)
Definition io_matches (s : sc_state) (i : io) : Prop :=
  match s with
  | STATE_CONNECTING => i = IoNone
  | STATE_UP => i = IoUp
  | _ => exists snd rcv, i = IoControl snd rcv
  end.

Lemma free_releases o i : io_matches (sc_st o) i -> owned (sc_buffer o) ->
  exists o', sc_free o i = Some (o', IoGone) /\ buf_block (sc_buffer o') = None /\ sc_dest_addr o' = sc_dest_addr o.
Proof.
  intros Hi Ho. unfold sc_free, BSocksClient_Free.
  assert (Hb : exists x, (if buf_set (sc_buffer o) then BFree (sc_buffer o) else Some (sc_buffer o)) = Some x /\ buf_block x = None).
  { destruct Ho as [->|[b ->]]; by eexists. }
  destruct Hb as (x & -> & Hx). cbn [mbind option_bind]. exists (set_buffer o x).
  destruct (sc_st o); simpl in Hi; [subst i|..|subst i]; try destruct Hi as (snd & rcv & ->); done.
Qed.

Lemma state_owned w : state_ok auth dest w -> owned (sc_buffer (w_cl w)) /\ io_matches (sc_st (w_cl w)) (w_io w)
  /\ (w_events w = [] \/ w_events w = [BSOCKSCLIENT_EVENT_UP]).
Proof.
  unfold state_ok, sending, receiving. destruct (sc_st (w_cl w)); intros I; simpl; decompose [ex and] I;
    split_and!; try (by left); try (by eapply owned_block); try done; try (by eexists _, _); by right.
Qed.

Lemma poke_ok o b off d : sc_buffer o = Block b -> 0 <= off -> off + blen d <= blen b ->
  exists b', mem_write b off d = Some b' /\ blen b' = blen b /\ poke o off d = Some (set_buffer o (Block b')).
Proof.
  intros Hb ? ?. destruct (mem_write_some b off d) as (b' & W & L); [done..|]. exists b'.
  unfold poke. rewrite Hb. simpl. rewrite W. done.
Qed.

(** Appending to what was written so far. *)
Lemma poke_append o b off d pre : sc_buffer o = Block b -> btake off b = pre -> 0 <= off ->
  off + blen d <= blen b ->
  exists b', poke o off d = Some (set_buffer o (Block b')) /\ blen b' = blen b
    /\ btake (off + blen d) b' = pre ++ d.
Proof.
  intros Hb <- ? ?. destruct (poke_ok o b off d) as (b' & W & L & E); [done..|]. exists b'.
  split; [done|]. split; [done|]. by apply mem_write_prefix.
Qed.

Lemma set_buffer_twice o a b : set_buffer (set_buffer o a) b = set_buffer o b.
Proof. done. Qed.

Lemma auth_type_u8 a : u8 (auth_type a) = auth_type a.
Proof. by destruct a. Qed.

Lemma write_methods_ok l o b i pre : sc_buffer o = Block b -> btake (2 + i) b = pre -> 0 <= i ->
  2 + i + Z.of_nat (length l) <= blen b ->
  exists b', write_methods o i l = Some (set_buffer o (Block b')) /\ blen b' = blen b
    /\ btake (2 + i + Z.of_nat (length l)) b' = pre ++ map auth_type l.
Proof.
  revert o b i pre. induction l as [|a l IH]; intros o b i pre Hb Hp Hi Hl; cbn [write_methods length map] in *.
  - exists b. rewrite Z.add_0_r, app_nil_r. split; [|done]. destruct o; simpl in *. by subst.
  - unfold sizeof_socks_client_hello_header, sizeof_socks_client_hello_method, hton8. rewrite Z.mul_1_r, auth_type_u8.
    destruct (poke_append o b (2 + i) [auth_type a] pre) as (b1 & -> & L1 & P1); [done..|lia|change (blen [_]) with 1; lia|].
    change (blen [auth_type a]) with 1 in P1. cbn [mbind option_bind].
    destruct (IH (set_buffer o (Block b1)) b1 (i + 1) (pre ++ [auth_type a])) as (b2 & E & L2 & P2);
      [done|by rewrite <- P1; f_equal; lia|lia|lia|].
    exists b2. rewrite E. split; [done|]. split; [lia|].
    rewrite <- app_assoc in P2. etransitivity; [|exact P2]. f_equal. lia.
Qed.

Lemma btake_blen b n : blen b = n -> btake n b = b.
Proof. intros <-. apply btake_all. Qed.

(** The failure of any state, before or after the handshake. *)
Lemma apply_failure w o i input consumed out e : is_error_event e = true -> io_matches (sc_st o) i -> owned (sc_buffer o) ->
  sc_dest_addr o = dest ->
  (w_events w = [] /\ e = BSOCKSCLIENT_EVENT_ERROR \/ w_events w = [BSOCKSCLIENT_EVENT_UP]) ->
  exists w', sc_apply w i input consumed out (o, [Report e]) = Some w' /\ sc_inv auth dest w' /\ w_freed w' = true.
Proof.
  intros Hee Hi Ho Hd He. unfold sc_apply. cbn [io_calls io_call mbind option_bind events_of omap list_omap existsb].
  assert (Hic : io_calls i [Report e] = Some i) by (by destruct i).
  destruct (free_releases o i Hi Ho) as (o' & Ef & Hb & Hd').
  replace (io_call i (Report e)) with (Some i) by (by destruct i). cbn [mbind option_bind]. rewrite Hee. cbn [orb]. rewrite Ef. cbn [mbind option_bind].
  eexists. split; [reflexivity|]. split; [|done]. split; [cbn; congruence|]. cbn. split; [done|]. split; [done|].
  destruct He as [[-> ->]| ->]; [right; right; by left|]. right. right. right. by exists e.
Qed.

(** The failure of any state of the control connection. *)
Lemma apply_error w o s r input consumed out : sc_st o <> STATE_CONNECTING -> sc_st o <> STATE_UP ->
  owned (sc_buffer o) -> sc_dest_addr o = dest -> w_events w = [] ->
  exists w', sc_apply w (IoControl s r) input consumed out (o, [Report BSOCKSCLIENT_EVENT_ERROR]) = Some w'
    /\ sc_inv auth dest w' /\ w_freed w' = true.
Proof.
  intros H1 H2 Ho Hd He. apply apply_failure; try done; [|by left]. destruct (sc_st o); try done; by eexists _, _.
Qed.

(** A message is sent from the start of the buffer. *)
Lemma apply_send w o input consumed out d s : sc_buffer o = Block d -> blen d <= INT_MAX ->
  exists w', sc_apply w (IoControl None None) input consumed out (set_state o s, [Send (blen d)]) = Some w'
    /\ w_cl w' = set_state o s /\ sending w' d /\ w_consumed w' = consumed /\ w_out w' = out
    /\ w_events w' = w_events w /\ w_freed w' = false /\ w_in w' = input.
Proof.
  intros Hb Hl. unfold sc_apply. simpl. pose proof (blen_nonneg d). zdecide. simpl.
  eexists. split; [reflexivity|]. simpl. rewrite app_nil_r. done.
Qed.

Lemma apply_recv w o input consumed out d n : 0 < n ->
  exists w', sc_apply w (IoControl None None) input consumed out (o, [Recv d n]) = Some w'
    /\ w_cl w' = o /\ w_io w' = IoControl None (Some (d, n)) /\ w_consumed w' = consumed /\ w_out w' = out
    /\ w_events w' = w_events w /\ w_freed w' = false /\ w_in w' = input.
Proof.
  intros Hn. unfold sc_apply. simpl. zbool. zdecide. simpl. eexists. split; [reflexivity|].
  simpl. by rewrite app_nil_r.
Qed.

Lemma request_len : blen (request dest) <= INT_MAX /\ 4 <= blen (request dest)
  /\ is_overflow (addr_size dest (bsize_fromsize sizeof_socks_request_header)) = false
  /\ bs_value (addr_size dest (bsize_fromsize sizeof_socks_request_header)) = blen (request dest).
Proof.
  unfold INT_MAX. destruct dest as [|ip port|ip port|]; try done; simpl in dest_wf; destruct_and! dest_wf;
    unfold request, addr_size.
  assert (L : blen ([SOCKS_VERSION; SOCKS_CMD_CONNECT; 0; SOCKS_ATYP_IPV6] ++ ip ++ mem16 port) = 22).
  { rewrite !blen_app, write_le16_length. unfold blen. by rewrite H. }
  rewrite L. split_and!; by vm_compute.
Qed.

Lemma write_request_ok o b : sc_dest_addr o = dest -> sc_buffer o = Block b -> blen b = blen (request dest) ->
  write_request o = Some (set_buffer o (Block (request dest))).
Proof.
  intros Hd Hb Hl.
  assert (X : forall a atyp, blen b = 4 + blen a ->
    (o ← poke o sizeof_socks_request_header a;
     poke o 0 [hton8 SOCKS_VERSION; hton8 SOCKS_CMD_CONNECT; hton8 0; hton8 atyp])
    = Some (set_buffer o (Block ([SOCKS_VERSION; SOCKS_CMD_CONNECT; 0; atyp] ++ a)))).
  { intros a atyp Ha. pose proof (blen_nonneg a). unfold sizeof_socks_request_header, hton8.
    destruct (poke_ok o b 4 a) as (b1 & W1 & L1 & ->); [done|lia|lia|]. simpl.
    destruct (poke_ok (set_buffer o (Block b1)) b1 0 [SOCKS_VERSION; SOCKS_CMD_CONNECT; 0; atyp])
      as (b2 & W2 & L2 & ->); [done|lia|change (blen [_;_;_;_]) with 4; lia|]. simpl.
    assert (b2 = [SOCKS_VERSION; SOCKS_CMD_CONNECT; 0; atyp] ++ a) as ->; [|done].
    pose proof (mem_read_write_same _ _ _ _ W2) as R0. change (blen [_;_;_;_]) with 4 in R0.
    pose proof (mem_read_write_same _ _ _ _ W1) as R1.
    rewrite <- (mem_read_write_disjoint _ _ _ _ 4 (blen a) W2) in R1 by (right; done).
    pose proof (mem_read_join _ _ _ _ _ _ R0 R1) as R. apply mem_read_inv in R as (_ & _ & _ & ->).
    rewrite bdrop_0. symmetry. apply btake_blen. lia. }
  unfold write_request. rewrite Hd. destruct dest as [|ip port|ip port|]; try done.
  - unfold request. rewrite <- (X (mem32 ip ++ mem16 port) SOCKS_ATYP_IPV4) by (rewrite Hl; done).
    by destruct (poke o _ _).
  - unfold request. rewrite <- (X (ip ++ mem16 port) SOCKS_ATYP_IPV6); [by destruct (poke o _ _)|].
    rewrite Hl. unfold request. by rewrite blen_app.
Qed.

(** auth_finished sends the request, or fails. *)
Lemma auth_finished_ok w o input consumed out : owned (sc_buffer o) -> sc_dest_addr o = dest -> w_events w = [] ->
  sc_st o <> STATE_CONNECTING -> sc_st o <> STATE_UP -> authed auth consumed out ->
  exists r w', auth_finished BRealloc o = Some r
    /\ sc_apply w (IoControl None None) input consumed out r = Some w' /\ sc_inv auth dest w'.
Proof.
  intros Hw Hd He H1 H2 Ha. unfold auth_finished. rewrite Hd.
  destruct request_len as (Hmax & Hmin & Hov & Hval).
  destruct (reserve_cases o _ Hov Hw) as [-> |(b & -> & Hl)]; cbn [mbind option_bind].
  { destruct (apply_error w o None None input consumed out H1 H2 Hw Hd He) as (w' & E & I & _). by eexists _, w'. }
  rewrite Hval in Hl. rewrite Hval.
  rewrite (write_request_ok (set_buffer o (Block b)) b) by done. simpl.
  destruct (apply_send w (set_buffer o (Block (request dest))) input consumed out (request dest)
              STATE_SENDING_REQUEST eq_refl Hmax) as (w' & E & Hc & Hs & Hcon & Ho & Hev & Hf & _).
  eexists _, w'. split; [reflexivity|]. split; [exact E|]. split; [by rewrite Hc|]. rewrite Hf.
  unfold state_ok. rewrite Hc. simpl. rewrite Hcon, Ho, Hev. done.
Qed.

Lemma send_password_ok w o input u p : owned (sc_buffer o) -> sc_dest_addr o = dest -> w_events w = [] ->
  sc_st o <> STATE_CONNECTING -> sc_st o <> STATE_UP ->
  find_auth auth SOCKS_METHOD_USERNAME_PASSWORD = Some (auth_password u p) ->
  exists r w', send_password BRealloc o u p = Some r
    /\ sc_apply w (IoControl None None) input [SOCKS_VERSION; SOCKS_METHOD_USERNAME_PASSWORD] (hello auth) r = Some w'
    /\ sc_inv auth dest w'.
Proof.
  intros Hw Hd He H1 H2 Hf. unfold send_password.
  pose proof (apply_error w o None None input [SOCKS_VERSION; SOCKS_METHOD_USERNAME_PASSWORD] (hello auth) H1 H2 Hw Hd He)
    as (we & Ee & Ie & _).
  pose proof (blen_nonneg u). pose proof (blen_nonneg p).
  destruct ((blen u =? 0) || (blen u >? 255) || (blen p =? 0) || (blen p >? 255)) eqn:B; [by eexists _, we|].
  assert (P : password_ok u p) by (unfold password_ok; zbool; lia). destruct P as [Pu Pp].
  destruct (reserve_cases o (bsize_fromsize (1 + 1 + blen u + 1 + blen p)) eq_refl Hw) as [-> |(b & -> & Hl)]; cbn [mbind option_bind];
    [by eexists _, we|]. cbn [bs_value bsize_fromsize] in Hl |- *. rewrite !u8_small by lia.
  destruct (poke_append (set_buffer o (Block b)) b 0 [1] []) as (b1 & -> & L1 & P1); [done..|rewrite blen_cons, blen_nil; lia|].
  cbn [mbind option_bind]. rewrite set_buffer_twice. change (0 + blen [1]) with 1 in P1.
  destruct (poke_append (set_buffer o (Block b1)) b1 1 [blen u] _ eq_refl P1)
    as (b2 & -> & L2 & P2); [lia|rewrite blen_cons, blen_nil; lia|].
  cbn [mbind option_bind]. rewrite set_buffer_twice. change (1 + blen [blen u]) with 2 in P2.
  destruct (poke_append (set_buffer o (Block b2)) b2 2 u _ eq_refl P2) as (b3 & -> & L3 & P3); [lia|lia|].
  cbn [mbind option_bind]. rewrite set_buffer_twice.
  destruct (poke_append (set_buffer o (Block b3)) b3 (2 + blen u) [blen p] _ eq_refl P3) as (b4 & -> & L4 & P4);
    [lia|rewrite blen_cons, blen_nil; lia|].
  cbn [mbind option_bind]. rewrite set_buffer_twice. change (blen [blen p]) with 1 in P4.
  destruct (poke_append (set_buffer o (Block b4)) b4 (2 + blen u + 1) p _ eq_refl P4) as (b5 & -> & L5 & P5); [lia|lia|].
  cbn [mbind option_bind]. rewrite set_buffer_twice.
  assert (b5 = password_msg u p) as ->.
  { rewrite btake_blen in P5 by lia. rewrite P5. unfold password_msg. by rewrite <- !app_assoc. }
  assert (Lm : 1 + 1 + blen u + 1 + blen p = blen (password_msg u p)) by lia. rewrite Lm.
  edestruct (apply_send w) as (w' & E & Hc & Hs & Hcon & Ho & Hev & Hfr & _);
    [| |eexists _, w'; split; [reflexivity|]; split; [exact E|]]; [done|unfold INT_MAX; lia|].
  split; [by rewrite Hc|]. rewrite Hfr. unfold state_ok. rewrite Hc. simpl.
  exists u, p. rewrite Hcon, Ho, Hev. done.
Qed.

Lemma hello_size n : 1 <= n <= 255 ->
  bsize_add (bsize_fromsize sizeof_socks_client_hello_header)
    (bsize_mul (bsize_fromsize n) (bsize_fromsize sizeof_socks_client_hello_method)) = bsize_fromsize (2 + n).
Proof.
  intros Hn. unfold bsize_add, bsize_mul, bsize_fromsize. cbn [is_overflow bs_value orb].
  unfold sizeof_socks_client_hello_header, sizeof_socks_client_hello_method, SIZE_MAX, UINT64_MAX.
  assert (1 <= 18446744073709551615 / n) by (apply Z.div_le_lower_bound; lia).
  rewrite Z.mul_1_r, !u64_small by lia. zbool. zdecide. done.
Qed.

Lemma apply_connected w input consumed out o cs :
  sc_apply w IoNone input consumed out (o, Connection_Init :: init_control_io :: cs)
  = sc_apply w (IoControl None None) input consumed out (o, cs).
Proof. done. Qed.

(** The connector is done. *)
Lemma step_connected w err ok : sc_inv auth dest w -> sc_allowed w (Connected err ok) = true ->
  exists w', sc_step BRealloc auth w (Connected err ok) = Some w' /\ sc_inv auth dest w'.
Proof.
  intros [Hd I] A. unfold sc_allowed in A. apply andb_true_iff in A as [Hf%negb_true_iff Hs%bool_decide_eq_true].
  rewrite Hf in I. unfold state_ok in I. rewrite Hs in I. destruct I as (Hio & Hbuf & Hc & Ho & He).
  assert (Hw : owned (sc_buffer (w_cl w))) by (by left).
  unfold sc_step, connector_handler. rewrite bool_decide_eq_true_2 by done. unfold report_error.
  assert (Err : exists w', sc_apply w (w_io w) (w_in w) (w_consumed w) (w_out w)
      (w_cl w, [Report BSOCKSCLIENT_EVENT_ERROR]) = Some w' /\ sc_inv auth dest w').
  { rewrite Hio. destruct (apply_failure w (w_cl w) IoNone (w_in w) (w_consumed w) (w_out w) BSOCKSCLIENT_EVENT_ERROR) as (w' & E & I & _);
      [done|by rewrite Hs|done..|by left|]. by exists w'. }
  destruct err; [exact Err|]. destruct ok; [cbn [negb]|exact Err].
  assert (Err1 : exists w', sc_apply w (w_io w) (w_in w) (w_consumed w) (w_out w)
      (w_cl w, [Connection_Init; init_control_io; free_control_io; Connection_Free; Report BSOCKSCLIENT_EVENT_ERROR])
      = Some w' /\ sc_inv auth dest w').
  { rewrite Hio in *. exact Err. }
  destruct ((Z.of_nat (length auth) =? 0) || (Z.of_nat (length auth) >? 255)) eqn:B; [exact Err1|].
  zbool. rewrite hello_size by lia.
  destruct (reserve_cases (w_cl w) (bsize_fromsize (2 + Z.of_nat (length auth))) eq_refl Hw)
    as [-> |(b & -> & Hl)]; cbn [mbind option_bind]; [exact Err1|]. simpl in Hl. rewrite u8_small by lia. unfold hton8.
  destruct (poke_append (set_buffer (w_cl w) (Block b)) b 0 [SOCKS_VERSION; Z.of_nat (length auth)] [])
    as (b1 & -> & L1 & P1); [done..|rewrite !blen_cons, blen_nil; lia|]. cbn [mbind option_bind].
  rewrite set_buffer_twice.
  destruct (write_methods_ok auth (set_buffer (w_cl w) (Block b1)) b1 0 _ eq_refl P1)
    as (b2 & -> & L2 & P2); [lia|lia|]. cbn [mbind option_bind].
  assert (b2 = hello auth) as ->.
  { rewrite btake_blen in P2 by lia. exact P2. }
  assert (Lh : 2 + Z.of_nat (length auth) = blen (hello auth)) by lia.
  rewrite set_buffer_twice. cbn [bs_value bsize_fromsize]. rewrite Lh.
  destruct (apply_send w (set_buffer (w_cl w) (Block (hello auth))) (w_in w) (w_consumed w) (w_out w) (hello auth)
              STATE_SENDING_HELLO eq_refl) as (w' & E & Hcl & Hse & Hcon & Hout & Hev & Hfr & _); [unfold INT_MAX; lia|].
  exists w'. cbn [mbind option_bind]. split; [rewrite Hio, apply_connected; exact E|]. split; [by rewrite Hcl|]. rewrite Hfr. unfold state_ok.
  rewrite Hcl. simpl. by rewrite Hcon, Hout, Hev.
Qed.

(** Receiving begins after a message was sent. *)
Lemma receive_reply_ok w o input consumed out size total s :
  is_overflow size = false -> 0 < total -> owned (sc_buffer o) ->
  sc_dest_addr o = dest -> w_events w = [] -> sc_st o <> STATE_CONNECTING -> sc_st o <> STATE_UP ->
  exists r w', receive_reply BRealloc o size total s = Some r
    /\ sc_apply w (IoControl None None) input consumed out r = Some w'
    /\ (sc_inv auth dest w' /\ w_freed w' = true
        \/ exists b, w_cl w' = set_state (set_recv (set_buffer o (Block b)) 0 0 total) s
             /\ receiving w' b 0 total (bs_value size)
             /\ w_consumed w' = consumed /\ w_out w' = out /\ w_events w' = [] /\ w_freed w' = false).
Proof.
  intros Hov Ht Hw Hd He H1 H2. unfold receive_reply.
  destruct (reserve_cases o size Hov Hw) as [-> |(b & -> & Hl)]; cbn [mbind option_bind].
  - destruct (apply_error w o None None input consumed out H1 H2 Hw Hd He) as (w' & E & I).
    eexists _, w'. split; [reflexivity|]. split; [exact E|]. by left.
  - unfold start_receive, do_receive. zbool. zdecide. simpl. zdecide. simpl. rewrite Z.sub_0_r.
    destruct (apply_recv w (set_state (set_recv (set_buffer o (Block b)) 0 0 total) s) input consumed out 0 total Ht)
      as (w' & E & Hcl & Hio & Hcon & Hout & Hev & Hfr & _).
    eexists _, w'. split; [reflexivity|]. split; [exact E|]. right. exists b.
    rewrite Hev, He. unfold receiving. rewrite Hcl, Hio. simpl. rewrite Z.sub_0_r. split_and!; done.
Qed.

Lemma sent_bytes w d rest : sending w d -> sc_step BRealloc auth w SendDone = rest ->
  (r ← send_handler_done BRealloc (w_cl w);
   sc_apply w (IoControl None None) (w_in w) (w_consumed w) (w_out w ++ d) r) = rest.
Proof.
  intros [Hio Hb] <-. unfold sc_step. rewrite Hio, Hb. cbn [contents Block buf_set buf_block mbind option_bind].
  rewrite mem_read_in by (pose proof (blen_nonneg d); lia). rewrite bdrop_0, btake_all. done.
Qed.

Lemma sent_then_receive w d size total s : sending w d -> sc_dest_addr (w_cl w) = dest -> w_events w = [] ->
  sc_st (w_cl w) <> STATE_CONNECTING -> sc_st (w_cl w) <> STATE_UP ->
  send_handler_done BRealloc (w_cl w) = receive_reply BRealloc (w_cl w) size total s ->
  is_overflow size = false -> 0 < total ->
  exists w', sc_step BRealloc auth w SendDone = Some w'
    /\ (sc_inv auth dest w'
        \/ exists b, w_cl w' = set_state (set_recv (set_buffer (w_cl w) (Block b)) 0 0 total) s
             /\ receiving w' b 0 total (bs_value size)
             /\ w_consumed w' = w_consumed w /\ w_out w' = w_out w ++ d /\ w_events w' = [] /\ w_freed w' = false).
Proof.
  intros Se Hd He H1 H2 Hh Hov Ht. rewrite <- (sent_bytes w _ _ Se eq_refl), Hh.
  destruct (receive_reply_ok w (w_cl w) (w_in w) (w_consumed w) (w_out w ++ d) size total s Hov Ht (owned_block _ _ (proj2 Se)) Hd He H1 H2)
    as (r & w' & -> & E & X). exists w'. split; [exact E|]. destruct X as [[X _]|X]; eauto.
Qed.

Definition send_pending (i : io) : bool := match i with IoControl (Some _) _ => true | _ => false end.

Lemma receiving_not_sending w b d t s : receiving w b d t s -> send_pending (w_io w) = true -> False.
Proof. by intros (_ & _ & _ & _ & _ & ->). Qed.

Lemma step_send_done w : sc_inv auth dest w -> sc_allowed w SendDone = true ->
  exists w', sc_step BRealloc auth w SendDone = Some w' /\ sc_inv auth dest w'.
Proof.
  intros [Hd I] A. unfold sc_allowed in A. apply andb_true_iff in A as [Hf%negb_true_iff Hio].
  fold (send_pending (w_io w)) in Hio.
  rewrite Hf in I. unfold state_ok in I. destruct (sc_st (w_cl w)) eqn:Hs.
  - destruct I as (Hi & _). by rewrite Hi in Hio.
  - destruct I as (Se & Hc & Ho & He). edestruct (sent_then_receive w) as (w' & E & [X|(b & Hcl & R & Hcon & Hout & Hev & Hfr)]);
      [exact Se|done|done|congruence|congruence|unfold send_handler_done; rewrite Hs, (proj2 Se); reflexivity
      |done|done|by exists w'|].
    exists w'. split; [exact E|]. split; [by rewrite Hcl|]. rewrite Hfr. unfold state_ok. rewrite Hcl. simpl.
    exists b. rewrite Hcon, Hout, Hev, Hc, Ho. done.
  - destruct I as (b & R & _). by destruct (receiving_not_sending _ _ _ _ _ R Hio).
  - destruct I as (u & p & Fa & Po & Se & Hc & Ho & He). edestruct (sent_then_receive w) as (w' & E & [X|(b & Hcl & R & Hcon & Hout & Hev & Hfr)]);
      [exact Se|done|done|congruence|congruence|unfold send_handler_done; rewrite Hs, (proj2 Se); reflexivity
      |done|done|by exists w'|].
    exists w'. split; [exact E|]. split; [by rewrite Hcl|]. rewrite Hfr. unfold state_ok. rewrite Hcl. simpl.
    exists u, p, b. rewrite Hcon, Hout, Hev, Hc, Ho. done.
  - destruct I as (u & p & b & _ & _ & R & _). by destruct (receiving_not_sending _ _ _ _ _ R Hio).
  - destruct I as (Au & Se & He). edestruct (sent_then_receive w) as (w' & E & [X|(b & Hcl & R & Hcon & Hout & Hev & Hfr)]);
      [exact Se|done|done|congruence|congruence|unfold send_handler_done; rewrite Hs, (proj2 Se); reflexivity
      |done|done|by exists w'|].
    exists w'. split; [exact E|]. split; [by rewrite Hcl|]. rewrite Hfr. unfold state_ok. rewrite Hcl. simpl.
    eexists _, _, b. split; [exact Au|]. rewrite Hcon, Hout, Hev. split; [exact R|]. split; [by rewrite app_nil_r|done].
  - destruct I as (cs & co & b & _ & R & _). by destruct (receiving_not_sending _ _ _ _ _ R Hio).
  - destruct I as (cs & co & b & t & _ & R & _). by destruct (receiving_not_sending _ _ _ _ _ R Hio).
  - destruct I as (cs & co & r & _ & Hi & _). by rewrite Hi in Hio.
Qed.

(** Bytes arrive: where they go, and what the client does if it waits for more. *)
Lemma recv_bytes w b d total size n : receiving w b d total size -> w_events w = [] ->
  0 <= d -> d + total <= size -> sc_allowed w (Received n) = true ->
  let got := sc_recv_len (w_cl w) in
  exists b', blen b' = size /\ 0 < n <= total - got /\ w_freed w = false
    /\ btake (d + got + n) b' = btake (d + got) b ++ btake n (w_in w)
    /\ (forall r, sc_step BRealloc auth w (Received n) = r ->
        (r ← recv_handler_done BRealloc auth (set_buffer (w_cl w) (Block b')) n;
         sc_apply w (IoControl None None) (bdrop n (w_in w)) (w_consumed w ++ btake n (w_in w)) (w_out w) r) = r)
    /\ (got + n < total ->
        exists w', sc_step BRealloc auth w (Received n) = Some w'
          /\ w_cl w' = set_recv (set_buffer (w_cl w) (Block b')) d (got + n) total
          /\ receiving w' b' d total size /\ w_consumed w' = w_consumed w ++ btake n (w_in w)
          /\ w_out w' = w_out w /\ w_events w' = [] /\ w_freed w' = false).
Proof.
  intros (Hb & Hl & Hd & Ht & Hg & Hio) He Hd0 Hds A got. unfold sc_allowed in A.
  apply andb_true_iff in A as [Hf%negb_true_iff A]. rewrite Hio in A.
  apply andb_true_iff in A as [[A1%Z.ltb_lt A2%Z.leb_le]%andb_true_iff A3%Z.leb_le]. fold got in A2, Hio, Hg |- *.
  destruct (poke_append (w_cl w) b (d + got) (btake n (w_in w)) _ Hb eq_refl) as (b' & Ep & L & P);
    [lia|rewrite blen_btake; lia|]. rewrite blen_btake in P by lia.
  exists b'. split; [lia|]. split; [lia|]. split; [done|]. split; [exact P|].
  assert (St : sc_step BRealloc auth w (Received n)
    = (r ← recv_handler_done BRealloc auth (set_buffer (w_cl w) (Block b')) n;
       sc_apply w (IoControl None None) (bdrop n (w_in w)) (w_consumed w ++ btake n (w_in w)) (w_out w) r)).
  { unfold sc_step. rewrite Hio, Ep. done. }
  split; [by intros r <-|]. intros Hlt. rewrite St. unfold recv_handler_done.
  cbn [sc_recv_total sc_recv_len sc_recv_dest set_buffer set_recv]. fold got. rewrite Ht, Hd. zbool. zdecide.
  unfold do_receive. cbn [sc_recv_total sc_recv_len sc_recv_dest set_recv]. zdecide. cbn [mbind option_bind].
  edestruct (apply_recv w) as (w' & E & Hcl & Hio' & Hcon & Hout & Hev & Hfr & _);
    [|exists w'; split; [exact E|]]; [lia|].
  rewrite Hev, He. split; [exact Hcl|]. split; [|done]. unfold receiving. rewrite Hcl, Hio'. simpl.
  split_and!; try done; lia.
Qed.

Lemma find_auth_type l m a : find_auth l m = Some a -> auth_type a = m.
Proof.
  unfold find_auth. intros H. apply head_Some_elem_of in H. by apply list_elem_of_filter in H as [? _].
Qed.

(** The whole of what the client waits for has arrived. *)
Lemma recv_complete w b d total size n b' : receiving w b d total size -> sc_recv_len (w_cl w) + n = total -> 0 < n ->
  exists o, set_recv (set_buffer (w_cl w) (Block b')) d total total = o
    /\ recv_handler_done BRealloc auth (set_buffer (w_cl w) (Block b')) n
       = recv_handler_done BRealloc auth o 0.
Proof.
  intros (Hb & Hl & Hd & Ht & Hg & Hio) Hn Hp. eexists. split; [reflexivity|].
  unfold recv_handler_done. cbn [sc_recv_total sc_recv_len sc_recv_dest set_buffer set_recv].
  rewrite Ht, Hd, Hn, Z.add_0_r. zbool. zdecide. done.
Qed.

Lemma two_bytes b : blen b = 2 -> exists x y, b = [x; y].
Proof. unfold blen. destruct b as [|x [|y [|]]]; simpl; try lia. eauto. Qed.

Lemma step_hello w n : sc_dest_addr (w_cl w) = dest -> sc_st (w_cl w) = STATE_SENT_HELLO -> w_freed w = false ->
  state_ok auth dest w -> sc_allowed w (Received n) = true ->
  exists w', sc_step BRealloc auth w (Received n) = Some w' /\ sc_inv auth dest w'.
Proof.
  intros Hd Hs Hf I A. unfold state_ok in I. rewrite Hs in I. destruct I as (b & R & Hc & Ho & He).
  destruct (recv_bytes w b 0 2 2 n R He) as (b' & Hl & Hn & _ & P & St & More); [lia|lia|done|].
  rewrite ?Z.add_0_l in P.
  destruct (Z_lt_ge_dec (sc_recv_len (w_cl w) + n) 2) as [Hlt|Hge].
  - destruct (More Hlt) as (w' & E & Hcl & R' & Hcon & Hout & Hev & Hfr). exists w'. split; [done|].
    split; [by rewrite Hcl|]. rewrite Hfr. unfold state_ok. rewrite Hcl. simpl. rewrite Hs. exists b'.
    rewrite Hcon, Hout, Hev, Hc, Ho. split; [done|]. split; [by rewrite P|done].
  - rewrite <- (St _ eq_refl). destruct (recv_complete w b 0 2 2 n b' R) as (o & Eo & ->); [lia|lia|].
    assert (Hi : w_consumed w ++ btake n (w_in w) = b').
    { rewrite Hc. rewrite <- P. apply btake_blen. lia. }
    rewrite Hi, Ho. destruct (two_bytes b' Hl) as (x & y & ->).
    assert (Hso : sc_st o = STATE_SENT_HELLO) by by rewrite <- Eo.
    assert (Hdo : sc_dest_addr o = dest) by by rewrite <- Eo.
    assert (Hw : owned (sc_buffer o)) by (apply (owned_block _ [x; y]); by rewrite <- Eo).
    assert (Err : exists w', sc_apply w (IoControl None None) (bdrop n (w_in w)) [x; y] (hello auth)
      (o, [Report BSOCKSCLIENT_EVENT_ERROR]) = Some w' /\ sc_inv auth dest w').
    { destruct (apply_error w o None None (bdrop n (w_in w)) [x; y] (hello auth)) as (w' & E & I & _); try done; try congruence. by exists w'. }
    assert (Hrd : recv_handler_done BRealloc auth o 0
      = (if negb (x =? SOCKS_VERSION) then Some (o, [Report BSOCKSCLIENT_EVENT_ERROR]) else
         match find_auth auth y with
         | None => Some (o, [Report BSOCKSCLIENT_EVENT_ERROR])
         | Some auth_none => auth_finished BRealloc o
         | Some (auth_password u p) => send_password BRealloc o u p
         end)) by (subst o; unfold recv_handler_done; simpl; rewrite Hs; done).
    rewrite Hrd. destruct (Z.eqb_spec x SOCKS_VERSION) as [->|]; [simpl|exact Err].
    destruct (find_auth auth y) as [[|u p]|] eqn:Fa; [| |exact Err]; pose proof (find_auth_type _ _ _ Fa) as <-.
    + destruct (auth_finished_ok w o (bdrop n (w_in w)) [SOCKS_VERSION; auth_type auth_none] (hello auth))
        as (r & w' & -> & E & I'); [done|done|done|congruence|congruence|by apply authed_none|]. by exists w'.
    + destruct (send_password_ok w o (bdrop n (w_in w)) u p) as (r & w' & -> & E & I');
        [done|done|done|congruence|congruence|done|]. by exists w'.
Qed.

Lemma step_password w n : sc_dest_addr (w_cl w) = dest -> sc_st (w_cl w) = STATE_SENT_PASSWORD -> w_freed w = false ->
  state_ok auth dest w -> sc_allowed w (Received n) = true ->
  exists w', sc_step BRealloc auth w (Received n) = Some w' /\ sc_inv auth dest w'.
Proof.
  intros Hd Hs Hf I A. unfold state_ok in I. rewrite Hs in I. destruct I as (u & p & b & Fa & Po & R & Hc & Ho & He).
  destruct (recv_bytes w b 0 2 2 n R He) as (b' & Hl & Hn & _ & P & St & More); [lia|lia|done|].
  rewrite ?Z.add_0_l in P.
  destruct (Z_lt_ge_dec (sc_recv_len (w_cl w) + n) 2) as [Hlt|Hge].
  - destruct (More Hlt) as (w' & E & Hcl & R' & Hcon & Hout & Hev & Hfr). exists w'. split; [done|].
    split; [by rewrite Hcl|]. rewrite Hfr. unfold state_ok. rewrite Hcl. simpl. rewrite Hs. exists u, p, b'.
    rewrite Hcon, Hout, Hev, Hc, Ho. split_and!; try done. rewrite <- app_assoc. f_equal. by rewrite P.
  - rewrite <- (St _ eq_refl). destruct (recv_complete w b 0 2 2 n b' R) as (o & Eo & ->); [lia|lia|].
    assert (Hi : w_consumed w ++ btake n (w_in w) = [SOCKS_VERSION; SOCKS_METHOD_USERNAME_PASSWORD] ++ b').
    { rewrite Hc, <- app_assoc. f_equal. rewrite <- P. apply btake_blen. lia. }
    rewrite Hi, Ho. destruct (two_bytes b' Hl) as (x & y & ->).
    assert (Hso : sc_st o = STATE_SENT_PASSWORD) by by rewrite <- Eo.
    assert (Hdo : sc_dest_addr o = dest) by by rewrite <- Eo.
    assert (Hw : owned (sc_buffer o)) by (eapply owned_block; by rewrite <- Eo).
    assert (Err : forall c out, exists w', sc_apply w (IoControl None None) (bdrop n (w_in w)) c out
      (o, [Report BSOCKSCLIENT_EVENT_ERROR]) = Some w' /\ sc_inv auth dest w').
    { intros c out. destruct (apply_error w o None None (bdrop n (w_in w)) c out) as (w' & E & I & _); try done; try congruence. by exists w'. }
    assert (Hrd : recv_handler_done BRealloc auth o 0
      = (if negb (x =? 1) then Some (o, [Report BSOCKSCLIENT_EVENT_ERROR]) else
         if negb (y =? 0) then Some (o, [Report BSOCKSCLIENT_EVENT_ERROR]) else auth_finished BRealloc o))
      by (subst o; unfold recv_handler_done; simpl; rewrite Hs; done).
    rewrite Hrd. destruct (Z.eqb_spec x 1) as [->|]; [simpl|apply Err].
    destruct (Z.eqb_spec y 0) as [->|]; [simpl|apply Err].
    edestruct (auth_finished_ok w o (bdrop n (w_in w))) as (r & w' & -> & E & I');
      [done|done|done|congruence|congruence|by apply authed_password|]. by exists w'.
Qed.

Lemma four_bytes b : 4 <= blen b -> exists x y z t r, b = x :: y :: z :: t :: r.
Proof. unfold blen. destruct b as [|x [|y [|z [|t r]]]]; simpl; try lia. intros _. by exists x, y, z, t, r. Qed.

Lemma step_reply_header w n : sc_dest_addr (w_cl w) = dest -> sc_st (w_cl w) = STATE_SENT_REQUEST -> w_freed w = false ->
  state_ok auth dest w -> sc_allowed w (Received n) = true ->
  exists w', sc_step BRealloc auth w (Received n) = Some w' /\ sc_inv auth dest w'.
Proof.
  intros Hd Hs Hf I A. unfold state_ok in I. rewrite Hs in I. destruct I as (cs & co & b & Au & R & Hc & Ho & He).
  destruct (recv_bytes w b 0 4 22 n R He) as (b' & Hl & Hn & _ & P & St & More); [lia|lia|done|].
  rewrite ?Z.add_0_l in P. destruct (Z_lt_ge_dec (sc_recv_len (w_cl w) + n) 4) as [Hlt|Hge].
  - destruct (More Hlt) as (w' & E & Hcl & R' & Hcon & Hout & Hev & Hfr). exists w'. split; [done|].
    split; [by rewrite Hcl|]. rewrite Hfr. unfold state_ok. rewrite Hcl. simpl. rewrite Hs. exists cs, co, b'.
    rewrite Hcon, Hout, Hev, Hc, Ho. split_and!; try done. rewrite <- app_assoc. f_equal. by rewrite P.
  - rewrite <- (St _ eq_refl). destruct (recv_complete w b 0 4 22 n b' R) as (o & Eo & ->); [lia|lia|].
    replace (sc_recv_len (w_cl w) + n) with 4 in P by lia.
    assert (Hi : w_consumed w ++ btake n (w_in w) = cs ++ btake 4 b') by by rewrite Hc, <- app_assoc, <- P.
    rewrite Hi, Ho. clear Hi P. destruct (four_bytes b') as (x & y & z & t & rest & ->); [lia|].
    assert (Hso : sc_st o = STATE_SENT_REQUEST) by by rewrite <- Eo.
    assert (Hdo : sc_dest_addr o = dest) by by rewrite <- Eo.
    assert (Hw : owned (sc_buffer o)) by (eapply owned_block; by rewrite <- Eo).
    assert (Err : forall c out, exists w', sc_apply w (IoControl None None) (bdrop n (w_in w)) c out
      (o, [Report BSOCKSCLIENT_EVENT_ERROR]) = Some w' /\ sc_inv auth dest w').
    { intros c out. destruct (apply_error w o None None (bdrop n (w_in w)) c out) as (w' & E & I & _); try done; try congruence. by exists w'. }
    assert (Hbo : sc_buffer o = Block (x :: y :: z :: t :: rest)) by by rewrite <- Eo.
    assert (Ht4 : sc_recv_total o = 4 /\ sc_recv_len o = 4) by by rewrite <- Eo.
    destruct Ht4 as [Ht4 Hl4]. clear Eo.
    pose (next addr_len := Some (set_state (set_recv o 4 0 addr_len) STATE_RECEIVED_REPLY_HEADER, [Recv 4 addr_len])).
    assert (Hrd : recv_handler_done BRealloc auth o 0
      = (if negb (x =? SOCKS_VERSION) then Some (o, [Report BSOCKSCLIENT_EVENT_ERROR]) else
         if negb (y =? SOCKS_REP_SUCCEEDED) then Some (o, [Report BSOCKSCLIENT_EVENT_ERROR]) else
         if t =? SOCKS_ATYP_IPV4 then next 6 else if t =? SOCKS_ATYP_IPV6 then next 18
         else Some (o, [Report BSOCKSCLIENT_EVENT_ERROR]))).
    { clear Err. destruct o as [oa ost ob od ol ot]. simpl in *. subst. unfold recv_handler_done. simpl.
      rewrite mem_read_in by (unfold sizeof_socks_reply_header; lia). done. }
    rewrite Hrd. destruct (Z.eqb_spec x SOCKS_VERSION) as [->|]; [simpl|apply Err].
    destruct (Z.eqb_spec y SOCKS_REP_SUCCEEDED) as [->|]; [simpl|apply Err].
    assert (Next : forall len, 0 < len -> (t = SOCKS_ATYP_IPV4 /\ len = 6 \/ t = SOCKS_ATYP_IPV6 /\ len = 18) ->
      exists w', (r ← next len; sc_apply w (IoControl None None) (bdrop n (w_in w))
        (cs ++ btake 4 (SOCKS_VERSION :: SOCKS_REP_SUCCEEDED :: z :: t :: rest)) (co ++ request dest) r) = Some w'
        /\ sc_inv auth dest w').
    { intros len Hlen Hty. unfold next. cbn [mbind option_bind].
      edestruct (apply_recv w) as (w' & E & Hcl & Hio & Hcon & Hout & Hev & Hfr & _);
        [exact Hlen|exists w'; split; [exact E|]].
      split; [by rewrite Hcl|]. rewrite Hfr. unfold state_ok. rewrite Hcl. simpl.
      exists cs, co, (SOCKS_VERSION :: SOCKS_REP_SUCCEEDED :: z :: t :: rest), len. rewrite Hcon, Hout, Hev. split; [exact Au|]. unfold receiving. rewrite Hcl, Hio. simpl.
      rewrite Z.sub_0_r. split_and!; try done; lia. }
    destruct (Z.eqb_spec t SOCKS_ATYP_IPV4); [apply Next; [lia|by left]|].
    destruct (Z.eqb_spec t SOCKS_ATYP_IPV6); [apply Next; [lia|by right]|apply Err].
Qed.

Lemma step_reply_rest w n : sc_dest_addr (w_cl w) = dest -> sc_st (w_cl w) = STATE_RECEIVED_REPLY_HEADER ->
  w_freed w = false -> state_ok auth dest w -> sc_allowed w (Received n) = true ->
  exists w', sc_step BRealloc auth w (Received n) = Some w' /\ sc_inv auth dest w'.
Proof.
  intros Hd Hs Hf I A. unfold state_ok in I. rewrite Hs in I. destruct I as (cs & co & b & tot & Au & R & Hh & Hc & Ho & He).
  assert (Htot : 0 < tot <= 18) by (destruct Hh as (_ & _ & [(_ & ->)|(_ & ->)]); by vm_compute).
  destruct (recv_bytes w b 4 tot 22 n R He) as (b' & Hl & Hn & _ & P & St & More); [lia|lia|done|].
  assert (Hh' : reply_header_ok b' tot /\ (exists z t r, b' = SOCKS_VERSION :: SOCKS_REP_SUCCEEDED :: z :: t :: r
     /\ (t = SOCKS_ATYP_IPV4 /\ tot = 6 \/ t = SOCKS_ATYP_IPV6 /\ tot = 18))).
  { destruct R as (_ & Hlb & _ & _ & Hg & _).
    assert (Hp : btake 4 b' = btake 4 b).
    { rewrite <- (btake_btake 4 (4 + sc_recv_len (w_cl w) + n) b') by lia. rewrite P.
      rewrite btake_app_le by (rewrite blen_btake; lia). apply btake_btake. lia. }
    destruct (four_bytes b) as (x & y & z & t & r & ->); [lia|].
    destruct (four_bytes b') as (x' & y' & z' & t' & r' & ->); [lia|].
    change (btake 4 (x :: y :: z :: t :: r)) with [x; y; z; t] in Hp.
    change (btake 4 (x' :: y' :: z' :: t' :: r')) with [x'; y'; z'; t'] in Hp.
    injection Hp as -> -> -> ->. split; [done|]. destruct Hh as (? & ? & ?). simpl in *. subst.
    by exists z, t, r'. }
  destruct Hh' as [Hh' (z & t & r & Eb & Hty)].
  destruct (Z_lt_ge_dec (sc_recv_len (w_cl w) + n) tot) as [Hlt|Hge].
  - destruct (More Hlt) as (w' & E & Hcl & R' & Hcon & Hout & Hev & Hfr). exists w'. split; [done|].
    split; [by rewrite Hcl|]. rewrite Hfr. unfold state_ok. rewrite Hcl. simpl. rewrite Hs. exists cs, co, b', tot.
    rewrite Hcon, Hout, Hev, Hc, Ho. split_and!; try done. rewrite <- app_assoc. f_equal.
    rewrite Z.add_assoc. by rewrite P.
  - rewrite <- (St _ eq_refl). destruct (recv_complete w b 4 tot 22 n b' R) as (o & Eo & ->); [lia|lia|].
    assert (Hi : w_consumed w ++ btake n (w_in w) = cs ++ btake (4 + tot) b').
    { rewrite Hc, <- app_assoc. f_equal. rewrite <- P. f_equal. lia. }
    rewrite Hi, Ho.
    assert (Hrd : recv_handler_done BRealloc auth o 0
      = Some (set_state (set_buffer o NULL) STATE_UP, [free_control_io; init_up_io; Report BSOCKSCLIENT_EVENT_UP])).
    { subst o. unfold recv_handler_done. simpl. rewrite Z.sub_diag, Z.add_0_r. simpl. rewrite Z.ltb_irrefl, Hs. done. }
    rewrite Hrd. unfold sc_apply. simpl. eexists. split; [reflexivity|].
    split; [simpl; by subst o|]. simpl. unfold state_ok. simpl.
    exists cs, co, (btake (4 + tot) b'). rewrite He. split_and!; try done.
    rewrite btake_plus by lia. rewrite Eb. change (btake 4 (_ :: _ :: z :: t :: r)) with [SOCKS_VERSION; SOCKS_REP_SUCCEEDED; z; t].
    exists z, t, (btake tot (bdrop 4 (SOCKS_VERSION :: SOCKS_REP_SUCCEEDED :: z :: t :: r))). split; [done|].
    rewrite blen_btake by (rewrite blen_bdrop; rewrite <- Eb; lia). exact Hty.
Qed.

Lemma step_received w n : sc_inv auth dest w -> sc_allowed w (Received n) = true ->
  exists w', sc_step BRealloc auth w (Received n) = Some w' /\ sc_inv auth dest w'.
Proof.
  intros [Hd I] A. pose proof A as A'. unfold sc_allowed in A'. apply andb_true_iff in A' as [Hf%negb_true_iff A'].
  rewrite Hf in I. destruct (sc_st (w_cl w)) eqn:Hs;
    eauto using step_hello, step_password, step_reply_header, step_reply_rest;
    unfold state_ok in I; rewrite Hs in I.
  - destruct I as (Hi & _). by rewrite Hi in A'.
  - destruct I as ((Hi & _) & _). by rewrite Hi in A'.
  - destruct I as (u & p & _ & _ & (Hi & _) & _). by rewrite Hi in A'.
  - destruct I as (_ & (Hi & _) & _). by rewrite Hi in A'.
  - destruct I as (cs & co & r & _ & Hi & _). by rewrite Hi in A'.
Qed.

Lemma step_conn_event w c : sc_inv auth dest w -> sc_allowed w (ConnEvent c) = true ->
  exists w', sc_step BRealloc auth w (ConnEvent c) = Some w' /\ sc_inv auth dest w'.
Proof.
  intros [Hd I] A. unfold sc_allowed in A. apply andb_true_iff in A as [Hf%negb_true_iff A].
  rewrite Hf in I. unfold sc_step, connection_handler. rewrite A.
  apply negb_true_iff, bool_decide_eq_false in A. unfold state_ok in I. unfold report_error.
  destruct (state_owned w I) as (Hw & Hm & _).
  assert (Hr : forall e, is_error_event e = true -> (w_events w = [] /\ e = BSOCKSCLIENT_EVENT_ERROR \/ w_events w = [BSOCKSCLIENT_EVENT_UP]) ->
    exists w', sc_apply w (w_io w) (w_in w) (w_consumed w) (w_out w) (w_cl w, [Report e]) = Some w' /\ sc_inv auth dest w').
  { intros e Hee He. destruct (apply_failure w (w_cl w) (w_io w) (w_in w) (w_consumed w) (w_out w) e Hee Hm Hw Hd He) as (w' & E & I' & _). by exists w'. }
  unfold state_ok in I. destruct (sc_st (w_cl w)) eqn:Hs; try done; cbn [bool_decide decide decide_rel andb]; cbn [mbind option_bind].
  all: try (apply Hr; [done|]; left; split; [|done]; decompose [ex and] I; done).
  destruct I as (cs & co & r & _ & _ & _ & _ & _ & _ & He). destruct c; apply Hr; try done; by right.
Qed.

Lemma step_user_free w : sc_inv auth dest w -> sc_allowed w UserFree = true ->
  exists w', sc_step BRealloc auth w UserFree = Some w' /\ sc_inv auth dest w'.
Proof.
  intros [Hd I] A. unfold sc_allowed in A. apply andb_true_iff in A as [Hf%negb_true_iff _]. rewrite Hf in I.
  destruct (state_owned w I) as (Hw & Hm & He). destruct (free_releases (w_cl w) (w_io w) Hm Hw) as (o' & Ef & Hb & Hd').
  unfold sc_step. rewrite Ef. cbn [mbind option_bind]. destruct (w_io w).
  all: eexists; (split; [reflexivity|]); split; [cbn; congruence|]; cbn; split; [done|]; split; [done|]; tauto.
Qed.

Lemma sc_step_ok w op : sc_inv auth dest w -> sc_allowed w op = true ->
  exists w', sc_step BRealloc auth w op = Some w' /\ sc_inv auth dest w'.
Proof. destruct op; eauto using step_connected, step_send_done, step_received, step_conn_event, step_user_free. Qed.

Lemma sc_run_ok w ops : sc_inv auth dest w -> exists w', sc_run BRealloc auth w ops = Some w' /\ sc_inv auth dest w'.
Proof.
  revert w. induction ops as [|op ops IH]; intros w I; simpl; [eauto|].
  destruct (sc_allowed w op) eqn:A; simpl; [|eauto].
  destruct (sc_step_ok w op I A) as (w1 & -> & I1). simpl. eauto.
Qed.
End Preservation.

(** * Theorems *)

(** The client after BSocksClient_Init, with a server that will send [input]. *)
Definition sc_start (o : BSocksClient) (input : bytes) : sc_world :=
  {| w_cl := o; w_io := IoNone; w_in := input; w_consumed := []; w_out := []; w_events := []; w_freed := false |}.

Lemma sc_start_inv auth dest server ok o input : BSocksClient_Init server auth dest ok = Some (Some o) ->
  sc_inv auth dest (sc_start o input).
Proof.
  unfold BSocksClient_Init. destruct (negb _); [|done]. destruct (_ || _); [|done]. destruct ok; [|done].
  intros H. injection H as <-. done.
Qed.

Section Theorems.
Context (BRealloc : option bytes -> Z -> option bytes) (auth : list auth_info) (dest server : BAddr).
Hypothesis BRealloc_size : forall b n m, BRealloc b n = Some m -> blen m = n.
Hypothesis dest_wf : BAddr_wf dest.
Hypothesis dest_ip : BAddr_is_ip dest = true.

(** C32. Whatever the server sends and however it is cut into pieces, whichever
    allocations fail, whenever the connection fails and whenever the user frees the
    client: no ASSERT of the client fails, no byte is written outside its buffer,
    the buffer is not used or freed again once it is freed, no operation is started
    while another one of its kind is in progress or on I/O that is not set up, and
    when the client is freed (by the user or after an error) the I/O, the
    connection, the connector and the buffer, all that it had set up, are released
    exactly once.  It reports at most one UP, before at most one error. *)
Theorem BSocksClient_safe o input ops : BSocksClient_Init server auth dest true = Some (Some o) ->
  exists w, sc_run BRealloc auth (sc_start o input) ops = Some w
    /\ (w_freed w = true -> w_io w = IoGone /\ buf_block (sc_buffer (w_cl w)) = None)
    /\ (w_events w = [] \/ w_events w = [BSOCKSCLIENT_EVENT_UP] \/ w_events w = [BSOCKSCLIENT_EVENT_ERROR]
        \/ exists e, is_error_event e = true /\ w_events w = [BSOCKSCLIENT_EVENT_UP; e]).
Proof.
  intros Hi. destruct (sc_run_ok BRealloc auth dest BRealloc_size dest_wf dest_ip _ ops (sc_start_inv auth dest server true o input Hi))
    as (w & E & Hd & I). exists w. split; [done|]. destruct (w_freed w).
  - by destruct I as (Hio & Hb & He).
  - split; [done|]. destruct (state_owned auth dest w I) as (_ & _ & He). tauto.
Qed.

(** C6. When the client reports UP, the handshake was the one of RFC 1928 and
    RFC 1929: it sent the hello with all methods offered, then the username and
    password of the first entry of the method if the server chose that method,
    then the CONNECT request for the destination, and nothing else; the server
    chose an offered method, accepted the password, and replied with success and
    a whole address; the next byte from the server is the first of the
    connection's data. *)
Theorem BSocksClient_handshake o input ops w : BSocksClient_Init server auth dest true = Some (Some o) ->
  sc_run BRealloc auth (sc_start o input) ops = Some w ->
  w_freed w = false -> sc_st (w_cl w) = STATE_UP ->
  exists cs co reply, authed auth cs co /\ reply_ok reply
    /\ w_consumed w = cs ++ reply /\ w_out w = co ++ request dest /\ w_io w = IoUp.
Proof.
  intros Hi E Hf Hu.
  destruct (sc_run_ok BRealloc auth dest BRealloc_size dest_wf dest_ip _ ops (sc_start_inv auth dest server true o input Hi))
    as (w' & E' & Hd & I). rewrite E in E'. injection E' as <-. rewrite Hf in I. unfold state_ok in I. rewrite Hu in I.
  destruct I as (cs & co & r & ? & ? & _ & ? & ? & ? & _). by exists cs, co, r.
Qed.
End Theorems.

Definition ex_realloc (b : option bytes) (n : Z) : option bytes :=
  if 0 <=? n then Some (replicate (Z.to_nat n) 0) else None.
Lemma ex_realloc_size b n m : ex_realloc b n = Some m -> blen m = n.
Proof.
  unfold ex_realloc. destruct (Z.leb_spec 0 n); [|done]. intros [= <-]. unfold blen. rewrite length_replicate. lia.
Qed.

Definition ex_auth : list auth_info := [auth_none; auth_password [97; 98] [99]].
Definition ex_dest : BAddr := BAddr_ipv4 16777343 20480.
Definition ex_server : BAddr := BAddr_ipv4 16777343 14340.
Definition ex_input : bytes := [5; 2; 1; 0; 5; 0; 0; 1; 0; 0; 0; 0; 0; 0; 42].
Definition ex_client : BSocksClient :=
  {| sc_dest_addr := ex_dest; sc_st := STATE_CONNECTING; sc_buffer := NULL;
     sc_recv_dest := 0; sc_recv_len := 0; sc_recv_total := 0 |}.
Definition ex_sc_ops : list sc_op :=
  [Connected false true; SendDone; Received 1; Received 1; SendDone; Received 2; SendDone; Received 3; Received 1;
   Received 5; Received 1].

Lemma BSocksClient_safe_witness :
  (exists w, sc_run ex_realloc ex_auth (sc_start ex_client ex_input) (ex_sc_ops ++ [ConnEvent true]) = Some w
     /\ w_events w = [BSOCKSCLIENT_EVENT_UP; BSOCKSCLIENT_EVENT_ERROR_CLOSED] /\ w_io w = IoGone /\ buf_block (sc_buffer (w_cl w)) = None)
  /\ exists w, sc_run ex_realloc ex_auth (sc_start ex_client ex_input) (take 4 ex_sc_ops ++ [UserFree]) = Some w
     /\ w_events w = [] /\ w_io w = IoGone /\ buf_block (sc_buffer (w_cl w)) = None.
Proof.
  split.
  - destruct (BSocksClient_safe ex_realloc ex_auth ex_dest ex_server ex_realloc_size
                ltac:(by vm_compute) ltac:(reflexivity) ex_client ex_input (ex_sc_ops ++ [ConnEvent true]) ltac:(reflexivity))
      as (w & E & Hf & _).
    vm_compute in E. injection E as <-. eexists. split; [vm_compute; reflexivity|]. split; [reflexivity|]. apply Hf. reflexivity.
  - destruct (BSocksClient_safe ex_realloc ex_auth ex_dest ex_server ex_realloc_size
                ltac:(by vm_compute) ltac:(reflexivity) ex_client ex_input (take 4 ex_sc_ops ++ [UserFree]) ltac:(reflexivity))
      as (w & E & Hf & _).
    vm_compute in E. injection E as <-. eexists. split; [vm_compute; reflexivity|]. split; [reflexivity|]. apply Hf. reflexivity.
Defined.

(** The password of the second entry is used, and the byte after the reply is
    left for the connection's user. *)
Lemma BSocksClient_handshake_witness :
  exists w, sc_run ex_realloc ex_auth (sc_start ex_client ex_input) ex_sc_ops = Some w
    /\ w_in w = [42] /\ w_out w = [5; 2; 0; 2; 1; 2; 97; 98; 1; 99; 5; 1; 0; 1; 127; 0; 0; 1; 0; 80]
    /\ exists cs co reply, authed ex_auth cs co /\ reply_ok reply
        /\ w_consumed w = cs ++ reply /\ w_out w = co ++ request ex_dest /\ w_io w = IoUp.
Proof.
  eexists. split; [vm_compute; reflexivity|]. split; [reflexivity|]. split; [reflexivity|].
  eapply (BSocksClient_handshake ex_realloc ex_auth ex_dest ex_server ex_realloc_size
            ltac:(by vm_compute) ltac:(reflexivity) ex_client ex_input ex_sc_ops);
    [reflexivity|vm_compute; reflexivity|reflexivity|reflexivity].
Defined.
