(* ===== verification/Options.v ===== *)
(** The command line of tun2socks: parse_arguments and process_arguments of
    tun2socks/tun2socks.c (the Android branches), BLogGlobal_GetChannelByName of
    base/BLog.h.

    [None] is a fault (an access outside argv or an array, a null pointer that is
    used); a function that returns 0 returns [Some None].  The table of log
    channels is generated by the build and a parameter.  Messages on stderr are
    left out. *)

From S2P Require Import Prelude ByteOrder BAddr ParseNumber IpAddr IpAddr6 CString AddrText ReadFile BSocksClient.
From Stdlib Require Import Ascii String.
#[local] Abbreviation length := Datatypes.length.
#[local] Abbreviation concat := List.concat.
Open Scope Z_scope.

Definition LOGGER_STDOUT : Z := 1.
Definition LOGGER_SYSLOG : Z := 2.
Definition BLOG_NUM_CHANNELS : Z := 147.
Definition DEFAULT_UDPGW_MAX_CONNECTIONS : Z := 256.
Definition DEFAULT_UDPGW_CONNECTION_BUFFER_SIZE : Z := 8.

(** struct options, the Android members; a null pointer is [None]. *)
Record options := {
  opt_help : bool;
  opt_version : bool;
  opt_logger : Z;
  opt_logger_syslog_facility : bytes;
  opt_logger_syslog_ident : bytes;
  opt_loglevel : Z;
  opt_loglevels : list Z;
  opt_netif_ipaddr : option bytes;
  opt_netif_netmask : option bytes;
  opt_netif_ip6addr : option bytes;
  opt_socks_server_addr : option bytes;
  opt_username : option bytes;
  opt_password : option bytes;
  opt_password_file : option bytes;
  opt_append_source_to_username : bool;
  opt_udpgw_remote_server_addr : option bytes;
  opt_udpgw_max_connections : Z;
  opt_udpgw_connection_buffer_size : Z;
  opt_udpgw_transparent_dns : bool;
  opt_tun_mtu : Z;
  opt_fake_proc : bool;
  opt_sock_path : option bytes;
  opt_pid : option bytes;
  opt_dnsgw : option bytes }.

(** An assignment to a member is the record with that member replaced. *)
Definition options_members (o : options) : options :=
  {| opt_help := opt_help o; opt_version := opt_version o; opt_logger := opt_logger o;
     opt_logger_syslog_facility := opt_logger_syslog_facility o; opt_logger_syslog_ident := opt_logger_syslog_ident o;
     opt_loglevel := opt_loglevel o; opt_loglevels := opt_loglevels o; opt_netif_ipaddr := opt_netif_ipaddr o;
     opt_netif_netmask := opt_netif_netmask o; opt_netif_ip6addr := opt_netif_ip6addr o;
     opt_socks_server_addr := opt_socks_server_addr o; opt_username := opt_username o; opt_password := opt_password o;
     opt_password_file := opt_password_file o; opt_append_source_to_username := opt_append_source_to_username o;
     opt_udpgw_remote_server_addr := opt_udpgw_remote_server_addr o; opt_udpgw_max_connections := opt_udpgw_max_connections o;
     opt_udpgw_connection_buffer_size := opt_udpgw_connection_buffer_size o; opt_udpgw_transparent_dns := opt_udpgw_transparent_dns o;
     opt_tun_mtu := opt_tun_mtu o; opt_fake_proc := opt_fake_proc o; opt_sock_path := opt_sock_path o; opt_pid := opt_pid o;
     opt_dnsgw := opt_dnsgw o |}.
Ltac assign o p v :=
  let e := eval cbv beta delta [options_members] in (options_members o) in
  match eval pattern p in e with ?f _ => let r := eval cbv beta in (f v) in exact r end.

Definition set_help (v : bool) (o : options) : options := ltac:(assign o (opt_help o) v).
Definition set_version (v : bool) (o : options) : options := ltac:(assign o (opt_version o) v).
Definition set_logger (v : Z) (o : options) : options := ltac:(assign o (opt_logger o) v).
Definition set_logger_syslog_facility (v : bytes) (o : options) : options := ltac:(assign o (opt_logger_syslog_facility o) v).
Definition set_logger_syslog_ident (v : bytes) (o : options) : options := ltac:(assign o (opt_logger_syslog_ident o) v).
Definition set_loglevel (v : Z) (o : options) : options := ltac:(assign o (opt_loglevel o) v).
Definition set_loglevels (v : list Z) (o : options) : options := ltac:(assign o (opt_loglevels o) v).
Definition set_netif_ipaddr (v : bytes) (o : options) : options := ltac:(assign o (opt_netif_ipaddr o) (Some v)).
Definition set_netif_netmask (v : bytes) (o : options) : options := ltac:(assign o (opt_netif_netmask o) (Some v)).
Definition set_netif_ip6addr (v : bytes) (o : options) : options := ltac:(assign o (opt_netif_ip6addr o) (Some v)).
Definition set_socks_server_addr (v : bytes) (o : options) : options := ltac:(assign o (opt_socks_server_addr o) (Some v)).
Definition set_username (v : bytes) (o : options) : options := ltac:(assign o (opt_username o) (Some v)).
Definition set_password (v : bytes) (o : options) : options := ltac:(assign o (opt_password o) (Some v)).
Definition set_password_file (v : bytes) (o : options) : options := ltac:(assign o (opt_password_file o) (Some v)).
Definition set_append_source_to_username (v : bool) (o : options) : options := ltac:(assign o (opt_append_source_to_username o) v).
Definition set_udpgw_remote_server_addr (v : bytes) (o : options) : options := ltac:(assign o (opt_udpgw_remote_server_addr o) (Some v)).
Definition set_udpgw_max_connections (v : Z) (o : options) : options := ltac:(assign o (opt_udpgw_max_connections o) v).
Definition set_tun_mtu (v : Z) (o : options) : options := ltac:(assign o (opt_tun_mtu o) v).
Definition set_fake_proc (v : bool) (o : options) : options := ltac:(assign o (opt_fake_proc o) v).
Definition set_sock_path (v : bytes) (o : options) : options := ltac:(assign o (opt_sock_path o) (Some v)).
Definition set_pid (v : bytes) (o : options) : options := ltac:(assign o (opt_pid o) (Some v)).
Definition set_dnsgw (v : bytes) (o : options) : options := ltac:(assign o (opt_dnsgw o) (Some v)).

(** argv[i]. *)
Definition arg_at (argv : list bytes) (i : Z) : option bytes := if i <? 0 then None else argv !! Z.to_nat i.

Section Parse.
Context (LONG_MAX : Z) (blog_channel_list : list bytes).

Fixpoint channel_from (i : Z) (names : list bytes) (channel_name : bytes) : Z :=
  match names with
  | [] => -1
  | name :: names => if strcmp_eq name channel_name then i else channel_from (i + 1) names channel_name
  end.
Definition BLogGlobal_GetChannelByName (channel_name : bytes) : Z := channel_from 0 blog_channel_list channel_name.

(** The assignments at the beginning of parse_arguments; options.dnsgw is not
    among them. *)
Definition default_options (o : options) (argv0 : bytes) : options :=
  {| opt_help := false; opt_version := false; opt_logger := LOGGER_STDOUT;
     opt_logger_syslog_facility := cstr "daemon"; opt_logger_syslog_ident := argv0;
     opt_loglevel := -1; opt_loglevels := repeat (-1) (Z.to_nat BLOG_NUM_CHANNELS);
     opt_netif_ipaddr := None; opt_netif_netmask := None; opt_netif_ip6addr := None; opt_socks_server_addr := None;
     opt_username := None; opt_password := None; opt_password_file := None; opt_append_source_to_username := false;
     opt_udpgw_remote_server_addr := None; opt_udpgw_max_connections := DEFAULT_UDPGW_MAX_CONNECTIONS;
     opt_udpgw_connection_buffer_size := DEFAULT_UDPGW_CONNECTION_BUFFER_SIZE; opt_udpgw_transparent_dns := false;
     opt_tun_mtu := 1500; opt_fake_proc := false; opt_sock_path := None; opt_pid := None; opt_dnsgw := opt_dnsgw o |}.

(** The body of the loop over argv: the options and the index after it, [None] for
    return 0. *)
Definition parse_option (argc : Z) (argv : list bytes) (i : Z) (o : options) : option (option (options * Z)) :=
  arg ← arg_at argv i;
  let one (k : bytes -> option (option (options * Z))) :=
    if 1 >=? argc - i then Some None else arg2 ← arg_at argv (i + 1); k arg2 in
  let string (set : bytes -> options -> options) := one (fun arg2 => Some (Some (set arg2 o, i + 1))) in
  let positive (set : Z -> options -> options) :=
    one (fun arg2 => let n := atoi LONG_MAX arg2 in if n <=? 0 then Some None else Some (Some (set n o, i + 1))) in
  if strcmp_eq arg (cstr "--help") then Some (Some (set_help true o, i))
  else if strcmp_eq arg (cstr "--version") then Some (Some (set_version true o, i))
  else if strcmp_eq arg (cstr "--logger") then
    one (fun arg2 =>
      if strcmp_eq arg2 (cstr "stdout") then Some (Some (set_logger LOGGER_STDOUT o, i + 1))
      else if strcmp_eq arg2 (cstr "syslog") then Some (Some (set_logger LOGGER_SYSLOG o, i + 1))
      else Some None)
  else if strcmp_eq arg (cstr "--syslog-facility") then string set_logger_syslog_facility
  else if strcmp_eq arg (cstr "--syslog-ident") then string set_logger_syslog_ident
  else if strcmp_eq arg (cstr "--loglevel") then
    one (fun arg2 => let l := parse_loglevel LONG_MAX arg2 in if l <? 0 then Some None else Some (Some (set_loglevel l o, i + 1)))
  else if strcmp_eq arg (cstr "--channel-loglevel") then
    if 2 >=? argc - i then Some None else
    arg2 ← arg_at argv (i + 1);
    let channel := BLogGlobal_GetChannelByName arg2 in
    if channel <? 0 then Some None else
    arg3 ← arg_at argv (i + 2);
    let loglevel := parse_loglevel LONG_MAX arg3 in
    if loglevel <? 0 then Some None else
    ASSERT channel <? Z.of_nat (length (opt_loglevels o));
    Some (Some (set_loglevels (<[Z.to_nat channel := loglevel]> (opt_loglevels o)) o, i + 2))
  else if strcmp_eq arg (cstr "--fake-proc") then Some (Some (set_fake_proc true o, i))
  else if strcmp_eq arg (cstr "--tunmtu") then positive set_tun_mtu
  else if strcmp_eq arg (cstr "--dnsgw") then string set_dnsgw
  else if strcmp_eq arg (cstr "--sock-path") then string set_sock_path
  else if strcmp_eq arg (cstr "--pid") then string set_pid
  else if strcmp_eq arg (cstr "--netif-ipaddr") then string set_netif_ipaddr
  else if strcmp_eq arg (cstr "--netif-netmask") then string set_netif_netmask
  else if strcmp_eq arg (cstr "--netif-ip6addr") then string set_netif_ip6addr
  else if strcmp_eq arg (cstr "--socks-server-addr") then string set_socks_server_addr
  else if strcmp_eq arg (cstr "--username") then string set_username
  else if strcmp_eq arg (cstr "--password") then string set_password
  else if strcmp_eq arg (cstr "--password-file") then string set_password_file
  else if strcmp_eq arg (cstr "--append-source-to-username") then Some (Some (set_append_source_to_username true o, i))
  else if strcmp_eq arg (cstr "--enable-udprelay") then Some (Some (set_udpgw_remote_server_addr (cstr "0.0.0.0:0") o, i))
  else if strcmp_eq arg (cstr "--udprelay-max-connections") then positive set_udpgw_max_connections
  else Some None.

Fixpoint parse_loop (fuel : nat) (argc : Z) (argv : list bytes) (i : Z) (o : options) : option (option options) :=
  if i <? argc then
    match fuel with
    | O => None
    | S fuel =>
        r ← parse_option argc argv i o;
        match r with
        | None => Some None
        | Some (o, i) => parse_loop fuel argc argv (i + 1) o
        end
    end
  else Some (Some o).

Definition given (p : option bytes) : bool := match p with Some _ => true | None => false end.

(** The tests at the end of parse_arguments. *)
Definition check_options (o : options) : bool :=
  if opt_help o || opt_version o then true else
  if negb (given (opt_netif_ipaddr o)) then false else
  if negb (given (opt_socks_server_addr o)) then false else
  if given (opt_username o) then
    if negb (given (opt_password o)) && negb (given (opt_password_file o)) then false else
    if given (opt_password o) && given (opt_password_file o) then false else true
  else true.

Definition parse_arguments (o : options) (argv : list bytes) : option (option options) :=
  let argc := Z.of_nat (length argv) in
  if argc <=? 0 then Some None else
  argv0 ← arg_at argv 0;
  r ← parse_loop (length argv) argc argv 1 (default_options o argv0);
  Some (match r with Some o => if check_options o then Some o else None | None => None end).
End Parse.

(** * The command line as a list of settings *)

Inductive flag := F_help | F_version | F_fake_proc | F_append_source_to_username | F_enable_udprelay.
Inductive text := T_syslog_facility | T_syslog_ident | T_dnsgw | T_sock_path | T_pid | T_netif_ipaddr | T_netif_netmask | T_netif_ip6addr
  | T_socks_server_addr | T_username | T_password | T_password_file.
Inductive number := N_tunmtu | N_udprelay_max_connections.

Inductive setting :=
| Flag (f : flag)
| Text (t : text) (value : bytes)
| Number (n : number) (value : bytes)
| Logger (syslog : bool)
| Loglevel (level : bytes)
| ChannelLoglevel (channel level : bytes).

Definition flag_name (f : flag) : bytes :=
  match f with
  | F_help => cstr "--help" | F_version => cstr "--version" | F_fake_proc => cstr "--fake-proc"
  | F_append_source_to_username => cstr "--append-source-to-username" | F_enable_udprelay => cstr "--enable-udprelay"
  end.
Definition text_name (t : text) : bytes :=
  match t with
  | T_syslog_facility => cstr "--syslog-facility" | T_syslog_ident => cstr "--syslog-ident" | T_dnsgw => cstr "--dnsgw"
  | T_sock_path => cstr "--sock-path" | T_pid => cstr "--pid" | T_netif_ipaddr => cstr "--netif-ipaddr"
  | T_netif_netmask => cstr "--netif-netmask" | T_netif_ip6addr => cstr "--netif-ip6addr"
  | T_socks_server_addr => cstr "--socks-server-addr" | T_username => cstr "--username" | T_password => cstr "--password"
  | T_password_file => cstr "--password-file"
  end.
Definition number_name (n : number) : bytes :=
  match n with N_tunmtu => cstr "--tunmtu" | N_udprelay_max_connections => cstr "--udprelay-max-connections" end.

(** The arguments that make up a setting. *)
Definition words (s : setting) : list bytes :=
  match s with
  | Flag f => [flag_name f]
  | Text t value => [text_name t; value]
  | Number n value => [number_name n; value]
  | Logger syslog => [cstr "--logger"; if syslog then cstr "syslog" else cstr "stdout"]
  | Loglevel level => [cstr "--loglevel"; level]
  | ChannelLoglevel channel level => [cstr "--channel-loglevel"; channel; level]
  end.

Section Settings.
Context (LONG_MAX : Z) (blog_channel_list : list bytes).

Abbreviation channel_of := (BLogGlobal_GetChannelByName blog_channel_list).

Definition valid (s : setting) : Prop :=
  match s with
  | Number _ value => 0 < atoi LONG_MAX value
  | Loglevel level => 0 <= parse_loglevel LONG_MAX level
  | ChannelLoglevel channel level => 0 <= channel_of channel /\ 0 <= parse_loglevel LONG_MAX level
  | _ => True
  end.

(** What a setting does to the options. *)
Definition effect (s : setting) (o : options) : options :=
  match s with
  | Flag F_help => set_help true o
  | Flag F_version => set_version true o
  | Flag F_fake_proc => set_fake_proc true o
  | Flag F_append_source_to_username => set_append_source_to_username true o
  | Flag F_enable_udprelay => set_udpgw_remote_server_addr (cstr "0.0.0.0:0") o
  | Text T_syslog_facility v => set_logger_syslog_facility v o
  | Text T_syslog_ident v => set_logger_syslog_ident v o
  | Text T_dnsgw v => set_dnsgw v o
  | Text T_sock_path v => set_sock_path v o
  | Text T_pid v => set_pid v o
  | Text T_netif_ipaddr v => set_netif_ipaddr v o
  | Text T_netif_netmask v => set_netif_netmask v o
  | Text T_netif_ip6addr v => set_netif_ip6addr v o
  | Text T_socks_server_addr v => set_socks_server_addr v o
  | Text T_username v => set_username v o
  | Text T_password v => set_password v o
  | Text T_password_file v => set_password_file v o
  | Number N_tunmtu v => set_tun_mtu (atoi LONG_MAX v) o
  | Number N_udprelay_max_connections v => set_udpgw_max_connections (atoi LONG_MAX v) o
  | Logger syslog => set_logger (if syslog then LOGGER_SYSLOG else LOGGER_STDOUT) o
  | Loglevel level => set_loglevel (parse_loglevel LONG_MAX level) o
  | ChannelLoglevel channel level =>
      set_loglevels (<[Z.to_nat (channel_of channel) := parse_loglevel LONG_MAX level]> (opt_loglevels o)) o
  end.

Definition settle (ss : list setting) (o : options) : options := fold_left (fun o s => effect s o) ss o.

(** What the members hold, whatever was set. *)
Record options_ok (o : options) : Prop := {
  ok_levels : length (opt_loglevels o) = Z.to_nat BLOG_NUM_CHANNELS;
  ok_level : Forall (fun l => -1 <= l <= 5) (opt_loglevel o :: opt_loglevels o);
  ok_logger : opt_logger o = LOGGER_STDOUT \/ opt_logger o = LOGGER_SYSLOG;
  ok_mtu : 1 <= opt_tun_mtu o <= INT_MAX;
  ok_max : 1 <= opt_udpgw_max_connections o <= INT_MAX;
  ok_relay : opt_udpgw_remote_server_addr o = None \/ opt_udpgw_remote_server_addr o = Some (cstr "0.0.0.0:0") }.

(** ** One setting *)

Context (channels_generated : Z.of_nat (length blog_channel_list) = BLOG_NUM_CHANNELS).

Lemma arg_at_app pre a rest k : Z.of_nat (length pre) = k -> arg_at (pre ++ a :: rest) k = Some a.
Proof.
  intros <-. unfold arg_at. rewrite (proj2 (Z.ltb_ge _ _)) by lia. rewrite Nat2Z.id. by apply list_lookup_middle.
Qed.

Lemma channel_from_range i names c : channel_from i names c = -1 \/ i <= channel_from i names c < i + Z.of_nat (length names).
Proof.
  revert i. induction names as [|n names IH]; intros i; simpl; [by left|]. destruct (strcmp_eq n c); [right; lia|].
  destruct (IH (i + 1)); [by left|right; lia].
Qed.

Lemma channel_of_range c : channel_of c = -1 \/ 0 <= channel_of c < BLOG_NUM_CHANNELS.
Proof. destruct (channel_from_range 0 blog_channel_list c); [by left|right]. unfold BLogGlobal_GetChannelByName. lia. Qed.

(** Comparisons of option names. *)
Ltac names :=
  repeat match goal with
  | |- context [strcmp_eq (cstr ?a) (cstr ?b)] =>
      let r := eval vm_compute in (strcmp_eq (cstr a) (cstr b)) in change (strcmp_eq (cstr a) (cstr b)) with r; cbv iota
  end.

Lemma more_words (pre : list bytes) (a b : bytes) rest : (1 >=? Z.of_nat (length (pre ++ a :: b :: rest)) - Z.of_nat (length pre)) = false.
Proof. apply geb_false. rewrite length_app. simpl. lia. Qed.

Lemma second_word (pre : list bytes) (a b : bytes) rest : arg_at (pre ++ a :: b :: rest) (Z.of_nat (length pre) + 1) = Some b.
Proof. replace (pre ++ a :: b :: rest) with ((pre ++ [a]) ++ b :: rest) by by rewrite <- app_assoc. apply arg_at_app. rewrite length_app. simpl. lia. Qed.

Ltac done_at := match goal with |- Some (Some (_, ?b)) = Some (Some (_, ?d)) => replace d with b by (simpl; lia); reflexivity end.

(** A setting on the command line is carried out. *)
Lemma parse_option_setting pre s rest o : valid s -> options_ok o ->
  parse_option LONG_MAX blog_channel_list (Z.of_nat (length (pre ++ words s ++ rest))) (pre ++ words s ++ rest) (Z.of_nat (length pre)) o
  = Some (Some (effect s o, Z.of_nat (length pre) + Z.of_nat (length (words s)) - 1)).
Proof.
  intros Hv Ho. unfold parse_option. destruct s as [f|t v|n v|l|l|c l]; cbn [words app length]; rewrite (arg_at_app pre _ _ (Z.of_nat (length pre)) eq_refl); cbn [mbind option_bind].
  - destruct f; cbn [flag_name]; names; done_at.
  - destruct t; cbn [text_name]; names; rewrite more_words, second_word; cbn [mbind option_bind]; done_at.
  - simpl in Hv. destruct n; cbn [number_name]; names; rewrite more_words, second_word; cbn [mbind option_bind];
      (rewrite (proj2 (Z.leb_gt _ _)) by lia); done_at.
  - names. rewrite more_words, second_word. cbn [mbind option_bind]. destruct l; names; done_at.
  - names. simpl in Hv. rewrite more_words, second_word. cbn [mbind option_bind]. rewrite (proj2 (Z.ltb_ge _ _)) by lia. done_at.
  - names. destruct Hv as [Hc Hl]. rewrite second_word.
    rewrite geb_false by (rewrite length_app; simpl; lia). cbn [mbind option_bind].
    rewrite (proj2 (Z.ltb_ge _ _)) by lia.
    replace (arg_at _ (Z.of_nat (length pre) + 2)) with (Some l).
    2: { symmetry. replace (pre ++ cstr "--channel-loglevel" :: c :: l :: rest) with ((pre ++ [cstr "--channel-loglevel"; c]) ++ l :: rest)
           by by rewrite <- app_assoc. apply arg_at_app. rewrite length_app. simpl. lia. }
    cbn [mbind option_bind]. rewrite (proj2 (Z.ltb_ge _ _)) by lia. rewrite (ok_levels _ Ho).
    destruct (channel_of_range c); [lia|]. rewrite (proj2 (Z.ltb_lt _ _)) by (unfold BLOG_NUM_CHANNELS in *; lia). done_at.
Qed.

Lemma last_word (pre : list bytes) (a : bytes) : (1 >=? Z.of_nat (length (pre ++ [a])) - Z.of_nat (length pre)) = true.
Proof. rewrite length_app. simpl. rewrite Z.geb_leb. apply Z.leb_le. lia. Qed.

Lemma strcmp_eq_true a b : strcmp_eq a b = true -> a = b.
Proof. apply bool_decide_eq_true_1. Qed.

(** What the body of the loop does on any arguments: no fault, and if it goes on,
    the arguments begin with a valid setting. *)
Definition takes_setting (pre : list bytes) (args : list bytes) (o : options) (r : option (option (options * Z))) : Prop :=
  r = Some None \/ exists s rest, args = words s ++ rest /\ valid s
    /\ r = Some (Some (effect s o, Z.of_nat (length pre) + Z.of_nat (length (words s)) - 1)).

Lemma takes s rest pre args o r i : args = words s ++ rest -> valid s -> i = Z.of_nat (length pre) + Z.of_nat (length (words s)) - 1 ->
  r = Some (Some (effect s o, i)) -> takes_setting pre args o r.
Proof. intros -> Hv -> ->. right. by exists s, rest. Qed.

Ltac flag f E := apply strcmp_eq_true in E as ->; eapply (takes (Flag f)); [reflexivity|done| |reflexivity]; simpl; lia.
Ltac text t E Hone := apply strcmp_eq_true in E as ->; apply Hone; intros b rest' ->;
  eapply (takes (Text t b) rest'); [reflexivity|done| |reflexivity]; simpl; lia.
Ltac number n E Hone := apply strcmp_eq_true in E as ->; apply Hone; intros b rest' ->;
  match goal with |- context [atoi ?m b <=? 0] => destruct (Z.leb_spec (atoi m b) 0); [by left|] end;
  eapply (takes (Number n b) rest'); [reflexivity|done| |reflexivity]; simpl; lia.
Ltac next E := match goal with |- takes_setting _ _ _ (if strcmp_eq ?a ?b then _ else _) => destruct (strcmp_eq a b) eqn:E end.

Lemma parse_option_inv pre a rest o : options_ok o ->
  takes_setting pre (a :: rest) o
    (parse_option LONG_MAX blog_channel_list (Z.of_nat (length (pre ++ a :: rest))) (pre ++ a :: rest) (Z.of_nat (length pre)) o).
Proof.
  intros Ho. unfold parse_option. rewrite (arg_at_app pre _ _ (Z.of_nat (length pre)) eq_refl). cbn [mbind option_bind]. cbv zeta.
  assert (Hone : forall k, (forall b rest', rest = b :: rest' -> takes_setting pre (a :: rest) o (k b)) ->
    takes_setting pre (a :: rest) o (if 1 >=? Z.of_nat (length (pre ++ a :: rest)) - Z.of_nat (length pre) then Some None
                                     else arg2 ← arg_at (pre ++ a :: rest) (Z.of_nat (length pre) + 1); k arg2)).
  { intros k Hk. destruct rest as [|b rest']; [rewrite last_word; by left|]. rewrite more_words, second_word. cbn [mbind option_bind]. by eapply Hk. }
  next E; [flag F_help E|]. clear E. next E; [flag F_version E|]. clear E. next E.
  { apply strcmp_eq_true in E as ->. apply Hone. intros b rest' ->. next E1; [|next E2; [|by left]].
    - apply strcmp_eq_true in E1 as ->. eapply (takes (Logger false) rest'); [reflexivity|done| |reflexivity]; simpl; lia.
    - apply strcmp_eq_true in E2 as ->. eapply (takes (Logger true) rest'); [reflexivity|done| |reflexivity]; simpl; lia. }
  clear E. next E; [text T_syslog_facility E Hone|]. clear E. next E; [text T_syslog_ident E Hone|]. clear E. next E.
  { apply strcmp_eq_true in E as ->. apply Hone. intros b rest' ->. destruct (Z.ltb_spec (parse_loglevel LONG_MAX b) 0); [by left|].
    eapply (takes (Loglevel b) rest'); [reflexivity|done| |reflexivity]; simpl; lia. }
  clear E. next E.
  { apply strcmp_eq_true in E as ->. destruct rest as [|b [|c rest']].
    1,2: left; replace (2 >=? _) with true by (rewrite length_app; simpl; rewrite Z.geb_leb; symmetry; apply Z.leb_le; lia); done.
    destruct (Z.ltb_spec (channel_of b) 0) as [Hc|Hc].
    { left. rewrite second_word, geb_false by (rewrite length_app; simpl; lia). cbn [mbind option_bind]. by rewrite (proj2 (Z.ltb_lt _ _) Hc). }
    destruct (Z.ltb_spec (parse_loglevel LONG_MAX c) 0) as [Hl|Hl].
    { left. rewrite second_word, geb_false by (rewrite length_app; simpl; lia). cbn [mbind option_bind]. rewrite (proj2 (Z.ltb_ge _ _) Hc).
      replace (pre ++ cstr "--channel-loglevel" :: b :: c :: rest') with ((pre ++ [cstr "--channel-loglevel"; b]) ++ c :: rest')
        by by rewrite <- app_assoc. rewrite arg_at_app by (rewrite length_app; simpl; lia). cbn [mbind option_bind]. by rewrite (proj2 (Z.ltb_lt _ _) Hl). }
    right. exists (ChannelLoglevel b c), rest'. split_and!; [done..|].
    rewrite <- (parse_option_setting pre (ChannelLoglevel b c) rest' o) by done. unfold parse_option.
    cbn [words app]. rewrite (arg_at_app pre _ _ (Z.of_nat (length pre)) eq_refl). cbn [mbind option_bind]. by names. }
  clear E. next E; [flag F_fake_proc E|]. clear E. next E; [number N_tunmtu E Hone|]. clear E. next E; [text T_dnsgw E Hone|].
  clear E. next E; [text T_sock_path E Hone|]. clear E. next E; [text T_pid E Hone|]. clear E. next E; [text T_netif_ipaddr E Hone|].
  clear E. next E; [text T_netif_netmask E Hone|]. clear E. next E; [text T_netif_ip6addr E Hone|]. clear E. next E; [text T_socks_server_addr E Hone|].
  clear E. next E; [text T_username E Hone|]. clear E. next E; [text T_password E Hone|]. clear E. next E; [text T_password_file E Hone|].
  clear E. next E; [flag F_append_source_to_username E|]. clear E. next E; [flag F_enable_udprelay E|].
  clear E. next E; [number N_udprelay_max_connections E Hone|]. by left.
Qed.

Lemma atoi_range s : atoi LONG_MAX s <= INT_MAX.
Proof. unfold atoi, s32, INT_MAX. pose proof (u32_range (strtol LONG_MAX s).1). destruct (Z.ltb_spec (u32 (strtol LONG_MAX s).1) 2147483648); lia. Qed.

Lemma effect_ok s o : valid s -> options_ok o -> options_ok (effect s o).
Proof.
  intros Hv [O1 O2 O3 O4 O5 O6]. destruct s as [f|t v|n v|l|l|c l]; simpl in Hv.
  - destruct f; split; try done. by right.
  - destruct t; by split.
  - pose proof (atoi_range v). destruct n; split; simpl; try done; lia.
  - split; try done. destruct l; [by right|by left].
  - pose proof (parse_loglevel_range LONG_MAX l). split; try done. simpl. apply Forall_cons_iff in O2 as [_ O2]. constructor; [lia|done].
  - pose proof (parse_loglevel_range LONG_MAX l). split; simpl; try done; [by rewrite length_insert|].
    apply Forall_cons_iff in O2 as [? O2]. constructor; [done|]. apply Forall_insert; [done|lia].
Qed.

Lemma default_options_ok o name : options_ok (default_options o name).
Proof.
  split; simpl; try done; [|by left|by left]. constructor; [done|]. by repeat constructor.
Qed.

Lemma settle_ok ss o : Forall valid ss -> options_ok o -> options_ok (settle ss o).
Proof. intros Hs. revert o. induction Hs as [|s ss Hs Hss IH]; intros o Ho; [done|]. simpl. apply IH. by apply effect_ok. Qed.

(** ** The loop *)

Lemma parse_loop_settings ss : forall pre fuel o, Forall valid ss -> options_ok o -> (length (concat (map words ss)) <= fuel)%nat ->
  parse_loop LONG_MAX blog_channel_list fuel (Z.of_nat (length (pre ++ concat (map words ss)))) (pre ++ concat (map words ss)) (Z.of_nat (length pre)) o
  = Some (Some (settle ss o)).
Proof.
  induction ss as [|s ss IH]; intros pre fuel o Hv Ho Hf.
  - cbn [map concat]. rewrite app_nil_r. destruct fuel; simpl; by rewrite Z.ltb_irrefl.
  - apply Forall_cons_iff in Hv as [Hs Hv]. cbn [map concat] in *. assert (1 <= length (words s))%nat by (destruct s; simpl; lia).
    rewrite length_app in Hf. destruct fuel as [|fuel]; [lia|]. cbn [parse_loop].
    rewrite (proj2 (Z.ltb_lt _ _)) by (rewrite !length_app; lia). rewrite parse_option_setting by done. cbn [mbind option_bind].
    replace (Z.of_nat (length pre) + Z.of_nat (length (words s)) - 1 + 1) with (Z.of_nat (length (pre ++ words s))) by (rewrite length_app; lia).
    rewrite (app_assoc pre). apply (IH (pre ++ words s)); [done|by apply effect_ok|lia].
Qed.

Lemma parse_loop_inv fuel : forall pre args o, options_ok o -> (length args <= fuel)%nat ->
  exists r, parse_loop LONG_MAX blog_channel_list fuel (Z.of_nat (length (pre ++ args))) (pre ++ args) (Z.of_nat (length pre)) o = Some r
    /\ match r with Some o' => exists ss, args = concat (map words ss) /\ Forall valid ss /\ o' = settle ss o | None => True end.
Proof.
  induction fuel as [|fuel IH]; intros pre args o Ho Hf.
  - destruct args as [|a args]; [|simpl in Hf; lia]. rewrite app_nil_r. simpl. rewrite Z.ltb_irrefl. eexists. split; [done|]. by exists [].
  - destruct args as [|a args]; [rewrite app_nil_r; cbn [parse_loop]; rewrite Z.ltb_irrefl; eexists; split; [done|]; by exists []|].
    cbn [parse_loop]. rewrite (proj2 (Z.ltb_lt _ _)) by (rewrite length_app; simpl; lia).
    destruct (parse_option_inv pre a args o Ho) as [->|(s & rest & E & Hv & ->)]; cbn [mbind option_bind]; [by exists None|].
    assert (1 <= length (words s))%nat by (destruct s; simpl; lia). assert (Hl : length (a :: args) = (length (words s) + length rest)%nat) by (by rewrite E, length_app).
    rewrite E, (app_assoc pre).
    replace (Z.of_nat (length pre) + Z.of_nat (length (words s)) - 1 + 1) with (Z.of_nat (length (pre ++ words s))) by (rewrite length_app; lia).
    destruct (IH (pre ++ words s) rest (effect s o)) as (r & Er & Hr); [by apply effect_ok|simpl in *; lia|]. rewrite Er. eexists. split; [done|].
    destruct r as [o'|]; [|done]. destruct Hr as (ss & -> & Hss & ->). exists (s :: ss). split_and!; [done|by constructor|done].
Qed.

Lemma parse_arguments_result o0 argv : exists r, parse_arguments LONG_MAX blog_channel_list o0 argv = Some r
  /\ forall o, r = Some o <-> exists name ss, argv = name :: concat (map words ss) /\ Forall valid ss
       /\ o = settle ss (default_options o0 name) /\ check_options o = true.
Proof.
  destruct argv as [|name args]; [exists None; split; [done|]; intros o; split; [done|]; by intros (? & ? & ? & _)|].
  assert (Hp : parse_arguments LONG_MAX blog_channel_list o0 (name :: args)
    = r ← parse_loop LONG_MAX blog_channel_list (length (name :: args)) (Z.of_nat (length ([name] ++ args))) ([name] ++ args) (Z.of_nat (length [name])) (default_options o0 name);
      Some (match r with Some o => if check_options o then Some o else None | None => None end)).
  { unfold parse_arguments. rewrite (proj2 (Z.leb_gt _ _)) by (simpl; lia). done. }
  destruct (parse_loop_inv (length (name :: args)) [name] args _ (default_options_ok o0 name) ltac:(simpl; lia)) as (r & Er & Hr).
  rewrite Hp, Er. cbn [mbind option_bind]. eexists. split; [done|]. intros o. split.
  - destruct r as [o'|]; [|done]. destruct (check_options o') eqn:Ec; [|done]. intros [= <-].
    destruct Hr as (ss & -> & Hv & ->). by exists name, ss.
  - intros (name' & ss & [= <- ->] & Hv & -> & Hc). rewrite (parse_loop_settings ss [name] _ _ Hv (default_options_ok _ _)) in Er by (simpl; lia).
    injection Er as <-. by rewrite Hc.
Qed.

(** C27. parse_arguments reads only the strings of argv, and accepts a command line
    exactly when it is the name of the program followed by valid settings that
    leave the options complete; the options are then the effects of the
    settings, in their order, on the defaults. *)
Theorem parse_arguments_grammar o0 argv :
  parse_arguments LONG_MAX blog_channel_list o0 argv <> None
  /\ forall o, parse_arguments LONG_MAX blog_channel_list o0 argv = Some (Some o)
       <-> exists name ss, argv = name :: concat (map words ss) /\ Forall valid ss
             /\ o = settle ss (default_options o0 name) /\ check_options o = true.
Proof.
  destruct (parse_arguments_result o0 argv) as (r & -> & Hr). split; [done|]. intros o. rewrite <- Hr. split; [by intros [= ->]|by intros ->].
Qed.

(** The values of accepted options are in the ranges that main relies on. *)
Lemma parse_arguments_ok o0 argv o : parse_arguments LONG_MAX blog_channel_list o0 argv = Some (Some o) -> options_ok o /\ check_options o = true.
Proof.
  destruct (parse_arguments_result o0 argv) as (r & -> & Hr). intros [= ->]. destruct (proj1 (Hr o) eq_refl) as (name & ss & _ & Hv & -> & Hc).
  split; [|done]. apply settle_ok; [done|apply default_options_ok].
Qed.
End Settings.

(** * process_arguments *)

(** The global variables it sets; [raw] is the contents of uninitialised local
    buffers. *)
Record globals := {
  netif_ipaddr : BIPAddr;
  netif_ip6addr : bytes;
  socks_server_addr : BAddr;
  socks_auth_info : list auth_info;
  udpgw_remote_server_addr : BAddr;
  dnsgw : BAddr;
  password_file_contents : option bytes }.

(** A statement that may return 0 from process_arguments: the globals, and whether
    to go on. *)
Definition and_then (x : option (globals * bool)) (k : globals -> option (globals * bool)) : option (globals * bool) :=
  '(g, go) ← x; if go : bool then k g else Some (g, false).

Section Process.
Context (LONG_MAX : Z) `{Resolver} (fs : file_system) (raw : Z -> bytes).

Definition resolve_netif_ipaddr (o : options) (g : globals) : option (globals * bool) :=
  str ← opt_netif_ipaddr o;
  r ← BIPAddr_Resolve (raw (BADDR_MAX_ADDR_LEN + 1)) str false;
  match r with
  | None => Some (g, false)
  | Some a =>
      let g := {| netif_ipaddr := a; netif_ip6addr := netif_ip6addr g; socks_server_addr := socks_server_addr g;
                  socks_auth_info := socks_auth_info g; udpgw_remote_server_addr := udpgw_remote_server_addr g; dnsgw := dnsgw g;
                  password_file_contents := password_file_contents g |} in
      Some (g, match a with BIPAddr_ipv4 _ => true | _ => false end)
  end.

Definition parse_netif_ip6addr (o : options) (g : globals) : option (globals * bool) :=
  match opt_netif_ip6addr o with
  | None => Some (g, true)
  | Some str =>
      r ← ipaddr6_parse_ipv6_addr str (netif_ip6addr g) (raw 4);
      match r with
      | None => Some (g, false)
      | Some a =>
          Some ({| netif_ipaddr := netif_ipaddr g; netif_ip6addr := a; socks_server_addr := socks_server_addr g;
                   socks_auth_info := socks_auth_info g; udpgw_remote_server_addr := udpgw_remote_server_addr g; dnsgw := dnsgw g;
                   password_file_contents := password_file_contents g |}, true)
      end
  end.

Definition resolve_socks_server_addr (o : options) (g : globals) : option (globals * bool) :=
  str ← opt_socks_server_addr o;
  r ← BAddr_Parse2 LONG_MAX (raw 128) (raw 6) str None false;
  match r with
  | None => Some (g, false)
  | Some (a, _) =>
      Some ({| netif_ipaddr := netif_ipaddr g; netif_ip6addr := netif_ip6addr g; socks_server_addr := a;
               socks_auth_info := socks_auth_info g; udpgw_remote_server_addr := udpgw_remote_server_addr g; dnsgw := dnsgw g;
               password_file_contents := password_file_contents g |}, true)
  end.

Definition add_socks_auth_info (o : options) (g : globals) : option (globals * bool) :=
  let with_auth (auth : list auth_info) (contents : option bytes) :=
    {| netif_ipaddr := netif_ipaddr g; netif_ip6addr := netif_ip6addr g; socks_server_addr := socks_server_addr g;
       socks_auth_info := auth; udpgw_remote_server_addr := udpgw_remote_server_addr g; dnsgw := dnsgw g;
       password_file_contents := contents |} in
  let none := [BSocksClient_auth_none] in
  match opt_username o with
  | None => Some (with_auth none (password_file_contents g), true)
  | Some username =>
      match opt_password o with
      | Some password => Some (with_auth (none ++ [BSocksClient_auth_password username password]) (password_file_contents g), true)
      | None =>
          file ← opt_password_file o;
          r ← read_file fs file;
          match r with
          | None => Some (with_auth none (password_file_contents g), false)
          | Some password => Some (with_auth (none ++ [BSocksClient_auth_password username password]) (Some password), true)
          end
      end
  end.

Definition resolve_udpgw_remote_server_addr (o : options) (g : globals) : option (globals * bool) :=
  match opt_udpgw_remote_server_addr o with
  | None => Some (g, true)
  | Some str =>
      r ← BAddr_Parse2 LONG_MAX (raw 128) (raw 6) str None false;
      match r with
      | None => Some (g, false)
      | Some (a, _) =>
          Some ({| netif_ipaddr := netif_ipaddr g; netif_ip6addr := netif_ip6addr g; socks_server_addr := socks_server_addr g;
                   socks_auth_info := socks_auth_info g; udpgw_remote_server_addr := a; dnsgw := dnsgw g;
                   password_file_contents := password_file_contents g |}, true)
      end
  end.

Definition resolve_dnsgw (o : options) (g : globals) : option (globals * bool) :=
  match opt_dnsgw o with
  | None => Some (g, true)
  | Some str =>
      r ← BAddr_Parse2 LONG_MAX (raw 128) (raw 6) str None false;
      match r with
      | None => Some (g, false)
      | Some (a, _) =>
          let g := {| netif_ipaddr := netif_ipaddr g; netif_ip6addr := netif_ip6addr g; socks_server_addr := socks_server_addr g;
                      socks_auth_info := socks_auth_info g; udpgw_remote_server_addr := udpgw_remote_server_addr g; dnsgw := a;
                      password_file_contents := password_file_contents g |} in
          Some (g, BAddr_type a =? BADDR_TYPE_IPV4)
      end
  end.

Definition process_arguments (o : options) (g : globals) : option (globals * bool) :=
  ASSERT negb (given (password_file_contents g));
  and_then (resolve_netif_ipaddr o g) (fun g =>
  and_then (parse_netif_ip6addr o g) (fun g =>
  and_then (resolve_socks_server_addr o g) (fun g =>
  and_then (add_socks_auth_info o g) (fun g =>
  and_then (resolve_udpgw_remote_server_addr o g) (fun g => resolve_dnsgw o g))))).

(** ** What a configured program has *)

(** The password for the user name, from the command line or the file. *)
Definition password_of (o : options) : option bytes :=
  match opt_password o with
  | Some password => Some password
  | None => file ← opt_password_file o; fopen fs file
  end.

Record configured (o : options) (g : globals) : Prop := {
  cf_netif : exists ip, netif_ipaddr g = BIPAddr_ipv4 ip /\ 0 <= ip < 4294967296;
  cf_ip6 : blen (netif_ip6addr g) = 16;
  cf_socks : BAddr_wf (socks_server_addr g) /\ BAddr_is_ip (socks_server_addr g) = true;
  cf_auth : match opt_username o with
            | None => socks_auth_info g = [BSocksClient_auth_none]
            | Some username => exists password, password_of o = Some password
                /\ socks_auth_info g = [BSocksClient_auth_none; BSocksClient_auth_password username password]
            end;
  cf_relay : given (opt_udpgw_remote_server_addr o) = true -> BAddr_wf (udpgw_remote_server_addr g) /\ BAddr_is_ip (udpgw_remote_server_addr g) = true;
  cf_dns : match opt_dnsgw o with
           | Some _ => exists ip port, dnsgw g = BAddr_ipv4 ip port /\ BAddr_wf (dnsgw g)
           | None => dnsgw g = BAddr_none
           end }.

(** The strings that are parsed, where they are given, end where they say, and
    the length of the one that is given to BIPAddr_Resolve is an int. *)
Record strings_ok (o : options) : Prop := {
  str_netif : forall str, opt_netif_ipaddr o = Some str -> no_nul str /\ blen str <= INT_MAX;
  str_socks : forall str, opt_socks_server_addr o = Some str -> no_nul str;
  str_relay : forall str, opt_udpgw_remote_server_addr o = Some str -> no_nul str;
  str_dns : forall str, opt_dnsgw o = Some str -> no_nul str }.

Context (raw_size : forall n, 0 <= n -> blen (raw n) = n).

Lemma parse2_total str : no_nul str ->
  exists r, BAddr_Parse2 LONG_MAX (raw 128) (raw 6) str None false = Some r
    /\ match r with Some (a, _) => BAddr_wf a /\ BAddr_is_ip a = true | None => True end.
Proof. intros Hn. apply parse2_safe; [done|by apply raw_size..]. Qed.

Lemma resolve_total str : no_nul str -> blen str <= INT_MAX ->
  exists r, BIPAddr_Resolve (raw (BADDR_MAX_ADDR_LEN + 1)) str false = Some r
    /\ match r with
       | Some (BIPAddr_ipv4 ip) => 0 <= ip < 4294967296
       | Some (BIPAddr_ipv6 ip) => length ip = 16%nat /\ is_bytes ip
       | Some BIPAddr_none => False
       | None => True
       end.
Proof. intros Hn Hl. pose proof (blen_nonneg str). apply resolve_safe; [done|rewrite s32_small; lia|]. by apply raw_size. Qed.

(** [runs x P]: the statement does not fault, and leaves globals with [P] if the
    function goes on. *)
Definition runs (x : option (globals * bool)) (P : globals -> Prop) : Prop := exists g go, x = Some (g, go) /\ (go = true -> P g).

Lemma runs_then x k P Q : runs x P -> (forall g, P g -> runs (k g) Q) -> runs (and_then x k) Q.
Proof.
  intros (g & go & -> & Hp) Hk. unfold and_then. cbn [mbind option_bind]. destruct go; [by apply Hk, Hp|]. by exists g, false.
Qed.

Lemma runs_stop (P : globals -> Prop) g : runs (Some (g, false)) P.
Proof. by exists g, false. Qed.

Lemma runs_go (P : globals -> Prop) g : P g -> runs (Some (g, true)) P.
Proof. intros HP. by exists g, true. Qed.

Lemma runs_if (P : globals -> Prop) g b : (b = true -> P g) -> runs (Some (g, b)) P.
Proof. intros HP. by exists g, b. Qed.

(** The statements that parse one socket address. *)
Lemma runs_parse2 str (k : option (BAddr * option bytes) -> option (globals * bool)) (P : globals -> Prop) : no_nul str -> runs (k None) P ->
  (forall a n, BAddr_wf a -> BAddr_is_ip a = true -> runs (k (Some (a, n))) P) ->
  runs (r ← BAddr_Parse2 LONG_MAX (raw 128) (raw 6) str None false; k r) P.
Proof.
  intros Hn H0 H1. destruct (parse2_total str Hn) as ([[a n]|] & -> & Hr); cbn [mbind option_bind]; [|done]. by apply H1; apply Hr.
Qed.

Lemma netif_ipaddr_runs o g str : opt_netif_ipaddr o = Some str -> no_nul str -> blen str <= INT_MAX ->
  runs (resolve_netif_ipaddr o g) (fun g' => (exists ip, netif_ipaddr g' = BIPAddr_ipv4 ip /\ 0 <= ip < 4294967296)
    /\ netif_ip6addr g' = netif_ip6addr g /\ password_file_contents g' = password_file_contents g /\ dnsgw g' = dnsgw g).
Proof.
  intros E Hn Hl. unfold resolve_netif_ipaddr. rewrite E. cbn [mbind option_bind].
  destruct (resolve_total str Hn Hl) as ([ip|] & -> & Hip); cbn [mbind option_bind]; [|apply runs_stop].
  apply runs_if. destruct ip as [|ip|ip]; [done| |done]. intros _. split; [by exists ip|done].
Qed.

Lemma netif_ip6addr_runs o g : blen (netif_ip6addr g) = 16 ->
  runs (parse_netif_ip6addr o g) (fun g' => blen (netif_ip6addr g') = 16
    /\ netif_ipaddr g' = netif_ipaddr g /\ password_file_contents g' = password_file_contents g /\ dnsgw g' = dnsgw g).
Proof.
  intros H16. unfold parse_netif_ip6addr. destruct (opt_netif_ip6addr o) as [str|]; [|by apply runs_go].
  destruct (ipv6_parse_total str (netif_ip6addr g) (raw 4) H16 ltac:(by apply raw_size)) as ([a|] & -> & Ha); cbn [mbind option_bind];
    [by apply runs_go|apply runs_stop].
Qed.

Lemma socks_server_runs o g str : opt_socks_server_addr o = Some str -> no_nul str ->
  runs (resolve_socks_server_addr o g) (fun g' => (BAddr_wf (socks_server_addr g') /\ BAddr_is_ip (socks_server_addr g') = true)
    /\ netif_ipaddr g' = netif_ipaddr g /\ netif_ip6addr g' = netif_ip6addr g /\ dnsgw g' = dnsgw g).
Proof.
  intros E Hn. unfold resolve_socks_server_addr. rewrite E. cbn [mbind option_bind].
  apply runs_parse2; [done|apply runs_stop|]. intros a n Hw Hi. by apply runs_go.
Qed.

Definition auth_ok (o : options) (g : globals) : Prop :=
  match opt_username o with
  | None => socks_auth_info g = [BSocksClient_auth_none]
  | Some username => exists password, password_of o = Some password
      /\ socks_auth_info g = [BSocksClient_auth_none; BSocksClient_auth_password username password]
  end.

Lemma socks_auth_runs o g : (given (opt_username o) = true -> given (opt_password o) || given (opt_password_file o) = true) ->
  runs (add_socks_auth_info o g) (fun g' => auth_ok o g'
    /\ netif_ipaddr g' = netif_ipaddr g /\ netif_ip6addr g' = netif_ip6addr g /\ socks_server_addr g' = socks_server_addr g /\ dnsgw g' = dnsgw g).
Proof.
  intros Hpw. unfold add_socks_auth_info, auth_ok, password_of. destruct (opt_username o) as [u|] eqn:Eu; [|by apply runs_go].
  destruct (opt_password o) as [p|] eqn:Ep.
  - apply runs_go. split; [|done]. by exists p.
  - specialize (Hpw eq_refl). destruct (opt_password_file o) as [f|]; [|done]. cbn [mbind option_bind].
    destruct (read_file_result fs f) as (r & -> & Hr). cbn [mbind option_bind]. destruct r as [p|]; [|apply runs_stop].
    apply runs_go. split; [|done]. exists p. split; [|done]. destruct (fopen fs f) as [c|]; [|done]. by destruct Hr as [[?|[= ->]] _].
Qed.

Lemma udpgw_server_runs o g : (forall str, opt_udpgw_remote_server_addr o = Some str -> no_nul str) ->
  runs (resolve_udpgw_remote_server_addr o g) (fun g' =>
    (given (opt_udpgw_remote_server_addr o) = true -> BAddr_wf (udpgw_remote_server_addr g') /\ BAddr_is_ip (udpgw_remote_server_addr g') = true)
    /\ netif_ipaddr g' = netif_ipaddr g /\ netif_ip6addr g' = netif_ip6addr g /\ socks_server_addr g' = socks_server_addr g
    /\ socks_auth_info g' = socks_auth_info g /\ dnsgw g' = dnsgw g).
Proof.
  intros Hn. unfold resolve_udpgw_remote_server_addr. destruct (opt_udpgw_remote_server_addr o) as [str|]; [|by apply runs_go].
  apply runs_parse2; [by apply Hn|apply runs_stop|]. intros a n Hw Hi. by apply runs_go.
Qed.

Lemma dnsgw_runs o g : (forall str, opt_dnsgw o = Some str -> no_nul str) -> dnsgw g = BAddr_none ->
  runs (resolve_dnsgw o g) (fun g' =>
    match opt_dnsgw o with Some _ => exists ip port, dnsgw g' = BAddr_ipv4 ip port /\ BAddr_wf (dnsgw g') | None => dnsgw g' = BAddr_none end
    /\ netif_ipaddr g' = netif_ipaddr g /\ netif_ip6addr g' = netif_ip6addr g /\ socks_server_addr g' = socks_server_addr g
    /\ socks_auth_info g' = socks_auth_info g /\ udpgw_remote_server_addr g' = udpgw_remote_server_addr g).
Proof.
  intros Hn Hd. unfold resolve_dnsgw. destruct (opt_dnsgw o) as [str|]; [|by apply runs_go].
  apply runs_parse2; [by apply Hn|apply runs_stop|]. intros a n Hw Hi. apply runs_if. intros E. split; [|done].
  destruct a as [|ip port|ip port|]; try done. by exists ip, port.
Qed.

Lemma process_arguments_runs o g : check_options o = true -> opt_help o = false -> opt_version o = false ->
  strings_ok o -> blen (netif_ip6addr g) = 16 -> password_file_contents g = None -> dnsgw g = BAddr_none ->
  runs (process_arguments o g) (configured o).
Proof.
  intros Hc Hh Hv Hs H16 Hpw Hdns. unfold check_options in Hc. rewrite Hh, Hv in Hc. cbn [orb] in Hc.
  destruct Hs as [N1 N2 N3 N4].
  destruct (opt_netif_ipaddr o) as [ips|] eqn:E1; [|done]. destruct (opt_socks_server_addr o) as [socks|] eqn:E2; [|done]. cbn [given negb] in Hc.
  unfold process_arguments. rewrite Hpw. cbn [given negb].
  eapply runs_then; [apply (netif_ipaddr_runs o g ips E1); by apply (N1 ips)|]. intros g1 (P1 & Q1 & R1 & S1).
  eapply runs_then; [apply (netif_ip6addr_runs o g1); congruence|]. intros g2 (P2 & Q2 & R2 & S2).
  eapply runs_then; [apply (socks_server_runs o g2 socks E2); by apply N2|]. intros g3 (P3 & Q3 & R3 & S3).
  eapply runs_then; [apply (socks_auth_runs o g3)|].
  { intros Hu. rewrite Hu in Hc. destruct (given (opt_password o)), (given (opt_password_file o)); done. }
  intros g4 (P4 & Q4 & R4 & S4 & T4).
  eapply runs_then; [apply (udpgw_server_runs o g4 N3)|]. intros g5 (P5 & Q5 & R5 & S5 & T5 & U5).
  destruct (dnsgw_runs o g5 N4) as (g6 & go & -> & Hgo); [congruence|].
  exists g6, go. split; [done|]. intros ->. destruct (Hgo eq_refl) as (P6 & Q6 & R6 & S6 & T6 & U6). unfold auth_ok in P4.
  split; [by rewrite Q6, Q5, Q4, Q3, Q2|by rewrite R6, R5, R4, R3|by rewrite S6, S5, S4|by rewrite T6, T5|by rewrite U6|done].
Qed.
End Process.

(** * From the command line to the configuration *)

(** The global variables before main. *)
Definition static_options : options :=
  {| opt_help := false; opt_version := false; opt_logger := 0; opt_logger_syslog_facility := []; opt_logger_syslog_ident := [];
     opt_loglevel := 0; opt_loglevels := repeat 0 (Z.to_nat BLOG_NUM_CHANNELS);
     opt_netif_ipaddr := None; opt_netif_netmask := None; opt_netif_ip6addr := None; opt_socks_server_addr := None;
     opt_username := None; opt_password := None; opt_password_file := None; opt_append_source_to_username := false;
     opt_udpgw_remote_server_addr := None; opt_udpgw_max_connections := 0; opt_udpgw_connection_buffer_size := 0;
     opt_udpgw_transparent_dns := false; opt_tun_mtu := 0; opt_fake_proc := false; opt_sock_path := None; opt_pid := None; opt_dnsgw := None |}.

Definition static_globals : globals :=
  {| netif_ipaddr := BIPAddr_none; netif_ip6addr := repeat 0 16; socks_server_addr := BAddr_none; socks_auth_info := [];
     udpgw_remote_server_addr := BAddr_none; dnsgw := BAddr_none; password_file_contents := None |}.

(** A string of the command line; its length is an int (the kernel bounds it by
    MAX_ARG_STRLEN, 128 KiB). *)
Definition arg_ok (s : bytes) : Prop := no_nul s /\ blen s <= INT_MAX.

Lemma effect_strings m channels s o : Forall arg_ok (words s) -> strings_ok o -> strings_ok (effect m channels s o).
Proof.
  intros Hw [N1 N2 N3 N4]. destruct s as [[]|[] v|[] v|[]|l|c l]; split; simpl; try done; intros str [= <-].
  all: try (by repeat constructor). all: simpl in Hw; rewrite !Forall_cons_iff in Hw; by destruct Hw as (_ & [? ?] & _).
Qed.

Lemma settle_strings m channels ss : forall o, Forall (fun s => Forall arg_ok (words s)) ss -> strings_ok o -> strings_ok (settle m channels ss o).
Proof.
  induction ss as [|s ss IH]; intros o Hs Ho; [done|]. apply Forall_cons_iff in Hs as [H1 H2]. simpl. apply IH; [done|]. by apply effect_strings.
Qed.

Lemma configured_from_argv m `{Resolver} channels fs raw argv o :
  Z.of_nat (length channels) = BLOG_NUM_CHANNELS -> (forall n, 0 <= n -> blen (raw n) = n) -> Forall arg_ok argv ->
  parse_arguments m channels static_options argv = Some (Some o) -> opt_help o = false -> opt_version o = false ->
  options_ok o /\ exists g go, process_arguments m fs raw o static_globals = Some (g, go) /\ (go = true -> configured fs o g).
Proof.
  intros Hch Hraw Hargv Ep Hh Hv. destruct (parse_arguments_ok m channels Hch _ _ _ Ep) as [Hok Hc]. split; [done|].
  apply process_arguments_runs; try done.
  destruct (parse_arguments_result m channels Hch static_options argv) as (r & Er & Hr). rewrite Ep in Er. injection Er as <-.
  destruct (proj1 (Hr o) eq_refl) as (name & ss & -> & _ & -> & _). apply settle_strings; [|done].
  apply Forall_cons_iff in Hargv as [_ Hargv]. rewrite List.Forall_forall in *. intros s Hs. rewrite List.Forall_forall. intros w Hw.
  apply Hargv, in_concat. exists (words s). split; [|done]. by apply in_map.
Qed.

(** C28. Whatever the command line (its strings shorter than 2 GiB), the name service, the file of the password and the
    allocations: the two functions that configure the program never use a null
    string or a string past its end.  When they succeed, the options have values
    in range (a logger, log levels, a positive MTU), the interface has an IPv4
    address, the SOCKS server, the UDP relay and the DNS gateway have addresses
    of the kinds that the rest of the program asserts, and the SOCKS client is
    given the user name with the password of the command line or of the file. *)
Theorem configuration_sound m `{Resolver} channels fs raw argv o :
  Z.of_nat (length channels) = BLOG_NUM_CHANNELS -> (forall n, 0 <= n -> blen (raw n) = n) -> Forall arg_ok argv ->
  parse_arguments m channels static_options argv = Some (Some o) -> opt_help o = false -> opt_version o = false ->
  options_ok o /\ exists g go, process_arguments m fs raw o static_globals = Some (g, go) /\ (go = true -> configured fs o g).
Proof. apply configured_from_argv. Qed.

(** * A concrete command line *)

Definition ex_channels : list bytes := repeat (cstr "tun2socks") (Z.to_nat BLOG_NUM_CHANNELS).
Definition ex_files : file_system :=
  {| fopen := fun path => if strcmp_eq path (cstr "/pw") then Some (cstr "secret") else None; fread_size := fun _ _ => 4; fread_fails := fun _ => false;
     malloc_ok := fun _ => true; malloc_byte := fun _ => 170 |}.
Definition ex_raw (n : Z) : bytes := repeat 170 (Z.to_nat n).
Definition ex_argv : list bytes :=
  map cstr ["tun2socks"; "--netif-ipaddr"; "10.0.0.2"; "--socks-server-addr"; "127.0.0.1:1080"; "--enable-udprelay"; "--dnsgw"; "127.0.0.1:5450";
    "--tunmtu"; "1400"; "--tunmtu"; "1500"; "--username"; "user"; "--password-file"; "/pw"; "--channel-loglevel"; "tun2socks"; "debug";
    "--loglevel"; "3"]%string.
Definition ex_options : options := default static_options (default None (parse_arguments INT_MAX ex_channels static_options ex_argv)).

Lemma configuration_sound_witness :
  options_ok ex_options /\ exists g go, process_arguments INT_MAX ex_files ex_raw ex_options static_globals = Some (g, go)
    /\ (go = true -> configured ex_files ex_options g).
Proof.
  refine (configuration_sound INT_MAX ex_channels ex_files ex_raw ex_argv ex_options eq_refl _ _ _ _ _); [|by repeat constructor|vm_compute; reflexivity..].
  intros n Hn. unfold ex_raw, blen. rewrite repeat_length. lia.
Defined.

(** The program configured by this command line. *)
Example ex_configuration :
  opt_tun_mtu ex_options = 1500 /\ head (opt_loglevels ex_options) = Some 5 /\ opt_loglevel ex_options = 3
  /\ (fst <$> process_arguments INT_MAX ex_files ex_raw ex_options static_globals)
     = Some {| netif_ipaddr := BIPAddr_ipv4 33554442; netif_ip6addr := repeat 0 16; socks_server_addr := BAddr_ipv4 16777343 14340;
               socks_auth_info := [auth_none; auth_password (cstr "user") (cstr "secret")]; udpgw_remote_server_addr := BAddr_ipv4 0 0;
               dnsgw := BAddr_ipv4 16777343 18965; password_file_contents := Some (cstr "secret") |}.
Proof. split_and!; vm_compute; reflexivity. Qed.

Lemma parse_arguments_grammar_witness :
  parse_arguments INT_MAX ex_channels static_options ex_argv <> None
  /\ forall o, parse_arguments INT_MAX ex_channels static_options ex_argv = Some (Some o)
       <-> exists name ss, ex_argv = name :: concat (map words ss) /\ Forall (valid INT_MAX ex_channels) ss
             /\ o = settle INT_MAX ex_channels ss (default_options static_options name) /\ check_options o = true.
Proof. exact (parse_arguments_grammar INT_MAX ex_channels eq_refl static_options ex_argv). Defined.

(** --netif-netmask is accepted and never used, and --tunfd, which print_help
    lists, is rejected. *)
Example help_text_options :
  parse_arguments INT_MAX ex_channels static_options (map cstr ["tun2socks"; "--tunfd"; "3"]%string) = Some None
  /\ forall mask o g, process_arguments INT_MAX ex_files ex_raw (set_netif_netmask mask o) g = process_arguments INT_MAX ex_files ex_raw o g.
Proof. split; [vm_compute; done|]. intros mask o g. reflexivity. Qed.
