(* ===== verification/TcpClient.v ===== *)
(** The TCP connections of tun2socks/tun2socks.c: the client_* functions that
    join a TCP connection of the lwIP stack (a pcb) to a SOCKS connection.

    The functions are written in a monad over the client, the frames of the
    dead mechanism (misc/dead.h) and the surroundings of the client: lwIP's pcb
    with its registered callbacks, and the SOCKS client with its two stream
    interfaces.  [None] is a fault: a failed ASSERT, an access to the client
    after it was freed, a dead pointer to a frame that is gone, or a call that
    the called object forbids, such as any use of a pcb after it was closed or
    aborted.  lwIP makes the registered callbacks also while it closes a pcb, so a
    callback that was not removed finds the client freed.  What lwIP answers (the results of tcp_close, tcp_write and
    tcp_output and the space of tcp_sndbuf) comes from a list of answers.

    The jobs that BReactor_Synchronize runs inside a callback are events of the
    SOCKS side chosen by the environment. *)

From S2P Require Import Prelude ByteOrder BSocksClient.

Definition TCP_WND : Z := 4 * 1460.
Definition CLIENT_SOCKS_RECV_BUF_SIZE : Z := 8192.
Definition ERR_OK : Z := 0.
Definition ERR_MEM : Z := -1.
Definition ERR_ABRT : Z := -13.

Record tcp_client := {
  aborted : bool;
  dead_aborted : option nat;       (* a frame of the dead mechanism *)
  client_closed : bool;
  buf : bytes;
  buf_used : Z;
  socks_up : bool;
  socks_closed : bool;
  socks_recv_buf : bytes;
  socks_recv_buf_used : Z;
  socks_recv_buf_sent : Z;
  socks_recv_waiting : bool;
  socks_recv_tcp_pending : Z }.

(** The surroundings of a client: lwIP's pcb, the SOCKS client, and a log of
    the bytes that crossed the boundary ([up_in] and [down_in] came in from the
    TCP and the SOCKS side, [up_out] was sent to SOCKS; what went out to TCP is
    [written]). *)
Record pcb_t := {
  pcb_live : bool;                 (* the client may use it *)
  pcb_closing : bool;              (* tcp_close was called, lwIP still has it *)
  cb_err : bool;
  cb_recv : bool;
  cb_sent : bool;
  n_aborts : nat;                  (* calls of tcp_abort *)
  recved : Z;                      (* sum of the tcp_recved calls *)
  written : bytes;                 (* bytes queued by tcp_write *)
  acked : Z }.                     (* bytes reported by the sent callback *)
Record socks_t := {
  socks_live : bool;
  socks_reported : bool;           (* UP was reported: the interfaces exist *)
  socks_sending : option Z;        (* length of the outstanding send *)
  socks_receiving : bool }.
Record log_t := { up_in : bytes; up_out : bytes; down_in : bytes }.
Record env := { lw : pcb_t; so : socks_t; lg : log_t }.

(** Calls on the surroundings. *)
Inductive call :=
| tcp_err_null | tcp_recv_null | tcp_sent_null | tcp_err_set | tcp_recv_set | tcp_sent_set
| tcp_close (ok : bool) | tcp_abort | tcp_recved (n : Z)
| tcp_write (data : bytes) (ok : bool) | tcp_output | tcp_sndbuf
| Socks_Init | Socks_Free | Socks_Send (len : Z) | Socks_Recv.

Definition set_cbs (p : pcb_t) (er re se : bool) : pcb_t :=
  {| pcb_live := pcb_live p; pcb_closing := pcb_closing p; cb_err := er; cb_recv := re; cb_sent := se; n_aborts := n_aborts p;
     recved := recved p; written := written p; acked := acked p |}.
Definition set_pcb (p : pcb_t) (live closing : bool) (aborts : nat) (rcv : Z) (wr : bytes) (ak : Z) : pcb_t :=
  {| pcb_live := live; pcb_closing := closing; cb_err := cb_err p; cb_recv := cb_recv p; cb_sent := cb_sent p; n_aborts := aborts;
     recved := rcv; written := wr; acked := ak |}.

Definition lw_call (p : pcb_t) (c : call) : pcb_t :=
  match c with
  | tcp_err_null => set_cbs p false (cb_recv p) (cb_sent p)
  | tcp_recv_null => set_cbs p (cb_err p) false (cb_sent p)
  | tcp_sent_null => set_cbs p (cb_err p) (cb_recv p) false
  | tcp_err_set => set_cbs p true (cb_recv p) (cb_sent p)
  | tcp_recv_set => set_cbs p (cb_err p) true (cb_sent p)
  | tcp_sent_set => set_cbs p (cb_err p) (cb_recv p) true
  | tcp_close ok => set_pcb p (negb ok) ok (n_aborts p) (recved p) (written p) (acked p)
  | tcp_abort => set_pcb p false false (S (n_aborts p)) (recved p) (written p) (acked p)
  | tcp_recved n => set_pcb p true false (n_aborts p) (recved p + n) (written p) (acked p)
  | tcp_write data ok =>
      if (ok : bool) then set_pcb p true false (n_aborts p) (recved p) (written p ++ data) (acked p) else p
  | _ => p
  end.

Definition so_call (x : socks_t) (c : call) : option socks_t :=
  match c with
  | Socks_Init =>
      ASSERT negb (socks_live x);
      Some {| socks_live := true; socks_reported := false; socks_sending := None; socks_receiving := false |}
  | Socks_Free =>
      ASSERT socks_live x;
      Some {| socks_live := false; socks_reported := socks_reported x; socks_sending := None;
              socks_receiving := false |}
  | Socks_Send len =>
      ASSERT socks_live x; ASSERT len >? 0; ASSERT socks_reported x; ASSERT bool_decide (socks_sending x = None);
      Some {| socks_live := true; socks_reported := true; socks_sending := Some len;
              socks_receiving := socks_receiving x |}
  | Socks_Recv =>
      ASSERT socks_live x; ASSERT socks_reported x; ASSERT negb (socks_receiving x);
      Some {| socks_live := true; socks_reported := true; socks_sending := socks_sending x;
              socks_receiving := true |}
  | _ => Some x
  end.

(** The calls of lwIP need a pcb that was not closed or aborted.  tcp_abort calls a
    registered error callback before it returns; the client must have removed it, as
    the callback would use the client that is about to be freed. *)
Definition env_call (e : env) (c : call) : option env :=
  match c with
  | Socks_Init | Socks_Free | Socks_Send _ | Socks_Recv =>
      x ← so_call (so e) c; Some {| lw := lw e; so := x; lg := lg e |}
  | tcp_abort =>
      ASSERT pcb_live (lw e); ASSERT negb (cb_err (lw e));
      Some {| lw := lw_call (lw e) c; so := so e; lg := lg e |}
  | _ => ASSERT pcb_live (lw e); Some {| lw := lw_call (lw e) c; so := so e; lg := lg e |}
  end.

(** * The monad *)

Record cst := {
  cl : option tcp_client;          (* None once freed *)
  frames : list Z;                 (* the badvpn__dead variables, outermost first *)
  ext : env;
  answers : list Z;
  num_clients : Z }.

Definition M (A : Type) : Type := cst -> option (A * cst).
Definition ret {A} (x : A) : M A := fun s => Some (x, s).
Definition bind {A B} (m : M A) (f : A -> M B) : M B := fun s => '(x, s) ← m s; f x s.
Definition fault {A} : M A := fun _ => None.

Declare Scope m_scope.
Delimit Scope m_scope with M.
Notation "x <- m ;; k" := (bind m (fun x => k)) (at level 100, m at next level, right associativity) : m_scope.
Notation "m ;;; k" := (bind m (fun _ => k)) (at level 100, right associativity) : m_scope.
Open Scope m_scope.

Definition assert (b : bool) : M unit := fun s => if b then Some (tt, s) else None.
Definition get : M tcp_client := fun s => c ← cl s; Some (c, s).
Definition put (c : tcp_client) : M unit := fun s =>
  _ ← cl s;
  Some (tt, {| cl := Some c; frames := frames s; ext := ext s; answers := answers s; num_clients := num_clients s |}).
Definition do_call (x : call) : M unit := fun s =>
  e ← env_call (ext s) x;
  Some (tt, {| cl := cl s; frames := frames s; ext := e; answers := answers s; num_clients := num_clients s |}).
(** The next answer of lwIP. *)
Definition ask : M Z := fun s =>
  Some (hd 0 (answers s), {| cl := cl s; frames := frames s; ext := ext s; answers := tl (answers s);
                             num_clients := num_clients s |}).
Definition lift {A} (o : option A) : M A := fun s => x ← o; Some (x, s).
Definition when (b : bool) (m : M unit) : M unit := if b then m else ret tt.

(** Field updates. *)
Definition set_closed (c : tcp_client) (cc sc : bool) : tcp_client :=
  {| aborted := aborted c; dead_aborted := dead_aborted c; client_closed := cc; buf := buf c; buf_used := buf_used c;
     socks_up := socks_up c; socks_closed := sc; socks_recv_buf := socks_recv_buf c;
     socks_recv_buf_used := socks_recv_buf_used c; socks_recv_buf_sent := socks_recv_buf_sent c;
     socks_recv_waiting := socks_recv_waiting c; socks_recv_tcp_pending := socks_recv_tcp_pending c |}.
Definition set_aborted (c : tcp_client) (a : bool) (d : option nat) : tcp_client :=
  {| aborted := a; dead_aborted := d; client_closed := client_closed c; buf := buf c; buf_used := buf_used c;
     socks_up := socks_up c; socks_closed := socks_closed c; socks_recv_buf := socks_recv_buf c;
     socks_recv_buf_used := socks_recv_buf_used c; socks_recv_buf_sent := socks_recv_buf_sent c;
     socks_recv_waiting := socks_recv_waiting c; socks_recv_tcp_pending := socks_recv_tcp_pending c |}.
Definition set_buf (c : tcp_client) (b : bytes) (u : Z) : tcp_client :=
  {| aborted := aborted c; dead_aborted := dead_aborted c; client_closed := client_closed c; buf := b; buf_used := u;
     socks_up := socks_up c; socks_closed := socks_closed c; socks_recv_buf := socks_recv_buf c;
     socks_recv_buf_used := socks_recv_buf_used c; socks_recv_buf_sent := socks_recv_buf_sent c;
     socks_recv_waiting := socks_recv_waiting c; socks_recv_tcp_pending := socks_recv_tcp_pending c |}.
Definition set_down (c : tcp_client) (up : bool) (b : bytes) (u s : Z) (w : bool) (p : Z) : tcp_client :=
  {| aborted := aborted c; dead_aborted := dead_aborted c; client_closed := client_closed c; buf := buf c;
     buf_used := buf_used c; socks_up := up; socks_closed := socks_closed c; socks_recv_buf := b;
     socks_recv_buf_used := u; socks_recv_buf_sent := s; socks_recv_waiting := w; socks_recv_tcp_pending := p |}.

(** ** misc/dead.h *)

Definition DEAD_KILL_WITH (p : option nat) (v : Z) : M unit := fun s =>
  match p with
  | None => Some (tt, s)
  | Some i =>
      ASSERT bool_decide (i < length (frames s))%nat;
      Some (tt, {| cl := cl s; frames := <[i := v]> (frames s); ext := ext s; answers := answers s;
                   num_clients := num_clients s |})
  end.

(** A new frame; the result is badvpn__prev_ptr. *)
Definition DEAD_ENTER : M (option nat) := fun s =>
  c ← cl s;
  Some (dead_aborted c,
        {| cl := Some (set_aborted c (aborted c) (Some (length (frames s)))); frames := frames s ++ [0];
           ext := ext s; answers := answers s; num_clients := num_clients s |}).

(** The frame ends; the result is DEAD_KILLED. *)
Definition DEAD_LEAVE2 (prev : option nat) : M Z := fun s =>
  match frames s !! Nat.pred (length (frames s)) with
  | None => None
  | Some dead =>
      let leave (s : cst) : option (Z * cst) :=
        match DEAD_KILL_WITH prev dead s with      (* if (prev_ptr) *prev_ptr = dead *)
        | None => None
        | Some (_, s) =>
            Some (dead, {| cl := cl s; frames := removelast (frames s); ext := ext s; answers := answers s;
                           num_clients := num_clients s |})
        end in
      if dead =? 0 then
        match cl s with
        | None => None
        | Some c => leave {| cl := Some (set_aborted c (aborted c) prev); frames := frames s; ext := ext s;
                             answers := answers s; num_clients := num_clients s |}
        end
      else leave s
  end.

(** * The client functions *)

Definition client_abort_pcb : M unit :=
  c <- get;;
  assert (negb (aborted c));;;
  do_call tcp_abort;;;
  put (set_aborted c true (dead_aborted c));;;
  DEAD_KILL_WITH (dead_aborted c) 1.

Definition count_down : M unit := fun s =>
  ASSERT num_clients s >? 0;
  Some (tt, {| cl := cl s; frames := frames s; ext := ext s; answers := answers s;
               num_clients := num_clients s - 1 |}).
Definition free_memory : M unit := fun s =>
  Some (tt, {| cl := None; frames := frames s; ext := ext s; answers := answers s; num_clients := num_clients s |}).

(** The list entry and the memory are given up. *)
Definition client_dealloc : M unit :=
  c <- get;;
  assert (client_closed c);;;
  assert (socks_closed c);;;
  count_down;;;
  when (negb (aborted c)) (DEAD_KILL_WITH (dead_aborted c) (-1));;;
  free_memory.

Definition remove_callbacks : M unit :=
  do_call tcp_err_null;;; do_call tcp_recv_null;;; do_call tcp_sent_null.

(** client_handle_freed_client, client_free_client and client_free_socks call
    each other; a chain of calls closes one side of the client at each step and
    ends within the fuel. *)
Fixpoint client_handle_freed_client (fuel : nat) : M unit :=
  match fuel with
  | O => fault
  | S fuel =>
      c <- get;;
      assert (negb (client_closed c));;;
      put (set_closed c true (socks_closed c));;;
      if (buf_used c >? 0) && negb (socks_closed c) then ret tt
      else if negb (socks_closed c) then client_free_socks fuel
      else client_dealloc
  end
with client_free_client (fuel : nat) : M unit :=
  match fuel with
  | O => fault
  | S fuel =>
      c <- get;;
      assert (negb (client_closed c));;;
      remove_callbacks;;;
      err <- ask;;
      do_call (tcp_close (err =? ERR_OK));;;
      when (negb (err =? ERR_OK)) client_abort_pcb;;;
      client_handle_freed_client fuel
  end
with client_free_socks (fuel : nat) : M unit :=
  match fuel with
  | O => fault
  | S fuel =>
      c <- get;;
      assert (negb (socks_closed c));;;
      when (socks_up c) (when (negb (client_closed c)) (do_call tcp_recv_null));;;
      do_call Socks_Free;;;
      put (set_closed c (client_closed c) true);;;
      if socks_up c && ((socks_recv_buf_used c >=? 0) || (socks_recv_tcp_pending c >? 0))
         && negb (client_closed c) then ret tt
      else if negb (client_closed c) then client_free_client fuel
      else client_dealloc
  end.

Definition FUEL : nat := 4.

Definition client_abort_client : M unit :=
  c <- get;;
  assert (negb (client_closed c));;;
  remove_callbacks;;;
  client_abort_pcb;;;
  client_handle_freed_client FUEL.

Definition client_murder : M unit :=
  c <- get;;
  when (negb (client_closed c))
    (remove_callbacks;;; client_abort_pcb;;;
     c <- get;; put (set_closed c true (socks_closed c)));;;
  c <- get;;
  when (negb (socks_closed c))
    (do_call Socks_Free;;; put (set_closed c (client_closed c) true));;;
  client_dealloc.

Definition client_err_func : M unit :=
  c <- get;;
  assert (negb (client_closed c));;;
  client_handle_freed_client FUEL.

Definition client_send_to_socks : M unit :=
  c <- get;;
  assert (negb (socks_closed c));;;
  assert (socks_up c);;;
  assert (buf_used c >? 0);;;
  do_call (Socks_Send (buf_used c)).

(** [data_len] bytes of the buffer were sent. *)
Definition client_socks_send_handler_done (data_len : Z) : M unit :=
  c <- get;;
  assert (negb (socks_closed c));;;
  assert (socks_up c);;;
  assert (buf_used c >? 0);;;
  assert (data_len >? 0);;;
  assert (data_len <=? buf_used c);;;
  moved <- lift (mem_read (buf c) data_len (buf_used c - data_len));;
  b <- lift (mem_write (buf c) 0 moved);;
  let c := set_buf c b (buf_used c - data_len) in
  put c;;;
  when (negb (client_closed c)) (do_call (tcp_recved data_len));;;
  if buf_used c >? 0 then do_call (Socks_Send (buf_used c))
  else when (client_closed c) (client_free_socks FUEL).

Definition client_socks_recv_initiate : M unit :=
  c <- get;;
  assert (negb (client_closed c));;;
  assert (negb (socks_closed c));;;
  assert (socks_up c);;;
  assert (socks_recv_buf_used c =? -1);;;
  do_call Socks_Recv.

(** The do-while loop of client_socks_recv_send_out; the result is true when
    tcp_abort was done. *)
Fixpoint send_out_loop (fuel : nat) : M bool :=
  match fuel with
  | O => fault
  | S fuel =>
      c <- get;;
      space <- ask;;
      do_call tcp_sndbuf;;;
      let to_write := Z.min (socks_recv_buf_used c - socks_recv_buf_sent c) (u16 space) in
      if to_write =? 0 then ret false else
      data <- lift (mem_read (socks_recv_buf c) (socks_recv_buf_sent c) to_write);;
      err <- ask;;
      do_call (tcp_write data (err =? ERR_OK));;;
      if negb (err =? ERR_OK) then
        if err =? ERR_MEM then ret false
        else client_abort_client;;; ret true
      else
      let c := set_down c (socks_up c) (socks_recv_buf c) (socks_recv_buf_used c)
                 (socks_recv_buf_sent c + to_write) (socks_recv_waiting c) (socks_recv_tcp_pending c + to_write) in
      put c;;;
      if socks_recv_buf_sent c <? socks_recv_buf_used c then send_out_loop fuel else ret false
  end.

(** -1 when tcp_abort was done, 0 otherwise. *)
Definition client_socks_recv_send_out : M Z :=
  c <- get;;
  assert (negb (client_closed c));;;
  assert (socks_up c);;;
  assert (socks_recv_buf_used c >? 0);;;
  assert (socks_recv_buf_sent c <? socks_recv_buf_used c);;;
  assert (negb (socks_recv_waiting c));;;
  gone <- send_out_loop (Z.to_nat (socks_recv_buf_used c - socks_recv_buf_sent c));;
  if gone then ret (-1) else
  err <- ask;;
  do_call tcp_output;;;
  if negb (err =? ERR_OK) then client_abort_client;;; ret (-1) else
  c <- get;;
  if socks_recv_buf_sent c <? socks_recv_buf_used c then
    if socks_recv_tcp_pending c =? 0 then client_abort_client;;; ret (-1)
    else
      put (set_down c (socks_up c) (socks_recv_buf c) (socks_recv_buf_used c) (socks_recv_buf_sent c) true
             (socks_recv_tcp_pending c));;;
      ret 0
  else
    put (set_down c (socks_up c) (socks_recv_buf c) (-1) (socks_recv_buf_sent c) (socks_recv_waiting c)
           (socks_recv_tcp_pending c));;;
    ret 0.

(** [data_len] bytes were received into socks_recv_buf. *)
Definition client_socks_recv_handler_done (data_len : Z) : M unit :=
  c <- get;;
  assert (data_len >? 0);;;
  assert (data_len <=? CLIENT_SOCKS_RECV_BUF_SIZE);;;
  assert (negb (socks_closed c));;;
  assert (socks_up c);;;
  assert (socks_recv_buf_used c =? -1);;;
  if client_closed c then ret tt else
  put (set_down c (socks_up c) (socks_recv_buf c) data_len 0 false (socks_recv_tcp_pending c));;;
  r <- client_socks_recv_send_out;;
  if r <? 0 then ret tt else
  c <- get;;
  when (socks_recv_buf_used c =? -1) client_socks_recv_initiate.

Definition client_socks_handler (event : sc_event) : M unit :=
  c <- get;;
  assert (negb (socks_closed c));;;
  match event with
  | BSOCKSCLIENT_EVENT_ERROR => client_free_socks FUEL
  | BSOCKSCLIENT_EVENT_UP =>
      assert (negb (socks_up c));;;
      when (negb (client_closed c)) (do_call tcp_sent_set);;;
      put (set_down c true (socks_recv_buf c) (-1) (socks_recv_buf_sent c) (socks_recv_waiting c) 0);;;
      when (buf_used c >? 0) client_send_to_socks;;;
      when (negb (client_closed c)) client_socks_recv_initiate
  | BSOCKSCLIENT_EVENT_ERROR_CLOSED =>
      assert (socks_up c);;;
      client_free_socks FUEL
  end.


(** ** Events of the SOCKS side

    The handlers that BSocksClient and its interfaces call, with the conditions
    under which they do: events only while the object lives, UP at most once
    and ERROR_CLOSED only after it, one completion for each operation, with a
    length the operation allows. *)
Inductive socks_ev :=
| SE_handler (event : sc_event)
| SE_send_done (n : Z)
| SE_recv_done (data : bytes).

Definition socks_enabled (x : socks_t) (v : socks_ev) : bool :=
  socks_live x &&
  match v with
  | SE_handler BSOCKSCLIENT_EVENT_ERROR => true
  | SE_handler BSOCKSCLIENT_EVENT_UP => negb (socks_reported x)
  | SE_handler BSOCKSCLIENT_EVENT_ERROR_CLOSED => socks_reported x
  | SE_send_done n => match socks_sending x with Some len => (n >? 0) && (n <=? len) | None => false end
  | SE_recv_done data => socks_receiving x && (blen data >? 0) && (blen data <=? CLIENT_SOCKS_RECV_BUF_SIZE)
  end.

Definition modify_ext (f : env -> env) : M unit := fun s =>
  Some (tt, {| cl := cl s; frames := frames s; ext := f (ext s); answers := answers s; num_clients := num_clients s |}).

Definition log_up_in (d : bytes) (e : env) : env :=
  {| lw := lw e; so := so e; lg := {| up_in := up_in (lg e) ++ d; up_out := up_out (lg e); down_in := down_in (lg e) |} |}.

(** What happens on the SOCKS side before its handler is called: the first [n]
    bytes of the client's buffer were sent, or [data] was stored in it. *)
Definition socks_moved (v : socks_ev) (b : bytes) (e : env) : env :=
  let x := so e in
  match v with
  | SE_handler BSOCKSCLIENT_EVENT_UP =>
      {| lw := lw e; lg := lg e;
         so := {| socks_live := socks_live x; socks_reported := true; socks_sending := socks_sending x;
                  socks_receiving := socks_receiving x |} |}
  | SE_handler _ => e
  | SE_send_done n =>
      {| lw := lw e;
         so := {| socks_live := socks_live x; socks_reported := socks_reported x; socks_sending := None;
                  socks_receiving := socks_receiving x |};
         lg := {| up_in := up_in (lg e); up_out := up_out (lg e) ++ btake n b; down_in := down_in (lg e) |} |}
  | SE_recv_done data =>
      {| lw := lw e;
         so := {| socks_live := socks_live x; socks_reported := socks_reported x; socks_sending := socks_sending x;
                  socks_receiving := false |};
         lg := {| up_in := up_in (lg e); up_out := up_out (lg e); down_in := down_in (lg e) ++ data |} |}
  end.

(** One event of the SOCKS side, if it can happen. *)
Definition socks_step (v : socks_ev) : M unit := fun s =>
  if socks_enabled (so (ext s)) v then
    (c <- get;;
     modify_ext (socks_moved v (buf c));;;
     match v with
     | SE_handler event => client_socks_handler event
     | SE_send_done n => client_socks_send_handler_done n
     | SE_recv_done data =>
         b <- lift (mem_write (socks_recv_buf c) 0 data);;
         put (set_down c (socks_up c) b (socks_recv_buf_used c) (socks_recv_buf_sent c) (socks_recv_waiting c)
                (socks_recv_tcp_pending c));;;
         client_socks_recv_handler_done (blen data)
     end) s
  else Some (tt, s).

(** SYNC_COMMIT: the jobs pushed since SYNC_FROMHERE run, and with them any
    events of the SOCKS side. *)
Fixpoint SYNC_COMMIT (jobs : list socks_ev) : M unit :=
  match jobs with
  | [] => ret tt
  | v :: jobs => socks_step v;;; SYNC_COMMIT jobs
  end.

(** ** The callbacks of lwIP *)

Definition callback_result (dead : Z) : Z := if dead >? 0 then ERR_ABRT else ERR_OK.

(** [p] is the payload of the pbuf, or [None] for a null pbuf. *)
Definition client_recv_func (p : option bytes) (jobs : list socks_ev) : M Z :=
  c <- get;;
  assert (negb (client_closed c));;;
  prev <- DEAD_ENTER;;
  match p with
  | None =>
      client_free_client FUEL;;;
      dead <- DEAD_LEAVE2 prev;;
      ret (callback_result dead)
  | Some p =>
      c <- get;;
      let tot_len := blen p in
      assert (tot_len >? 0);;;
      if tot_len >? u64 (TCP_WND - buf_used c) then
        _ <- DEAD_LEAVE2 prev;; ret ERR_MEM
      else
      b <- lift (mem_write (buf c) (buf_used c) p);;
      let c := set_buf c b (buf_used c + tot_len) in
      put c;;;
      modify_ext (log_up_in p);;;
      when ((buf_used c =? tot_len) && socks_up c)
        (assert (negb (socks_closed c));;;
         client_send_to_socks;;;
         SYNC_COMMIT jobs);;;
      dead <- DEAD_LEAVE2 prev;;
      ret (callback_result dead)
  end.

Definition client_sent_func (len : Z) (jobs : list socks_ev) : M Z :=
  c <- get;;
  assert (negb (client_closed c));;;
  assert (socks_up c);;;
  assert (len >? 0);;;
  assert (len <=? socks_recv_tcp_pending c);;;
  prev <- DEAD_ENTER;;
  c <- get;;
  let c := set_down c (socks_up c) (socks_recv_buf c) (socks_recv_buf_used c) (socks_recv_buf_sent c)
             (socks_recv_waiting c) (socks_recv_tcp_pending c - len) in
  put c;;;
  (if socks_recv_buf_used c >? 0 then
     assert (socks_recv_waiting c);;;
     assert (socks_recv_buf_sent c <? socks_recv_buf_used c);;;
     put (set_down c (socks_up c) (socks_recv_buf c) (socks_recv_buf_used c) (socks_recv_buf_sent c) false
            (socks_recv_tcp_pending c));;;
     r <- client_socks_recv_send_out;;
     if r <? 0 then ret tt else
     c <- get;;
     assert (socks_recv_tcp_pending c >? 0);;;
     when ((socks_recv_buf_used c =? -1) && negb (socks_closed c))
       (client_socks_recv_initiate;;; SYNC_COMMIT jobs)
   else
     when (socks_closed c && (socks_recv_tcp_pending c =? 0)) (client_free_client FUEL));;;
  dead <- DEAD_LEAVE2 prev;;
  ret (callback_result dead).

(** What can fail in listener_accept_func. *)
Record accept_answers := { malloc_ok : bool; concat_ok : bool; socks_init_ok : bool }.

(** A new connection.  [err] is the argument of lwIP, [raw] the allocated memory
    before initialisation; [with_source] is options.username &&
    options.append_source_to_username. *)
Definition listener_accept_func (err : Z) (with_source : bool) (a : accept_answers) (raw : tcp_client)
    (jobs : list socks_ev) : M Z :=
  assert (err =? ERR_OK);;;
  if negb (malloc_ok a) then ret ERR_MEM
  else if with_source && negb (concat_ok a) then ret ERR_MEM
  else if negb (socks_init_ok a) then ret ERR_MEM
  else
  do_call Socks_Init;;;
  (fun s =>
     ASSERT num_clients s >=? 0;
     let c := set_down (set_buf (set_closed (set_aborted raw false None) false false) (buf raw) 0)
                false (socks_recv_buf raw) (socks_recv_buf_used raw) (socks_recv_buf_sent raw)
                (socks_recv_waiting raw) (socks_recv_tcp_pending raw) in
     Some (tt, {| cl := Some c; frames := frames s; ext := ext s; answers := answers s;
                  num_clients := num_clients s + 1 |}));;;
  do_call tcp_err_set;;;
  do_call tcp_recv_set;;;
  prev <- DEAD_ENTER;;
  SYNC_COMMIT jobs;;;
  dead <- DEAD_LEAVE2 prev;;
  ret (callback_result dead).

(** ** Sessions

    [Ev_err], [Ev_recv] and [Ev_sent] are the callbacks of lwIP, when they are
    registered: before the error callback the pcb is freed, and before the sent
    callback the acknowledged bytes, at most those that were queued, are
    counted.  lwIP makes them also after tcp_close, while it still delivers what
    is queued and waits for the peer ([pcb_closing]).  Without a callback lwIP
    drops received data and ignores acknowledgements and the end of the stream.
    [Ev_murder] is the loop of main that kills all clients. *)
Inductive event :=
| Ev_socks (v : socks_ev)
| Ev_err
| Ev_recv (p : option bytes) (jobs : list socks_ev)
| Ev_sent (len : Z) (jobs : list socks_ev)
| Ev_murder.

Definition kill_pcb (e : env) : env :=
  {| lw := set_pcb (lw e) false false (n_aborts (lw e)) (recved (lw e)) (written (lw e)) (acked (lw e)); so := so e; lg := lg e |}.
Definition ack (len : Z) (e : env) : env :=
  {| lw := set_pcb (lw e) (pcb_live (lw e)) (pcb_closing (lw e)) (n_aborts (lw e)) (recved (lw e)) (written (lw e)) (acked (lw e) + len);
     so := so e; lg := lg e |}.

(** lwIP still has the pcb. *)
Definition pcb_there (p : pcb_t) : bool := pcb_live p || pcb_closing p.

Definition pbuf_ok (p : option bytes) : bool :=
  match p with None => true | Some d => (0 <? blen d) && (blen d <=? UINT16_MAX) end.

(** One event, if it can happen; the result is that of the callback. *)
Definition step (v : event) : M (option Z) := fun s =>
  let e := ext s in
  match v with
  | Ev_socks v => (socks_step v;;; ret None) s
  | Ev_err =>
      if pcb_there (lw e) && cb_err (lw e) then (modify_ext kill_pcb;;; client_err_func;;; ret None) s
      else Some (None, s)
  | Ev_recv p jobs =>
      if pcb_there (lw e) && cb_recv (lw e) && pbuf_ok p then (r <- client_recv_func p jobs;; ret (Some r)) s
      else Some (None, s)
  | Ev_sent len jobs =>
      if pcb_there (lw e) && cb_sent (lw e) && (0 <? len) && (len <=? UINT16_MAX)
         && (len <=? blen (written (lw e)) - acked (lw e))
      then (modify_ext (ack len);;; r <- client_sent_func len jobs;; ret (Some r)) s
      else Some (None, s)
  | Ev_murder =>
      match cl s with Some _ => (client_murder;;; ret None) s | None => Some (None, s) end
  end.

Fixpoint run (l : list event) : M unit :=
  match l with [] => ret tt | v :: l => step v;;; run l end.

(** A connection that lwIP has just established; [n] clients exist. *)
Definition start (ans : list Z) (n : Z) : cst :=
  {| cl := None; frames := []; answers := ans; num_clients := n;
     ext := {| lw := {| pcb_live := true; pcb_closing := false; cb_err := false; cb_recv := false; cb_sent := false; n_aborts := 0;
                        recved := 0; written := []; acked := 0 |};
               so := {| socks_live := false; socks_reported := false; socks_sending := None; socks_receiving := false |};
               lg := {| up_in := []; up_out := []; down_in := [] |} |} |}.

(** After an accept callback that returned an error other than ERR_ABRT lwIP aborts
    the pcb (lwip/src/core/tcp_in.c, tcp_process). *)
Definition after_accept (r : Z) : M unit := fun s =>
  if negb (r =? ERR_OK) && negb (r =? ERR_ABRT) then
    ASSERT pcb_live (lw (ext s)); ASSERT negb (cb_err (lw (ext s)));
    modify_ext kill_pcb s
  else Some (tt, s).

Definition session (with_source : bool) (a : accept_answers) (raw : tcp_client) (jobs : list socks_ev)
    (l : list event) : M Z :=
  r <- listener_accept_func ERR_OK with_source a raw jobs;; after_accept r;;; run l;;; ret r.
