(* ===== verification/TcpClientFacts.v ===== *)
(** Theorems about the TCP connections of TcpClient.v.

    [wp m Q s]: the computation [m] does not fault in [s] and ends with a
    result and a state in [Q].  The invariant of a client is the conjunction of
    [core] (what does not depend on the pcb), [opened] (the pcb is there) or
    [closed], and [useful]: a client that is not freed still has something to
    do. *)

From S2P Require Import Prelude ByteOrder BSocksClient TcpClient.

(** * Weakest preconditions *)

Definition wp {A} (m : M A) (Q : A -> cst -> Prop) (s : cst) : Prop :=
  match m s with Some (x, s') => Q x s' | None => False end.

Definition with_cl (s : cst) (o : option tcp_client) : cst :=
  {| cl := o; frames := frames s; ext := ext s; answers := answers s; num_clients := num_clients s |}.
Definition with_ext (s : cst) (e : env) : cst :=
  {| cl := cl s; frames := frames s; ext := e; answers := answers s; num_clients := num_clients s |}.
Definition with_frames (s : cst) (l : list Z) : cst :=
  {| cl := cl s; frames := l; ext := ext s; answers := answers s; num_clients := num_clients s |}.
Definition with_num (s : cst) (n : Z) : cst :=
  {| cl := cl s; frames := frames s; ext := ext s; answers := answers s; num_clients := n |}.
Definition with_answers (s : cst) (l : list Z) : cst :=
  {| cl := cl s; frames := frames s; ext := ext s; answers := l; num_clients := num_clients s |}.

Section Rules.
Context {A B : Type}.
Implicit Types (Q : A -> cst -> Prop) (s : cst).

Lemma wp_mono (m : M A) Q Q' s : wp m Q s -> (forall x s', Q x s' -> Q' x s') -> wp m Q' s.
Proof. unfold wp. destruct (m s) as [[x s']|]; auto. Qed.

Lemma wp_bind (m : M B) (f : B -> M A) Q s : wp m (fun x s' => wp (f x) Q s') s -> wp (bind m f) Q s.
Proof. unfold wp, bind. destruct (m s) as [[x s']|]; simpl; auto. Qed.

Lemma wp_ret (x : A) Q s : Q x s -> wp (ret x) Q s.
Proof. auto. Qed.

Lemma wp_if (b : bool) (m m' : M A) Q s :
  (b = true -> wp m Q s) -> (b = false -> wp m' Q s) -> wp (if b then m else m') Q s.
Proof. destruct b; auto. Qed.

Lemma wp_lift (o : option A) Q s x : o = Some x -> Q x s -> wp (lift o) Q s.
Proof. intros -> HQ. exact HQ. Qed.
End Rules.

Section UnitRules.
Implicit Types (s : cst).

Lemma wp_assert b Q s : b = true -> Q tt s -> wp (assert b) Q s.
Proof. intros -> HQ. exact HQ. Qed.

Lemma wp_get c Q s : cl s = Some c -> Q c s -> wp get Q s.
Proof. unfold wp, get. intros -> HQ. exact HQ. Qed.

Lemma wp_put c c' Q s : cl s = Some c -> Q tt (with_cl s (Some c')) -> wp (put c') Q s.
Proof. unfold wp, put. intros -> HQ. exact HQ. Qed.

Lemma wp_call x e Q s : env_call (ext s) x = Some e -> Q tt (with_ext s e) -> wp (do_call x) Q s.
Proof. unfold wp, do_call. intros -> HQ. exact HQ. Qed.

Lemma wp_ask Q s : (forall v, Q v (with_answers s (tl (answers s)))) -> wp ask Q s.
Proof. intros HQ. apply HQ. Qed.

Lemma wp_when b (m : M unit) Q s :
  (b = true -> wp m Q s) -> (b = false -> Q tt s) -> wp (when b m) Q s.
Proof. destruct b; simpl; auto using wp_ret. Qed.

Lemma wp_modify_ext f Q s : Q tt (with_ext s (f (ext s))) -> wp (modify_ext f) Q s.
Proof. auto. Qed.
End UnitRules.

Create HintDb tcp discriminated.

(** * The invariant *)

(** The bytes of socks_recv_buf that are not yet queued in the pcb. *)
Definition recv_rest (c : tcp_client) : bytes :=
  if socks_recv_buf_used c >? 0
  then bdrop (socks_recv_buf_sent c) (btake (socks_recv_buf_used c) (socks_recv_buf c)) else [].

(** What holds whatever the state of the pcb. *)
Record core (c : tcp_client) (e : env) : Prop := {
  core_live : socks_live (so e) = negb (socks_closed c);
  core_up : socks_closed c = false -> socks_reported (so e) = socks_up c;
  core_buf : blen (buf c) = TCP_WND;
  core_used : 0 <= buf_used c <= TCP_WND;
  core_rbuf : blen (socks_recv_buf c) = CLIENT_SOCKS_RECV_BUF_SIZE;
  core_sending : match socks_sending (so e) with
                 | Some l => socks_up c = true /\ socks_closed c = false /\ 0 < l <= buf_used c
                 | None => socks_up c = true -> socks_closed c = false -> buf_used c = 0
                 end;
  core_receiving : socks_receiving (so e) = true ->
                   socks_up c = true /\ socks_closed c = false /\ socks_recv_buf_used c = -1;
  core_not_up : socks_up c = false -> written (lw e) = [] /\ acked (lw e) = 0 /\ down_in (lg e) = [];
  core_upstream : up_in (lg e) = up_out (lg e) ++ btake (buf_used c) (buf c);
  core_downstream : written (lw e) `prefix_of` down_in (lg e) }.

(** The pcb is no longer the client's, and lwIP will not call the client. *)
Definition silent (p : pcb_t) : Prop :=
  pcb_live p = false /\ (pcb_closing p = true -> cb_err p = false /\ cb_recv p = false /\ cb_sent p = false).

(** The pcb is there and belongs to the client. *)
Record held (c : tcp_client) (e : env) : Prop := {
  held_live : pcb_live (lw e) = true;
  held_there : pcb_closing (lw e) = false;
  held_aborted : aborted c = false;
  held_open : client_closed c = false }.

(** In addition its callbacks are set up, what tcp_recved was told is what was
    sent, and the downstream buffer is in order. *)
Record opened (c : tcp_client) (e : env) : Prop := {
  op_err : cb_err (lw e) = true;
  op_recv : cb_recv (lw e) = negb (socks_closed c);
  op_sent : cb_sent (lw e) = socks_up c;
  op_recved : recved (lw e) = blen (up_out (lg e));
  op_down : down_in (lg e) = written (lw e) ++ (if socks_up c then recv_rest c else []);
  op_pending : socks_up c = true ->
               socks_recv_tcp_pending c = blen (written (lw e)) - acked (lw e) /\ 0 <= acked (lw e)
               /\ 0 <= socks_recv_tcp_pending c }.

(** socks_recv_buf is empty, or its rest waits for an acknowledgement. *)
Definition settled (c : tcp_client) : Prop :=
  socks_up c = true ->
  socks_recv_buf_used c = -1
  \/ (0 < socks_recv_buf_used c <= CLIENT_SOCKS_RECV_BUF_SIZE
      /\ 0 <= socks_recv_buf_sent c < socks_recv_buf_used c
      /\ socks_recv_waiting c = true /\ 0 < socks_recv_tcp_pending c).

Definition wf (c : tcp_client) (e : env) : Prop :=
  core c e /\
  (if client_closed c then silent (lw e)
   else held c e /\ opened c e /\ settled c
        /\ (socks_up c = true -> socks_closed c = false -> socks_recv_buf_used c = -1 ->
            socks_receiving (so e) = true)).

(** A client that is kept has something left to do. *)
Definition useful (c : tcp_client) : Prop :=
  match client_closed c, socks_closed c with
  | false, false => True
  | true, false => 0 < buf_used c
  | false, true => socks_up c = true /\ (0 <= socks_recv_buf_used c \/ 0 < socks_recv_tcp_pending c)
  | true, true => False
  end.

(** After the client is freed nothing of it is left. *)
Record gone (e : env) : Prop := {
  gone_pcb : silent (lw e);
  gone_socks : socks_live (so e) = false;
  gone_up : up_out (lg e) `prefix_of` up_in (lg e);
  gone_down : written (lw e) `prefix_of` down_in (lg e) }.

(** The dead mechanism: outside the callbacks of lwIP ([a0] is [None]) there is
    no frame, and inside a callback that began with [a] calls of tcp_abort
    ([Some a]) there is one. *)
Definition finv (a0 : option nat) (s : cst) : Prop :=
  match a0, frames s with
  | None, [] => forall c, cl s = Some c -> aborted c = false -> dead_aborted c = None
  | Some a, [v] =>
      (v = 0 /\ n_aborts (lw (ext s)) = a
       /\ exists c, cl s = Some c /\ aborted c = false /\ dead_aborted c = Some 0%nat)
      \/ (v = 1 /\ n_aborts (lw (ext s)) = S a /\ forall c, cl s = Some c -> aborted c = true)
      \/ (v = -1 /\ n_aborts (lw (ext s)) = a /\ cl s = None)
  | _, _ => False
  end.

(** [n] is the number of the other clients. *)
Definition Inv (a0 : option nat) (n : Z) (s : cst) : Prop :=
  finv a0 s /\ 0 <= n /\
  match cl s with
  | Some c => wf c (ext s) /\ useful c /\ num_clients s = n + 1
  | None => gone (ext s) /\ num_clients s = n
  end.

(** What the functions below need of the state around the client. *)
Definition around (a0 : option nat) (n : Z) (s : cst) : Prop :=
  finv a0 s /\ 0 <= n /\ num_clients s = n + 1.

Lemma Inv_alive a0 n s c :
  around a0 n s -> cl s = Some c -> wf c (ext s) -> useful c -> Inv a0 n s.
Proof. intros (Hf & Hn & Hnum) Hc Hw Hu. unfold Inv. rewrite Hc. by split_and!. Qed.

Lemma Inv_elim a0 n s c :
  Inv a0 n s -> cl s = Some c -> around a0 n s /\ wf c (ext s) /\ useful c.
Proof. intros (Hf & Hn & Hx) Hc. rewrite Hc in Hx. unfold around. tauto. Qed.

(** * Specifications of the client functions *)

(** Killing the dead variable of a client that is not aborted. *)
Lemma wp_kill a0 s c v Q :
  cl s = Some c -> aborted c = false -> finv a0 s ->
  (forall l, (frames s = [] /\ a0 = None /\ l = []) \/ (frames s = [0] /\ a0 = Some (n_aborts (lw (ext s))) /\ l = [v]) ->
             Q tt (with_frames s l)) ->
  wp (DEAD_KILL_WITH (dead_aborted c) v) Q s.
Proof.
  unfold finv, wp. intros Hc Ha Hf HQ. destruct a0 as [a|], (frames s) as [|d [|? ?]] eqn:Ef; try done; cycle 1.
  - rewrite (Hf c Hc Ha). simpl. replace s with (with_frames s []); [by apply HQ; left|].
    destruct s; simpl in *; by subst.
  - destruct Hf as [(-> & Hn & c' & Hc' & _ & Hd)|[(_ & _ & Hx)|(_ & _ & Hx)]];
      [|specialize (Hx c Hc); congruence|congruence].
    rewrite Hc in Hc'. apply (inj Some) in Hc' as <-. rewrite Hd. simpl. rewrite Ef. simpl.
    apply HQ. right. by rewrite Hn.
Qed.

Lemma client_abort_pcb_spec a0 n s c (Q : unit -> cst -> Prop) :
  cl s = Some c -> held c (ext s) -> cb_err (lw (ext s)) = false -> around a0 n s ->
  (forall s', cl s' = Some (set_aborted c true (dead_aborted c)) ->
              ext s' = {| lw := lw_call (lw (ext s)) tcp_abort; so := so (ext s); lg := lg (ext s) |} ->
              around a0 n s' -> Q tt s') ->
  wp client_abort_pcb Q s.
Proof.
  intros Hc [Hl _ Ha Ho] Hce (Hf & Hn & Hnum) HQ. unfold client_abort_pcb.
  apply wp_bind, (wp_get c); [done|]. apply wp_bind, wp_assert; [by rewrite Ha|].
  apply wp_bind. eapply wp_call; [simpl; by rewrite Hl, Hce|].
  apply wp_bind. apply (wp_put c); [done|].
  unfold finv in Hf. unfold wp, DEAD_KILL_WITH. simpl.
  destruct a0 as [a|], (frames s) as [|d [|? ?]] eqn:Ef; try done; cycle 1.
  - pose proof (Hf c Hc Ha) as Hd. rewrite Hd. apply HQ; [by rewrite Hd|done|]. split; [|done]. unfold finv. simpl. rewrite Ef. simpl.
    intros ? [= <-]. simpl. congruence.
  - destruct Hf as [(-> & Hn' & c' & Hc' & _ & Hd)|[(_ & _ & Hx)|(_ & _ & Hx)]];
      [|specialize (Hx c Hc); congruence|congruence].
    rewrite Hc in Hc'. apply (inj Some) in Hc' as <-. rewrite Hd. simpl. apply HQ; [by rewrite Hd|done|].
    + split; [|done]. right. left. simpl. rewrite Hn'. split_and!; [done..|]. by intros ? [= <-].
Qed.

(** One step of symbolic execution. *)
Ltac wstep :=
  lazymatch goal with
  | |- wp (bind _ _) _ _ => apply wp_bind
  | |- wp (ret _) _ _ => apply wp_ret
  | |- wp get _ _ => eapply wp_get; [first [reflexivity | eassumption]|]
  | |- wp (put _) _ _ => eapply wp_put; [first [reflexivity | eassumption]|]
  | |- wp (assert _) _ _ => apply wp_assert
  | |- wp ask _ _ => apply wp_ask; intros ?
  | |- wp (modify_ext _) _ _ => apply wp_modify_ext
  | |- wp (if ?b then _ else _) _ _ => apply wp_if; intros ?
  | |- wp (when _ _) _ _ => apply wp_when; intros ?
  end; cbn beta.

Lemma client_dealloc_gone a0 n s c :
  cl s = Some c -> client_closed c = true -> socks_closed c = true ->
  core c (ext s) -> silent (lw (ext s)) -> around a0 n s ->
  wp client_dealloc (fun _ s' => Inv a0 n s' /\ cl s' = None /\ lg (ext s') = lg (ext s)) s.
Proof.
  intros Hc Hcc Hsc Hcore Hl (Hf & Hn & Hnum). unfold client_dealloc.
  assert (Hg : gone (ext s)).
  { split; [done| |exists (btake (buf_used c) (buf c)); apply Hcore|apply Hcore].
    rewrite (core_live _ _ Hcore), Hsc. done. }
  do 2 wstep. do 2 wstep; [done|]. do 2 wstep; [done|]. wstep.
  unfold wp at 1, count_down. destruct (Z.gtb_spec (num_clients s) 0); [|lia].
  wstep. wstep.
  - apply (wp_kill a0 _ c); [done|by apply negb_true_iff|exact Hf|].
    intros l Hfr. unfold wp, free_memory, Inv. simpl. split_and!; [|lia|done|lia|done|done].
    unfold finv. simpl. destruct Hfr as [(_ & -> & ->)|(_ & -> & ->)]; [done|]. by right; right.
  - unfold wp, free_memory, Inv. simpl. split_and!; [|lia|done|lia|done|done].
    unfold finv in *. simpl. destruct a0 as [a|], (frames s) as [|v [|? ?]]; try done.
    destruct Hf as [(_ & _ & c' & Hc' & Ha & _)|[(-> & Ha & _)|(_ & _ & Hx)]]; [|by right; left|congruence].
    rewrite Hc in Hc'. apply (inj Some) in Hc' as <-. by rewrite Ha in *.
Qed.

Lemma client_dealloc_spec a0 n s c :
  cl s = Some c -> client_closed c = true -> socks_closed c = true ->
  core c (ext s) -> silent (lw (ext s)) -> around a0 n s ->
  wp client_dealloc (fun _ s' => Inv a0 n s') s.
Proof. intros. eapply wp_mono; [by eapply client_dealloc_gone|]. by intros ? s' [? _]. Qed.

(** [core] looks at a part of the client and of its surroundings only. *)
Definition same_core (c c' : tcp_client) : Prop :=
  socks_closed c' = socks_closed c /\ socks_up c' = socks_up c /\ buf c' = buf c /\ buf_used c' = buf_used c
  /\ socks_recv_buf c' = socks_recv_buf c /\ socks_recv_buf_used c' = socks_recv_buf_used c.

Lemma core_same c c' e e' :
  core c e -> same_core c c' -> so e' = so e -> lg e' = lg e ->
  written (lw e') = written (lw e) -> acked (lw e') = acked (lw e) -> core c' e'.
Proof.
  intros [] (E1 & E2 & E3 & E4 & E5 & E6) Es El Ew Ea.
  split; rewrite ?Es, ?El, ?Ew, ?Ea, ?E1, ?E2, ?E3, ?E4, ?E5, ?E6; assumption.
Qed.

(** The client after BSocksClient_Free. *)
Lemma core_socks_freed c e b :
  core c e ->
  core (set_closed c b true)
       {| lw := lw e; so := {| socks_live := false; socks_reported := socks_reported (so e);
                               socks_sending := None; socks_receiving := false |}; lg := lg e |}.
Proof. intros []. split; simpl; done. Qed.

Lemma same_core_closed c b : same_core c (set_closed c b (socks_closed c)).
Proof. done. Qed.
Lemma same_core_aborted c b d : same_core c (set_aborted c b d).
Proof. done. Qed.
#[export] Hint Resolve same_core_closed same_core_aborted core_socks_freed : tcp.

(** A write to the client that keeps [aborted] and [dead_aborted] keeps the
    dead mechanism in order, whatever happens to the surroundings but
    tcp_abort. *)
Lemma around_put a0 n s c c' e :
  around a0 n s -> cl s = Some c -> aborted c' = aborted c -> dead_aborted c' = dead_aborted c ->
  n_aborts (lw e) = n_aborts (lw (ext s)) ->
  around a0 n (with_ext (with_cl s (Some c')) e).
Proof.
  intros (Hf & Hn & Hnum) Hc Ha Hd He. split; [|done]. unfold finv in *. simpl.
  destruct a0 as [a|], (frames s) as [|v [|? ?]]; try done; cycle 1.
  - intros ? [= <-]. rewrite Ha, Hd. auto.
  - rewrite He. destruct Hf as [(-> & Hn' & c1 & Hc1 & Ha1 & Hd1)|[(-> & Hn' & Hx)|(_ & _ & Hx)]].
    + left. split_and!; [done..|]. rewrite Hc in Hc1. apply (inj Some) in Hc1 as <-.
      exists c'. by rewrite Ha, Hd.
    + right. left. split_and!; [done..|]. intros ? [= <-]. rewrite Ha. auto.
    + congruence.
Qed.

Lemma around_ext a0 n s e :
  around a0 n s -> n_aborts (lw e) = n_aborts (lw (ext s)) -> around a0 n (with_ext s e).
Proof. intros (Hf & Hn & Hnum) He. split; [|done]. unfold finv in *. simpl. by rewrite He. Qed.

Lemma around_answers a0 n s l : around a0 n s -> around a0 n (with_answers s l).
Proof. auto. Qed.

Lemma around_cl a0 n s c c' :
  around a0 n s -> cl s = Some c -> aborted c' = aborted c -> dead_aborted c' = dead_aborted c ->
  around a0 n (with_cl s (Some c')).
Proof. intros H ? ? ?. by apply (around_put a0 n s c c' (ext s) H). Qed.
#[export] Hint Resolve around_ext around_answers around_cl : tcp.

Lemma client_free_socks_gone a0 n s c f :
  cl s = Some c -> client_closed c = true -> socks_closed c = false ->
  core c (ext s) -> silent (lw (ext s)) -> around a0 n s ->
  wp (client_free_socks (S f)) (fun _ s' => Inv a0 n s' /\ cl s' = None /\ lg (ext s') = lg (ext s)) s.
Proof.
  intros Hc Hcc Hsc Hcore Hl Har. simpl.
  do 2 wstep. do 2 wstep; [by rewrite Hsc|]. wstep.
  apply (wp_mono _ (fun _ s' => s' = s)).
  { repeat wstep; try done. by rewrite Hcc in *. }
  intros _ s' ->. wstep.
  eapply wp_call. { simpl. rewrite (core_live _ _ Hcore), Hsc. simpl. done. }
  do 2 wstep. rewrite Hcc. simpl. rewrite andb_false_r.
  eapply wp_mono; [eapply client_dealloc_gone; simpl; eauto with tcp|done].
Qed.

Lemma client_free_socks_closed a0 n s c f :
  cl s = Some c -> client_closed c = true -> socks_closed c = false ->
  core c (ext s) -> silent (lw (ext s)) -> around a0 n s ->
  wp (client_free_socks (S f)) (fun _ s' => Inv a0 n s') s.
Proof. intros. eapply wp_mono; [by eapply client_free_socks_gone|]. by intros ? s' [? _]. Qed.

Lemma client_handle_freed_client_spec a0 n s c f :
  cl s = Some c -> client_closed c = false ->
  core c (ext s) -> silent (lw (ext s)) -> around a0 n s ->
  wp (client_handle_freed_client (S (S f))) (fun _ s' => Inv a0 n s') s.
Proof.
  intros Hc Hcc Hcore Hl Har. simpl client_handle_freed_client.
  assert (Hcore' : core (set_closed c true (socks_closed c)) (ext s)) by eauto using core_same with tcp.
  do 2 wstep. do 2 wstep; [by rewrite Hcc|]. do 2 wstep. wstep; [wstep|wstep].
  - apply andb_prop in H as [H1 H2]. apply negb_true_iff in H2.
    eapply Inv_alive; [eapply around_cl; eauto|done|by split|]. unfold useful. simpl. rewrite H2. lia.
  - eapply client_free_socks_closed; simpl; eauto with tcp. by apply negb_true_iff.
  - eapply client_dealloc_spec; simpl; eauto with tcp. by apply negb_false_iff.
Qed.

Definition no_cbs (e : env) : env :=
  {| lw := set_cbs (lw e) false false false; so := so e; lg := lg e |}.

Lemma remove_callbacks_spec s (Q : unit -> cst -> Prop) :
  pcb_live (lw (ext s)) = true -> Q tt (with_ext s (no_cbs (ext s))) -> wp remove_callbacks Q s.
Proof.
  intros Hl HQ. unfold remove_callbacks.
  do 2 (wstep; eapply wp_call; [simpl; by rewrite Hl|]). eapply wp_call; [simpl; by rewrite Hl|]. exact HQ.
Qed.

Lemma held_no_cbs c e : held c e -> held c (no_cbs e).
Proof. intros []. by split. Qed.
Lemma core_no_cbs c e : core c e -> core c (no_cbs e).
Proof. intros H. by apply (core_same c c e _ H). Qed.
Lemma around_no_cbs a0 n s : around a0 n s -> around a0 n (with_ext s (no_cbs (ext s))).
Proof. intros. by apply around_ext. Qed.
#[export] Hint Resolve held_no_cbs core_no_cbs around_no_cbs : tcp.

(** client_abort_pcb followed by client_handle_freed_client. *)
Lemma abort_then_freed a0 n s c f :
  cl s = Some c -> held c (ext s) -> cb_err (lw (ext s)) = false -> core c (ext s) -> around a0 n s ->
  wp (client_abort_pcb;;; client_handle_freed_client (S (S f))) (fun _ s' => Inv a0 n s') s.
Proof.
  intros Hc Hh Hce Hcore Har. wstep. eapply client_abort_pcb_spec; eauto. intros s' Hc' He' Har'.
  eapply client_handle_freed_client_spec; eauto; [apply Hh| |by rewrite He'].
  by apply (core_same c _ (ext s)); rewrite ?He'.
Qed.

Lemma client_abort_client_spec a0 n s c :
  cl s = Some c -> held c (ext s) -> core c (ext s) -> around a0 n s ->
  wp client_abort_client (fun _ s' => Inv a0 n s') s.
Proof.
  intros Hc Hh Hcore Har. unfold client_abort_client.
  do 2 wstep. do 2 wstep; [by rewrite (held_open _ _ Hh)|]. wstep.
  apply remove_callbacks_spec; [apply Hh|].
  eapply abort_then_freed; simpl; eauto with tcp.
Qed.

Lemma client_free_client_spec a0 n s c f :
  cl s = Some c -> held c (ext s) -> core c (ext s) -> around a0 n s ->
  wp (client_free_client (S (S (S f)))) (fun _ s' => Inv a0 n s') s.
Proof.
  intros Hc Hh Hcore Har. cbn [client_free_client].
  do 2 wstep. do 2 wstep; [by rewrite (held_open _ _ Hh)|]. wstep.
  apply remove_callbacks_spec; [apply Hh|]. wstep. apply wp_ask. intros err. cbn beta.
  wstep. eapply wp_call. { simpl. rewrite (held_live _ _ Hh). done. }
  destruct (err =? ERR_OK) eqn:Eerr; simpl negb; cbn [when].
  - wstep. wstep. eapply client_handle_freed_client_spec; simpl; eauto with tcp; [apply Hh| |done].
    by apply (core_same c c (ext s)).
  - eapply abort_then_freed; simpl; eauto with tcp.
    + destruct Hh. by split.
    + by apply (core_same c c (ext s)).
Qed.

Lemma client_err_func_spec a0 n s c :
  cl s = Some c -> client_closed c = false -> core c (ext s) -> silent (lw (ext s)) ->
  around a0 n s -> wp client_err_func (fun _ s' => Inv a0 n s') s.
Proof.
  intros. unfold client_err_func. do 2 wstep. do 2 wstep; [by apply negb_true_iff|].
  eapply client_handle_freed_client_spec; eauto.
Qed.

(** client_free_socks when the pcb is held. *)
Lemma client_free_socks_held a0 n s c :
  cl s = Some c -> wf c (ext s) -> client_closed c = false -> socks_closed c = false -> around a0 n s ->
  wp (client_free_socks FUEL) (fun _ s' => Inv a0 n s') s.
Proof.
  intros Hc [Hcore Hw] Hcc Hsc Har. rewrite Hcc in Hw. destruct Hw as (Hh & Hop & Hset & _).
  unfold FUEL. cbn [client_free_socks].
  do 2 wstep. do 2 wstep; [by rewrite Hsc|]. rewrite Hcc. cbn [when negb]. wstep.
  pose (p := if socks_up c then lw_call (lw (ext s)) tcp_recv_null else lw (ext s)).
  apply (wp_mono _ (fun _ s' => s' = with_ext s {| lw := p; so := so (ext s); lg := lg (ext s) |})).
  { subst p. wstep; rewrite H.
    - eapply wp_call; [simpl; by rewrite (held_live _ _ Hh)|done].
    - by destruct s as [? ? [] ? ?]. }
  intros _ s' ->. assert (Hp : pcb_live p = true /\ written p = written (lw (ext s)) /\ acked p = acked (lw (ext s))
     /\ recved p = recved (lw (ext s)) /\ n_aborts p = n_aborts (lw (ext s)) /\ cb_err p = true
     /\ cb_sent p = socks_up c /\ (socks_up c = true -> cb_recv p = false) /\ pcb_closing p = false).
  { destruct Hh, Hop. subst p. destruct (socks_up c); simpl; by split_and!. }
  destruct Hp as (Hpl & Hpw & Hpa & Hpr & Hpn & Hpe & Hps & Hpc & Hpg). clearbody p.
  wstep. eapply wp_call. { simpl. rewrite (core_live _ _ Hcore), Hsc. simpl. done. }
  do 2 wstep.
  assert (Hcore' : core (set_closed c false true)
            {| lw := p; so := {| socks_live := false; socks_reported := socks_reported (so (ext s));
                                 socks_sending := None; socks_receiving := false |}; lg := lg (ext s) |}).
  { apply (core_same (set_closed c false true) _ _ _ (core_socks_freed c (ext s) false Hcore)); done. }
  match goal with |- wp _ _ ?t => assert (Har' : around a0 n t) end.
  { eapply around_cl; [apply around_ext; [apply around_ext; [exact Har|done]|done]|simpl; eauto..]. }
  wstep; [wstep|cbn [negb]].
  - apply andb_prop in H as [H _]. apply andb_prop in H as [Hup H]. rewrite Hup in *.
    eapply Inv_alive; [exact Har'|done| |].
    + split; [done|]. split_and!.
      * destruct Hh. by split.
      * destruct Hop as [? ? ? ? Hd Hpd]. split; simpl; rewrite ?Hpw, ?Hpr, ?Hpa, ?Hps, ?Hpe; auto.
      * exact Hset.
      * done.
    + unfold useful. simpl. split; [done|]. lia.
  - eapply client_free_client_spec; simpl; eauto.
    + destruct Hh. by split.
Qed.

Lemma client_murder_spec a0 n s c :
  cl s = Some c -> wf c (ext s) -> around a0 n s ->
  wp client_murder (fun _ s' => Inv a0 n s') s.
Proof.
  intros Hc [Hcore Hw] Har. unfold client_murder. do 2 wstep. wstep.
  apply (wp_mono _ (fun _ s' => exists c', cl s' = Some c' /\ client_closed c' = true /\ core c' (ext s')
                                  /\ silent (lw (ext s')) /\ around a0 n s')).
  { wstep; [|exists c; rewrite negb_false_iff in H; rewrite H in Hw; done].
    apply negb_true_iff in H. rewrite H in Hw. destruct Hw as [Hh _]. wstep.
    apply remove_callbacks_spec; [apply Hh|]. wstep.
    eapply client_abort_pcb_spec; simpl; eauto with tcp. intros s' Hc' He' Har'.
    do 3 wstep. eexists. split; [done|]. simpl. rewrite He'. split_and!; [done| |done|eapply around_cl; eauto].
    by apply (core_same c _ (ext s)). }
  intros _ s' (c' & Hc' & Hcc' & Hcore' & Hl' & Har'). do 3 wstep. wstep.
  - apply negb_true_iff in H. wstep. eapply wp_call. { simpl. rewrite (core_live _ _ Hcore'), H. done. }
    wstep. eapply client_dealloc_spec; simpl; eauto with tcp.
  - apply negb_false_iff in H. eapply client_dealloc_spec; eauto.
Qed.

Lemma memmove_front b n used m b' :
  0 <= n <= used -> used <= blen b -> mem_read b n (used - n) = Some m -> mem_write b 0 m = Some b' ->
  blen b' = blen b /\ btake used b = btake n b ++ btake (used - n) b'.
Proof.
  intros ? ? (_ & _ & ? & ->)%mem_read_inv W. pose proof (mem_write_inv _ _ _ _ W) as (_ & _ & HL & _).
  split; [done|]. pose proof (mem_write_prefix _ _ _ _ W) as P.
  rewrite blen_btake in P by (rewrite blen_bdrop; lia). rewrite Z.add_0_l in P. rewrite P. simpl.
  replace used with (n + (used - n)) at 1 by lia. rewrite btake_plus by lia. done.
Qed.

Section SendDone.
Context (a0 : option nat) (n : Z) (s : cst) (c : tcp_client) (len k : Z).
Context (Hc : cl s = Some c) (Hw : wf c (ext s)) (Hu : useful c) (Har : around a0 n s).
Context (Hs : socks_sending (so (ext s)) = Some len) (Hk : 0 < k <= len).

(** The client and its surroundings after [k] bytes were sent and the next
    send, if there is something to send, was started. *)
Lemma core_sent b p x :
  core c (ext s) -> blen b = TCP_WND -> btake (buf_used c) (buf c) = btake k (buf c) ++ btake (buf_used c - k) b ->
  written p = written (lw (ext s)) -> acked p = acked (lw (ext s)) ->
  x = (if buf_used c - k >? 0 then Some (buf_used c - k) else None) ->
  core (set_buf c b (buf_used c - k))
       {| lw := p;
          so := {| socks_live := socks_live (so (ext s)); socks_reported := socks_reported (so (ext s));
                   socks_sending := x; socks_receiving := socks_receiving (so (ext s)) |};
          lg := lg (socks_moved (SE_send_done k) (buf c) (ext s)) |}.
Proof using Hs Hk.
  intros [] Hb Hm Ew Ea ->. rewrite Hs in core_sending0. destruct core_sending0 as (? & ? & ?).
  split; simpl; rewrite ?Ew, ?Ea; try done; try lia.
  - destruct (Z.gtb_spec (buf_used c - k) 0); [done|lia].
  - by rewrite core_upstream0, Hm, app_assoc.
Qed.

(** What is left to send after [k] bytes were sent; a client whose pcb is closed
    goes when there is nothing left. *)
Definition send_done_post (s' : cst) : Prop :=
  up_in (lg (ext s')) = up_in (lg (ext s)) /\
  (if buf_used c - k >? 0 then
     exists c', cl s' = Some c' /\ client_closed c' = client_closed c /\ buf_used c' = buf_used c - k
                /\ socks_sending (so (ext s')) = Some (buf_used c - k)
   else client_closed c = true -> cl s' = None /\ up_out (lg (ext s')) = up_in (lg (ext s'))).

Lemma client_socks_send_handler_done_spec :
  wp (client_socks_send_handler_done k) (fun _ s' => Inv a0 n s' /\ send_done_post s')
     (with_ext s (socks_moved (SE_send_done k) (buf c) (ext s))).
Proof using Hc Hw Hu Har Hs Hk.
  destruct Hw as [Hcore Hw']. pose proof (core_sending _ _ Hcore) as Hsnd. rewrite Hs in Hsnd.
  destruct Hsnd as (Hup & Hsc & Hlen). pose proof (core_used _ _ Hcore). pose proof (core_buf _ _ Hcore).
  unfold client_socks_send_handler_done. do 2 wstep. do 2 wstep; [by rewrite Hsc|]. do 2 wstep; [done|].
  do 2 wstep; [lia|]. do 2 wstep; [lia|]. do 2 wstep; [lia|].
  destruct (mem_read (buf c) k (buf_used c - k)) as [m|] eqn:Em; [|rewrite mem_read_in in Em by lia; done].
  wstep. apply (wp_lift _ _ _ m); [done|]. wstep.
  destruct (mem_write (buf c) 0 m) as [b|] eqn:Eb.
  2:{ apply mem_read_inv in Em as (_ & _ & ? & ->).
      rewrite mem_write_in in Eb by (rewrite ?blen_btake by (rewrite blen_bdrop; lia); lia). done. }
  destruct (memmove_front (buf c) k (buf_used c) m b) as [HL HB]; [lia|lia|done|done|].
  apply (wp_lift _ _ _ b); [done|]. do 2 wstep. wstep.
  pose (p := if client_closed c then lw (ext s) else lw_call (lw (ext s)) (tcp_recved k)).
  pose (e1 := socks_moved (SE_send_done k) (buf c) (ext s)).
  apply (wp_mono _ (fun _ s' => s' = with_ext (with_cl s (Some (set_buf c b (buf_used c - k))))
                                       {| lw := p; so := so e1; lg := lg e1 |})).
  { subst p. simpl. destruct (client_closed c) eqn:Ecc; [done|].
    eapply wp_call; [simpl; by rewrite (held_live _ _ (proj1 Hw'))|done]. }
  intros _ s' ->.
  assert (Hp : written p = written (lw (ext s)) /\ acked p = acked (lw (ext s))
               /\ n_aborts p = n_aborts (lw (ext s))).
  { subst p. by destruct (client_closed c). }
  destruct Hp as (Hpw & Hpa & Hpn).
  pose proof (fun x => core_sent b p x Hcore ltac:(congruence) HB Hpw Hpa) as HC.
  match goal with |- wp _ _ ?t => assert (Har' : around a0 n t) end.
  { by apply (around_put a0 n s c). }
  assert (Hwf : forall x, x = (if buf_used c - k >? 0 then Some (buf_used c - k) else None) ->
     wf (set_buf c b (buf_used c - k))
       {| lw := p;
          so := {| socks_live := socks_live (so (ext s)); socks_reported := socks_reported (so (ext s));
                   socks_sending := x; socks_receiving := socks_receiving (so (ext s)) |};
          lg := lg e1 |}).
  { intros x Hx. split; [by apply HC|]. subst p. simpl. destruct (client_closed c) eqn:Ecc; [done|].
    destruct Hw' as ([] & [] & ? & ?). split_and!; [by split| |done|done]. split; simpl; try done.
    rewrite blen_app, blen_btake by lia. lia. }
  simpl buf_used. simpl client_closed. wstep.
  - eapply wp_call.
    { simpl. rewrite (core_live _ _ Hcore), Hsc, H1. simpl. rewrite (core_up _ _ Hcore Hsc), Hup. simpl. done. }
    split; [|split; [done|rewrite H1; by eexists]].
    eapply Inv_alive; [apply around_ext; [exact Har'|done]|done| |].
    + pose proof (Hwf (Some (buf_used c - k)) ltac:(by rewrite H1)) as Hwf'.
      rewrite (core_live _ _ Hcore), Hsc, (core_up _ _ Hcore Hsc), Hup in Hwf'. exact Hwf'.
    + unfold useful in *. simpl. rewrite Hsc in *. destruct (client_closed c); [lia|done].
  - assert (Hwf' := Hwf None ltac:(by rewrite H1)). wstep.
    + eapply wp_mono; [eapply client_free_socks_gone; simpl; eauto|].
      * apply Hwf'.
      * destruct Hwf' as [_ Hx]. simpl in Hx. by rewrite H2 in Hx.
      * intros ? s' (HI' & Hn' & Hlg). split; [done|]. unfold send_done_post. rewrite Hlg, H1. simpl. split; [done|].
        intros _. split; [done|]. pose proof (core_upstream _ _ (proj1 Hwf')) as Hus. simpl in Hus. rewrite Hus.
        zbool. replace (buf_used c - k) with 0 by lia. by rewrite app_nil_r.
    + split; [|split; [done|rewrite H1; congruence]].
      eapply Inv_alive; [exact Har'|done|done|]. unfold useful. simpl. by rewrite H2, Hsc.
Qed.
End SendDone.

(** The downstream buffer holds data and is being queued in the pcb. *)
Record queuing (c : tcp_client) (e : env) : Prop := {
  q_core : core c e;
  q_held : held c e;
  q_opened : opened c e;
  q_up : socks_up c = true;
  q_used : 0 < socks_recv_buf_used c <= CLIENT_SOCKS_RECV_BUF_SIZE;
  q_sent : 0 <= socks_recv_buf_sent c <= socks_recv_buf_used c }.

Definition advance (c : tcp_client) (k : Z) : tcp_client :=
  set_down c (socks_up c) (socks_recv_buf c) (socks_recv_buf_used c) (socks_recv_buf_sent c + k)
    (socks_recv_waiting c) (socks_recv_tcp_pending c + k).

Lemma recv_rest_advance c k d :
  blen (socks_recv_buf c) = CLIENT_SOCKS_RECV_BUF_SIZE ->
  0 < socks_recv_buf_used c <= CLIENT_SOCKS_RECV_BUF_SIZE -> 0 <= socks_recv_buf_sent c ->
  0 <= k -> socks_recv_buf_sent c + k <= socks_recv_buf_used c ->
  mem_read (socks_recv_buf c) (socks_recv_buf_sent c) k = Some d ->
  recv_rest c = d ++ recv_rest (advance c k).
Proof.
  intros Hb Hu Hs Hk Hsk (_ & _ & _ & ->)%mem_read_inv. unfold recv_rest. simpl. zbool.
  destruct (Z.ltb_spec 0 (socks_recv_buf_used c)); [|lia].
  rewrite <- bdrop_bdrop by lia.
  replace (socks_recv_buf_used c) with (socks_recv_buf_sent c + (socks_recv_buf_used c - socks_recv_buf_sent c)) by lia.
  rewrite bdrop_btake by lia.
  rewrite <- (btake_btake k (socks_recv_buf_used c - socks_recv_buf_sent c)) by lia.
  by rewrite btake_bdrop.
Qed.

Lemma queuing_advance c e k d :
  queuing c e -> 0 < k -> socks_recv_buf_sent c + k <= socks_recv_buf_used c ->
  mem_read (socks_recv_buf c) (socks_recv_buf_sent c) k = Some d ->
  queuing (advance c k) {| lw := lw_call (lw e) (tcp_write d true); so := so e; lg := lg e |}.
Proof.
  intros [[] [] [] Hup Hu Hs] Hk Hsk Hd. specialize (op_pending0 Hup) as (Hp & Hak & Hp0). rewrite Hup in op_down0.
  rewrite (recv_rest_advance c k d) in op_down0 by (done || lia).
  assert (blen d = k). { apply mem_read_inv in Hd as (? & ? & ? & ->). apply blen_btake. rewrite blen_bdrop; lia. }
  split; [split|split|split|..]; simpl; try done; try lia; try congruence.
  - rewrite op_down0, app_assoc. by eexists.
  - by rewrite Hup, <- app_assoc.
  - intros _. rewrite blen_app. lia.
Qed.

Lemma send_out_loop_spec a0 n fuel : forall s c,
  cl s = Some c -> queuing c (ext s) -> socks_recv_buf_sent c < socks_recv_buf_used c ->
  socks_recv_buf_used c - socks_recv_buf_sent c <= Z.of_nat fuel -> around a0 n s ->
  wp (send_out_loop fuel)
     (fun gone s' => if (gone : bool) then Inv a0 n s' else
        exists k, 0 <= k /\ cl s' = Some (advance c k) /\ queuing (advance c k) (ext s')
                  /\ so (ext s') = so (ext s) /\ around a0 n s') s.
Proof.
  induction fuel as [|fuel IH]; intros s c Hc Hq Hlt Hfuel Har; [lia|]. cbn [send_out_loop].
  pose proof Hq as [Hcore Hh Hop Hup Hu Hs]. pose proof (core_rbuf _ _ Hcore) as Hrb.
  assert (H0 : advance c 0 = c).
  { destruct c; unfold advance; simpl. by rewrite !Z.add_0_r. }
  do 5 wstep. eapply wp_call; [simpl; by rewrite (held_live _ _ Hh)|].
  pose proof (u16_range v) as Hv. set (k := Z.min _ _).
  assert (Hext : {| lw := lw (ext s); so := so (ext s); lg := lg (ext s) |} = ext s) by (by destruct (ext s)).
  simpl. rewrite Hext. wstep.
  { wstep. exists 0. rewrite H0. split_and!; [lia|done..]. }
  zbool. wstep.
  destruct (mem_read (socks_recv_buf c) (socks_recv_buf_sent c) k) as [d|] eqn:Ed.
  2:{ rewrite mem_read_in in Ed by lia. done. }
  apply (wp_lift _ _ _ d); [done|]. do 3 wstep.
  eapply wp_call; [simpl; by rewrite (held_live _ _ Hh)|]. simpl.
  destruct (v0 =? ERR_OK) eqn:Eok; cbn [negb].
  - do 2 wstep. fold (advance c k).
    assert (Hq' := queuing_advance c (ext s) k d Hq ltac:(lia) ltac:(lia) Ed).
    match goal with |- wp _ _ ?t => assert (Har' : around a0 n t) end.
    { eapply around_cl; [apply around_ext; [exact Har|done]|simpl; eauto..]. }
    wstep.
    + zbool. eapply wp_mono; [apply (IH _ (advance c k)); simpl in *; try done; lia|].
      intros [] s'; [done|]. intros (k' & Hk' & Hc' & Hq'' & Hso & Har'').
      exists (k + k'). replace (advance c (k + k')) with (advance (advance c k) k')
        by (unfold advance; simpl; by rewrite !Z.add_assoc).
      split_and!; [lia|done..].
    + wstep. exists k. split_and!; [lia|done..].
  - rewrite Hext. wstep.
    + wstep. exists 0. rewrite H0. split_and!; [lia|done..].
    + wstep. eapply wp_mono; [eapply client_abort_client_spec; simpl; eauto|]. intros ? s1 HI. by wstep.
Qed.

(** The state after client_socks_recv_send_out returned 0. *)
Record queued (c : tcp_client) (e : env) : Prop := {
  qd_core : core c e;
  qd_held : held c e;
  qd_opened : opened c e;
  qd_settled : settled c;
  qd_up : socks_up c = true;
  qd_pending : 0 < socks_recv_tcp_pending c }.

Lemma queued_waiting c e :
  queuing c e -> socks_recv_buf_sent c < socks_recv_buf_used c -> socks_recv_tcp_pending c <> 0 ->
  queued (set_down c (socks_up c) (socks_recv_buf c) (socks_recv_buf_used c) (socks_recv_buf_sent c) true
            (socks_recv_tcp_pending c)) e.
Proof.
  intros [Hcore Hh Hop Hup Hu Hs] Hlt Hp. destruct (op_pending _ _ Hop Hup) as (Ep & Ea & E0).
  split; simpl; try done; try lia.
  - by apply (core_same c _ e).
  - destruct Hh. by split.
  - destruct Hop. by split.
  - intros _. simpl. right. split_and!; try done; lia.
Qed.

Lemma queued_all c e :
  queuing c e -> socks_recv_buf_used c <= socks_recv_buf_sent c -> 0 < socks_recv_tcp_pending c ->
  queued (set_down c (socks_up c) (socks_recv_buf c) (-1) (socks_recv_buf_sent c) (socks_recv_waiting c)
            (socks_recv_tcp_pending c)) e.
Proof.
  intros [Hcore Hh Hop Hup Hu Hs] Hge Hp. assert (Hr : socks_receiving (so e) = false).
  { destruct (socks_receiving (so e)) eqn:E; [|done]. apply (core_receiving _ _ Hcore) in E. lia. }
  assert (Hnil : recv_rest c = []).
  { unfold recv_rest. destruct (_ >? 0); [|done]. apply drop_ge.
    pose proof (core_rbuf _ _ Hcore) as Hb. pose proof (blen_btake (socks_recv_buf_used c) (socks_recv_buf c)) as Hl.
    unfold blen in Hl, Hb. lia. }
  split; simpl; try done.
  - destruct Hcore. split; simpl; try done. by rewrite Hr.
  - destruct Hh. by split.
  - destruct Hop as [? ? ? ? Hd ?]. split; try done. simpl. rewrite Hup in *. by rewrite Hd, Hnil.
  - by left.
Qed.

Lemma client_socks_recv_send_out_spec a0 n s c :
  cl s = Some c -> queuing c (ext s) -> socks_recv_buf_sent c < socks_recv_buf_used c ->
  socks_recv_waiting c = false -> around a0 n s ->
  wp client_socks_recv_send_out
     (fun r s' => (r = -1 /\ Inv a0 n s') \/
        (r = 0 /\ exists c', cl s' = Some c' /\ queued c' (ext s') /\ socks_closed c' = socks_closed c
                             /\ so (ext s') = so (ext s) /\ around a0 n s')) s.
Proof.
  intros Hc Hq Hlt Hwait Har. pose proof Hq as [Hcore Hh Hop Hup Hu Hs].
  destruct (op_pending _ _ Hop Hup) as (Ep & Ea & E0).
  unfold client_socks_recv_send_out. do 2 wstep. do 2 wstep; [by rewrite (held_open _ _ Hh)|].
  do 2 wstep; [done|]. do 2 wstep; [lia|]. do 2 wstep; [lia|]. do 2 wstep; [by rewrite Hwait|]. wstep.
  eapply wp_mono; [apply (send_out_loop_spec a0 n _ s c); try done; lia|].
  intros [] s'; [intros HI; wstep; by left|]. intros (k & Hk & Hc' & Hq' & Hso & Har').
  pose proof (q_held _ _ Hq') as Hh'. cbn beta iota. do 3 wstep.
  eapply wp_call; [simpl; by rewrite (held_live _ _ Hh')|].
  match goal with |- wp _ _ ?t => set (s2 := t) end.
  assert (He2 : ext s2 = ext s') by (subst s2; simpl; by destruct (ext s')).
  assert (Hc2 : cl s2 = Some (advance c k)) by done.
  assert (Har2 : around a0 n s2). { apply around_ext; done. }
  rewrite <- He2 in Hq', Hso, Hh'. clearbody s2. clear Hc' Har'.
  assert (Hab : wp (client_abort_client;;; ret (-1))
                  (fun r s' => (r = -1 /\ Inv a0 n s') \/
                     (r = 0 /\ exists c', cl s' = Some c' /\ queued c' (ext s') /\ socks_closed c' = socks_closed c
                             /\ so (ext s') = so (ext s) /\ around a0 n s')) s2).
  { wstep. eapply wp_mono; [eapply client_abort_client_spec; eauto; apply Hq'|]. intros ? s3 HI. wstep. by left. }
  wstep; [exact Hab|]. do 2 wstep. wstep; [wstep; [exact Hab|]|].
  - do 3 wstep. right. split; [done|]. zbool. eexists. split; [done|]. split; [by apply queued_waiting|].
    split_and!; [done..|]. eapply around_cl; eauto.
  - do 3 wstep. right. split; [done|]. zbool. eexists. split; [done|].
    split; [apply queued_all; [done|lia|simpl in *; lia]|].
    split_and!; [done..|]. eapply around_cl; eauto.
Qed.

Lemma client_socks_recv_initiate_spec a0 n s c (Q : unit -> cst -> Prop) :
  cl s = Some c -> core c (ext s) -> held c (ext s) -> opened c (ext s) -> socks_up c = true ->
  socks_closed c = false -> socks_recv_buf_used c = -1 ->
  socks_receiving (so (ext s)) = false -> around a0 n s ->
  (forall s', Inv a0 n s' -> Q tt s') ->
  wp client_socks_recv_initiate Q s.
Proof.
  intros Hc Hcore Hh Hop Hup Hsc Hu Hr Har HQ. unfold client_socks_recv_initiate.
  do 2 wstep. do 2 wstep; [by rewrite (held_open _ _ Hh)|]. do 2 wstep; [by rewrite Hsc|].
  do 2 wstep; [done|]. do 2 wstep; [lia|].
  eapply wp_call. { simpl. rewrite (core_live _ _ Hcore), Hsc. simpl. by rewrite (core_up _ _ Hcore Hsc), Hup, Hr. }
  apply HQ. eapply Inv_alive; [apply around_ext; [exact Har|done]|done| |].
  - split. { destruct Hcore. split; simpl; try done; rewrite ?Hsc, ?Hup; done. }
    rewrite (held_open _ _ Hh). split_and!; [destruct Hh|destruct Hop|by left|]; try done; by split.
  - unfold useful. by rewrite (held_open _ _ Hh), Hsc.
Qed.

Lemma client_free_socks_spec a0 n s c :
  cl s = Some c -> wf c (ext s) -> socks_closed c = false -> around a0 n s ->
  wp (client_free_socks FUEL) (fun _ s' => Inv a0 n s') s.
Proof.
  intros Hc Hw Hsc Har. destruct (client_closed c) eqn:Hcc; [|by apply client_free_socks_held with c].
  apply client_free_socks_closed with c; try done; [apply Hw|]. destruct Hw as [_ Hw]. by rewrite Hcc in Hw.
Qed.

Section SocksEvents.
Context (a0 : option nat) (n : Z) (s : cst) (c : tcp_client).
Context (Hc : cl s = Some c) (Hw : wf c (ext s)) (Hu : useful c) (Har : around a0 n s).
Context (Hsc : socks_closed c = false).

Lemma client_socks_handler_up :
  socks_up c = false ->
  wp (client_socks_handler BSOCKSCLIENT_EVENT_UP) (fun _ s' => Inv a0 n s')
     (with_ext s (socks_moved (SE_handler BSOCKSCLIENT_EVENT_UP) (buf c) (ext s))).
Proof using Hc Hw Hu Har Hsc.
  intros Hup. destruct Hw as [Hcore Hw']. pose proof (core_used _ _ Hcore) as Hbu.
  destruct (core_not_up _ _ Hcore Hup) as (Ewr & Eak & Edi).
  assert (Hsnd : socks_sending (so (ext s)) = None).
  { pose proof (core_sending _ _ Hcore) as Hs. destruct (socks_sending _); [|done]. rewrite Hup in Hs. by destruct Hs. }
  assert (Hrcv : socks_receiving (so (ext s)) = false).
  { destruct (socks_receiving _) eqn:E; [|done]. apply (core_receiving _ _ Hcore) in E. rewrite Hup in E. by destruct E. }
  unfold client_socks_handler. do 2 wstep. do 2 wstep; [by rewrite Hsc|]. do 2 wstep; [by rewrite Hup|]. wstep.
  pose (p := if client_closed c then lw (ext s) else lw_call (lw (ext s)) tcp_sent_set).
  pose (c1 := set_down c true (socks_recv_buf c) (-1) (socks_recv_buf_sent c) (socks_recv_waiting c) 0).
  pose (x := if buf_used c >? 0 then Some (buf_used c) else None).
  pose (e1 := fun x => {| lw := p; lg := lg (ext s);
                so := {| socks_live := true; socks_reported := true; socks_sending := x; socks_receiving := false |} |}).
  assert (He0 : so (socks_moved (SE_handler BSOCKSCLIENT_EVENT_UP) (buf c) (ext s)) = so (e1 None)).
  { simpl. by rewrite (core_live _ _ Hcore), Hsc, Hsnd, Hrcv. }
  apply (wp_mono _ (fun _ s' => s' = with_ext s (e1 None))).
  { unfold e1. subst p. destruct (client_closed c); cbn [negb when].
    - wstep. unfold with_ext. f_equal. simpl in *. by rewrite He0.
    - eapply wp_call; [simpl; by rewrite (held_live _ _ (proj1 Hw'))|]. unfold with_ext. f_equal. simpl in *.
      by rewrite He0. }
  intros _ s' ->. do 2 wstep. wstep.
  apply (wp_mono _ (fun _ s' => s' = with_ext (with_cl s (Some c1)) (e1 x))).
  { subst x. wstep; rewrite H; [|done]. unfold client_send_to_socks. do 2 wstep. do 2 wstep; [simpl; by rewrite Hsc|].
    do 2 wstep; [done|]. do 2 wstep; [done|]. eapply wp_call; [simpl; by rewrite H|done]. }
  intros _ s' ->.
  assert (Hp : written p = written (lw (ext s)) /\ acked p = acked (lw (ext s))
               /\ n_aborts p = n_aborts (lw (ext s)) /\ recved p = recved (lw (ext s))).
  { subst p. by destruct (client_closed c). }
  destruct Hp as (Hpw & Hpa & Hpn & Hpr).
  assert (Hcore1 : core c1 (e1 x)).
  { destruct Hcore. split; simpl; rewrite ?Hsc, ?Hpw, ?Hpa, ?Ewr; try done.
    - subst x. destruct (Z.gtb_spec (buf_used c) 0); [done|intros; lia].
    - rewrite Edi. done. }
  match goal with |- wp _ _ ?t => assert (Har' : around a0 n t) by (by apply (around_put a0 n s c)) end.
  destruct (client_closed c) eqn:Hcc; cbn [negb when].
  - wstep. eapply Inv_alive; [done|done| |].
    + split; [done|]. simpl. rewrite Hcc. subst p. exact Hw'.
    + unfold useful in *. simpl. by rewrite Hcc, Hsc in *.
  - destruct Hw' as (Hh & Hop & _). eapply client_socks_recv_initiate_spec; simpl; try done.
    + destruct Hh. subst p. by split.
    + destruct Hop as [? ? ? ? Hd ?]. subst p. split; simpl; try done.
      * by rewrite Ewr, Edi.
      * intros _. rewrite Ewr, Eak, blen_nil. lia.
Qed.

(** The buffer after [data] was received into it. *)
Definition with_data (b : bytes) : tcp_client :=
  set_down c (socks_up c) b (socks_recv_buf_used c) (socks_recv_buf_sent c) (socks_recv_waiting c)
    (socks_recv_tcp_pending c).

Lemma client_socks_recv_handler_done_spec data b :
  socks_receiving (so (ext s)) = true -> 0 < blen data <= CLIENT_SOCKS_RECV_BUF_SIZE ->
  mem_write (socks_recv_buf c) 0 data = Some b ->
  wp (client_socks_recv_handler_done (blen data)) (fun _ s' => Inv a0 n s')
     (with_cl (with_ext s (socks_moved (SE_recv_done data) (buf c) (ext s))) (Some (with_data b))).
Proof using Hc Hw Hu Har Hsc.
  intros Hrcv Hlen Hb. destruct Hw as [Hcore Hw'].
  destruct (core_receiving _ _ Hcore Hrcv) as (Hup & _ & Hused).
  pose proof (mem_write_inv _ _ _ _ Hb) as (_ & _ & HL & _).
  pose proof (mem_write_prefix _ _ _ _ Hb) as HP. rewrite Z.add_0_l in HP.
  unfold client_socks_recv_handler_done. do 2 wstep. do 2 wstep; [lia|]. do 2 wstep; [lia|].
  do 2 wstep; [simpl; by rewrite Hsc|]. do 2 wstep; [done|]. do 2 wstep; [simpl; lia|].
  pose (e1 := socks_moved (SE_recv_done data) (buf c) (ext s)).
  assert (Hcore1 : forall u t w, core (set_down c (socks_up c) b u t w (socks_recv_tcp_pending c)) e1).
  { intros u t w. destruct Hcore. split; simpl; try done; try congruence. by apply prefix_app_r. }
  assert (Har1 : forall c', aborted c' = aborted c -> dead_aborted c' = dead_aborted c ->
                   around a0 n (with_cl (with_ext s e1) (Some c'))).
  { intros c' ? ?. eapply around_cl; [by apply around_ext|simpl; eauto..]. }
  simpl client_closed. destruct (client_closed c) eqn:Hcc.
  { wstep. eapply Inv_alive; [apply Har1; done|done| |].
    - split; [apply Hcore1|]. simpl. by rewrite Hcc.
    - unfold useful in *. simpl. by rewrite Hcc, Hsc in *. }
  destruct Hw' as (Hh & Hop & _). do 2 wstep. unfold with_data. simpl.
  match goal with |- context [set_down _ _ _ (blen data) 0 false _] => idtac end.
  pose (c2 := set_down c (socks_up c) b (blen data) 0 false (socks_recv_tcp_pending c)).
  assert (Hq : queuing c2 e1).
  { split; try done; simpl.
    - apply Hcore1.
    - destruct Hh. by split.
    - destruct Hop as [? ? ? ? Hd ?]. split; simpl; try done. rewrite Hd, Hup. unfold recv_rest at 1. rewrite Hused.
      simpl. rewrite app_nil_r. f_equal. unfold recv_rest. simpl.
      destruct (Z.gtb_spec (blen data) 0); [|lia]. by rewrite bdrop_0, HP.
    - lia. }
  wstep. eapply wp_mono; [apply (client_socks_recv_send_out_spec a0 n _ c2); try done; [simpl; lia|apply (Har1 c2); done]|].
  cbn beta. intros r s' [(-> & HI)|(-> & c' & Hc' & [Hcore' Hh' Hop' Hset Hup' Hp] & Hsc' & Hso & Har')];
    [by wstep|]. assert (Hsc2 : socks_closed c' = false) by (rewrite Hsc'; exact Hsc).
  cbn [Z.ltb Z.compare]. do 2 wstep. wstep.
  - apply (client_socks_recv_initiate_spec a0 n s' c'); try done; [lia|by rewrite Hso].
  - eapply Inv_alive; eauto.
    + split; [done|]. rewrite (held_open _ _ Hh'). split_and!; try done. intros. lia.
    + unfold useful. by rewrite (held_open _ _ Hh'), Hsc2.
Qed.
End SocksEvents.

(** Every event of the SOCKS side keeps the invariant. *)
Lemma socks_step_spec a0 n s v : Inv a0 n s -> wp (socks_step v) (fun _ s' => Inv a0 n s') s.
Proof.
  intros HI. unfold wp, socks_step. destruct (socks_enabled (so (ext s)) v) eqn:He; [|done].
  change (wp (c <- get;; modify_ext (socks_moved v (buf c));;;
     match v with
     | SE_handler event => client_socks_handler event
     | SE_send_done n => client_socks_send_handler_done n
     | SE_recv_done data =>
         b <- lift (mem_write (socks_recv_buf c) 0 data);;
         put (set_down c (socks_up c) b (socks_recv_buf_used c) (socks_recv_buf_sent c) (socks_recv_waiting c)
                (socks_recv_tcp_pending c));;;
         client_socks_recv_handler_done (blen data)
     end) (fun _ s' => Inv a0 n s') s).
  apply andb_prop in He as [Hlive He]. destruct (cl s) as [c|] eqn:Hc.
  2:{ destruct HI as (_ & _ & Hx). rewrite Hc in Hx. destruct Hx as [[_ Hg _ _] _]. congruence. }
  destruct (Inv_elim _ _ _ _ HI Hc) as (Har & Hw & Hu).
  assert (Hsc : socks_closed c = false).
  { rewrite (core_live _ _ (proj1 Hw)) in Hlive. by apply negb_true_iff. }
  pose proof (core_up _ _ (proj1 Hw) Hsc) as Hup.
  assert (Hfree : wp (client_free_socks FUEL) (fun _ s' => Inv a0 n s') s) by (by eapply client_free_socks_spec).
  assert (Hid : with_ext s (ext s) = s) by (by destruct s).
  do 4 wstep. destruct v as [[]|k|data]; simpl in He |- *.
  - rewrite Hid. unfold client_socks_handler. do 2 wstep. do 2 wstep; [by rewrite Hsc|]. exact Hfree.
  - apply (client_socks_handler_up a0 n s c); try done. rewrite <- Hup. by apply negb_true_iff.
  - rewrite Hid. unfold client_socks_handler. do 2 wstep. do 2 wstep; [by rewrite Hsc|].
    do 2 wstep; [by rewrite <- Hup|]. exact Hfree.
  - destruct (socks_sending (so (ext s))) as [l|] eqn:Hs; [|done]. zbool.
    eapply wp_mono; [by eapply (client_socks_send_handler_done_spec a0 n s c); eauto|]. by intros ? s' [? _].
  - zbool. pose proof (core_rbuf _ _ (proj1 Hw)) as Hb.
    destruct (mem_write_some (socks_recv_buf c) 0 data) as (b & Eb & _); [lia|lia|].
    wstep. apply (wp_lift _ _ _ b); [done|]. do 2 wstep.
    apply (client_socks_recv_handler_done_spec a0 n s c); try done.
Qed.

Lemma SYNC_COMMIT_spec a0 n jobs : forall s, Inv a0 n s -> wp (SYNC_COMMIT jobs) (fun _ s' => Inv a0 n s') s.
Proof.
  induction jobs as [|v jobs IH]; intros s HI; [done|]. simpl. wstep.
  eapply wp_mono; [by apply socks_step_spec|]. intros ? s' HI'. by apply IH.
Qed.

(** * The callbacks of lwIP *)

(** What lwIP needs of a callback that began with [a] calls of tcp_abort: the
    result is ERR_ABRT exactly when it called tcp_abort. *)
Definition cb_post (a : nat) (n : Z) (r : Z) (s : cst) : Prop :=
  Inv None n s
  /\ ((r = ERR_ABRT /\ n_aborts (lw (ext s)) = S a) \/ (r <> ERR_ABRT /\ n_aborts (lw (ext s)) = a)).

Lemma wf_dead c e d : wf c e -> wf (set_aborted c (aborted c) d) e.
Proof.
  intros [Hcore Hw]. split; [by apply (core_same c _ e)|]. simpl.
  destruct (client_closed c); [done|]. destruct Hw as ([] & [] & ? & ?). split_and!; try done; by split.
Qed.

Lemma DEAD_ENTER_spec n s c (Q : option nat -> cst -> Prop) :
  cl s = Some c -> around None n s -> aborted c = false ->
  (forall s', cl s' = Some (set_aborted c (aborted c) (Some 0%nat)) -> ext s' = ext s ->
              around (Some (n_aborts (lw (ext s)))) n s' -> Q None s') ->
  wp DEAD_ENTER Q s.
Proof.
  intros Hc (Hf & Hn & Hnum) Ha HQ.
  unfold wp, DEAD_ENTER. rewrite Hc. simpl. unfold finv in Hf. destruct (frames s) eqn:Ef; [|done].
  rewrite (Hf c Hc Ha). simpl. apply HQ; [done..|]. split; [|done]. unfold finv. simpl.
  left. split_and!; [done..|]. by eexists.
Qed.

Lemma DEAD_LEAVE2_spec a n s (Q : Z -> cst -> Prop) :
  Inv (Some a) n s ->
  (forall v s', Inv None n s' -> ext s' = ext s ->
     ((v = 1 /\ n_aborts (lw (ext s)) = S a) \/ (v <= 0 /\ n_aborts (lw (ext s)) = a)) -> Q v s') ->
  wp (DEAD_LEAVE2 None) Q s.
Proof.
  intros (Hf & Hn & Hx) HQ. unfold wp, DEAD_LEAVE2. unfold finv in Hf.
  destruct (frames s) as [|v [|? ?]] eqn:Ef; [done| |done]. simpl.
  destruct Hf as [(-> & Ha & c & Hc & Hab & Hd)|[(-> & Ha & Hab)|(-> & Ha & Hc)]]; simpl.
  - rewrite Hc in Hx |- *. destruct Hx as (Hw & Hu & Hnum). simpl. apply HQ; [|done|by right].
    eapply Inv_alive; [|done|by apply wf_dead|done]. split; [|done]. unfold finv. simpl. rewrite ?Ef. simpl.
    by intros ? [= <-].
  - apply HQ; [|done|by left]. split_and!; [|done|exact Hx]. unfold finv. simpl. rewrite ?Ef. simpl.
    intros c Hc Hab'. specialize (Hab c Hc). congruence.
  - apply HQ; [|done|right; split; [lia|done]]. split_and!; [|done|exact Hx]. unfold finv. simpl. rewrite ?Ef. simpl.
    intros c Hc'. congruence.
Qed.

(** The end of a callback. *)
Lemma leave_callback a n s :
  Inv (Some a) n s ->
  wp (dead <- DEAD_LEAVE2 None;; ret (callback_result dead)) (fun r s' => cb_post a n r s' /\ (r = ERR_OK \/ r = ERR_ABRT)) s.
Proof.
  intros HI. wstep. eapply DEAD_LEAVE2_spec; [exact HI|]. intros v s' HI' He Hv. wstep.
  split; [|unfold callback_result; destruct (_ >? 0); auto]. split; [done|]. rewrite He.
  unfold callback_result. destruct Hv as [(-> & Ha)|(Hv & Ha)]; [by left|right]. split; [|done].
  destruct (Z.gtb_spec v 0); [lia|done].
Qed.

Lemma open_elim n a0 s c :
  Inv a0 n s -> cl s = Some c -> pcb_live (lw (ext s)) = true ->
  client_closed c = false /\ held c (ext s) /\ opened c (ext s) /\ core c (ext s) /\ settled c.
Proof.
  intros HI Hc Hl. destruct (Inv_elim _ _ _ _ HI Hc) as (_ & [Hcore Hw] & _).
  destruct (client_closed c); [destruct Hw; congruence|]. destruct Hw as (? & ? & ? & _). by split_and!.
Qed.

(** lwIP calls back only while the client has the pcb. *)
Lemma called_live n s : Inv None n s -> pcb_there (lw (ext s)) = true ->
  cb_err (lw (ext s)) || cb_recv (lw (ext s)) || cb_sent (lw (ext s)) = true ->
  pcb_live (lw (ext s)) = true /\ exists c, cl s = Some c.
Proof.
  intros (_ & _ & Hx) Ht Hcb.
  assert (Hs : silent (lw (ext s)) -> False).
  { intros [Hl Hc]. unfold pcb_there in Ht. rewrite Hl in Ht. destruct (Hc Ht) as (E1 & E2 & E3). by rewrite E1, E2, E3 in Hcb. }
  destruct (cl s) as [c|]; [|destruct Hx as [[Hp _ _ _] _]; by destruct Hs].
  destruct Hx as ([_ Hw] & _). destruct (client_closed c); [by destruct Hs|]. split; [apply Hw|by eexists].
Qed.

(** The client after the data [p] was appended to its buffer. *)
Lemma core_append c e p b :
  core c e -> mem_write (buf c) (buf_used c) p = Some b -> 0 < blen p -> socks_closed c = false ->
  let c' := set_buf c b (buf_used c + blen p) in
  let x := if (buf_used c =? 0) && socks_up c then Some (blen p) else socks_sending (so e) in
  core c' {| lw := lw e;
             so := {| socks_live := socks_live (so e); socks_reported := socks_reported (so e);
                      socks_sending := x; socks_receiving := socks_receiving (so e) |};
             lg := lg (log_up_in p e) |}.
Proof.
  intros [] Hb Hp Hsc. pose proof (mem_write_inv _ _ _ _ Hb) as (_ & Hle & HL & _).
  pose proof (mem_write_prefix _ _ _ _ Hb) as HP.
  split; simpl; try done; try lia.
  - destruct (Z.eqb_spec (buf_used c) 0) as [E|E]; destruct (socks_up c) eqn:Hup; simpl; rewrite ?E.
    + split_and!; [done..|lia|lia].
    + destruct (socks_sending (so e)); [destruct core_sending0; congruence|done].
    + destruct (socks_sending (so e)); [split_and!; try done; lia|]. intros _ H. specialize (core_sending0 eq_refl H). lia.
    + destruct (socks_sending (so e)); [destruct core_sending0; congruence|done].
  - by rewrite HP, core_upstream0, app_assoc.
Qed.

(** Changes of the upstream buffer and of the send in progress. *)
Lemma wf_rebuf c e x l b u :
  wf c e -> client_closed c = false -> up_out l = up_out (lg e) -> down_in l = down_in (lg e) ->
  socks_receiving x = socks_receiving (so e) ->
  core (set_buf c b u) {| lw := lw e; so := x; lg := l |} ->
  wf (set_buf c b u) {| lw := lw e; so := x; lg := l |}.
Proof.
  intros [_ Hw] Hcc Ho Hd Hx Hcore'. split; [done|]. simpl. rewrite Hcc in Hw |- *.
  destruct Hw as ([] & [] & Hs & Hrc). split_and!; [by split| |done|].
  - split; simpl; rewrite ?Ho, ?Hd; done.
  - simpl. by rewrite Hx.
Qed.

Section Callbacks.
Context (n : Z) (s : cst) (c : tcp_client).
Context (Hc : cl s = Some c) (HI : Inv None n s) (Hlive : pcb_live (lw (ext s)) = true).

Abbreviation a := (n_aborts (lw (ext s))).

Lemma client_recv_func_spec p jobs :
  cb_recv (lw (ext s)) = true -> match p with Some d => 0 < blen d | None => True end ->
  wp (client_recv_func p jobs)
     (fun r s' => cb_post a n r s' /\ (r = ERR_MEM <-> exists d, p = Some d /\ TCP_WND - buf_used c < blen d)) s.
Proof using Hc HI Hlive.
  intros Hcb Hp. destruct (open_elim _ _ _ _ HI Hc Hlive) as (Hcc & Hh & Hop & Hcore & Hset).
  assert (Hsc : socks_closed c = false). { rewrite (op_recv _ _ Hop) in Hcb. by apply negb_true_iff. }
  unfold client_recv_func. do 2 wstep. do 2 wstep; [by rewrite Hcc|]. wstep.
  destruct (Inv_elim _ _ _ _ HI Hc) as (Har & Hw & Hu).
  eapply DEAD_ENTER_spec; eauto; [apply Hh|]. intros s1 Hc1 He1 Har1.
  pose proof (wf_dead _ _ (Some 0%nat) Hw) as Hw1. rewrite <- He1 in Hw1. pose proof Hw1 as [Hcore1 _].
  set (c1 := set_aborted c (aborted c) (Some 0%nat)) in *.
  assert (HI1 : Inv (Some a) n s1) by (by apply (Inv_alive _ _ s1 c1)).
  assert (Hh1 : held c1 (ext s1)). { rewrite He1. destruct Hh. by split. }
  destruct p as [p|].
  2:{ wstep. eapply wp_mono; [by eapply client_free_client_spec; eauto|]. intros ? s2 HI2.
      eapply wp_mono; [exact (leave_callback _ _ _ HI2)|]. intros r s3 [Hp3 Hm]. split; [done|].
      split; [by destruct Hm; subst|]. by intros (? & ? & _). }
  pose proof (core_used _ _ Hcore1) as Hused. simpl in Hused. do 2 wstep. do 2 wstep; [lia|].
  rewrite u64_small by (simpl; unfold TCP_WND in *; lia). wstep.
  { wstep. eapply DEAD_LEAVE2_spec; [exact HI1|]. intros v s2 HI2 He2 Hv. wstep.
    zbool. split; [|split; [intros _; exists p; simpl in *; split; [done|lia]|done]]. split; [done|]. right. rewrite He2, He1. done. }
  zbool. pose proof (core_buf _ _ Hcore1) as Hbuf.
  destruct (mem_write_some (buf c1) (buf_used c1) p) as (b & Eb & _); [simpl; lia|lia|].
  wstep. apply (wp_lift _ _ _ b); [done|]. do 4 wstep.
  pose proof (core_append c1 (ext s1) p b Hcore1 Eb Hp Hsc) as Hcore2. cbv zeta in Hcore2.
  set (c2 := set_buf c1 b (buf_used c1 + blen p)) in *.
  assert (Hcond : (buf_used c2 =? blen p) = (buf_used c1 =? 0)).
  { subst c2. simpl. repeat ztest; lia. }
  rewrite Hcond in *. assert (Hup : socks_up c2 = socks_up c1) by done. rewrite Hup.
  pose (e2 := fun x => {| lw := lw (ext s1);
             so := {| socks_live := socks_live (so (ext s1)); socks_reported := socks_reported (so (ext s1));
                      socks_sending := x; socks_receiving := socks_receiving (so (ext s1)) |};
             lg := lg (log_up_in p (ext s1)) |}).
  assert (HIx : forall x, core c2 (e2 x) -> Inv (Some a) n (with_ext (with_cl s1 (Some c2)) (e2 x))).
  { intros x Hx. eapply Inv_alive; [eapply around_put; eauto|done|by apply wf_rebuf|].
    unfold useful. simpl. by rewrite Hcc, Hsc. }
  wstep. match goal with |- wp _ _ ?t => replace t with (with_ext (with_cl s1 (Some c2)) (e2 (socks_sending (so (ext s1)))))
    by (unfold e2, with_ext, log_up_in; simpl; destruct (so (ext s1)); done) end.
  apply (wp_mono _ (fun _ s' => Inv (Some a) n s')).
  2:{ intros ? s3 HI3. eapply wp_mono; [exact (leave_callback _ _ _ HI3)|]. intros r s4 [Hp4 Hm]. split; [done|].
      split; [by destruct Hm; subst|]. intros (? & [= <-] & Hlt). simpl in *. lia. }
  wstep.
  - do 2 wstep; [simpl; by rewrite Hsc|]. wstep. rewrite H0 in Hcore2. apply andb_prop in H0 as [H0 Hup1]. zbool.
    unfold client_send_to_socks. do 2 wstep. do 2 wstep; [simpl; by rewrite Hsc|].
    do 2 wstep; [done|]. do 2 wstep; [subst c2; simpl in *; lia|].
    pose proof (core_sending _ _ Hcore1) as Hns. destruct (socks_sending (so (ext s1))) as [l|] eqn:El; [lia|].
    pose proof (core_live _ _ Hcore1) as Hcl. pose proof (core_up _ _ Hcore1 Hsc) as Hcu. simpl in Hcl. rewrite Hsc in Hcl.
    rewrite Hup1 in Hcu. specialize (HIx _ Hcore2).
    eapply wp_call. { simpl. rewrite Hcl, Hcu. simpl in *. rewrite H0, Z.add_0_l. destruct (Z.gtb_spec (blen p) 0); [done|lia]. }
    apply SYNC_COMMIT_spec. unfold e2 in HIx. rewrite Hcl, Hcu in HIx. exact HIx.
  - rewrite H0 in Hcore2. by apply HIx.
Qed.

Definition confirm (c : tcp_client) (len : Z) : tcp_client :=
  set_down c (socks_up c) (socks_recv_buf c) (socks_recv_buf_used c) (socks_recv_buf_sent c)
    (socks_recv_waiting c) (socks_recv_tcp_pending c - len).

(** The client when the acknowledged bytes are taken off its pending bytes. *)
Lemma wf_ack len :
  wf c (ext s) -> client_closed c = false -> socks_up c = true -> 0 < len <= blen (written (lw (ext s))) - acked (lw (ext s)) ->
  core (confirm c len) (ack len (ext s)) /\ held (confirm c len) (ack len (ext s)) /\ opened (confirm c len) (ack len (ext s)).
Proof.
  intros [[] Hw] Hcc Hup Hlen. rewrite Hcc in Hw. destruct Hw as ([] & [] & _ & _).
  specialize (op_pending0 Hup). split_and!; split; simpl; try done; try congruence.
  intros _. lia.
Qed.

Lemma client_sent_func_spec len jobs :
  cb_sent (lw (ext s)) = true -> 0 < len <= blen (written (lw (ext s))) - acked (lw (ext s)) ->
  wp (client_sent_func len jobs) (fun r s' => cb_post a n r s') (with_ext s (ack len (ext s))).
Proof using Hc HI Hlive.
  intros Hcb Hlen. destruct (open_elim _ _ _ _ HI Hc Hlive) as (Hcc & Hh & Hop & Hcore & Hset).
  destruct (Inv_elim _ _ _ _ HI Hc) as (Har & Hw & Hu).
  assert (Hup : socks_up c = true). { by rewrite (op_sent _ _ Hop) in Hcb. }
  destruct (op_pending _ _ Hop Hup) as (Ep & Ea & E0).
  destruct (wf_ack len Hw Hcc Hup Hlen) as (Hcore1 & Hh1 & Hop1).
  unfold client_sent_func. do 2 wstep. do 2 wstep; [by rewrite Hcc|]. do 2 wstep; [done|].
  do 2 wstep; [lia|]. do 2 wstep; [lia|]. wstep.
  eapply DEAD_ENTER_spec; eauto with tcp; [apply Hh|]. intros s1 Hc1 He1 Har1. do 4 wstep. wstep.
  apply (wp_mono _ (fun _ s' => Inv (Some a) n s')).
  2:{ intros ? s3 HI3. eapply wp_mono; [exact (leave_callback _ _ _ HI3)|]. by intros r s4 [Hp4 _]. }
  set (c1 := set_down _ _ _ _ _ _ _).
  assert (Hcc1 : core c1 (ext s1) /\ held c1 (ext s1) /\ opened c1 (ext s1)).
  { rewrite He1. split_and!; [by apply (core_same (confirm c len) c1 (ack len (ext s)))
                             |destruct Hh1; by split|destruct Hop1; by split]. }
  clear Hcore1 Hh1 Hop1. destruct Hcc1 as (Hcore1 & Hh1 & Hop1). specialize (Hset Hup).
  destruct (op_pending _ _ Hop1 Hup) as (_ & _ & Hp1).
  wstep.
  - zbool. destruct Hset as [Hx|(Hx1 & Hx2 & Hx3 & Hx4)]; [subst c1; simpl in *; lia|].
    do 2 wstep; [done|]. do 2 wstep; [subst c1; simpl; lia|]. do 2 wstep. wstep.
    set (c2 := set_down c1 _ _ _ _ _ _).
    eapply wp_mono.
    { apply (client_socks_recv_send_out_spec (Some a) n _ c2); simpl; try done; [|lia|].
      - split; try done; simpl; try lia; [by apply (core_same c1 c2 (ext s1))|destruct Hh1; by split|destruct Hop1; by split].
      - eapply around_cl; [eapply around_cl; eauto|..]; done. }
    cbn beta. intros r s' [(-> & HI')|(-> & c' & Hc' & [Hcore' Hh' Hop' Hset' Hup' Hp'] & Hsc' & Hso & Har')];
      [by wstep|]. cbn [Z.ltb Z.compare]. do 2 wstep. do 2 wstep; [lia|]. wstep.
    + zbool. assert (Hrf : socks_receiving (so (ext s')) = false).
      { rewrite Hso. simpl. rewrite He1. simpl. destruct (socks_receiving (so (ext s))) eqn:E; [|done].
        apply (core_receiving _ _ Hcore) in E. lia. }
      wstep. apply (client_socks_recv_initiate_spec (Some a) n s' c'); try done. apply SYNC_COMMIT_spec.
    + eapply Inv_alive; eauto.
      * split; [done|]. rewrite (held_open _ _ Hh'). split_and!; try done. intros _ Hs Hu1.
        rewrite Hs, Hu1 in H0. done.
      * unfold useful. rewrite (held_open _ _ Hh'). destruct (socks_closed c'); [|done]. split; [done|]. by right.
  - zbool. assert (Hx : socks_recv_buf_used c = -1). { subst c1. simpl in *. lia. }
    wstep.
    + eapply client_free_client_spec; simpl; eauto. eapply around_cl; eauto.
    + eapply Inv_alive; [eapply around_cl; eauto|done| |].
      * split; [done|]. simpl. rewrite Hcc. split_and!; [done..|by left|]. rewrite He1. simpl.
        destruct Hw as [_ Hw]. rewrite Hcc in Hw. apply Hw.
      * unfold useful in *. simpl in *. rewrite Hcc in *. destruct (socks_closed c); [|done].
        split; [done|]. right. zbool. destruct H0; [done|]. zbool. lia.
Qed.
End Callbacks.

(** * Sessions *)

Definition raw_ok (raw : tcp_client) : Prop :=
  blen (buf raw) = TCP_WND /\ blen (socks_recv_buf raw) = CLIENT_SOCKS_RECV_BUF_SIZE.
Definition all_ok : accept_answers := {| malloc_ok := true; concat_ok := true; socks_init_ok := true |}.

Lemma listener_accept_func_spec w a raw jobs ans n :
  raw_ok raw -> 0 <= n ->
  wp (listener_accept_func ERR_OK w a raw jobs)
    (fun r s' => (r = ERR_MEM /\ s' = start ans n) \/ (cb_post 0 n r s' /\ (r = ERR_OK \/ r = ERR_ABRT))) (start ans n).
Proof.
  intros [Hb Hr] Hn. unfold listener_accept_func. do 2 wstep; [done|].
  wstep; [wstep; by left|]. wstep; [wstep; by left|]. wstep; [wstep; by left|].
  wstep. eapply wp_call; [done|]. wstep. unfold wp at 1. cbn [num_clients with_ext start].
  destruct (Z.geb_spec n 0); [|lia]. wstep. eapply wp_call; [done|]. wstep. eapply wp_call; [done|]. wstep.
  eapply DEAD_ENTER_spec; [done| |done|].
  { split; [|done]. unfold finv. simpl. by intros ? [= <-]. }
  intros s1 Hc1 He1 Har1. wstep.
  eapply wp_mono; [apply (SYNC_COMMIT_spec (Some 0%nat) n)|].
  2:{ intros ? s3 HI3. eapply wp_mono; [exact (leave_callback _ _ _ HI3)|]. intros r s4 Hp4. by right. }
  eapply Inv_alive; [exact Har1|exact Hc1| |done]. rewrite He1. split; simpl.
  - split; simpl; try done.
  - split_and!; [by split| |done|done]. by split.
Qed.

Lemma step_spec n s v :
  Inv None n s ->
  wp (step v) (fun r s' => Inv None n s' /\
     match r with Some r => cb_post (n_aborts (lw (ext s))) n r s' | None => True end) s.
Proof.
  intros HI. pose proof (called_live n s HI) as Hcalled.
  destruct v as [v| |p jobs|len jobs|]; unfold wp, step.
  - apply (wp_bind _ _ (fun r s' => Inv None n s' /\ _)). eapply wp_mono; [by apply socks_step_spec|].
    intros ? s' HI'. by apply wp_ret.
  - destruct (_ && _) eqn:E; [|done]. zbool. destruct Hcalled as [Hl [c Hc]]; [done|by rewrite H0|].
    destruct (open_elim _ _ _ _ HI Hc Hl) as (Hcc & Hh & Hop & Hcore & _). destruct (Inv_elim _ _ _ _ HI Hc) as (Har & _).
    apply (wp_bind _ _ (fun r s' => Inv None n s' /\ _)), wp_modify_ext, wp_bind.
    eapply wp_mono; [eapply client_err_func_spec; simpl; eauto|].
    + by apply (core_same c c (ext s)).
    + by split.
    + by apply around_ext.
    + intros ? s' HI'. by apply wp_ret.
  - destruct (_ && _) eqn:E; [|done]. zbool. destruct Hcalled as [Hl [c Hc]]; [done|repeat match goal with H : cb_recv _ = _ |- _ => rewrite H | H : cb_sent _ = _ |- _ => rewrite H end; by rewrite ?orb_true_r|].
    apply (wp_bind _ _ (fun r s' => Inv None n s' /\ _)).
    eapply wp_mono; [eapply (client_recv_func_spec n s c); eauto|].
    + destruct p; [|done]. unfold pbuf_ok in *. zbool. done.
    + intros r s' [Hp _]. apply wp_ret. split; [apply Hp|done].
  - destruct (_ && _) eqn:E; [|done]. zbool. destruct Hcalled as [Hl [c Hc]]; [done|repeat match goal with H : cb_recv _ = _ |- _ => rewrite H | H : cb_sent _ = _ |- _ => rewrite H end; by rewrite ?orb_true_r|].
    apply (wp_bind _ _ (fun r s' => Inv None n s' /\ _)), wp_modify_ext, wp_bind.
    eapply wp_mono; [eapply (client_sent_func_spec n s c); eauto|].
    intros r s' Hp. apply wp_ret. split; [apply Hp|done].
  - destruct (cl s) as [c|] eqn:Hc; [|done]. destruct (Inv_elim _ _ _ _ HI Hc) as (Har & Hw & _).
    apply (wp_bind _ _ (fun r s' => Inv None n s' /\ _)). eapply wp_mono; [by eapply client_murder_spec|].
    intros ? s' HI'. by apply wp_ret.
Qed.

Lemma run_spec n l : forall s, Inv None n s -> wp (run l) (fun _ s' => Inv None n s') s.
Proof.
  induction l as [|v l IH]; intros s HI; [done|]. simpl in *.
  wstep. eapply wp_mono; [by apply step_spec|]. intros r s' [HI' _]. by apply IH.
Qed.

Lemma session_spec w a raw jobs l ans n :
  raw_ok raw -> 0 <= n ->
  wp (session w a raw jobs l) (fun _ s' => Inv None n s') (start ans n).
Proof.
  intros Hr Hn. unfold session. wstep. eapply wp_mono; [by apply listener_accept_func_spec|].
  intros r s' Hs'. wstep. apply (wp_mono _ (fun _ s2 => Inv None n s2)).
  - destruct Hs' as [[-> ->]|[[HI _] Hr']].
    + unfold wp, after_accept. simpl. split_and!; [done|done|]. split; [|done]. by split.
    + unfold wp, after_accept. destruct Hr' as [->| ->]; done.
  - intros _ s2 HI2. wstep. eapply wp_mono; [by apply run_spec|]. intros ? s3 HI3. by wstep.
Qed.

Lemma session_inv w a raw jobs l ans n r s :
  raw_ok raw -> 0 <= n ->
  session w a raw jobs l (start ans n) = Some (r, s) -> Inv None n s.
Proof. intros Hr Hn E. pose proof (session_spec w a raw jobs l ans n Hr Hn) as H. unfold wp in H. by rewrite E in H. Qed.

(** * Theorems *)


(** C30. A callback of lwIP returns ERR_ABRT if and only if it called tcp_abort, and
    it calls it at most once. *)
Theorem TcpClient_abort_result w a raw jobs l ans n r0 s v r s' :
  raw_ok raw -> 0 <= n ->
  session w a raw jobs l (start ans n) = Some (r0, s) ->
  step v s = Some (Some r, s') ->
  (r = ERR_ABRT <-> n_aborts (lw (ext s')) = S (n_aborts (lw (ext s))))
  /\ (r <> ERR_ABRT <-> n_aborts (lw (ext s')) = n_aborts (lw (ext s))).
Proof.
  intros Hr Hn E Hs. pose proof (session_inv _ _ _ _ _ _ _ _ _ Hr Hn E) as HI.
  pose proof (step_spec n s v HI) as H. unfold wp in H. rewrite Hs in H.
  destruct H as (_ & _ & [[-> Ha]|[Hne Ha]]); rewrite Ha; split; split; try done; lia.
Qed.

(** C2. Upstream nothing is lost, duplicated or reordered: what was sent to the SOCKS
    server followed by what is in the buffer is what came from the TCP side, and
    as long as the pcb is there tcp_recved was called for exactly the bytes that
    were sent. *)
Theorem TcpClient_upstream_integrity w a raw jobs l ans n r s :
  raw_ok raw -> 0 <= n ->
  session w a raw jobs l (start ans n) = Some (r, s) ->
  up_out (lg (ext s)) `prefix_of` up_in (lg (ext s)) /\
  forall c, cl s = Some c ->
    up_in (lg (ext s)) = up_out (lg (ext s)) ++ btake (buf_used c) (buf c)
    /\ 0 <= buf_used c <= TCP_WND
    /\ (client_closed c = false -> recved (lw (ext s)) = blen (up_out (lg (ext s)))).
Proof.
  intros Hr Hn E. pose proof (session_inv _ _ _ _ _ _ _ _ _ Hr Hn E) as (_ & _ & Hx).
  destruct (cl s) as [c|]; [|by destruct Hx as [[] _]; split]. destruct Hx as ([[] Hw] & _ & _).
  split; [by eexists|]. intros ? [= <-]. split_and!; try done; try lia. intros Hcc. rewrite Hcc in Hw. apply Hw.
Qed.

(** C3. Downstream nothing is lost, duplicated or reordered: the bytes queued in the
    pcb followed by the rest of the receive buffer are the bytes received from
    the SOCKS server as long as the pcb is there, and the pending counter is what
    was queued and not acknowledged. *)
Theorem TcpClient_downstream_integrity w a raw jobs l ans n r s :
  raw_ok raw -> 0 <= n ->
  session w a raw jobs l (start ans n) = Some (r, s) ->
  written (lw (ext s)) `prefix_of` down_in (lg (ext s)) /\
  forall c, cl s = Some c -> client_closed c = false -> socks_up c = true ->
    down_in (lg (ext s)) = written (lw (ext s)) ++ recv_rest c
    /\ socks_recv_tcp_pending c = blen (written (lw (ext s))) - acked (lw (ext s))
    /\ (recv_rest c <> [] -> 0 < socks_recv_tcp_pending c).
Proof.
  intros Hr Hn E. pose proof (session_inv _ _ _ _ _ _ _ _ _ Hr Hn E) as (_ & _ & Hx).
  destruct (cl s) as [c|]; [|by destruct Hx as [[] _]; split]. destruct Hx as ([Hcore Hw] & _ & _).
  split; [apply Hcore|]. intros ? [= <-] Hcc Hup. rewrite Hcc in Hw. destruct Hw as (_ & [] & Hs & _).
  rewrite Hup in *. specialize (op_pending0 eq_refl). split_and!; [done|lia|]. intros Hne.
  destruct (Hs Hup) as [Hu|Hu]; [|lia]. unfold recv_rest in Hne. by rewrite Hu in Hne.
Qed.

(** client_recv_func refuses data if and only if it exceeds the window: the bytes
    that were received and not confirmed with tcp_recved and the new ones are
    more than TCP_WND. *)
Theorem TcpClient_recv_window w a raw jobs l ans n r0 s p jobs' :
  raw_ok raw -> 0 <= n ->
  session w a raw jobs l (start ans n) = Some (r0, s) ->
  pcb_live (lw (ext s)) = true -> cb_recv (lw (ext s)) = true -> 0 < blen p <= UINT16_MAX ->
  exists r s', step (Ev_recv (Some p) jobs') s = Some (Some r, s')
    /\ (r = ERR_MEM <-> TCP_WND < blen (up_in (lg (ext s))) - recved (lw (ext s)) + blen p).
Proof.
  intros Hr Hn E Hlive Hcb Hp. pose proof (session_inv _ _ _ _ _ _ _ _ _ Hr Hn E) as HI.
  pose proof HI as (_ & _ & Hx). destruct (cl s) as [c|] eqn:Hc; [|by destruct Hx as [[[] _ _ _] _]; congruence].
  destruct (open_elim _ _ _ _ HI Hc Hlive) as (_ & _ & Hop & Hcore & _).
  pose proof (client_recv_func_spec n s c Hc HI Hlive (Some p) jobs' Hcb (proj1 Hp)) as H. unfold wp in H.
  unfold step, bind, pcb_there. rewrite Hlive, Hcb. cbn [orb]. unfold pbuf_ok. zdecide.
  destruct (client_recv_func _ _ _) as [[r s']|]; [|done]. simpl. exists r, s'. split; [done|]. destruct H as [_ ->].
  pose proof (core_used _ _ Hcore). pose proof (core_buf _ _ Hcore).
  rewrite (core_upstream _ _ Hcore), (op_recved _ _ Hop), blen_app, blen_btake by lia.
  split; [intros (? & [= <-] & ?); lia|]. intros. exists p. split; [done|lia].
Qed.

Definition sent_events (sizes : list Z) : list event := map (fun k => Ev_socks (SE_send_done k)) sizes.
Definition sum (sizes : list Z) : Z := foldr Z.add 0 sizes.

Lemma sum_nonneg sizes : Forall (fun k => 0 < k) sizes -> 0 <= sum sizes.
Proof. induction 1; simpl; lia. Qed.

Lemma socks_step_send_done s c k :
  socks_enabled (so (ext s)) (SE_send_done k) = true -> cl s = Some c ->
  socks_step (SE_send_done k) s
  = client_socks_send_handler_done k (with_ext s (socks_moved (SE_send_done k) (buf c) (ext s))).
Proof. intros He Hc. unfold socks_step. rewrite He. unfold bind, get. rewrite Hc. reflexivity. Qed.

Lemma drain n sizes : forall s c l,
  Inv None n s -> cl s = Some c -> client_closed c = true -> socks_sending (so (ext s)) = Some l ->
  Forall (fun k => 0 < k) sizes -> hd 0 sizes <= l -> sum sizes = buf_used c ->
  exists s', run (sent_events sizes) s = Some (tt, s') /\ cl s' = None
             /\ up_out (lg (ext s')) = up_in (lg (ext s)) /\ up_in (lg (ext s')) = up_in (lg (ext s)).
Proof.
  induction sizes as [|k sizes IH]; intros s c l HI Hc Hcc Hs Hpos Hhd Hsum;
    destruct (Inv_elim _ _ _ _ HI Hc) as (Har & Hw & Hu).
  { pose proof (core_sending _ _ (proj1 Hw)) as Hx. rewrite Hs in Hx. simpl in Hsum. lia. }
  inversion Hpos as [|? ? Hk Hpos']; subst. simpl in Hhd, Hsum. pose proof (sum_nonneg _ Hpos').
  assert (Hsc : socks_closed c = false).
  { unfold useful in Hu. rewrite Hcc in Hu. by destruct (socks_closed c). }
  pose proof (client_socks_send_handler_done_spec None n s c l k Hc Hw Hu Har Hs (conj Hk Hhd)) as Hdone.
  assert (He : socks_enabled (so (ext s)) (SE_send_done k) = true).
  { unfold socks_enabled. rewrite (core_live _ _ (proj1 Hw)), Hsc, Hs. simpl. zbool. zdecide. done. }
  unfold wp in Hdone. rewrite <- (socks_step_send_done s c k He Hc) in Hdone.
  change (run (sent_events (k :: sizes))) with (step (Ev_socks (SE_send_done k));;; run (sent_events sizes)).
  unfold bind, step. unfold bind. destruct (socks_step _ s) as [[[] s1]|]; [|done]. simpl.
  destruct Hdone as (HI1 & Hui & Hcase). destruct (Z.gtb_spec (buf_used c - k) 0).
  - destruct Hcase as (c1 & Hc1 & Hcc1 & Hb1 & Hs1). rewrite Hcc in Hcc1.
    destruct (IH s1 c1 (buf_used c - k) HI1 Hc1 Hcc1 Hs1 Hpos') as (s' & Hrun & Hn & Hup & Hui').
    + destruct sizes as [|k2 sizes]; simpl in *; [lia|]. inversion Hpos'; subst. pose proof (sum_nonneg sizes ltac:(done)). lia.
    + lia.
    + exists s'. split_and!; [exact Hrun|done|congruence|congruence].
  - destruct (Hcase Hcc) as [Hn1 Hup1]. destruct sizes as [|k2 sizes].
    + exists s1. split_and!; [done|done|congruence|done].
    + inversion Hpos'; subst. simpl in Hsum. pose proof (sum_nonneg sizes ltac:(done)). lia.
Qed.

(** C31. A connection whose TCP side was closed is kept until the SOCKS server has
    taken all that was received from it: however the server cuts the buffered
    data, when it has taken the last byte everything that came in has been sent
    and the client is freed. *)
Theorem TcpClient_drains_after_close w a raw jobs l ans n r s c len sizes :
  raw_ok raw -> 0 <= n ->
  session w a raw jobs l (start ans n) = Some (r, s) ->
  cl s = Some c -> client_closed c = true -> socks_sending (so (ext s)) = Some len ->
  Forall (fun k => 0 < k) sizes -> hd 0 sizes <= len -> sum sizes = buf_used c ->
  exists s', run (sent_events sizes) s = Some (tt, s') /\ cl s' = None
             /\ up_out (lg (ext s')) = up_in (lg (ext s)) /\ up_in (lg (ext s')) = up_in (lg (ext s)).
Proof.
  intros Hr Hn E Hc Hcc Hs Hpos Hhd Hsum. pose proof (session_inv _ _ _ _ _ _ _ _ _ Hr Hn E) as HI.
  by eapply drain.
Qed.

(** * Concrete sessions *)

Definition ex_raw : tcp_client :=
  {| aborted := true; dead_aborted := Some 7%nat; client_closed := true; buf := replicate (Z.to_nat TCP_WND) 170;
     buf_used := 99; socks_up := true; socks_closed := true;
     socks_recv_buf := replicate (Z.to_nat CLIENT_SOCKS_RECV_BUF_SIZE) 187; socks_recv_buf_used := 5;
     socks_recv_buf_sent := 6; socks_recv_waiting := true; socks_recv_tcp_pending := 7 |}.

Lemma ex_raw_ok : raw_ok ex_raw.
Proof. split; vm_compute; reflexivity. Qed.

Definition up : socks_ev := SE_handler BSOCKSCLIENT_EVENT_UP.

(** SOCKS comes up inside the accept callback; data goes both ways; the peer
    sends FIN while its data is still buffered. *)
Definition ex_events : list event :=
  [Ev_recv (Some [1; 2; 3]) [SE_send_done 2]; Ev_socks (SE_recv_done [10; 11; 12; 13]); Ev_recv (Some [4; 5]) [];
   Ev_sent 3 []; Ev_recv None []].
(** Twice tcp_sndbuf and tcp_write, tcp_output; again for the rest; tcp_close. *)
Definition ex_answers : list Z := [3; 0; 0; 0; 100; 0; 0; 0].

Definition ex_result : option (Z * cst) := session false all_ok ex_raw [up] ex_events (start ex_answers 0).

Example ex_session_shape :
  match ex_result with
  | Some (r, s) =>
      r = ERR_OK /\ match cl s with Some c => client_closed c = true /\ socks_closed c = false /\ buf_used c = 3 | None => False end
      /\ written (lw (ext s)) = [10; 11; 12; 13] /\ up_in (lg (ext s)) = [1; 2; 3; 4; 5]
  | None => False
  end.
Proof. vm_compute. split_and!; reflexivity. Qed.


(** The state the example session ends in. *)
Definition ex_state : cst := match ex_result with Some (_, s) => s | None => start [] 0 end.

Lemma ex_session_eq :
  session false all_ok ex_raw [up] ex_events (start ex_answers 0) = Some (ERR_OK, ex_state).
Proof. vm_compute. reflexivity. Qed.

Lemma TcpClient_upstream_integrity_witness :
  up_out (lg (ext ex_state)) `prefix_of` up_in (lg (ext ex_state)).
Proof.
  exact (proj1 (TcpClient_upstream_integrity false all_ok ex_raw [up] ex_events ex_answers 0 ERR_OK ex_state ex_raw_ok
                  ltac:(lia) ex_session_eq)).
Defined.

Lemma TcpClient_downstream_integrity_witness :
  written (lw (ext ex_state)) `prefix_of` down_in (lg (ext ex_state)).
Proof.
  exact (proj1 (TcpClient_downstream_integrity false all_ok ex_raw [up] ex_events ex_answers 0 ERR_OK ex_state ex_raw_ok
                  ltac:(lia) ex_session_eq)).
Defined.

(** The server takes the three bytes that are left in two pieces. *)
Lemma TcpClient_drains_after_close_witness :
  exists s', run (sent_events [1; 2]) ex_state = Some (tt, s') /\ cl s' = None
             /\ up_out (lg (ext s')) = up_in (lg (ext ex_state)) /\ up_in (lg (ext s')) = up_in (lg (ext ex_state)).
Proof.
  destruct (cl ex_state) as [c|] eqn:E; [|vm_compute in E; discriminate].
  apply (TcpClient_drains_after_close false all_ok ex_raw [up] ex_events ex_answers 0 ERR_OK ex_state c 1 [1; 2] ex_raw_ok
           ltac:(lia) ex_session_eq E).
  - vm_compute in E. injection E as <-. reflexivity.
  - vm_compute. reflexivity.
  - repeat constructor.
  - reflexivity.
  - vm_compute in E. injection E as <-. reflexivity.
Defined.

(** A connection with SOCKS up and nothing else. *)
Definition ex_up : cst :=
  match session false all_ok ex_raw [up] [] (start [] 0) with Some (_, s) => s | None => start [] 0 end.
Lemma ex_up_eq : session false all_ok ex_raw [up] [] (start [] 0) = Some (ERR_OK, ex_up).
Proof. vm_compute. reflexivity. Qed.

Lemma TcpClient_recv_window_witness :
  exists r s', step (Ev_recv (Some [1; 2]) []) ex_up = Some (Some r, s')
    /\ (r = ERR_MEM <-> TCP_WND < blen (up_in (lg (ext ex_up))) - recved (lw (ext ex_up)) + blen [1; 2]).
Proof.
  apply (TcpClient_recv_window false all_ok ex_raw [up] [] [] 0 ERR_OK ex_up [1; 2] [] ex_raw_ok ltac:(lia) ex_up_eq).
  - vm_compute. reflexivity.
  - vm_compute. reflexivity.
  - vm_compute. split; congruence.
Defined.

(** A FIN for which tcp_close fails: the callback aborts and says so. *)
Definition ex_failed_close : cst :=
  match session false all_ok ex_raw [up] [] (start [-1] 0) with Some (_, s) => s | None => start [] 0 end.
Definition ex_aborted : cst :=
  match step (Ev_recv None []) ex_failed_close with Some (_, s) => s | None => start [] 0 end.

Lemma TcpClient_abort_result_witness :
  (ERR_ABRT = ERR_ABRT <-> n_aborts (lw (ext ex_aborted)) = S (n_aborts (lw (ext ex_failed_close)))).
Proof.
  refine (proj1 (TcpClient_abort_result false all_ok ex_raw [up] [] [-1] 0 ERR_OK ex_failed_close (Ev_recv None []) ERR_ABRT
                   ex_aborted ex_raw_ok ltac:(lia) _ _)); vm_compute; reflexivity.
Defined.

(** An accept callback that fails leaves the pcb to lwIP. *)
Example ex_accept_fails :
  match session false {| malloc_ok := true; concat_ok := true; socks_init_ok := false |} ex_raw [] [Ev_err] (start [] 4) with
  | Some (r, s) => r = ERR_MEM /\ cl s = None /\ pcb_there (lw (ext s)) = false /\ num_clients s = 4
  | None => False
  end.
Proof. vm_compute. auto. Qed.

(** lwIP also makes the accept callback with ERR_MEM, and without a pcb, when it could
    not allocate one (lwip/src/core/tcp_in.c, tcp_listen_input); listener_accept_func
    asserts that this does not happen. *)
Example ex_accept_no_pcb w a raw jobs s : listener_accept_func ERR_MEM w a raw jobs s = None.
Proof. reflexivity. Qed.
