(* ===== verification/SocksUdpGwClient.v ===== *)
(** tun2socks/SocksUdpGwClient.c (the Android variant): the UDP relay client.

    Every local address gets a connection: a datagram socket to the SOCKS server
    or to the DNS gateway.  The connections are in an AVL tree by local address
    (BAVL.v) and in a list in the order of use (LinkedList1.v), from which the
    least recently used one is dropped when there are too many.  Datagrams to the
    SOCKS server and replies carry the UDP request header of RFC 1928.

    Connections are objects in a store [conns]; the tree and the list hold their
    addresses, and the key of a tree node is read from the store, so that the
    assignments to con->conaddr are seen by the tree as in the code.  [None] is a
    failed ASSERT, an access to a freed connection, or a write beyond the buffer
    that BufferWriter gives out, which has room for the MTU of the writer. *)

From S2P Require Import Prelude ByteOrder BAddr IpProto Tun2socksUdp UdpGwProto PacketFlow BAVL SLinkedList LinkedList1 TreeIndex.
From stdpp Require Import gmap.
Open Scope Z_scope.

#[local] Arguments BAVL_Remove : simpl never.
#[local] Arguments BAVL_Insert : simpl never.
#[local] Arguments LinkedList1_Remove : simpl never.
#[local] Arguments LinkedList1_Append : simpl never.

Definition SOCKS_ATYP_IPV4 : Z := 1.
Definition SOCKS_ATYP_IPV6 : Z := 4.
Record conaddr := { local_addr : BAddr; remote_addr : BAddr }.

Record connection := {
  con_addr : conaddr;
  con_is_dns : bool;
  con_dest : BAddr;                  (* the address of BDatagram_SetSendAddrs *)
  con_first : option bytes }.        (* first_data, while first_job is set *)

Record SocksUdpGwClient := {
  udp_mtu : Z;
  udpgw_mtu : Z;
  socks_server_addr : BAddr;
  dnsgw : BAddr;
  num_connections : Z;
  max_connections : Z;
  connections_tree : tree (A := ptr);
  connections_list : LinkedList1;
  list_nodes : store;
  conns : gmap ptr connection }.

Definition conaddr_comparator (v1 v2 : conaddr) : Z := BAddr_CompareOrder (local_addr v1) (local_addr v2).

(** The value of a tree node. *)
Definition conaddr_none : conaddr := {| local_addr := BAddr_none; remote_addr := BAddr_none |}.
Definition conaddr_of (m : gmap ptr connection) (p : ptr) : conaddr :=
  match m !! p with Some c => con_addr c | None => conaddr_none end.

Definition set_conns (o : SocksUdpGwClient) (m : gmap ptr connection) : SocksUdpGwClient :=
  {| udp_mtu := udp_mtu o; udpgw_mtu := udpgw_mtu o; socks_server_addr := socks_server_addr o; dnsgw := dnsgw o;
     num_connections := num_connections o; max_connections := max_connections o;
     connections_tree := connections_tree o; connections_list := connections_list o; list_nodes := list_nodes o;
     conns := m |}.
Definition set_list (o : SocksUdpGwClient) (l : LinkedList1) (h : store) : SocksUdpGwClient :=
  {| udp_mtu := udp_mtu o; udpgw_mtu := udpgw_mtu o; socks_server_addr := socks_server_addr o; dnsgw := dnsgw o;
     num_connections := num_connections o; max_connections := max_connections o;
     connections_tree := connections_tree o; connections_list := l; list_nodes := h; conns := conns o |}.
Definition set_tree (o : SocksUdpGwClient) (t : tree (A := ptr)) : SocksUdpGwClient :=
  {| udp_mtu := udp_mtu o; udpgw_mtu := udpgw_mtu o; socks_server_addr := socks_server_addr o; dnsgw := dnsgw o;
     num_connections := num_connections o; max_connections := max_connections o;
     connections_tree := t; connections_list := connections_list o; list_nodes := list_nodes o; conns := conns o |}.
Definition set_num (o : SocksUdpGwClient) (n : Z) : SocksUdpGwClient :=
  {| udp_mtu := udp_mtu o; udpgw_mtu := udpgw_mtu o; socks_server_addr := socks_server_addr o; dnsgw := dnsgw o;
     num_connections := n; max_connections := max_connections o;
     connections_tree := connections_tree o; connections_list := connections_list o; list_nodes := list_nodes o;
     conns := conns o |}.

(** ** Datagrams *)

Definition put_con (o : SocksUdpGwClient) (p : ptr) (c : connection) : SocksUdpGwClient := set_conns o (<[p := c]> (conns o)).
Definition with_addr (c : connection) (a : conaddr) (is_dns : bool) : connection :=
  {| con_addr := a; con_is_dns := is_dns; con_dest := con_dest c; con_first := con_first c |}.

(** A datagram of the socket of connection [p].  The result is what is handed to
    handler_received. *)
Definition dgram_handler_received (o : SocksUdpGwClient) (p : ptr) (data : bytes)
    : option (SocksUdpGwClient * option (BAddr * BAddr * bytes)) :=
  c ← conns o !! p;
  ASSERT blen data <=? udpgw_mtu o;
  let submit (o : SocksUdpGwClient) (a : conaddr) (data : bytes) :=
    if blen data >? udp_mtu o then Some (o, None)
    else Some (o, Some (local_addr a, remote_addr a, data)) in
  if con_is_dns c then submit o (con_addr c) data else
  if blen data <? sizeof_socks_udp_header then Some (o, None) else
  header ← mem_read data 0 sizeof_socks_udp_header;
  let data := bdrop sizeof_socks_udp_header data in
  let frag := nth 2 header 0 in
  let atyp := nth 3 header 0 in
  if negb (frag =? 0) then Some (o, None) else
  let parsed remote len :=
    let a := {| local_addr := local_addr (con_addr c); remote_addr := remote |} in
    submit (put_con o p (with_addr c a (con_is_dns c))) a (bdrop len data) in
  if atyp =? SOCKS_ATYP_IPV6 then
    if blen data <? sizeof_udpgw_addr_ipv6 then Some (o, None) else
    a ← mem_read data 0 sizeof_udpgw_addr_ipv6;
    parsed (BAddr_MakeIPv6 a (load16 (drop 16 a))) sizeof_udpgw_addr_ipv6
  else
    if blen data <? sizeof_udpgw_addr_ipv4 then Some (o, None) else
    a ← mem_read data 0 sizeof_udpgw_addr_ipv4;
    parsed (BAddr_MakeIPv4 (load32 a) (load16 (drop 4 a))) sizeof_udpgw_addr_ipv4.

(** The bytes of the header and the address that connection_send writes. *)
Definition socks_udp_header_mem (remote : BAddr) : bytes :=
  mem16 0 ++ [0; if BAddr_type remote =? BADDR_TYPE_IPV4 then SOCKS_ATYP_IPV4 else SOCKS_ATYP_IPV6].
(** [out] is the memory that BufferWriter_StartPacket gives out, [None] when the
    buffer is full.  The result is the return value and the packet submitted by
    BufferWriter_EndPacket. *)
Definition connection_send (o : SocksUdpGwClient) (c : connection) (out : option bytes) (data : bytes)
    : option (Z * option bytes) :=
  match out with
  | None => Some (1, None)
  | Some out =>
      '(out, out_pos) ←
        (if con_is_dns c then Some (out, 0) else
         let remote := remote_addr (con_addr c) in
         let header := socks_udp_header_mem remote in
         out ← mem_write out 0 header;
         let out_pos := blen header in
         let addr := udpgw_addr_mem remote in
         out ← mem_write out out_pos addr;
         Some (out, out_pos + blen addr));
      out ← mem_write out out_pos data;
      let out_pos := out_pos + blen data in
      ASSERT out_pos <=? udp_mtu o;
      Some (0, Some (btake out_pos out))
  end.

(** ** The table of connections *)

Definition find_connection (o : SocksUdpGwClient) (a : conaddr) (is_dns : bool) : option (option ptr) :=
  tree_node ← BAVL_LookupExact (conaddr_of (conns o)) conaddr_comparator (connections_tree o) a;
  match tree_node with
  | None => Some None
  | Some con => Some (Some con)      (* the test of is_dns is never reached *)
  end.

Definition connection_free (o : SocksUdpGwClient) (p : ptr) : option SocksUdpGwClient :=
  c ← conns o !! p;
  let o := set_num o (num_connections o - 1) in
  '(l, h) ← LinkedList1_Remove (connections_list o) (list_nodes o) p;
  let o := set_list o l h in
  '(t, up) ← position p (connections_tree o) [];
  t ← BAVL_Remove t up;
  let o := set_tree o t in
  (* free: the first job must not be pending *)
  match con_first c with
  | Some _ => None
  | None => Some (set_list (set_conns o (delete p (conns o))) (connections_list o) (delete p (list_nodes o)))
  end.

Definition remove_lru_connection (o : SocksUdpGwClient) (a : conaddr) (is_dns : bool) : option SocksUdpGwClient :=
  found ← find_connection o a is_dns;
  ASSERT bool_decide (found = None);
  ASSERT num_connections o >? 0;
  con ← LinkedList1_GetFirst (connections_list o);
  connection_free o con.

Definition reset_connection (c : connection) (a : conaddr) (is_dns : bool) : connection := with_addr c a is_dns.

(** What can fail in connection_init: malloc, which gives the address, the
    datagram socket, SO_REUSEADDR, the two buffers. *)
Record init_answers := {
  ans_malloc : option ptr;
  ans_dgram : bool;
  ans_reuse : bool;
  ans_packet_buffer : bool;
  ans_single_buffer : bool }.

Definition connection_init (o : SocksUdpGwClient) (ans : init_answers) (a : conaddr) (data : bytes) (is_dns : bool)
    : option (SocksUdpGwClient * option ptr) :=
  match ans_malloc ans with
  | None => Some (o, None)
  | Some p =>
      (* fail0, fail1, fail2, fail3: everything is freed again *)
      if negb (ans_dgram ans) then Some (o, None)
      else if negb (ans_reuse ans) then Some (o, None)
      else if negb (ans_packet_buffer ans) then Some (o, None)
      else if negb (ans_single_buffer ans) then Some (o, None)
      else
        let c := {| con_addr := a; con_is_dns := is_dns;
                    con_dest := if is_dns then dnsgw o else socks_server_addr o; con_first := Some data |} in
        let o := set_list (put_con o p c) (connections_list o)
                   (<[p := {| l1_p := None; l1_n := None |}]> (list_nodes o)) in
        '(t, inserted, _) ← BAVL_Insert (conaddr_of (conns o)) conaddr_comparator (connections_tree o) p;
        ASSERT inserted;
        let o := set_tree o t in
        '(l, h) ← LinkedList1_Append (connections_list o) (list_nodes o) p;
        let o := set_list o l h in
        Some (set_num o (num_connections o + 1), Some p)
  end.

Definition connection_first_job_handler (o : SocksUdpGwClient) (p : ptr) (out : option bytes)
    : option (SocksUdpGwClient * option (BAddr * bytes)) :=
  c ← conns o !! p;
  data ← con_first c;
  '(_, packet) ← connection_send o c out data;
  let c' := {| con_addr := con_addr c; con_is_dns := con_is_dns c; con_dest := con_dest c; con_first := None |} in
  Some (put_con o p c', option_map (pair (con_dest c)) packet).

(** [raw_num] is num_connections before the call, which the function does not
    set; the object is a global variable of the program, so it is 0. *)
Definition SocksUdpGwClient_Init (mtu max : Z) (socks dns : BAddr) (raw_num : Z) : option SocksUdpGwClient :=
  ASSERT negb (BAddr_IsInvalid socks);
  Some {| udp_mtu := mtu; udpgw_mtu := udpgw_compute_mtu mtu; socks_server_addr := socks; dnsgw := dns;
          num_connections := raw_num;
          max_connections := if max >? UINT16_MAX + 1 then UINT16_MAX + 1 else max;
          connections_tree := Null; connections_list := LinkedList1_Init; list_nodes := ∅; conns := ∅ |}.

(** The datagram that was handed to the socket, with its destination, is the
    second component; a new connection sends from its first job. *)
Definition SocksUdpGwClient_SubmitPacket (o : SocksUdpGwClient) (ans : init_answers) (out : option bytes)
    (local remote : BAddr) (is_dns : bool) (data : bytes)
    : option (SocksUdpGwClient * option (BAddr * bytes)) :=
  ASSERT (BAddr_type local =? BADDR_TYPE_IPV4) || (BAddr_type local =? BADDR_TYPE_IPV6);
  ASSERT (BAddr_type remote =? BADDR_TYPE_IPV4) || (BAddr_type remote =? BADDR_TYPE_IPV6);
  ASSERT blen data <=? udp_mtu o;
  let a := {| local_addr := local; remote_addr := remote |} in
  con ← find_connection o a is_dns;
  match con with
  | None =>
      o ← (if num_connections o =? max_connections o then remove_lru_connection o a is_dns else Some o);
      '(o, _) ← connection_init o ans a data is_dns;
      Some (o, None)
  | Some p =>
      c ← conns o !! p;
      let c := reset_connection c a is_dns in
      let o := put_con o p c in
      '(res, packet) ← connection_send o c out data;
      if res =? 1 then Some (o, None) else
      '(l, h) ← LinkedList1_Remove (connections_list o) (list_nodes o) p;
      '(l, h) ← LinkedList1_Append l h p;
      Some (set_list o l h, option_map (pair (con_dest c)) packet)
  end.

(** The loop of SocksUdpGwClient_Free. *)
Fixpoint free_all (fuel : nat) (o : SocksUdpGwClient) : option SocksUdpGwClient :=
  if LinkedList1_IsEmpty (connections_list o) then Some o else
  match fuel with
  | O => None
  | S fuel => p ← LinkedList1_GetFirst (connections_list o); o ← connection_free o p; free_all fuel o
  end.
Definition SocksUdpGwClient_Free (o : SocksUdpGwClient) : option SocksUdpGwClient := free_all (size (conns o)) o.

(** * Well-formed tables *)

Definition conaddr_ok (a : conaddr) : Prop := BAddr_wf (local_addr a).

#[export] Instance conaddr_Comparator : Comparator conaddr_ok conaddr_comparator.
Proof.
  split; unfold conaddr_ok, conaddr_comparator; intros.
  - by apply (cmp_range (ok := BAddr_wf)).
  - by apply (cmp_antisym (ok := BAddr_wf)).
  - by apply (cmp_trans (ok := BAddr_wf) _ (local_addr b)).
  - by apply (cmp_same (ok := BAddr_wf)).
Qed.

(** The table holds the connections [ids], least recently used first. *)
Record table (o : SocksUdpGwClient) (ids : list ptr) : Prop := {
  t_rep : rep (connections_list o) (list_nodes o) ids;
  t_nodes : dom (list_nodes o) = list_to_set ids;
  t_dom : dom (conns o) = list_to_set ids;
  t_perm : Permutation (inorder (connections_tree o)) ids;
  t_balanced : balanced (connections_tree o);
  t_sorted : sorted (conaddr_of (conns o)) conaddr_comparator conaddr_ok (connections_tree o);
  t_num : num_connections o = Z.of_nat (length ids) }.

(** No first job is pending. *)
Definition idle (o : SocksUdpGwClient) : Prop := forall p c, conns o !! p = Some c -> con_first c = None.

Section Table.
Context (o : SocksUdpGwClient) (ids : list ptr) (T : table o ids).

Lemma table_lookup p : p ∈ ids <-> is_Some (conns o !! p).
Proof. rewrite <- elem_of_dom, (t_dom _ _ T). by rewrite elem_of_list_to_set. Qed.

Lemma table_in p : In p (inorder (connections_tree o)) <-> p ∈ ids.
Proof. rewrite (t_perm _ _ T). by rewrite list_elem_of_In. Qed.

Lemma table_local_wf p c : conns o !! p = Some c -> BAddr_wf (local_addr (con_addr c)).
Proof.
  intros Hc. destruct (t_sorted _ _ T) as [_ Hok]. rewrite List.Forall_forall in Hok.
  assert (Hin : In p (inorder (connections_tree o))). { apply table_in, table_lookup. by eexists. }
  specialize (Hok p Hin). unfold conaddr_ok, conaddr_of in Hok. by rewrite Hc in Hok.
Qed.

Lemma find_connection_spec a is_dns : conaddr_ok a ->
  exists r, find_connection o a is_dns = Some r /\
    match r with
    | Some p => exists c, conns o !! p = Some c /\ local_addr (con_addr c) = local_addr a
    | None => forall p c, conns o !! p = Some c -> local_addr (con_addr c) <> local_addr a
    end.
Proof.
  intros Ha. destruct (BAVL_LookupExact_spec (conaddr_of (conns o)) conaddr_comparator conaddr_ok
                         (connections_tree o) a Ha (t_sorted _ _ T)) as (r & E & Hr).
  unfold find_connection. rewrite E. simpl. destruct r as [p|]; eexists; (split; [done|]); simpl.
  - destruct Hr as [Hin E0]. apply table_in, table_lookup in Hin as [c Hc]. exists c. split; [done|].
    unfold conaddr_comparator, conaddr_of in E0. rewrite Hc in E0.
    apply BAddr_CompareOrder_zero in E0; [done|done|by eapply table_local_wf].
  - intros p c Hc Heq. assert (Hin : In p (inorder (connections_tree o))). { apply table_in, table_lookup. by eexists. }
    apply (Hr p Hin). unfold conaddr_comparator, conaddr_of. rewrite Hc. apply BAddr_CompareOrder_zero; [done|by eapply table_local_wf|done].
Qed.
End Table.

(** The configuration is never changed. *)
Definition same_config (o o' : SocksUdpGwClient) : Prop :=
  udp_mtu o' = udp_mtu o /\ udpgw_mtu o' = udpgw_mtu o /\ socks_server_addr o' = socks_server_addr o
  /\ dnsgw o' = dnsgw o /\ max_connections o' = max_connections o.

Lemma same_config_refl o : same_config o o.
Proof. done. Qed.
Lemma same_config_trans o1 o2 o3 : same_config o1 o2 -> same_config o2 o3 -> same_config o1 o3.
Proof. unfold same_config. intuition congruence. Qed.

Lemma connection_free_spec o l p k c :
  table o (l ++ p :: k) -> conns o !! p = Some c -> con_first c = None ->
  exists o', connection_free o p = Some o' /\ table o' (l ++ k) /\ conns o' = delete p (conns o) /\ same_config o o'.
Proof.
  intros T Hc Hf. pose proof T as [Hrep Hn Hd Hp Hb Hs Hnum].
  destruct (NoDup_middle _ _ _ (rep_nodup _ _ _ Hrep)) as (Hpl & Hpk & Hlk & _).
  unfold connection_free. rewrite Hc. simpl.
  destruct (LinkedList1_Remove_spec _ _ _ _ _ Hrep) as (lo & h & E & Hrep' & Hdom & Hfr). rewrite E. simpl.
  destruct (position_spec p (connections_tree o)) with (up := @nil (frame (A := ptr))) as (b & tl & tr & up & Ep & Hplug).
  { apply (table_in _ _ T). set_solver. }
  rewrite Ep, app_nil_r. simpl. rewrite <- Hplug in Hb.
  destruct (BAVL_Remove_spec p b tl tr up Hb) as (t' & Et & Hbt & Hit). rewrite Et. simpl. rewrite Hf.
  assert (Hio : inorder (connections_tree o) = (befores up ++ inorder tl) ++ p :: inorder tr ++ afters up).
  { rewrite <- Hplug, inorder_plug. simpl. by rewrite <- !app_assoc. }
  assert (Hit' : inorder t' = (befores up ++ inorder tl) ++ inorder tr ++ afters up).
  { rewrite Hit. by rewrite <- !app_assoc. }
  assert (Hperm : Permutation (inorder t') (l ++ k)).
  { rewrite Hio in Hp. rewrite Hit'. apply (Permutation_app_inv _ _ _ _ p Hp). }
  assert (Hset : list_to_set (l ++ k) = list_to_set (l ++ p :: k) ∖ {[p]} :> gset ptr).
  { apply set_eq. intros x. rewrite elem_of_difference, !elem_of_list_to_set, elem_of_singleton.
    rewrite !elem_of_app, elem_of_cons. split; [|set_solver]. intros Hx. split; [set_solver|].
    intros ->. destruct Hx; done. }
  eexists. split; [done|]. split; [|done]. split; simpl; try done.
  - destruct Hrep' as [F L N S]. split; try done. eapply seg1_frame; [|exact S].
    intros x Hx. rewrite lookup_delete_ne; [done|]. intros <-. apply elem_of_app in Hx as [?|?]; done.
  - rewrite dom_delete_L, Hdom, Hn. by rewrite Hset.
  - rewrite dom_delete_L, Hd. by rewrite Hset.
  - apply (sorted_ext (conaddr_of (conns o))).
    + intros a Ha. unfold conaddr_of. rewrite lookup_delete_ne; [done|]. intros <-.
      apply list_elem_of_In in Ha. rewrite Hperm in Ha. apply elem_of_app in Ha as [?|?]; done.
    + destruct Hs as [Hss Hso]. rewrite Hio in Hss, Hso. destruct (sorted_remove _ _ _ _ _ _ Hss Hso) as [? ?].
      unfold sorted. by rewrite Hit'.
  - rewrite Hnum, !length_app. simpl. lia.
Qed.

Lemma connection_init_spec o ids ans p a data is_dns :
  table o ids -> ans_malloc ans = Some p -> p ∉ ids -> conaddr_ok a ->
  (forall q c, conns o !! q = Some c -> local_addr (con_addr c) <> local_addr a) ->
  ans_dgram ans && ans_reuse ans && ans_packet_buffer ans && ans_single_buffer ans = true ->
  exists o', connection_init o ans a data is_dns = Some (o', Some p) /\ table o' (ids ++ [p])
    /\ conns o' = <[p := {| con_addr := a; con_is_dns := is_dns;
                            con_dest := if is_dns then dnsgw o else socks_server_addr o; con_first := Some data |}]> (conns o)
    /\ same_config o o'.
Proof.
  intros T Hm Hp Ha Hnew Hok. pose proof T as [Hrep Hn Hd Hpe Hb Hs Hnum].
  apply andb_prop in Hok as [Hok H4]. apply andb_prop in Hok as [Hok H3]. apply andb_prop in Hok as [H1 H2].
  unfold connection_init. rewrite Hm, H1, H2, H3, H4. cbn [negb]. cbv zeta.
  set (c := {| con_addr := a; con_is_dns := is_dns; con_dest := _; con_first := _ |}). simpl.
  assert (Hval : forall x, In x (inorder (connections_tree o)) -> conaddr_of (<[p := c]> (conns o)) x = conaddr_of (conns o) x).
  { intros x Hx. unfold conaddr_of. rewrite lookup_insert_ne; [done|]. intros <-. by apply (table_in _ _ T) in Hx. }
  assert (Hvp : conaddr_of (<[p := c]> (conns o)) p = a). { unfold conaddr_of. by rewrite lookup_insert_eq. }
  assert (Hs' : sorted (conaddr_of (<[p := c]> (conns o))) conaddr_comparator conaddr_ok (connections_tree o)).
  { by apply (sorted_ext (conaddr_of (conns o))). }
  destruct (BAVL_Insert_spec (conaddr_of (<[p := c]> (conns o))) conaddr_comparator conaddr_ok (connections_tree o) p Hb Hs')
    as [(q & E & Hq & E0)|(t' & ref & l & k & E & Hi & Hi' & _ & _ & Hb' & Hst)].
  { by rewrite Hvp. }
  { exfalso. rewrite Hvp, Hval in E0 by done. apply (table_in _ _ T), (table_lookup _ _ T) in Hq as [d Hd'].
    unfold conaddr_comparator, conaddr_of in E0. rewrite Hd' in E0.
    apply BAddr_CompareOrder_zero in E0; [|done|by eapply table_local_wf]. by apply (Hnew q d). }
  rewrite E. simpl.
  destruct (LinkedList1_Append_spec (connections_list o) (<[p := {| l1_p := None; l1_n := None |}]> (list_nodes o)) ids p)
    as (lo & h & El & Hrep' & Hdom & _).
  { destruct Hrep as [F L N S]. split; try done. eapply seg1_frame; [|exact S].
    intros x Hx. rewrite lookup_insert_ne; [done|]. by intros <-. }
  { done. }
  { rewrite dom_insert_L. set_solver. }
  rewrite El. simpl. eexists. split; [done|]. split; [|done].
  assert (Hset : list_to_set (ids ++ [p]) = {[p]} ∪ list_to_set ids :> gset ptr).
  { rewrite list_to_set_app_L. simpl. set_solver. }
  split; simpl; try done.
  - by rewrite Hdom, dom_insert_L, Hn, Hset.
  - by rewrite dom_insert_L, Hd, Hset.
  - rewrite Hi', <- Hpe, Hi. apply Permutation_to_end.
  - rewrite Hnum, length_app. simpl. lia.
Qed.

(** A connection whose local address stays the same. *)
Lemma table_put o ids p c c' :
  table o ids -> conns o !! p = Some c -> local_addr (con_addr c') = local_addr (con_addr c) -> table (put_con o p c') ids.
Proof.
  intros T Hc Hl. pose proof T as [Hrep Hn Hd Hpe Hb Hs Hnum]. split; simpl; try done.
  - rewrite dom_insert_lookup_L; [done|by eexists].
  - destruct Hs as [Hss Hso]. unfold sorted in *.
    assert (Hv : forall x, local_addr (conaddr_of (<[p := c']> (conns o)) x) = local_addr (conaddr_of (conns o) x)).
    { intros x. unfold conaddr_of. destruct (decide (x = p)) as [->|]; [by rewrite lookup_insert_eq, Hc, Hl|].
      by rewrite lookup_insert_ne by done. }
    assert (Hcmp : forall x y, conaddr_comparator (conaddr_of (<[p := c']> (conns o)) x) (conaddr_of (<[p := c']> (conns o)) y)
                          = conaddr_comparator (conaddr_of (conns o) x) (conaddr_of (conns o) y)).
    { intros. unfold conaddr_comparator. by rewrite !Hv. }
    split.
    + clear Hso Hpe. induction Hss as [|x l Hss IH Hf]; [constructor|]. constructor; [by apply IH|].
      rewrite List.Forall_forall in *. intros y Hy. unfold BAVL.lt. rewrite Hcmp. by apply Hf.
    + rewrite List.Forall_forall in *. intros x Hx. unfold conaddr_ok. rewrite Hv. by apply Hso.
Qed.

(** The connection that was used becomes the last of the list. *)
Lemma table_touch o l p k :
  table o (l ++ p :: k) ->
  exists lo h lo' h', LinkedList1_Remove (connections_list o) (list_nodes o) p = Some (lo, h)
    /\ LinkedList1_Append lo h p = Some (lo', h') /\ table (set_list o lo' h') ((l ++ k) ++ [p]).
Proof.
  intros T. pose proof T as [Hrep Hn Hd Hpe Hb Hs Hnum].
  destruct (NoDup_middle _ _ _ (rep_nodup _ _ _ Hrep)) as (Hpl & Hpk & Hlk & _).
  destruct (LinkedList1_Remove_spec _ _ _ _ _ Hrep) as (lo & h & E & Hrep' & Hdom & _).
  destruct (LinkedList1_Append_spec lo h (l ++ k) p Hrep') as (lo' & h' & E' & Hrep2 & Hdom2 & _).
  { by intros [?|?]%elem_of_app. }
  { rewrite Hdom, Hn. set_solver. }
  assert (Hperm : Permutation (l ++ p :: k) ((l ++ k) ++ [p])).
  { apply Permutation_to_end. }
  assert (Hset : list_to_set (l ++ p :: k) = list_to_set ((l ++ k) ++ [p]) :> gset ptr).
  { apply set_eq. intros x. rewrite !elem_of_list_to_set. by rewrite Hperm. }
  exists lo, h, lo', h'. split_and!; try done. split; simpl; try done.
  - by rewrite Hdom2, Hdom, Hn, Hset.
  - by rewrite Hd, Hset.
  - by rewrite Hpe, Hperm.
  - rewrite Hnum. by rewrite Hperm.
Qed.

(** * Datagrams *)

(** What connection_send puts in front of the data. *)
Definition relay_prefix (c : connection) : bytes :=
  if con_is_dns c then [] else
  socks_udp_header_mem (remote_addr (con_addr c)) ++ udpgw_addr_mem (remote_addr (con_addr c)).

Lemma blen_header r : blen (socks_udp_header_mem r) = 4.
Proof. done. Qed.
Lemma connection_send_fits o c out data :
  blen out = udp_mtu o -> blen (relay_prefix c) + blen data <= udp_mtu o ->
  connection_send o c (Some out) data = Some (0, Some (relay_prefix c ++ data)).
Proof.
  intros Hout Hfit. unfold connection_send, relay_prefix in *. pose proof (blen_nonneg data).
  destruct (con_is_dns c).
  - simpl. rewrite blen_nil in Hfit.
    destruct (write_behind [] data 0 out) as (m2 & E & HL & Ht); [done..|lia|lia|]. rewrite E. simpl.
    rewrite (proj2 (Z.leb_le (0 + blen data) _)) by lia. by rewrite Ht.
  - set (h := socks_udp_header_mem _) in *. set (a := udpgw_addr_mem _) in *. rewrite blen_app in Hfit.
    pose proof (blen_nonneg h). pose proof (blen_nonneg a).
    destruct (write_behind [] h 0 out) as (m1 & E1 & HL1 & Ht1); [done..|lia|lia|]. rewrite E1. simpl.
    destruct (write_behind h a (blen h) m1) as (m2 & E2 & HL2 & Ht2); [done..|lia|]. rewrite E2. simpl.
    destruct (write_behind (h ++ a) data (blen h + blen a) m2) as (m3 & E3 & HL3 & Ht3);
      [done|by rewrite blen_app|lia|lia|]. rewrite E3. simpl.
    rewrite (proj2 (Z.leb_le (blen h + blen a + blen data) _)) by lia. by rewrite Ht3.
Qed.

Lemma connection_send_overflows o c out data :
  blen out = udp_mtu o -> udp_mtu o < blen (relay_prefix c) + blen data ->
  connection_send o c (Some out) data = None.
Proof.
  intros Hout Hfit. destruct (connection_send o c (Some out) data) as [[r pk]|] eqn:E; [exfalso|done].
  unfold connection_send, relay_prefix in *. destruct (con_is_dns c).
  - simpl in E. rewrite blen_nil in Hfit. destruct (mem_write out 0 data) as [m|] eqn:E1; [|done].
    apply mem_write_inv in E1 as (_ & ? & _). lia.
  - rewrite blen_app in Hfit. set (h := socks_udp_header_mem _) in *. set (a := udpgw_addr_mem _) in *.
    destruct (mem_write out 0 h) as [m1|] eqn:E1; [|done]. simpl in E.
    destruct (mem_write m1 (blen h) a) as [m2|] eqn:E2; [|done]. simpl in E.
    destruct (mem_write m2 (blen h + blen a) data) as [m3|] eqn:E3; [|done].
    apply mem_write_inv in E1 as (_ & _ & H1 & _). apply mem_write_inv in E2 as (_ & _ & H2 & _).
    apply mem_write_inv in E3 as (_ & H3 & _). lia.
Qed.

(** The datagram that connection_send builds stays within the buffer it was
    given if and only if header, address and data fit into the MTU: a datagram
    of udp_mtu bytes, which SubmitPacket accepts, is written past the end. *)
Theorem connection_send_bounds o c out data :
  blen out = udp_mtu o ->
  (connection_send o c (Some out) data = None <-> udp_mtu o < blen (relay_prefix c) + blen data).
Proof.
  intros Hout. destruct (Z.lt_ge_cases (udp_mtu o) (blen (relay_prefix c) + blen data)) as [H|H].
  - split; [done|]. intros _. by apply connection_send_overflows.
  - rewrite connection_send_fits by done. split; [done|lia].
Qed.

(** A reply in the format of RFC 1928: the header, the address, the data. *)
Lemma dgram_received_relay o p c r data :
  conns o !! p = Some c -> con_is_dns c = false -> BAddr_wf r -> is_ip r = true ->
  blen data <= udp_mtu o -> 4 + blen (udpgw_addr_mem r) + blen data <= udpgw_mtu o ->
  let a := {| local_addr := local_addr (con_addr c); remote_addr := r |} in
  dgram_handler_received o p (socks_udp_header_mem r ++ udpgw_addr_mem r ++ data)
  = Some (put_con o p (with_addr c a false), Some (local_addr (con_addr c), r, data)).
Proof.
  intros Hc Hd Hr Hip Hl Hm a. pose proof (blen_nonneg data). unfold dgram_handler_received. rewrite Hc. cbn [mbind option_bind].
  rewrite !blen_app, blen_header. rewrite blen_addr in * by done. rewrite Hd.
  set (n := if BAddr_type r =? BADDR_TYPE_IPV4 then 6 else 18) in *.
  assert (Hn : n = 6 \/ n = 18) by (unfold n; destruct (_ =? _); auto).
  rewrite (proj2 (Z.leb_le _ (udpgw_mtu o))) by lia. unfold sizeof_socks_udp_header.
  rewrite (proj2 (Z.ltb_ge (4 + (n + blen data)) 4)) by lia.
  assert (Hh : mem_read (socks_udp_header_mem r ++ udpgw_addr_mem r ++ data) 0 4 = Some (socks_udp_header_mem r)).
  { apply (mem_read_app (socks_udp_header_mem r)). }
  rewrite Hh. cbn [mbind option_bind]. cbv zeta. rewrite (bdrop_app_exact 4 (socks_udp_header_mem r)) by done.
  unfold sizeof_udpgw_addr_ipv6, sizeof_udpgw_addr_ipv4. rewrite blen_app, blen_addr by done. fold n.
  destruct r as [|ip port|ip port|]; try done.
  - destruct Hr as [Hi Hp]. simpl in n. subst n.
    replace (negb (nth 2 (socks_udp_header_mem (BAddr_ipv4 ip port)) 0 =? 0)) with false by done.
    replace (nth 3 (socks_udp_header_mem (BAddr_ipv4 ip port)) 0 =? SOCKS_ATYP_IPV6) with false by done.
    cbn [udpgw_addr_mem]. rewrite (proj2 (Z.ltb_ge (6 + blen data) 6)) by lia.
    destruct (parse_ipv4 ip port data Hi Hp) as (E1 & E2 & E3 & E4). rewrite E1. cbn [mbind option_bind].
    rewrite E2, E3, E4. rewrite Z.gtb_ltb. simpl udp_mtu. rewrite (proj2 (Z.ltb_ge (udp_mtu o) _)) by lia. done.
  - destruct Hr as (Hi & _ & Hp). simpl in n. subst n.
    replace (negb (nth 2 (socks_udp_header_mem (BAddr_ipv6 ip port)) 0 =? 0)) with false by done.
    replace (nth 3 (socks_udp_header_mem (BAddr_ipv6 ip port)) 0 =? SOCKS_ATYP_IPV6) with true by done.
    cbn [udpgw_addr_mem]. rewrite (proj2 (Z.ltb_ge (18 + blen data) 18)) by lia.
    destruct (parse_ipv6 ip port data Hi Hp) as (E1 & E2 & E3 & E4). rewrite E1. cbn [mbind option_bind].
    rewrite E3, E4. unfold BAddr_MakeIPv6. rewrite E2. rewrite Z.gtb_ltb. simpl udp_mtu.
    rewrite (proj2 (Z.ltb_ge (udp_mtu o) _)) by lia. done.
Qed.

(** * Sessions *)

Inductive output := Sent (dest : BAddr) (packet : bytes) | Delivered (local remote : BAddr) (data : bytes).

Record submission := {
  s_local : BAddr; s_remote : BAddr; s_is_dns : bool; s_data : bytes;
  s_answers : init_answers;
  s_out : option bytes }.            (* the memory of BufferWriter_StartPacket *)

Inductive event := EvSubmit (s : submission) | EvDatagram (p : ptr) (data : bytes).

(** The first job of a connection that was just created runs before anything
    else: it is on top of the job stack when the caller returns. *)
Definition run_first_job (o : SocksUdpGwClient) (p : option ptr) (out : option bytes)
    : option (SocksUdpGwClient * option (BAddr * bytes)) :=
  match p with
  | Some p =>
      match conns o !! p with
      | Some c => match con_first c with Some _ => connection_first_job_handler o p out | None => Some (o, None) end
      | None => Some (o, None)
      end
  | None => Some (o, None)
  end.

Definition sent_list (x : option (BAddr * bytes)) : list output :=
  match x with Some (d, pk) => [Sent d pk] | None => [] end.

(** What connection_send puts in front of the data of a submission. *)
Definition submission_prefix (s : submission) : bytes :=
  if s_is_dns s then [] else socks_udp_header_mem (s_remote s) ++ udpgw_addr_mem (s_remote s).

(** The events that can happen.  The caller keeps to the assertions of SubmitPacket
    (IP addresses, data of at most the MTU); a buffer that is given out has the
    size of the MTU; malloc gives an address that is not in use, possibly that of
    the connection that is dropped because the table is full; a datagram arrives
    for a connection and is not longer than the MTU of its receive interface. *)
Definition enabled (o : SocksUdpGwClient) (e : event) : bool :=
  match e with
  | EvSubmit s =>
      bool_decide (BAddr_wf (s_local s)) && bool_decide (BAddr_wf (s_remote s)) && is_ip (s_local s) && is_ip (s_remote s)
      && (blen (s_data s) <=? udp_mtu o)
      && match s_out s with Some b => blen b =? udp_mtu o | None => true end
      && match ans_malloc (s_answers s) with
         | None => true
         | Some p => negb (bool_decide (is_Some (conns o !! p)))
                     || (num_connections o =? max_connections o) && bool_decide (LinkedList1_GetFirst (connections_list o) = Some p)
         end
  | EvDatagram p data => bool_decide (is_Some (conns o !! p)) && (blen data <=? udp_mtu o)
  end.

Definition relay_step (o : SocksUdpGwClient) (e : event) : option (SocksUdpGwClient * list output) :=
  match e with
  | EvSubmit s =>
      '(o, sent) ← SocksUdpGwClient_SubmitPacket o (s_answers s) (s_out s) (s_local s) (s_remote s) (s_is_dns s) (s_data s);
      '(o, sent') ← run_first_job o (ans_malloc (s_answers s)) (s_out s);
      Some (o, sent_list sent ++ sent_list sent')
  | EvDatagram p data =>
      '(o, r) ← dgram_handler_received o p data;
      Some (o, match r with Some (l, rm, d) => [Delivered l rm d] | None => [] end)
  end.

Fixpoint relay_run (o : SocksUdpGwClient) (l : list event) : option (SocksUdpGwClient * list output) :=
  match l with
  | [] => Some (o, [])
  | e :: l => '(o, out) ← relay_step o e; '(o, outs) ← relay_run o l; Some (o, out ++ outs)
  end.

Fixpoint relay_allowed (o : SocksUdpGwClient) (l : list event) : bool :=
  match l with
  | [] => true
  | e :: l => enabled o e && match relay_step o e with Some (o, _) => relay_allowed o l | None => true end
  end.

(** * The specification: a list of connections, least recently used first *)

Record config := { c_mtu : Z; c_max : Z; c_socks : BAddr; c_dns : BAddr }.
Notation sessions := (list (ptr * connection)).

Definition with_local (a : BAddr) (x : ptr * connection) : bool := bool_decide (local_addr (con_addr x.2) = a).
Definition other_local (a : BAddr) (x : ptr * connection) : bool := negb (with_local a x).

Definition spec_readdress (s : submission) (x : ptr * connection) : ptr * connection :=
  if with_local (s_local s) x
  then (x.1, with_addr x.2 {| local_addr := s_local s; remote_addr := s_remote s |} (s_is_dns s)) else x.

Definition spec_created (a : init_answers) : option ptr :=
  if ans_dgram a && ans_reuse a && ans_packet_buffer a && ans_single_buffer a then ans_malloc a else None.

(** The datagram that is sent if there is a buffer for it.  SubmitPacket accepts data
    of udp_mtu bytes, but what is put in front of it does not fit into the buffer
    then: [None], a write past its end. *)
Definition spec_sent (k : config) (s : submission) (dest : BAddr) : option (list output) :=
  match s_out s with
  | Some _ => if blen (submission_prefix s) + blen (s_data s) <=? c_mtu k then Some [Sent dest (submission_prefix s ++ s_data s)] else None
  | None => Some []
  end.

(** A datagram to send.  A known local address keeps its connection, which
    becomes the most recently used one if there was room for the datagram;
    a new one gets a connection at the end, for which the first of a full list is
    dropped. *)
Definition spec_submit (k : config) (l : sessions) (s : submission) : option (sessions * list output) :=
  match List.find (with_local (s_local s)) l with
  | Some x =>
      out ← spec_sent k s (con_dest x.2);
      Some (match s_out s with
            | Some _ => List.filter (other_local (s_local s)) l ++ [spec_readdress s x]
            | None => map (spec_readdress s) l
            end, out)
  | None =>
      let l := if Z.of_nat (length l) =? c_max k then tail l else l in
      match spec_created (s_answers s) with
      | Some p =>
          let dest := if s_is_dns s then c_dns k else c_socks k in
          out ← spec_sent k s dest;
          Some (l ++ [(p, {| con_addr := {| local_addr := s_local s; remote_addr := s_remote s |}; con_is_dns := s_is_dns s;
                             con_dest := dest; con_first := None |})], out)
      | None => Some (l, [])
      end
  end.

(** The remote address and the data of a datagram of the socket. *)
Definition spec_reply (c : connection) (data : bytes) : option (BAddr * bytes) :=
  if con_is_dns c then Some (remote_addr (con_addr c), data) else
  match data with
  | _ :: _ :: frag :: atyp :: rest =>
      if negb (frag =? 0) then None
      else if atyp =? 4
      then if 18 <=? blen rest then let a := btake 18 rest in Some (BAddr_ipv6 (btake 16 a) (load16 (drop 16 a)), bdrop 18 rest) else None
      else if 6 <=? blen rest then let a := btake 6 rest in Some (BAddr_ipv4 (load32 a) (load16 (drop 4 a)), bdrop 6 rest) else None
  | _ => None
  end.

Definition spec_datagram (l : sessions) (p : ptr) (data : bytes) : sessions * list output :=
  match List.find (fun x => x.1 =? p) l with
  | Some x =>
      match spec_reply x.2 data with
      | Some (remote, payload) =>
          let a := {| local_addr := local_addr (con_addr x.2); remote_addr := remote |} in
          (map (fun y => if y.1 =? p then (p, with_addr x.2 a (con_is_dns x.2)) else y) l,
           [Delivered (local_addr (con_addr x.2)) remote payload])
      | None => (l, [])
      end
  | None => (l, [])
  end.

Definition spec_step (k : config) (l : sessions) (e : event) : option (sessions * list output) :=
  match e with EvSubmit s => spec_submit k l s | EvDatagram p data => Some (spec_datagram l p data) end.

Fixpoint spec_run (k : config) (l : sessions) (evs : list event) : option (sessions * list output) :=
  match evs with
  | [] => Some (l, [])
  | e :: evs => '(l, out) ← spec_step k l e; '(l, outs) ← spec_run k l evs; Some (l, out ++ outs)
  end.

(** The specification does not fault where header, address and data fit. *)
Definition fits (k : config) (e : event) : Prop :=
  match e with EvSubmit s => blen (submission_prefix s) + blen (s_data s) <= c_mtu k | EvDatagram _ _ => True end.

Lemma spec_sent_fits k s dest : fits k (EvSubmit s) -> spec_sent k s dest <> None.
Proof. simpl. intros H. unfold spec_sent. destruct (s_out s); [|done]. by rewrite (proj2 (Z.leb_le _ _)) by lia. Qed.

Lemma spec_run_fits k evs : Forall (fits k) evs -> forall l, spec_run k l evs <> None.
Proof.
  induction 1 as [|e evs He Hevs IH]; intros l; [done|]. simpl.
  assert (exists l1 out, spec_step k l e = Some (l1, out)) as (l1 & out & ->).
  { destruct e as [s|p data]; simpl; [|destruct (spec_datagram l p data); by eexists _, _]. unfold spec_submit.
    destruct (List.find _ _) as [x|].
    - pose proof (spec_sent_fits k s (con_dest x.2) He) as Hs. destruct (spec_sent _ _ _); [|done]. by eexists _, _.
    - destruct (spec_created _) as [p|]; [|by eexists _, _].
      match goal with |- context [spec_sent k s ?d] => pose proof (spec_sent_fits k s d He) as Hs end. cbv zeta.
      destruct (spec_sent _ _ _); [|done]. by eexists _, _. }
  cbn [mbind option_bind]. specialize (IH l1). destruct (spec_run k l1 evs) as [[l2 outs]|]; [done|by destruct IH].
Qed.

(** The connections of the table in the order [ids]. *)
Definition connection_none : connection :=
  {| con_addr := conaddr_none; con_is_dns := false; con_dest := BAddr_none; con_first := None |}.
Definition con_at (o : SocksUdpGwClient) (p : ptr) : connection := default connection_none (conns o !! p).
Definition view (o : SocksUdpGwClient) (ids : list ptr) : sessions := map (fun p => (p, con_at o p)) ids.

(** * The invariant of sessions *)

Record good (k : config) (o : SocksUdpGwClient) (ids : list ptr) : Prop := {
  g_table : table o ids;
  g_idle : idle o;
  g_max : 1 <= max_connections o;
  g_len : Z.of_nat (length ids) <= max_connections o;
  g_mtu : udp_mtu o <= udpgw_mtu o;
  g_config : k = {| c_mtu := udp_mtu o; c_max := max_connections o; c_socks := socks_server_addr o; c_dns := dnsgw o |} }.

(** Distinct connections have distinct local addresses. *)
Lemma table_unique o ids p q c d :
  table o ids -> conns o !! p = Some c -> conns o !! q = Some d ->
  local_addr (con_addr c) = local_addr (con_addr d) -> p = q.
Proof.
  intros T Hp Hq E. destruct (t_sorted _ _ T) as [Hs Hok].
  assert (Ip : p ∈ inorder (connections_tree o)). { apply list_elem_of_In, (table_in _ _ T), (table_lookup _ _ T). by eexists. }
  assert (Iq : q ∈ inorder (connections_tree o)). { apply list_elem_of_In, (table_in _ _ T), (table_lookup _ _ T). by eexists. }
  assert (E0 : conaddr_comparator (conaddr_of (conns o) p) (conaddr_of (conns o) q) = 0
               /\ conaddr_comparator (conaddr_of (conns o) q) (conaddr_of (conns o) p) = 0).
  { unfold conaddr_comparator, conaddr_of. rewrite Hp, Hq, E. pose proof (table_local_wf _ _ T q d Hq).
    by split; apply BAddr_CompareOrder_zero. }
  clear Hok. induction Hs as [|x l Hs IH Hf]; [by apply not_elem_of_nil in Ip|].
  rewrite List.Forall_forall in Hf. unfold BAVL.lt in Hf.
  apply elem_of_cons in Ip as [->|Ip], Iq as [->|Iq]; try done.
  - apply list_elem_of_In in Iq. specialize (Hf q Iq). lia.
  - apply list_elem_of_In in Ip. specialize (Hf p Ip). lia.
  - by apply IH.
Qed.

(** ** The list of connections of a table *)

Lemma view_fst o ids : (view o ids).*1 = ids.
Proof. unfold view. rewrite <- list_fmap_compose. by apply list_fmap_id. Qed.
Lemma view_app o l k : view o (l ++ k) = view o l ++ view o k.
Proof. apply map_app. Qed.
Lemma view_length o ids : length (view o ids) = length ids.
Proof. apply length_map. Qed.
Lemma view_frame o o' ids : (forall q, q ∈ ids -> conns o' !! q = conns o !! q) -> view o' ids = view o ids.
Proof. intros H. apply map_ext_in. intros q Hq. unfold con_at. rewrite H; [done|]. by apply list_elem_of_In. Qed.
Lemma view_put o p c ids : p ∉ ids -> view (put_con o p c) ids = view o ids.
Proof. intros Hp. apply view_frame. intros q Hq. simpl. rewrite lookup_insert_ne; [done|]. by intros <-. Qed.
Lemma con_at_some o p c : conns o !! p = Some c -> con_at o p = c.
Proof. unfold con_at. by intros ->. Qed.
Lemma con_at_put o p c : con_at (put_con o p c) p = c.
Proof. apply con_at_some. simpl. by rewrite lookup_insert_eq. Qed.

Lemma view_snoc o o' p c ids : p ∉ ids -> conns o' = <[p := c]> (conns o) -> view o' (ids ++ [p]) = view o ids ++ [(p, c)].
Proof.
  intros Hp Hc. rewrite view_app. f_equal.
  - apply view_frame. intros q Hq. rewrite Hc, lookup_insert_ne; [done|]. by intros <-.
  - simpl. by rewrite (con_at_some o' p c) by (by rewrite Hc, lookup_insert_eq).
Qed.

Lemma rep_first_head lo h ids : rep lo h ids -> LinkedList1_GetFirst lo = head ids.
Proof. intros [F _ _ _]. done. Qed.

Section Split.
Context (o : SocksUdpGwClient) (l k : list ptr) (p : ptr) (c : connection).
Context (T : table o (l ++ p :: k)) (Hc : conns o !! p = Some c).

Lemma others_local : Forall (fun x => with_local (local_addr (con_addr c)) x = false) (view o (l ++ k)).
Proof.
  destruct (NoDup_middle _ _ _ (rep_nodup _ _ _ (t_rep _ _ T))) as (Hpl & Hpk & _).
  apply Forall_forall. intros x (q & -> & Hq)%list_elem_of_fmap. unfold with_local. simpl. apply bool_decide_eq_false. intros E.
  assert (q <> p) as Hne by (intros ->; by apply elem_of_app in Hq as [?|?]). apply Hne.
  assert (is_Some (conns o !! q)) as [d Hd]. { apply (table_lookup _ _ T). set_solver. }
  rewrite (con_at_some _ _ _ Hd) in E. by apply (table_unique _ _ _ _ _ _ T Hd Hc).
Qed.

Lemma view_split : view o (l ++ p :: k) = view o l ++ (p, c) :: view o k.
Proof. rewrite view_app. simpl. by rewrite (con_at_some _ _ _ Hc). Qed.

Lemma with_local_self a : local_addr (con_addr c) = a -> with_local a (p, c) = true.
Proof. intros <-. unfold with_local. by rewrite bool_decide_eq_true. Qed.

Lemma find_local a : local_addr (con_addr c) = a -> List.find (with_local a) (view o (l ++ p :: k)) = Some (p, c).
Proof.
  intros <-. pose proof others_local as H. rewrite view_app in H. apply Forall_app in H as [H _]. rewrite view_split.
  induction (view o l) as [|x v IH]; simpl; [by rewrite with_local_self|].
  apply Forall_cons_iff in H as [Hx H]. rewrite Hx. by apply IH.
Qed.

Lemma filter_local a : local_addr (con_addr c) = a -> List.filter (other_local a) (view o (l ++ p :: k)) = view o (l ++ k).
Proof.
  intros <-. pose proof others_local as H. rewrite view_split, view_app. rewrite view_app in H. apply Forall_app in H as [H1 H2].
  rewrite List.filter_app. simpl. unfold other_local at 2. rewrite with_local_self by done. simpl.
  assert (Hf : forall v, Forall (fun x => with_local (local_addr (con_addr c)) x = false) v ->
               List.filter (other_local (local_addr (con_addr c))) v = v).
  { induction v as [|x v IH]; intros Hv; [done|]. simpl. unfold other_local at 1.
    apply Forall_cons_iff in Hv as [Hx Hv]. rewrite Hx. simpl. by rewrite IH. }
  by rewrite !Hf.
Qed.

Lemma readdress_view s : local_addr (con_addr c) = s_local s ->
  map (spec_readdress s) (view o (l ++ p :: k)) = view o l ++ spec_readdress s (p, c) :: view o k.
Proof.
  intros Hl. pose proof others_local as H. rewrite Hl in H. rewrite view_split, map_app. simpl.
  rewrite view_app in H. apply Forall_app in H as [H1 H2].
  assert (Hf : forall v, Forall (fun x => with_local (s_local s) x = false) v -> map (spec_readdress s) v = v).
  { induction v as [|x v IH]; intros Hv; [done|]. simpl. unfold spec_readdress at 1.
    apply Forall_cons_iff in Hv as [Hx Hv]. rewrite Hx. by rewrite IH. }
  by rewrite !Hf.
Qed.

Lemma find_ptr : List.find (fun x => x.1 =? p) (view o (l ++ p :: k)) = Some (p, c).
Proof.
  destruct (NoDup_middle _ _ _ (rep_nodup _ _ _ (t_rep _ _ T))) as (Hpl & _ & _).
  rewrite view_split. clear T. induction l as [|q v IH]; simpl; [by rewrite Z.eqb_refl|].
  apply not_elem_of_cons in Hpl as [Hne Hpl]. rewrite (proj2 (Z.eqb_neq q p)) by congruence. by apply IH.
Qed.

Lemma map_ptr (x : ptr * connection) :
  map (fun y : ptr * connection => if y.1 =? p then x else y) (view o (l ++ p :: k)) = view o l ++ x :: view o k.
Proof.
  destruct (NoDup_middle _ _ _ (rep_nodup _ _ _ (t_rep _ _ T))) as (Hpl & Hpk & _).
  rewrite view_split, map_app. simpl. rewrite Z.eqb_refl.
  assert (Hf : forall v, p ∉ v -> map (fun y : ptr * connection => if y.1 =? p then x else y) (view o v) = view o v).
  { induction v as [|q v IH]; intros Hv; [done|]. simpl. apply not_elem_of_cons in Hv as [Hne Hv].
    rewrite (proj2 (Z.eqb_neq q p)) by congruence. f_equal. by apply IH. }
  by rewrite !Hf.
Qed.

Lemma view_put_split c' : view (put_con o p c') (l ++ p :: k) = view o l ++ (p, c') :: view o k.
Proof.
  destruct (NoDup_middle _ _ _ (rep_nodup _ _ _ (t_rep _ _ T))) as (Hpl & Hpk & _).
  rewrite view_app. simpl. by rewrite con_at_put, !view_put.
Qed.
End Split.

Lemma find_local_none o ids a : table o ids ->
  (forall q c, conns o !! q = Some c -> local_addr (con_addr c) <> a) ->
  List.find (with_local a) (view o ids) = None.
Proof.
  intros T H. destruct (List.find _ _) as [x|] eqn:E; [|done]. exfalso.
  apply find_some in E as [Hin Hx]. apply list_elem_of_In in Hin.
  apply list_elem_of_fmap in Hin as (q & -> & Hq). apply (table_lookup _ _ T) in Hq as [c Hc].
  unfold with_local in Hx. apply bool_decide_eq_true in Hx. simpl in Hx. rewrite (con_at_some _ _ _ Hc) in Hx. by apply (H q c).
Qed.

Lemma conaddr_of_con_at o p : conaddr_of (conns o) p = con_addr (con_at o p).
Proof. unfold conaddr_of, con_at. by destruct (conns o !! p). Qed.

Definition locals (l : sessions) : list BAddr := map (fun x => local_addr (con_addr x.2)) l.

Lemma locals_nodup o ids : table o ids -> NoDup (locals (view o ids)).
Proof.
  intros T. unfold locals, view. rewrite map_map. assert (Hp := t_perm _ _ T). rewrite <- Hp.
  destruct (t_sorted _ _ T) as [Hs Hok]. clear Hp. simpl.
  induction Hs as [|x l Hs IH Hf]; [constructor|]. inversion Hok; subst. simpl. constructor; [|by apply IH].
  intros (y & Ey & Hy)%list_elem_of_fmap. apply list_elem_of_In in Hy. rewrite List.Forall_forall in Hf.
  specialize (Hf y Hy). unfold BAVL.lt, conaddr_comparator in Hf. rewrite !conaddr_of_con_at, <- Ey in Hf.
  assert (BAddr_CompareOrder (local_addr (con_addr (con_at o x))) (local_addr (con_addr (con_at o x))) = 0); [|lia].
  rewrite <- conaddr_of_con_at. by apply BAddr_CompareOrder_zero.
Qed.

(** ** Every step follows the specification *)

Definition follows (k : config) (spec : option (sessions * list output))
    (r : option (SocksUdpGwClient * list output)) : Prop :=
  match spec with
  | Some (l, out) => exists o' ids', r = Some (o', out) /\ good k o' ids' /\ l = view o' ids'
  | None => r = None
  end.

Definition expects (k : config) (s : submission) : Prop :=
  BAddr_wf (s_local s) /\ BAddr_wf (s_remote s) /\ is_ip (s_local s) = true /\ is_ip (s_remote s) = true
  /\ blen (s_data s) <= c_mtu k
  /\ (forall b, s_out s = Some b -> blen b = c_mtu k).

(** The first job of a connection that was not just created has run. *)
Lemma run_first_job_idle o p out : idle o -> run_first_job o p out = Some (o, None).
Proof.
  intros Hi. destruct p as [p|]; [|done]. simpl. destruct (conns o !! p) as [c|] eqn:E; [|done].
  by rewrite (Hi p c E).
Qed.

Lemma good_put k o ids p c c' : good k o ids -> conns o !! p = Some c ->
  local_addr (con_addr c') = local_addr (con_addr c) -> con_first c' = None -> good k (put_con o p c') ids.
Proof.
  intros [T Hi Hm Hl Hmt Hk] Hc Hloc Hf. split; try done; [by eapply table_put|].
  intros q d Hq. simpl in Hq. apply lookup_insert_Some in Hq as [[_ <-]|[_ Hq]]; [done|by apply (Hi q)].
Qed.

Lemma submit_known k o ids s p c :
  good k o ids -> expects k s -> find_connection o {| local_addr := s_local s; remote_addr := s_remote s |} (s_is_dns s) = Some (Some p) ->
  conns o !! p = Some c -> local_addr (con_addr c) = s_local s ->
  follows k (spec_submit k (view o ids) s)
    ('(o, sent) ← SocksUdpGwClient_SubmitPacket o (s_answers s) (s_out s) (s_local s) (s_remote s) (s_is_dns s) (s_data s);
     '(o, sent') ← run_first_job o (ans_malloc (s_answers s)) (s_out s);
     Some (o, sent_list sent ++ sent_list sent')).
Proof.
  intros G (Hlw & Hrw & Hli & Hri & Hfit & Hout) Hfind Hc Hloc. pose proof G as [T Hi Hm Hl Hmt Hk].
  assert (Hp : p ∈ ids). { apply (table_lookup _ _ T). by eexists. }
  apply list_elem_of_split in Hp as (l & r & ->).
  set (a := {| local_addr := s_local s; remote_addr := s_remote s |}) in *.
  assert (Hf : con_first c = None) by by apply (Hi p).
  assert (G' : good k (put_con o p (with_addr c a (s_is_dns s))) (l ++ p :: r)) by (eapply good_put; done).
  unfold SocksUdpGwClient_SubmitPacket. fold (is_ip (s_local s)) (is_ip (s_remote s)). rewrite Hli, Hri. fold a.
  assert (Hmtu : c_mtu k = udp_mtu o) by by subst k. rewrite Hmtu in *.
  rewrite (proj2 (Z.leb_le _ _)) by lia. rewrite Hfind. cbn [mbind option_bind]. rewrite Hc. cbn [mbind option_bind]. cbv zeta.
  unfold reset_connection. set (c' := with_addr c a (s_is_dns s)) in *.
  assert (Hx : spec_readdress s (p, c) = (p, c')).
  { unfold spec_readdress. by rewrite (with_local_self _ _ _ Hloc). }
  unfold spec_submit, spec_sent. rewrite (find_local o l r p c T Hc) by done. simpl con_dest. rewrite Hmtu.
  destruct (s_out s) as [out|] eqn:Eout.
  - destruct (Z.leb_spec (blen (submission_prefix s) + blen (s_data s)) (udp_mtu o)) as [Hle|Hgt].
    2: { rewrite (connection_send_overflows (put_con o p c') c') by (first [by apply Hout | exact Hgt]). done. }
    rewrite (connection_send_fits (put_con o p c') c') by (first [by apply Hout | exact Hle]). cbn [mbind option_bind].
    change (0 =? 1) with false. cbn iota.
    destruct (table_touch _ l p r (g_table _ _ _ G')) as (lo & h & lo' & h' & E1 & E2 & T').
    rewrite E1. cbn [mbind option_bind]. rewrite E2. cbn [mbind option_bind].
    rewrite run_first_job_idle by exact (g_idle _ _ _ G'). cbn [mbind option_bind].
    eexists _, _. split; [done|]. split.
    + destruct G' as [T1 Hi1 Hm1 Hl1 Hmt1 Hk1]. split; try done. rewrite <- (Permutation_length (Permutation_to_end l r p)). done.
    + rewrite (filter_local o l r p c T Hc) by done. rewrite Hx. symmetry. apply view_snoc; [|done].
      destruct (NoDup_middle _ _ _ (rep_nodup _ _ _ (t_rep _ _ T))) as (? & ? & _).
      by intros [?|?]%elem_of_app.
  - simpl. rewrite run_first_job_idle by exact (g_idle _ _ _ G'). simpl.
    eexists _, _. split; [done|]. split; [done|].
    rewrite (readdress_view o l r p c T Hc) by done. by rewrite Hx, (view_put_split _ _ _ _ T).
Qed.

(** Dropping the least recently used connection of a full table. *)
Lemma make_room k o ids a is_dns : good k o ids -> conaddr_ok a -> find_connection o a is_dns = Some None ->
  exists o' ids', (if num_connections o =? max_connections o then remove_lru_connection o a is_dns else Some o) = Some o'
    /\ good k o' ids' /\ Z.of_nat (length ids') < max_connections o /\ ids' = (if num_connections o =? max_connections o then tail ids else ids)
    /\ view o' ids' = (if num_connections o =? max_connections o then tail (view o ids) else view o ids)
    /\ (forall p, p ∉ ids \/ (num_connections o =? max_connections o = true /\ head ids = Some p) -> p ∉ ids')
    /\ (forall q c, conns o' !! q = Some c -> conns o !! q = Some c).
Proof.
  intros G Ha Hfind. pose proof G as [T Hi Hm Hl Hmt Hk]. pose proof (t_num _ _ T) as Hn.
  destruct (Z.eqb_spec (num_connections o) (max_connections o)) as [E|E].
  - destruct ids as [|p r]; [simpl in *; lia|].
    assert (is_Some (conns o !! p)) as [c Hc]. { apply (table_lookup _ _ T). set_solver. }
    destruct (connection_free_spec o [] p r c T Hc (Hi p c Hc)) as (o' & Ef & T' & Ec & (E1 & E2 & E3 & E4 & E5)).
    unfold remove_lru_connection. rewrite Hfind. cbn [mbind option_bind].
    rewrite bool_decide_eq_true_2 by done. rewrite (proj2 (Z.gtb_lt _ _)) by lia.
    rewrite (rep_first_head _ _ _ (t_rep _ _ T)). simpl. rewrite Ef.
    destruct (NoDup_middle [] _ _ (rep_nodup _ _ _ (t_rep _ _ T))) as (_ & Hpr & _).
    exists o', r. split_and!; try done.
    + split; try done; [|lia|simpl in Hl; lia|lia|by rewrite Hk, E1, E3, E4, E5].
      intros q d Hq. rewrite Ec in Hq. apply lookup_delete_Some in Hq as [_ Hq]. by apply (Hi q).
    + simpl in Hn. lia.
    + apply view_frame. intros q Hq. rewrite Ec, lookup_delete_ne; [done|]. by intros <-.
    + intros q [Hq|[_ Hq]]; [by apply not_elem_of_cons in Hq as [_ ?]|]. injection Hq as <-. done.
    + intros q d Hq. rewrite Ec in Hq. by apply lookup_delete_Some in Hq as [_ Hq].
  - exists o, ids. split_and!; try done; [lia|]. intros p [Hp|[? _]]; done.
Qed.

Lemma connection_init_fails o ans a data is_dns : spec_created ans = None -> connection_init o ans a data is_dns = Some (o, None).
Proof.
  unfold spec_created, connection_init. destruct (ans_malloc ans); [|done].
  by destruct (ans_dgram ans), (ans_reuse ans), (ans_packet_buffer ans), (ans_single_buffer ans).
Qed.

Lemma submit_new k o ids s :
  good k o ids -> expects k s ->
  find_connection o {| local_addr := s_local s; remote_addr := s_remote s |} (s_is_dns s) = Some None ->
  (forall q c, conns o !! q = Some c -> local_addr (con_addr c) <> s_local s) ->
  (forall p, ans_malloc (s_answers s) = Some p ->
     p ∉ ids \/ (num_connections o =? max_connections o = true /\ head ids = Some p)) ->
  follows k (spec_submit k (view o ids) s)
    ('(o, sent) ← SocksUdpGwClient_SubmitPacket o (s_answers s) (s_out s) (s_local s) (s_remote s) (s_is_dns s) (s_data s);
     '(o, sent') ← run_first_job o (ans_malloc (s_answers s)) (s_out s);
     Some (o, sent_list sent ++ sent_list sent')).
Proof.
  intros G (Hlw & Hrw & Hli & Hri & Hfit & Hout) Hfind Hnew Hfresh. pose proof (g_config _ _ _ G) as Hk.
  set (a := {| local_addr := s_local s; remote_addr := s_remote s |}) in *.
  destruct (make_room k o ids a (s_is_dns s) G Hlw Hfind) as (o1 & ids1 & E1 & G1 & Hlen & Hids & Hview & Hfr & Hsub).
  pose proof G1 as [T1 Hi1 Hm1 Hl1 Hmt1 Hk1].
  unfold SocksUdpGwClient_SubmitPacket. fold (is_ip (s_local s)) (is_ip (s_remote s)). rewrite Hli, Hri. fold a.
  assert (Hmtu : c_mtu k = udp_mtu o) by by rewrite Hk. rewrite Hmtu in *.
  rewrite (proj2 (Z.leb_le _ _)) by lia. rewrite Hfind. cbn [mbind option_bind]. rewrite E1. cbn [mbind option_bind].
  unfold spec_submit. rewrite (find_local_none _ _ _ (g_table _ _ _ G) Hnew).
  rewrite view_length, <- (t_num _ _ (g_table _ _ _ G)).
  replace (c_max k) with (max_connections o) by by rewrite Hk. rewrite <- Hview.
  destruct (spec_created (s_answers s)) as [p|] eqn:Ecr.
  - unfold spec_created in Ecr. destruct (_ && _) eqn:Eans in Ecr; [|done]. specialize (Hfr p (Hfresh p Ecr)).
    destruct (connection_init_spec o1 ids1 (s_answers s) p a (s_data s) (s_is_dns s) T1 Ecr Hfr Hlw) as (o2 & E2 & T2 & Ec2 & Hcf);
      [by intros q d Hq; apply (Hnew q d), Hsub|done|].
    rewrite E2. cbn [mbind option_bind]. rewrite Ecr. simpl. rewrite Ec2, lookup_insert_eq. simpl.
    unfold connection_first_job_handler. rewrite Ec2, lookup_insert_eq. cbn [mbind option_bind con_first].
    set (c := {| con_addr := a; con_is_dns := s_is_dns s; con_dest := _; con_first := _ |}).
    set (c' := {| con_addr := con_addr c; con_is_dns := con_is_dns c; con_dest := con_dest c; con_first := None |}).
    destruct Hcf as (F1 & F2 & F3 & F4 & F5). rewrite Hk1 in Hk. injection Hk as K1 K2 K3 K4.
    assert (G2 : good k (put_con o2 p c') (ids1 ++ [p])).
    { split; try (simpl; lia).
      - apply (table_put _ _ p c); [done|by rewrite Ec2, lookup_insert_eq|done].
      - intros q d Hq. simpl in Hq. rewrite Ec2, insert_insert_eq in Hq.
        apply lookup_insert_Some in Hq as [[_ <-]|[_ Hq]]; [done|by apply (Hi1 q)].
      - simpl. rewrite length_app. simpl. lia.
      - simpl. by rewrite F1, F3, F4, F5, Hk1. }
    assert (Hv : view (put_con o2 p c') (ids1 ++ [p]) = view o1 ids1 ++ [(p, c')]).
    { apply view_snoc; [done|]. simpl. by rewrite Ec2, insert_insert_eq. }
    assert (Hdest : (if s_is_dns s then c_dns k else c_socks k) = con_dest c) by (by rewrite Hk1).
    cbv zeta. rewrite Hdest. unfold spec_sent. rewrite Hmtu. destruct (s_out s) as [out|].
    + destruct (Z.leb_spec (blen (submission_prefix s) + blen (s_data s)) (udp_mtu o)) as [Hle|Hgt].
      2: { by rewrite (connection_send_overflows o2 c) by (first [by rewrite F1, K1; apply Hout | rewrite F1, K1; exact Hgt]). }
      rewrite (connection_send_fits o2 c) by (first [by rewrite F1, K1; apply Hout | rewrite F1, K1; exact Hle]).
      eexists _, _. split; [done|]. split; [done|]. by rewrite Hv.
    + eexists _, _. split; [done|]. split; [done|]. by rewrite Hv.
  - rewrite connection_init_fails by done. cbn [mbind option_bind]. rewrite run_first_job_idle by done. simpl.
    by eexists _, _.
Qed.

(** ** Replies *)

Lemma blen_cons4 (a b c d : Z) rest : blen (a :: b :: c :: d :: rest) = 4 + blen rest.
Proof. unfold blen. simpl. lia. Qed.

Lemma read_prefix n rest : 0 <= n -> n <= blen rest -> mem_read rest 0 n = Some (btake n rest).
Proof. intros. rewrite mem_read_in by lia. by rewrite bdrop_0. Qed.

Lemma dgram_received_spec o p c data :
  conns o !! p = Some c -> blen data <= udp_mtu o -> udp_mtu o <= udpgw_mtu o ->
  exists o', dgram_handler_received o p data
    = Some (o', option_map (fun x => (local_addr (con_addr c), x.1, x.2)) (spec_reply c data))
    /\ o' = match spec_reply c data with
            | Some (remote, _) =>
                if con_is_dns c then o
                else put_con o p (with_addr c {| local_addr := local_addr (con_addr c); remote_addr := remote |} false)
            | None => o
            end.
Proof.
  intros Hc Hl Hm. unfold dgram_handler_received, spec_reply. rewrite Hc. cbn [mbind option_bind].
  rewrite (proj2 (Z.leb_le _ _)) by lia. rewrite !Z.gtb_ltb.
  destruct (con_is_dns c) eqn:Ed; [by rewrite (proj2 (Z.ltb_ge _ _)) by lia; eexists|].
  unfold sizeof_socks_udp_header. destruct data as [|a [|b [|f [|t rest]]]]; [by eexists..|].
  rewrite blen_cons4 in *. pose proof (blen_nonneg rest). rewrite (proj2 (Z.ltb_ge (4 + blen rest) 4)) by lia.
  rewrite (read_prefix 4 (a :: b :: f :: t :: rest)) by (rewrite ?blen_cons4; lia). cbn [mbind option_bind]. cbv zeta.
  change (nth 2 (btake 4 (a :: b :: f :: t :: rest)) 0) with f.
  change (nth 3 (btake 4 (a :: b :: f :: t :: rest)) 0) with t.
  change (bdrop 4 (a :: b :: f :: t :: rest)) with rest.
  destruct (negb (f =? 0)); [by eexists|]. unfold SOCKS_ATYP_IPV6, sizeof_udpgw_addr_ipv6, sizeof_udpgw_addr_ipv4, BAddr_MakeIPv6, BAddr_MakeIPv4.
  assert (Hd : forall n, 0 <= n -> n <= blen rest -> blen (bdrop n rest) <= udp_mtu o).
  { intros n Hn1 Hn2. unfold bdrop, blen in *. rewrite length_drop. lia. }
  destruct (t =? 4); rewrite Z.leb_antisym; (case (Z.ltb_spec (blen rest)); intros Hr; cbn [negb]; [by eexists|]);
    rewrite read_prefix by lia; cbn [mbind option_bind]; rewrite Z.gtb_ltb; simpl udp_mtu;
    rewrite (proj2 (Z.ltb_ge (udp_mtu o) _)) by (apply Hd; lia); by eexists.
Qed.

Lemma with_addr_same c : with_addr c (con_addr c) (con_is_dns c) = c.
Proof. by destruct c. Qed.
Lemma conaddr_same a : {| local_addr := local_addr a; remote_addr := remote_addr a |} = a.
Proof. by destruct a. Qed.

Lemma step_datagram k o ids p data : good k o ids -> enabled o (EvDatagram p data) = true ->
  follows k (Some (spec_datagram (view o ids) p data)) (relay_step o (EvDatagram p data)).
Proof.
  intros G He. pose proof G as [T Hi Hm Hl Hmt Hk]. unfold relay_step.
  unfold enabled in He. simpl in He. apply andb_prop in He as [[c Hc]%bool_decide_eq_true Hd]. apply Z.leb_le in Hd.
  assert (Hp : p ∈ ids). { apply (table_lookup _ _ T). by eexists. } apply list_elem_of_split in Hp as (l & r & ->).
  destruct (dgram_received_spec o p c data Hc Hd Hmt) as (o' & E & Ho'). rewrite E. cbn [mbind option_bind].
  unfold spec_datagram. rewrite (find_ptr _ _ _ _ _ T Hc). simpl snd.
  destruct (spec_reply c data) as [[remote payload]|] eqn:Er; simpl option_map; [|by subst o'; eexists _, _].
  rewrite (map_ptr _ _ _ _ _ T Hc). simpl fst. destruct (con_is_dns c) eqn:Ed.
  - subst o'. eexists _, _. split; [done|]. split; [done|]. unfold spec_reply in Er. rewrite Ed in Er. injection Er as <- <-.
    rewrite conaddr_same, <- Ed, with_addr_same. by rewrite (view_split _ _ _ _ _ Hc).
  - subst o'. eexists _, _. split; [done|]. split; [|by rewrite (view_put_split _ _ _ _ T)].
    apply (good_put _ _ _ _ _ _ G Hc); [done|]. simpl. by apply (Hi p).
Qed.

Lemma step_submit k o ids s : good k o ids -> enabled o (EvSubmit s) = true ->
  follows k (spec_submit k (view o ids) s) (relay_step o (EvSubmit s)).
Proof.
  intros G He. pose proof G as [T Hi Hm Hl Hmt Hk]. unfold relay_step.
  unfold enabled in He. simpl in He. rewrite !andb_true_iff in He.
  destruct He as ((((((Hlw & Hrw) & Hli) & Hri) & Hfit) & Hout) & Hfresh).
  apply bool_decide_eq_true in Hlw, Hrw. apply Z.leb_le in Hfit.
  assert (Hex : expects k s).
  { rewrite Hk. split_and!; try done. intros b Hb. rewrite Hb in Hout. simpl. lia. }
  destruct (find_connection_spec o ids T {| local_addr := s_local s; remote_addr := s_remote s |} (s_is_dns s) Hlw) as ([p|] & Ef & Hr).
  - destruct Hr as (c & Hc & Hloc). by apply (submit_known k o ids s p c).
  - apply submit_new; try done. intros p Hp. rewrite Hp in Hfresh. apply orb_prop in Hfresh as [Hn|Hf].
    + left. rewrite (table_lookup _ _ T). apply negb_true_iff, bool_decide_eq_false in Hn. done.
    + right. apply andb_prop in Hf as [Hf1 Hf2%bool_decide_eq_true]. split; [done|].
      by rewrite <- (rep_first_head _ _ _ (t_rep _ _ T)).
Qed.

Lemma relay_step_follows k o ids e : good k o ids -> enabled o e = true -> follows k (spec_step k (view o ids) e) (relay_step o e).
Proof. intros G He. destruct e as [s|p data]; [by apply step_submit|by apply step_datagram]. Qed.

Lemma relay_run_follows k evs : forall o ids, good k o ids -> relay_allowed o evs = true -> follows k (spec_run k (view o ids) evs) (relay_run o evs).
Proof.
  induction evs as [|e evs IH]; intros o ids G Ha; [by eexists _, _|]. simpl in *. apply andb_prop in Ha as [He Ha].
  pose proof (relay_step_follows k o ids e G He) as Hf. unfold follows in Hf. destruct (spec_step k (view o ids) e) as [[l out]|].
  2: { by rewrite Hf. }
  destruct Hf as (o1 & ids1 & E & G1 & ->). rewrite E in *. cbn [mbind option_bind].
  pose proof (IH o1 ids1 G1 Ha) as Hf. unfold follows in Hf. destruct (spec_run k (view o1 ids1) evs) as [[l outs]|].
  - destruct Hf as (o2 & ids2 & E2 & G2 & ->). rewrite E2. by eexists _, _.
  - by rewrite Hf.
Qed.

(** ** From SocksUdpGwClient_Init on *)

(** The UDP MTU that tun2socks.c computes from the MTU of the device; [None] when
    it gives up because the MTU is too large. *)
Definition main_udp_mtu (tap_mtu : Z) (ip6addr : bool) : option Z :=
  let udp_mtu := tap_mtu - (sizeof_ipv4_header + sizeof_udp_header) in
  let udp_mtu :=
    if ip6addr then
      let udp_ip6_mtu := tap_mtu - (sizeof_ipv6_header + sizeof_udp_header) in
      if udp_mtu <? udp_ip6_mtu then udp_ip6_mtu else udp_mtu
    else udp_mtu in
  let udp_mtu := if udp_mtu <? 0 then 0 else udp_mtu in
  let udpgw_mtu := udpgw_compute_mtu udp_mtu in
  if (udpgw_mtu <? 0) || (udpgw_mtu >? PACKETPROTO_MAXPAYLOAD) then None else Some udp_mtu.

(** SocksUdpGwClient_Init as the program calls it. *)
Record init_args := { i_tap_mtu : Z; i_ip6addr : bool; i_max : Z; i_socks : BAddr; i_dns : BAddr }.
Definition main_init (i : init_args) : option SocksUdpGwClient :=
  mtu ← main_udp_mtu (i_tap_mtu i) (i_ip6addr i);
  SocksUdpGwClient_Init mtu (i_max i) (i_socks i) (i_dns i) 0.
Definition main_config (i : init_args) : config :=
  {| c_mtu := default 0 (main_udp_mtu (i_tap_mtu i) (i_ip6addr i)); c_max := Z.min (i_max i) 65536;
     c_socks := i_socks i; c_dns := i_dns i |}.

Lemma main_udp_mtu_range tap ip6 m : tap <= INT_MAX -> main_udp_mtu tap ip6 = Some m ->
  0 <= m /\ m + 22 <= PACKETPROTO_MAXPAYLOAD /\ udpgw_compute_mtu m = m + 22.
Proof.
  intros Ht. unfold main_udp_mtu. set (u := if ip6 then _ else _). set (v := if u <? 0 then 0 else u). cbv zeta.
  assert (Hv : 0 <= v <= INT_MAX - 22).
  { unfold v, u, sizeof_ipv4_header, sizeof_ipv6_header, sizeof_udp_header, INT_MAX in *. destruct ip6; repeat ztest; lia. }
  rewrite (udpgw_compute_mtu_value v) by apply Hv. destruct (_ || _) eqn:E; [done|]. intros [= <-].
  apply orb_false_iff in E as [_ E]. rewrite Z.gtb_ltb in E. apply Z.ltb_ge in E.
  split_and!; [apply Hv|lia|apply udpgw_compute_mtu_value; lia].
Qed.

Lemma main_init_good i o : i_tap_mtu i <= INT_MAX -> 1 <= i_max i -> main_init i = Some o -> good (main_config i) o [] /\ view o [] = [].
Proof.
  intros Ht Hm. unfold main_init, main_config. destruct (main_udp_mtu _ _) as [m|] eqn:Em; [|done].
  destruct (main_udp_mtu_range _ _ _ Ht Em) as (H0 & H1 & H2). cbn [mbind option_bind].
  unfold SocksUdpGwClient_Init. destruct (negb _); [|done]. intros [= <-]. split; [|done].
  assert (Hmax : (if i_max i >? UINT16_MAX + 1 then UINT16_MAX + 1 else i_max i) = Z.min (i_max i) 65536).
  { unfold UINT16_MAX. rewrite Z.gtb_ltb. destruct (Z.ltb_spec (65535 + 1) (i_max i)); lia. }
  split; simpl; rewrite ?Hmax; try done; try lia.
  split; simpl; try done. split; constructor. split; constructor.
Qed.

(** The relay client that the program starts, after the events [evs]. *)
Definition relay_session (i : init_args) (evs : list event) : option (SocksUdpGwClient * list output) :=
  o ← main_init i; relay_run o evs.
Definition starts (i : init_args) : Prop := i_tap_mtu i <= INT_MAX /\ 1 <= i_max i /\ main_init i <> None.
Definition session_allowed (i : init_args) (evs : list event) : Prop :=
  match main_init i with Some o => relay_allowed o evs = true | None => True end.

Lemma session_follows i evs : starts i -> session_allowed i evs ->
  follows (main_config i) (spec_run (main_config i) [] evs) (relay_session i evs).
Proof.
  intros (Ht & Hm & Hi) Ha. unfold relay_session, session_allowed in *. destruct (main_init i) as [o|] eqn:E; [|done].
  destruct (main_init_good i o Ht Hm E) as [G <-]. by apply relay_run_follows.
Qed.

Lemma session_good i evs o outs : starts i -> session_allowed i evs -> relay_session i evs = Some (o, outs) -> exists ids, good (main_config i) o ids.
Proof.
  intros Hs Ha E. pose proof (session_follows i evs Hs Ha) as Hf. unfold follows in Hf. destruct (spec_run _ _ _) as [[l out]|].
  - destruct Hf as (o' & ids & E' & G & _). rewrite E in E'. injection E' as <- <-. by exists ids.
  - by rewrite E in Hf.
Qed.

(** C21. In every session of the relay client the search tree and the linked list
    implement a list of connections ordered by use, with at most max_connections
    entries and one for each local address; the datagrams sent, their destinations
    and the datagrams delivered to the device are those of that list.  No freed
    memory is used and no assertion fails.  A write goes past a buffer exactly
    when the list says so: when a datagram whose header, address and data together
    exceed the UDP MTU gets a buffer. *)
Theorem SocksUdpGwClient_refines_lru i evs : starts i -> session_allowed i evs ->
  (Forall (fits (main_config i)) evs -> spec_run (main_config i) [] evs <> None)
  /\ match spec_run (main_config i) [] evs with
     | None => relay_session i evs = None
     | Some (l, outs) => exists o ids, relay_session i evs = Some (o, outs) /\ l = view o ids
         /\ num_connections o = Z.of_nat (length ids) /\ num_connections o <= Z.min (i_max i) 65536
         /\ NoDup (locals l) /\ dom (conns o) = list_to_set ids
     end.
Proof.
  intros Hs Ha. split; [intros Hf; by apply spec_run_fits|]. pose proof (session_follows i evs Hs Ha) as Hf. unfold follows in Hf.
  destruct (spec_run _ _ _) as [[l outs]|]; [|done].
  destruct Hf as (o & ids & E & G & ->). exists o, ids.
  destruct G as [T Hi Hm Hl Hmt Hk]. injection Hk as _ K2 _ _. rewrite K2, (t_num _ _ T).
  split_and!; try done; [by apply locals_nodup|apply T].
Qed.

(** ** What the least recently used order guarantees *)

Definition submits_within (U : list BAddr) (e : event) : Prop :=
  match e with EvSubmit s => s_local s ∈ U | EvDatagram _ _ => True end.

(** Connection [p] of address [a] is there, and all that were used since are of
    addresses in [U]. *)
Definition recent (a : BAddr) (p : ptr) (U : list BAddr) (l : sessions) : Prop :=
  exists l1 x l2, l = l1 ++ x :: l2 /\ x.1 = p /\ local_addr (con_addr x.2) = a /\ locals l2 ⊆ U.

Lemma locals_app l k : locals (l ++ k) = locals l ++ locals k.
Proof. apply map_app. Qed.

Lemma locals_readdress s x : local_addr (con_addr (spec_readdress s x).2) = local_addr (con_addr x.2).
Proof. unfold spec_readdress, with_local. case_bool_decide; [|done]. by simpl. Qed.

Lemma recent_map a p U l (f : ptr * connection -> ptr * connection) :
  (forall x, (f x).1 = x.1) -> (forall x, x ∈ l -> local_addr (con_addr (f x).2) = local_addr (con_addr x.2)) ->
  recent a p U l -> recent a p U (map f l).
Proof.
  intros Hf1 Hf2 (l1 & x & l2 & -> & Hp & Ha & HU). exists (map f l1), (f x), (map f l2).
  split_and!; [by rewrite map_app|by rewrite Hf1|rewrite Hf2; [done|set_solver]|].
  intros b Hb. apply HU. unfold locals in *. rewrite map_map in Hb.
  apply list_elem_of_fmap in Hb as (y & -> & Hy). apply list_elem_of_fmap. exists y. split; [|done]. apply Hf2. set_solver.
Qed.

Lemma recent_datagram a p U l q data : NoDup l.*1 -> recent a p U l -> recent a p U (spec_datagram l q data).1.
Proof.
  intros Hnd Hr. unfold spec_datagram. destruct (List.find _ _) as [x|] eqn:Ef; [|done].
  destruct (spec_reply _ _) as [[remote payload]|]; [|done]. apply find_some in Ef as [Hx Eq]. apply Z.eqb_eq in Eq.
  apply recent_map; [..|done].
  - intros y. destruct (Z.eqb_spec y.1 q); done.
  - intros y Hy. destruct (Z.eqb_spec y.1 q) as [E|]; [|done]. simpl. f_equal. f_equal.
    apply list_elem_of_In in Hx. apply list_elem_of_lookup in Hx as [i Hi], Hy as [j Hj].
    assert (i = j). { apply (NoDup_lookup _ _ _ q Hnd); rewrite list_lookup_fmap; [by rewrite Hi, <- Eq|by rewrite Hj, <- E]. }
    subst j. congruence.
Qed.

Lemma readdress_fst s x : (spec_readdress s x).1 = x.1.
Proof. unfold spec_readdress. by destruct (with_local _ _). Qed.

(** An address occurs once. *)
Lemma locals_at l1 y l2 x : NoDup (locals (l1 ++ y :: l2)) -> x ∈ l1 ++ y :: l2 ->
  local_addr (con_addr x.2) = local_addr (con_addr y.2) -> x = y.
Proof.
  intros Hnd [i Hi]%list_elem_of_lookup E. assert (i = length l1).
  { apply (NoDup_lookup (locals (l1 ++ y :: l2)) _ _ (local_addr (con_addr y.2)) Hnd); unfold locals; rewrite list_lookup_fmap.
    - rewrite Hi. simpl. by rewrite E.
    - by rewrite list_lookup_middle by done. }
  subst i. rewrite list_lookup_middle in Hi by done. congruence.
Qed.

(** Another connection, or this one, becomes the most recently used. *)
Lemma recent_touch a p U l s x : NoDup (locals l) -> s_local s ∈ a :: U -> x ∈ l -> local_addr (con_addr x.2) = s_local s ->
  recent a p U l -> recent a p U (List.filter (other_local (s_local s)) l ++ [spec_readdress s x]).
Proof.
  intros Hnd Hs Hx Ex (l1 & y & l2 & -> & Hp & Ha & HU). rewrite List.filter_app. simpl.
  unfold other_local at 2, with_local. rewrite Ha. case_bool_decide as Eas; simpl.
  - assert (x = y) as -> by (apply (locals_at l1 y l2 x Hnd Hx); congruence).
    exists (List.filter (other_local (s_local s)) l1 ++ List.filter (other_local (s_local s)) l2), (spec_readdress s y), [].
    split_and!; [done|by rewrite readdress_fst|by rewrite locals_readdress|set_solver].
  - exists (List.filter (other_local (s_local s)) l1), y, (List.filter (other_local (s_local s)) l2 ++ [spec_readdress s x]).
    split_and!; try done; [by rewrite <- app_assoc|]. rewrite locals_app. intros b [Hb|Hb]%elem_of_app.
    + apply list_elem_of_fmap in Hb as (z & -> & Hz). apply HU. apply list_elem_of_fmap. exists z. split; [done|].
      apply list_elem_of_In in Hz. apply filter_In in Hz as [Hz _]. by apply list_elem_of_In.
    + apply elem_of_cons in Hb as [->|Hb]; [|by apply not_elem_of_nil in Hb]. rewrite locals_readdress, Ex. set_solver.
Qed.

(** The first of a full list is not a recent one. *)
Lemma recent_drop a p U l b m : NoDup (locals l) -> NoDup U -> Z.of_nat (length U) < m -> b ∈ U -> b ∉ locals l ->
  recent a p U l -> recent a p U (if Z.of_nat (length l) =? m then tail l else l).
Proof.
  intros Hnd HndU Hlen Hb Hnot (l1 & y & l2 & -> & Hp & Ha & HU).
  destruct (Z.eqb_spec (Z.of_nat (length (l1 ++ y :: l2))) m) as [Efull|]; [|by exists l1, y, l2].
  destruct l1 as [|z l1]; [|by exists l1, y, l2]. exfalso. simpl in *.
  assert (length (b :: locals l2) <= length U)%nat; [|unfold locals in *; simpl in *; rewrite length_map in *; lia].
  apply submseteq_length, NoDup_submseteq; [|set_solver].
  apply NoDup_cons in Hnd as [_ Hnd]. constructor; [set_solver|done].
Qed.

Lemma recent_snoc a p U l x : local_addr (con_addr x.2) ∈ U -> recent a p U l -> recent a p U (l ++ [x]).
Proof.
  intros Hx (l1 & y & l2 & -> & Hp & Ha & HU). exists l1, y, (l2 ++ [x]).
  split_and!; try done; [by rewrite <- app_assoc|]. rewrite locals_app. simpl. set_solver.
Qed.

Lemma recent_submit k a p U l s : NoDup (locals l) -> NoDup U -> Z.of_nat (length U) < c_max k -> s_local s ∈ a :: U ->
  recent a p U l -> forall l' out, spec_submit k l s = Some (l', out) -> recent a p U l'.
Proof.
  intros Hnd HndU Hlen Hs Hr l' out. unfold spec_submit. destruct (List.find _ _) as [x|] eqn:Ef.
  - apply find_some in Ef as [Hx Ex]. unfold with_local in Ex. apply bool_decide_eq_true in Ex.
    destruct (spec_sent _ _ _) as [out'|]; [|done]. intros [= <- <-].
    destruct (s_out s); [by apply recent_touch; [..|apply list_elem_of_In| |]|].
    apply recent_map; [apply readdress_fst|intros; apply locals_readdress|done].
  - assert (Hnot : s_local s ∉ locals l).
    { intros (z & Hz & Hin)%list_elem_of_fmap. apply list_elem_of_In in Hin.
      pose proof (find_none _ _ Ef z Hin) as Hn. unfold with_local in Hn. apply bool_decide_eq_false in Hn. congruence. }
    assert (Hs' : s_local s ∈ U).
    { apply elem_of_cons in Hs as [E|]; [|done]. exfalso. apply Hnot. destruct Hr as (l1 & y & l2 & -> & _ & Ha & _).
      rewrite locals_app. simpl. rewrite Ha, E. set_solver. }
    pose proof (recent_drop _ _ _ _ _ _ Hnd HndU Hlen Hs' Hnot Hr) as Hr'.
    destruct (spec_created _) as [q|]; [|by intros [= <- <-]]. cbv zeta. destruct (spec_sent _ _ _) as [out'|]; [|done].
    intros [= <- <-]. by apply recent_snoc.
Qed.

Lemma recent_run k a p U evs : NoDup U -> Z.of_nat (length U) < c_max k -> Forall (submits_within (a :: U)) evs ->
  forall o ids o' outs, good k o ids -> recent a p U (view o ids) -> relay_allowed o evs = true -> relay_run o evs = Some (o', outs) ->
  exists ids', good k o' ids' /\ recent a p U (view o' ids').
Proof.
  intros HU Hlen Hevs. induction Hevs as [|e evs He Hevs IH]; intros o ids o' outs G Hr Ha E; simpl in *; [injection E as <- <-; by exists ids|].
  apply andb_prop in Ha as [Hen Ha]. pose proof (relay_step_follows k o ids e G Hen) as Hf. unfold follows in Hf.
  destruct (spec_step k (view o ids) e) as [[l out]|] eqn:Es; [|by rewrite Hf in E].
  destruct Hf as (o1 & ids1 & E1 & G1 & ->). rewrite E1 in *. cbn [mbind option_bind] in E.
  destruct (relay_run o1 evs) as [[o2 outs2]|] eqn:E2; [|done]. injection E as <- _. apply (IH o1 ids1 o2 outs2 G1); [|done..].
  pose proof (g_table _ _ _ G) as T. destruct e as [s|q data]; simpl in Es.
  - eapply recent_submit; [by apply locals_nodup|exact HU|exact Hlen|exact He|exact Hr|exact Es].
  - injection Es as Es. change (view o1 ids1) with (view o1 ids1, out).1. rewrite <- Es.
    apply recent_datagram; [|done]. rewrite view_fst. apply (rep_nodup _ _ _ (t_rep _ _ T)).
Qed.

(** The connection that sent a datagram is the most recently used one. *)
Lemma spec_submit_last k l s l' out outs : spec_submit k l s = Some (l', out :: outs) ->
  exists l1 x, l' = l1 ++ [x] /\ con_addr x.2 = {| local_addr := s_local s; remote_addr := s_remote s |}
    /\ con_is_dns x.2 = s_is_dns s /\ out = Sent (con_dest x.2) (submission_prefix s ++ s_data s) /\ outs = [] /\ fits k (EvSubmit s).
Proof.
  unfold spec_submit, spec_sent. destruct (List.find _ _) as [x|] eqn:Ef.
  - apply find_some in Ef as [_ Ex]. destruct (s_out s); [|done]. destruct (Z.leb_spec (blen (submission_prefix s) + blen (s_data s)) (c_mtu k)); [|done].
    intros [= <- <- <-]. eexists _, _. split; [done|]. unfold spec_readdress. by rewrite Ex.
  - destruct (spec_created _) as [p|]; [|done]. destruct (s_out s); [|done].
    destruct (Z.leb_spec (blen (submission_prefix s) + blen (s_data s)) (c_mtu k)); [|done]. intros [= <- <- <-]. by eexists _, _.
Qed.

(** What holds after a step that sent a datagram. *)
Lemma sent_step i evs o outs s o1 out : starts i -> session_allowed i evs -> relay_session i evs = Some (o, outs) ->
  enabled o (EvSubmit s) = true -> relay_step o (EvSubmit s) = Some (o1, [out]) ->
  exists ids p c, good (main_config i) o1 (ids ++ [p]) /\ conns o1 !! p = Some c /\ fits (main_config i) (EvSubmit s)
    /\ con_addr c = {| local_addr := s_local s; remote_addr := s_remote s |} /\ con_is_dns c = s_is_dns s
    /\ out = Sent (con_dest c) (submission_prefix s ++ s_data s).
Proof.
  intros Hs Hal E He Estep. destruct (session_good _ _ _ _ Hs Hal E) as [ids G].
  pose proof (step_submit _ _ _ _ G He) as Hf. unfold follows in Hf. destruct (spec_submit _ _ _) as [[l' out']|] eqn:Espec; [|by rewrite Hf in Estep].
  destruct Hf as (o' & ids' & E' & G' & ->). rewrite Estep in E'. injection E' as <- <-.
  destruct (spec_submit_last _ _ _ _ _ _ Espec) as (l1 & x & Hv & Ha & Hd & -> & _ & Hfit).
  assert (Hids : ids' = l1.*1 ++ [x.1]). { rewrite <- (view_fst o1 ids'), Hv. by rewrite fmap_app. }
  assert (Hx : x.2 = con_at o1 x.1).
  { subst ids'. rewrite view_app in Hv. apply app_inj_tail in Hv as [_ Hv]. by rewrite <- Hv. }
  assert (is_Some (conns o1 !! x.1)) as [c Hc]. { apply (table_lookup _ _ (g_table _ _ _ G')). rewrite Hids. set_solver. }
  rewrite (con_at_some _ _ _ Hc) in Hx. subst ids'. rewrite Hx in *. by exists (l1.*1), x.1, c.
Qed.

(** A connection that was used is not dropped before max_connections other local
    addresses were used: replies keep finding it. *)
Theorem SocksUdpGwClient_keeps_recent i evs o outs s o1 out U evs2 o2 outs2 :
  starts i -> session_allowed i evs -> relay_session i evs = Some (o, outs) ->
  enabled o (EvSubmit s) = true -> relay_step o (EvSubmit s) = Some (o1, [out]) ->
  NoDup U -> Z.of_nat (length U) < Z.min (i_max i) 65536 -> Forall (submits_within (s_local s :: U)) evs2 ->
  relay_allowed o1 evs2 = true -> relay_run o1 evs2 = Some (o2, outs2) ->
  exists p c c2, conns o1 !! p = Some c /\ local_addr (con_addr c) = s_local s
    /\ conns o2 !! p = Some c2 /\ local_addr (con_addr c2) = s_local s.
Proof.
  intros Hs Hal E He Estep HU Hlen Hevs Hal2 E2.
  destruct (sent_step _ _ _ _ _ _ _ Hs Hal E He Estep) as (ids & p & c & G & Hc & _ & Ha & _).
  assert (Hloc : local_addr (con_addr c) = s_local s) by by rewrite Ha.
  destruct (recent_run (main_config i) (s_local s) p U evs2 HU Hlen Hevs o1 (ids ++ [p]) o2 outs2 G) as (ids2 & G2 & Hr); [|done..|].
  { exists (view o1 ids), (p, c), []. rewrite view_app. simpl. rewrite (con_at_some _ _ _ Hc). split_and!; try done. set_solver. }
  destruct Hr as (l1 & x & l2 & Hv & Hp & Hl & _).
  assert (Hx : x ∈ view o2 ids2) by (rewrite Hv; set_solver).
  apply list_elem_of_fmap in Hx as (q & -> & Hq). simpl in *. subst q.
  apply (table_lookup _ _ (g_table _ _ _ G2)) in Hq as [c2 Hc2]. rewrite (con_at_some _ _ _ Hc2) in Hl.
  by exists p, c, c2.
Qed.

(** A datagram that comes back as it was sent (with the header the relay uses, or
    bare from the DNS gateway) is delivered with the addresses and the data of the
    submission. *)
Theorem SocksUdpGwClient_echo i evs o outs s o1 dest packet :
  starts i -> session_allowed i evs -> relay_session i evs = Some (o, outs) ->
  enabled o (EvSubmit s) = true -> relay_step o (EvSubmit s) = Some (o1, [Sent dest packet]) ->
  exists p o2, relay_step o1 (EvDatagram p packet) = Some (o2, [Delivered (s_local s) (s_remote s) (s_data s)]).
Proof.
  intros Hs Hal E He Estep.
  destruct (sent_step _ _ _ _ _ _ _ Hs Hal E He Estep) as (ids & p & c & G & Hc & Hfit & Ha & Hd & Hout).
  injection Hout as _ ->. exists p. unfold enabled in He. simpl in He. rewrite !andb_true_iff in He.
  destruct He as ((((((Hlw & Hrw) & Hli) & Hri) & _) & _) & _). apply bool_decide_eq_true in Hrw.
  destruct (session_good _ _ _ _ Hs Hal E) as [ids0 G0]. pose proof (g_config _ _ _ G0) as Hk. rewrite (g_config _ _ _ G) in Hk, Hfit. simpl in Hfit.
  injection Hk as K1 _ _ _. pose proof (g_mtu _ _ _ G) as Hm. pose proof (blen_nonneg (s_data s)).
  pose proof (blen_nonneg (submission_prefix s)). unfold relay_step.
  destruct (s_is_dns s) eqn:Edns.
  - destruct (dgram_received_spec o1 p c (submission_prefix s ++ s_data s) Hc) as (o2 & -> & _); [rewrite blen_app; lia|done|].
    unfold spec_reply, submission_prefix. rewrite Hd, Edns. simpl. rewrite Ha. by eexists.
  - unfold submission_prefix in *. rewrite Edns in *. rewrite <- app_assoc. rewrite blen_app, blen_header in *.
    rewrite (dgram_received_relay o1 p c (s_remote s) (s_data s) Hc Hd Hrw Hri) by lia. simpl. rewrite Ha. by eexists.
Qed.

(** ** SocksUdpGwClient_Free *)

Lemma free_all_empties k o ids : forall fuel, (length ids <= fuel)%nat -> good k o ids ->
  exists o', free_all fuel o = Some o' /\ table o' [] /\ conns o' = ∅.
Proof.
  revert o. induction ids as [|p ids IH]; intros o fuel Hf [T Hi Hm Hl Hmt Hk].
  - assert (E : LinkedList1_IsEmpty (connections_list o) = true).
    { unfold LinkedList1_IsEmpty. by rewrite (rep_first _ _ _ (t_rep _ _ T)). }
    exists o. split_and!; [destruct fuel; simpl; by rewrite E|done|]. apply dom_empty_inv_L. rewrite (t_dom _ _ T). done.
  - destruct fuel as [|fuel]; [simpl in Hf; lia|]. simpl.
    assert (E : LinkedList1_GetFirst (connections_list o) = Some p) by apply (rep_first_head _ _ _ (t_rep _ _ T)).
    assert (E' : LinkedList1_IsEmpty (connections_list o) = false).
    { unfold LinkedList1_IsEmpty. unfold LinkedList1_GetFirst in E. by rewrite E. }
    rewrite E', E. simpl. assert (is_Some (conns o !! p)) as [c Hc]. { apply (table_lookup _ _ T). set_solver. }
    destruct (connection_free_spec o [] p ids c T Hc (Hi p c Hc)) as (o' & -> & T' & Ec & (E1 & E2 & E3 & E4 & E5)). simpl.
    apply IH; [simpl in Hf; lia|]. simpl in Hl. split; try done; try lia; [|by rewrite Hk, E1, E3, E4, E5].
    intros q d Hq. rewrite Ec in Hq. apply lookup_delete_Some in Hq as [_ Hq]. by apply (Hi q).
Qed.

(** The loop of SocksUdpGwClient_Free ends, after every session, with all
    connections freed once, tree and list empty. *)
Theorem SocksUdpGwClient_Free_empties i evs o outs : starts i -> session_allowed i evs -> relay_session i evs = Some (o, outs) ->
  exists o', SocksUdpGwClient_Free o = Some o' /\ conns o' = ∅ /\ num_connections o' = 0
    /\ connections_tree o' = Null /\ LinkedList1_IsEmpty (connections_list o') = true.
Proof.
  intros Hs Ha E. destruct (session_good _ _ _ _ Hs Ha E) as [ids G].
  assert (Hsz : (length ids <= size (conns o))%nat).
  { pose proof (g_table _ _ _ G) as T. rewrite <- size_dom, (t_dom _ _ T), size_list_to_set; [done|].
    apply (rep_nodup _ _ _ (t_rep _ _ T)). }
  destruct (free_all_empties _ _ _ _ Hsz G) as (o' & Ef & T & Hc). exists o'. split_and!; try done.
  - by rewrite (t_num _ _ T).
  - pose proof (t_perm _ _ T) as Hp. destruct (connections_tree o') as [|n b l r]; [done|].
    symmetry in Hp. apply Permutation_nil in Hp. simpl in Hp. by destruct (inorder l).
  - unfold LinkedList1_IsEmpty. by rewrite (rep_first _ _ _ (t_rep _ _ T)).
Qed.

(** * Concrete sessions *)

Definition sample_init : init_args :=
  {| i_tap_mtu := 128; i_ip6addr := false; i_max := 2; i_socks := BAddr_ipv4 16777343 14340; i_dns := BAddr_ipv4 16777343 13568 |}.
Definition sample_submit (p : ptr) (host port : Z) (is_dns : bool) (data : bytes) : event :=
  EvSubmit {| s_local := BAddr_ipv4 host port; s_remote := BAddr_ipv4 134744072 13568; s_is_dns := is_dns; s_data := data;
              s_answers := {| ans_malloc := Some p; ans_dgram := true; ans_reuse := true; ans_packet_buffer := true; ans_single_buffer := true |};
              s_out := Some (repeat 0 100) |}.
Definition sample_events : list event :=
  [sample_submit 100 17 1 false [1; 2; 3]; sample_submit 200 17 2 true [4; 5]; sample_submit 300 17 1 false [6];
   sample_submit 300 18 3 false [7]].

Lemma sample_starts : starts sample_init.
Proof. unfold starts. split_and!; [done..|]. by vm_compute. Qed.

Lemma connection_send_bounds_witness :
  let c := {| con_addr := {| local_addr := BAddr_ipv4 17 1; remote_addr := BAddr_ipv4 134744072 13568 |}; con_is_dns := false;
              con_dest := BAddr_none; con_first := None |} in
  exists o, main_init sample_init = Some o /\ udp_mtu o = 100 /\ connection_send o c (Some (repeat 0 100)) (repeat 0 91) = None.
Proof.
  intros c. destruct (main_init sample_init) as [o|] eqn:E; [|by vm_compute in E]. exists o. split; [done|].
  assert (Hm : udp_mtu o = 100) by (vm_compute in E; by injection E as <-). split; [done|].
  apply (connection_send_bounds o c (repeat 0 100) (repeat 0 91)); [by rewrite Hm|]. by rewrite Hm.
Defined.

Definition sample_none : SocksUdpGwClient :=
  {| udp_mtu := 0; udpgw_mtu := 0; socks_server_addr := BAddr_none; dnsgw := BAddr_none; num_connections := 0; max_connections := 0;
     connections_tree := Null; connections_list := LinkedList1_Init; list_nodes := ∅; conns := ∅ |}.
Definition sample_state (evs : list event) : SocksUdpGwClient := default sample_none (fst <$> relay_session sample_init evs).

Lemma sample_allowed evs : relay_allowed (default sample_none (main_init sample_init)) evs = true -> session_allowed sample_init evs.
Proof. unfold session_allowed. by destruct (main_init sample_init). Qed.

(** The last datagram is one byte too long for the MTU of 100: ten bytes are put in
    front of it. *)
Definition sample_overflow : list event := sample_events ++ [sample_submit 400 17 1 false (repeat 0 91)].

Lemma SocksUdpGwClient_refines_lru_witness :
  (exists o outs, relay_session sample_init sample_events = Some (o, outs) /\ num_connections o = 2 /\ length outs = 4%nat)
  /\ relay_session sample_init sample_overflow = None.
Proof.
  assert (Ha : session_allowed sample_init sample_events) by (apply sample_allowed; vm_compute; reflexivity).
  assert (Ho : session_allowed sample_init sample_overflow) by (apply sample_allowed; vm_compute; reflexivity).
  split.
  - destruct (SocksUdpGwClient_refines_lru sample_init sample_events sample_starts Ha) as [_ H].
    assert (Es : exists l outs, spec_run (main_config sample_init) [] sample_events = Some (l, outs) /\ length l = 2%nat /\ length outs = 4%nat)
      by (eexists _, _; split; [vm_compute; reflexivity|split; reflexivity]).
    destruct Es as (l & outs & Es & Hl & Hn). rewrite Es in H. destruct H as (o & ids & E & -> & Hnum & _).
    exists o, outs. rewrite view_length in Hl. split; [exact E|]. split; [rewrite Hnum, Hl; reflexivity|exact Hn].
  - destruct (SocksUdpGwClient_refines_lru sample_init sample_overflow sample_starts Ho) as [_ H].
    assert (Es : spec_run (main_config sample_init) [] sample_overflow = None) by (vm_compute; reflexivity). rewrite Es in H. exact H.
Defined.

(** The second connection, of address 17:2, was dropped; the first one, used
    again after it, was kept. *)
Lemma SocksUdpGwClient_keeps_recent_witness : exists p c2,
  relay_run (sample_state (take 3 sample_events)) [sample_submit 300 18 3 false [7]]
  = Some (sample_state sample_events, [Sent (BAddr_ipv4 16777343 14340) [0; 0; 0; 1; 8; 8; 8; 8; 0; 53; 7]])
  /\ conns (sample_state sample_events) !! p = Some c2 /\ local_addr (con_addr c2) = BAddr_ipv4 17 1.
Proof.
  assert (Ha : session_allowed sample_init (take 2 sample_events)) by (apply sample_allowed; vm_compute; reflexivity).
  set (s := {| s_local := BAddr_ipv4 17 1; s_remote := BAddr_ipv4 134744072 13568; s_is_dns := false; s_data := [6];
    s_answers := {| ans_malloc := Some 300; ans_dgram := true; ans_reuse := true; ans_packet_buffer := true; ans_single_buffer := true |};
    s_out := Some (repeat 0 100) |}).
  destruct (SocksUdpGwClient_keeps_recent sample_init (take 2 sample_events) (sample_state (take 2 sample_events))
    [Sent (BAddr_ipv4 16777343 14340) [0; 0; 0; 1; 8; 8; 8; 8; 0; 53; 1; 2; 3]; Sent (BAddr_ipv4 16777343 13568) [4; 5]] s
    (sample_state (take 3 sample_events)) (Sent (BAddr_ipv4 16777343 14340) [0; 0; 0; 1; 8; 8; 8; 8; 0; 53; 6]) [BAddr_ipv4 18 3]
    [sample_submit 300 18 3 false [7]] (sample_state sample_events) [Sent (BAddr_ipv4 16777343 14340) [0; 0; 0; 1; 8; 8; 8; 8; 0; 53; 7]] sample_starts Ha)
    as (p & c & c2 & _ & _ & Hc2 & Hl2); [vm_compute; reflexivity..| | | |vm_compute; reflexivity|vm_compute; reflexivity|].
  - constructor; [apply not_elem_of_nil|constructor].
  - reflexivity.
  - constructor; [|constructor]. apply elem_of_cons. right. apply elem_of_cons. by left.
  - exists p, c2. split; [vm_compute; reflexivity|]. split; [exact Hc2|exact Hl2].
Defined.

Lemma SocksUdpGwClient_echo_witness : exists o1 o2 p packet,
  relay_session sample_init (take 1 sample_events) = Some (o1, [Sent (BAddr_ipv4 16777343 14340) packet])
  /\ relay_step o1 (EvDatagram p packet) = Some (o2, [Delivered (BAddr_ipv4 17 1) (BAddr_ipv4 134744072 13568) [1; 2; 3]]).
Proof.
  assert (Ha : session_allowed sample_init []) by (apply sample_allowed; vm_compute; reflexivity).
  destruct (relay_session sample_init []) as [[o outs]|] eqn:E; [|by vm_compute in E].
  destruct (relay_step o (sample_submit 100 17 1 false [1; 2; 3])) as [[o1 out]|] eqn:E1;
    [|vm_compute in E; injection E as <- <-; by vm_compute in E1].
  assert (exists d pk, out = [Sent d pk]) as (d & pk & ->).
  { vm_compute in E. injection E as <- <-. vm_compute in E1. injection E1 as _ <-. by eexists _, _. }
  assert (He : enabled o (sample_submit 100 17 1 false [1; 2; 3]) = true) by (vm_compute in E; injection E as <- <-; vm_compute; reflexivity).
  destruct (SocksUdpGwClient_echo sample_init [] o outs _ o1 d pk sample_starts Ha E He E1) as (p & o2 & E2).
  exists o1, o2, p, pk. split; [|exact E2]. vm_compute in E. injection E as <- <-. vm_compute in E1. injection E1 as <- <- <-.
  by vm_compute.
Defined.

Lemma SocksUdpGwClient_Free_empties_witness : exists o outs o', relay_session sample_init sample_events = Some (o, outs)
  /\ SocksUdpGwClient_Free o = Some o' /\ num_connections o' = 0.
Proof.
  assert (Ha : session_allowed sample_init sample_events) by (apply sample_allowed; vm_compute; reflexivity).
  destruct (relay_session sample_init sample_events) as [[o outs]|] eqn:E; [|by vm_compute in E].
  destruct (SocksUdpGwClient_Free_empties sample_init sample_events o outs sample_starts Ha E) as (o' & Ef & _ & Hn & _).
  exists o, outs, o'. split; [reflexivity|split; [exact Ef|exact Hn]].
Defined.

(** A connection keeps the destination it was created with: after a DNS query
    the datagrams of the same local address to any other server, with the header
    of the SOCKS server, go to the DNS gateway. *)
Theorem dns_connection_keeps_destination :
  exists o, relay_session sample_init [sample_submit 100 17 1 true [4; 5]; sample_submit 200 17 1 false [6]]
  = Some (o, [Sent (i_dns sample_init) [4; 5]; Sent (i_dns sample_init) [0; 0; 0; 1; 8; 8; 8; 8; 0; 53; 6]]).
Proof. eexists. by vm_compute. Qed.

(** A reply whose header has an IPv6 address is delivered for an IPv4 client, and
    udpgw_client_handler_received fails the assertion on the remote address. *)
Theorem reply_family_unchecked :
  exists o remote, relay_session sample_init [sample_submit 100 17 1 false [4; 5]; EvDatagram 100 ([0; 0; 0; 4] ++ repeat 0 18)]
  = Some (o, [Sent (i_socks sample_init) [0; 0; 0; 1; 8; 8; 8; 8; 0; 53; 4; 5]; Delivered (BAddr_ipv4 17 1) remote []])
  /\ forall env buf, udpgw_client_handler_received env buf (BAddr_ipv4 17 1) remote [] = None.
Proof.
  eexists _, (BAddr_ipv6 (repeat 0 16) 0). split; [by vm_compute|]. intros env buf.
  unfold udpgw_client_handler_received. by destruct (negb _).
Qed.
