(* ===== verification/Startup.v ===== *)
(** Start-up and shutdown of tun2socks: main, wait_for_fd, daemonize,
    lwip_init_job_hadler, the handlers that end the program and the TCP timer of
    tun2socks/tun2socks.c (the Android branches), with BLog_SetChannelLoglevel of
    base/BLog.h and BTap_Init2 of tuntap/BTap.c for a given file descriptor.

    The program is a function of the answers of the system ([env]).  It returns how
    the process ends and the trace of what it acquired and released; a released
    resource must be held, and nothing that is still held may use it.  The
    connections that lwIP has left when the program ends ([leftover]) are resources
    too, which tcp_remove aborts. *)

From S2P Require Import Prelude ByteOrder BAddr IpProto ParseNumber CString AddrText ReadFile BSocksClient Options PacketFlow BAVL SLinkedList LinkedList1 SocksUdpGwClient.
From Stdlib Require Import Ascii String.
#[local] Abbreviation length := Datatypes.length.
#[local] Abbreviation concat := List.concat.
Open Scope Z_scope.

(** * Resources *)

Inductive resource :=
| Blog | PasswordFile | Reactor | Signals | Device | ReadInterface | ReadBuffer | UdpGw | LwipInitJob | WriteBuf | TcpTimer
| Netif | Pcb (v6 : bool) | Listener (v6 : bool) | Client (n : Z)
| Connection (pcb : Z).  (* a pcb that is still on a list of lwIP when the event loop ends *)

#[export] Instance resource_eq_dec : EqDecision resource.
Proof. solve_decision. Defined.

Inductive ev := Acquire (r : resource) | Release (r : resource) | Abort (pcb : Z) | Terminate.

(** [uses a b]: [a] holds a pointer to [b] that it may still follow while it is
    being freed.  Everything logs; what has jobs, timers or file descriptors
    removes them from the reactor; the SOCKS clients hold the password; aborting
    a connection may send a packet to the device through the write buffer, and
    runs the callbacks of the client that it has. *)
Definition uses (a b : resource) : bool :=
  match b, a with
  | Blog, Blog => false
  | Blog, _ => true
  | PasswordFile, (Client _ | UdpGw) => true
  | Reactor, (Signals | Device | ReadInterface | ReadBuffer | UdpGw | LwipInitJob | TcpTimer | Client _) => true
  | Device, (ReadBuffer | Netif | Listener _ | Pcb _ | Connection _ | Client _ | UdpGw) => true
  | ReadInterface, ReadBuffer => true
  | WriteBuf, (Netif | Listener _ | Pcb _ | Connection _ | Client _ | TcpTimer) => true
  | Netif, (Listener _ | Pcb _ | Client _) => true
  | (Listener _ | Connection _), Client _ => true
  | _, _ => false
  end.

Definition acquire (r : resource) (held : list resource) : option (list resource) :=
  if bool_decide (r ∈ held) then None else Some (r :: held).

Definition release (r : resource) (held : list resource) : option (list resource) :=
  if bool_decide (r ∈ held) && negb (existsb (fun a => uses a r) held) then Some (List.remove resource_eq_dec r held) else None.

Fixpoint held_after (held : list resource) (tr : list ev) : option (list resource) :=
  match tr with
  | [] => Some held
  | Acquire r :: tr => held ← acquire r held; held_after held tr
  | Release r :: tr => held ← release r held; held_after held tr
  | Abort pcb :: tr => held ← release (Connection pcb) held; held_after held tr
  | Terminate :: tr => held_after held tr
  end.

(** * The answers of the system *)

(** wait_for_fd; the file descriptor that ancil_recv_fd stores. *)
Record fd_answers := { a_socket : bool; a_bind : bool; a_listen : bool; a_select : bool; a_accept : bool; a_recv_fd : option Z }.

(** lwip_init_job_hadler. *)
Record lwip_answers := {
  a_netif_add : bool;
  a_tcp_new : bool -> bool; a_tcp_bind : bool -> bool; a_tcp_listen : bool -> bool }.  (* by IP version *)

(** fork, and what follows it, ends the process or goes on in the child. *)
Inductive daemonized := Exits (code : Z) | Child.

Record env := {
  e_syslog : bool; e_fd : fd_answers; e_raw_fd : Z; e_daemonize : daemonized; e_network : bool; e_reactor : bool; e_signal : bool;
  e_fcntl : bool; e_add_fd : bool; e_read_buffer : bool; e_write_buf : bool; e_lwip : lwip_answers;
  e_clients : list Z;           (* the clients on the list when the event loop ends *)
  e_bound_pcbs : list Z; e_active_pcbs : list Z; e_tw_pcbs : list Z }.  (* the lists of lwIP when the clients and the listeners are freed *)

Inductive outcome := Returned (code : Z) | Exited (code : Z).

(** * Components of main *)

(** [raw_fd] is the value of the local variable fd, which nothing initialises. *)
Definition wait_for_fd (a : fd_answers) (raw_fd : Z) : Z :=
  if negb (a_socket a) then -1 else
  if negb (a_bind a) then -1 else
  if negb (a_listen a) then -1 else
  if negb (a_select a) then raw_fd else
  if negb (a_accept a) then raw_fd else
  match a_recv_fd a with None => raw_fd | Some fd => fd end.

(** BLog_SetChannelLoglevel on the levels of the channels. *)
Definition BLog_SetChannelLoglevel (levels : list Z) (channel loglevel : Z) : option (list Z) :=
  ASSERT (channel >=? 0) && (channel <? BLOG_NUM_CHANNELS);
  ASSERT (loglevel >=? 0) && (loglevel <=? BLOG_DEBUG);
  ASSERT channel <? Z.of_nat (length levels);
  Some (<[Z.to_nat channel := loglevel]> levels).

(** The loop over the channels; [n] is how many are left. *)
Fixpoint configure_channels (n : nat) (o : options) (levels : list Z) : option (list Z) :=
  match n with
  | O => Some levels
  | S n' =>
      let i := BLOG_NUM_CHANNELS - Z.of_nat n in
      l ← opt_loglevels o !! Z.to_nat i;
      levels ← (if l >=? 0 then BLog_SetChannelLoglevel levels i l
                else if opt_loglevel o >=? 0 then BLog_SetChannelLoglevel levels i (opt_loglevel o)
                else Some levels);
      configure_channels n' o levels
  end.

(** BTap_Init2 with BTAP_DEV_TUN and BTAP_INIT_FD: the MTU of the device, [None] on
    failure. *)
Definition BTap_Init2 (fd mtu : Z) (fcntl_ok add_fd_ok : bool) : option (option Z) :=
  ASSERT fd >=? 0;
  ASSERT mtu >=? 0;
  if negb fcntl_ok then Some None else
  if negb add_fd_ok then Some None else Some (Some mtu).

(** One listener: the events, and whether it is set up.  tcp_listen replaces the pcb
    by one that listens. *)
Definition init_listener (a : lwip_answers) (v6 : bool) : list ev * bool :=
  if negb (a_tcp_new a v6) then ([], false) else
  if negb (a_tcp_bind a v6) then ([Acquire (Pcb v6); Release (Pcb v6)], false) else
  if negb (a_tcp_listen a v6) then ([Acquire (Pcb v6); Release (Pcb v6)], false) else
  ([Acquire (Pcb v6); Release (Pcb v6); Acquire (Listener v6)], true).

Record lwip_state := { have_netif : bool; listener : bool; listener_ip6 : bool; quitting : bool }.

Definition terminate (s : lwip_state) : option (lwip_state * list ev) :=
  ASSERT negb (quitting s);
  Some ({| have_netif := have_netif s; listener := listener s; listener_ip6 := listener_ip6 s; quitting := true |}, [Terminate]).

Definition signal_handler (s : lwip_state) : option (lwip_state * list ev) := ASSERT negb (quitting s); terminate s.
Definition device_error_handler (s : lwip_state) : option (lwip_state * list ev) := ASSERT negb (quitting s); terminate s.

Definition lwip_init_job_hadler (a : lwip_answers) (o : options) (ipaddr : BIPAddr) (s : lwip_state) : option (lwip_state * list ev) :=
  ASSERT negb (quitting s);
  ASSERT match ipaddr with BIPAddr_ipv4 _ => true | _ => false end;
  ASSERT negb (have_netif s);
  ASSERT negb (listener s);
  ASSERT negb (listener_ip6 s);
  let fail (s : lwip_state) (tr : list ev) :=
    if negb (quitting s) then '(s, tr') ← terminate s; Some (s, tr ++ tr') else Some (s, tr) in
  if negb (a_netif_add a) then fail s [] else
  let s := {| have_netif := true; listener := listener s; listener_ip6 := listener_ip6 s; quitting := quitting s |} in
  let '(tr4, ok4) := init_listener a false in
  let tr := Acquire Netif :: tr4 in
  if negb ok4 then fail s tr else
  let s := {| have_netif := have_netif s; listener := true; listener_ip6 := listener_ip6 s; quitting := quitting s |} in
  if given (opt_netif_ip6addr o) then
    let '(tr6, ok6) := init_listener a true in
    if negb ok6 then fail s (tr ++ tr6) else
    Some ({| have_netif := have_netif s; listener := listener s; listener_ip6 := true; quitting := quitting s |}, tr ++ tr6)
  else Some (s, tr).

(** tcp_timer_handler: the timers of lwIP that are called. *)
Inductive timer_call := Tcp_tmr | Other_tmr.
Definition tcp_timer_handler (tcp_timer_mod4 : Z) : Z * list timer_call :=
  let tcp_timer_mod4 := (tcp_timer_mod4 + 1) mod 4 in
  (tcp_timer_mod4, Tcp_tmr :: if tcp_timer_mod4 =? 0 then [Other_tmr] else []).

(** tcp_remove, on a list of pcbs of lwIP. *)
Fixpoint tcp_remove (pcb_list : list Z) : list ev :=
  match pcb_list with [] => [] | pcb2 :: pcb => Abort pcb2 :: tcp_remove pcb end.

(** The loop of main that frees the clients; client_murder takes the client off the
    list. *)
Fixpoint free_clients (clients : list Z) : list ev :=
  match clients with [] => [] | c :: clients => Release (Client c) :: free_clients clients end.

(** * main *)

Section Main.
Context (LONG_MAX : Z) `{Resolver} (fs : file_system) (raw : Z -> bytes) (blog_channel_list : list (bytes * Z)).

Definition release_password (g : globals) : list ev := if given (password_file_contents g) then [Release PasswordFile] else [].

(** The labels at the end. *)
Definition fail1 (g : globals) : list ev := release_password g ++ [Release Blog].
Definition fail2 (g : globals) : list ev := Release Reactor :: fail1 g.
Definition fail3 (g : globals) : list ev := Release Signals :: fail2 g.
Definition fail4 (g : globals) : list ev := Release ReadInterface :: Release Device :: fail3 g.
Definition fail4a (g : globals) : list ev := Release ReadBuffer :: fail4 g.
Definition fail5 (o : options) (g : globals) : list ev :=
  Release LwipInitJob :: (if given (opt_udpgw_remote_server_addr o) then [Release UdpGw] else []) ++ fail4a g.

(** What is left when the event loop ends. *)
Record leftover := { clients : list Z; bound_pcbs : list Z; active_pcbs : list Z; tw_pcbs : list Z }.

(** From the event loop to its end: the lwIP set-up job is the first one to run; the
    clients and the connections that are left are there only if a listener was. *)
Definition event_loop (e : env) (o : options) (g : globals) : option (lwip_state * leftover * list ev) :=
  '(s, tr) ← lwip_init_job_hadler (e_lwip e) o (netif_ipaddr g) {| have_netif := false; listener := false; listener_ip6 := false; quitting := false |};
  let l := if listener s && negb (quitting s)
           then {| clients := e_clients e; bound_pcbs := e_bound_pcbs e; active_pcbs := e_active_pcbs e; tw_pcbs := e_tw_pcbs e |}
           else {| clients := []; bound_pcbs := []; active_pcbs := []; tw_pcbs := [] |} in
  Some (s, l, tr ++ map (fun p => Acquire (Connection p)) (bound_pcbs l ++ active_pcbs l ++ tw_pcbs l)
              ++ map (fun c => Acquire (Client c)) (clients l)).

(** From the end of the loop to the label fail5; free_connections finds nothing, since
    nothing in the program inserts into connections_tree. *)
Definition after_loop (s : lwip_state) (l : leftover) : list ev :=
  free_clients (clients l)
  ++ (if listener_ip6 s then [Release (Listener true)] else [])
  ++ (if listener s then [Release (Listener false)] else [])
  ++ (if have_netif s then [Release Netif] else [])
  ++ tcp_remove (bound_pcbs l) ++ tcp_remove (active_pcbs l) ++ tcp_remove (tw_pcbs l)
  ++ [Release TcpTimer; Release WriteBuf].

(** main from where the device is set up. *)
Definition main_device (e : env) (o : options) (g : globals) (tap_mtu : Z) : option (list ev) :=
  let tr := [Acquire ReadInterface] in
  if negb (e_read_buffer e) then Some (tr ++ fail4 g) else
  let tr := tr ++ [Acquire ReadBuffer] in
  relay ← (if given (opt_udpgw_remote_server_addr o) then
             match main_udp_mtu tap_mtu (given (opt_netif_ip6addr o)) with
             | None => Some false
             | Some udp_mtu => _ ← SocksUdpGwClient_Init udp_mtu DEFAULT_UDPGW_MAX_CONNECTIONS (Options.socks_server_addr g) (Options.dnsgw g) 0; Some true
             end
           else Some true);
  if negb relay then Some (tr ++ fail4a g) else
  let tr := tr ++ (if given (opt_udpgw_remote_server_addr o) then [Acquire UdpGw] else []) ++ [Acquire LwipInitJob] in
  if negb (e_write_buf e) then Some (tr ++ fail5 o g) else
  let tr := tr ++ [Acquire WriteBuf; Acquire TcpTimer] in
  '(s, l, tr') ← event_loop e o g;
  Some (tr ++ tr' ++ after_loop s l ++ fail5 o g).

(** main from the initialisation of the logger. *)
Definition main_run (e : env) (o : options) : option (outcome * list ev) :=
  logger ← (if opt_logger o =? LOGGER_STDOUT then Some true
            else if opt_logger o =? LOGGER_SYSLOG then Some (e_syslog e)
            else None);
  if negb logger then Some (Returned 1, []) else
  let tr := [Acquire Blog] in
  _ ← configure_channels (Z.to_nat BLOG_NUM_CHANNELS) o (map snd blog_channel_list);
  let fd := wait_for_fd (e_fd e) (e_raw_fd e) in
  if fd =? -1 then Some (Returned 1, tr ++ fail1 static_globals) else
  match (if given (opt_pid o) then e_daemonize e else Child) with
  | Exits code => Some (Exited code, tr)
  | Child =>
      if negb (e_network e) then Some (Returned 1, tr ++ fail1 static_globals) else
      '(g, ok) ← process_arguments LONG_MAX fs raw o static_globals;
      let tr := tr ++ (if given (password_file_contents g) then [Acquire PasswordFile] else []) in
      if negb ok then Some (Returned 1, tr ++ fail1 g) else
      if negb (e_reactor e) then Some (Returned 1, tr ++ fail1 g) else
      let tr := tr ++ [Acquire Reactor] in
      if negb (e_signal e) then Some (Returned 1, tr ++ fail2 g) else
      let tr := tr ++ [Acquire Signals] in
      tap ← BTap_Init2 fd (opt_tun_mtu o) (e_fcntl e) (e_add_fd e);
      match tap with
      | None => Some (Returned 1, tr ++ fail3 g)
      | Some mtu => tr' ← main_device e o g mtu; Some (Returned 1, tr ++ [Acquire Device] ++ tr')
      end
  end.

Definition main (e : env) (argv : list bytes) : option (outcome * list ev) :=
  if Z.of_nat (length argv) <=? 0 then Some (Returned 1, []) else
  r ← parse_arguments LONG_MAX (map fst blog_channel_list) static_options argv;
  match r with
  | None => Some (Returned 1, [])
  | Some o =>
      argv0 ← arg_at argv 0;
      _ ← (if opt_fake_proc o then mem_write (argv0 ++ [0]) 0 (cstr "com.github.shadowsocks" ++ [0]) else Some []);
      if opt_help o then Some (Returned 0, []) else
      if opt_version o then Some (Returned 0, []) else
      main_run e o
  end.
End Main.

(** * Traces *)

Lemma held_after_app h t1 t2 : held_after h (t1 ++ t2) = h' ← held_after h t1; held_after h' t2.
Proof.
  revert h. induction t1 as [|x t1 IH]; intros h; [done|]. destruct x as [r|r|p|]; simpl; try apply IH.
  - destruct (acquire r h); [apply IH|done].
  - destruct (release r h); [apply IH|done].
  - destruct (release (Connection p) h); [apply IH|done].
Qed.

Lemma remove_absent (r : resource) l : ~ r ∈ l -> List.remove resource_eq_dec r l = l.
Proof.
  intros Hn. apply notin_remove. intros Hr. apply Hn. by apply list_elem_of_In.
Qed.

(** ** A family of resources, acquired and released one after the other *)

Section Family.
Context (f : Z -> resource) (f_inj : forall a b, f a = f b -> a = b) (f_own : forall a b, uses (f a) (f b) = false).

Lemma family_absent c cs : ~ c ∈ cs -> ~ f c ∈ rev (map f cs).
Proof.
  intros Hc Hin. apply list_elem_of_In, in_rev, in_map_iff in Hin as (c' & E%f_inj & Hin). subst c'. apply Hc. by apply list_elem_of_In.
Qed.

Lemma acquire_family cs : forall h, NoDup cs -> (forall c, ~ f c ∈ h) ->
  held_after h (map (fun c => Acquire (f c)) cs) = Some (rev (map f cs) ++ h).
Proof.
  induction cs as [|c cs IH] using rev_ind; intros h Hd Hh; [done|].
  apply NoDup_app in Hd as (Hd & Hx & _). rewrite map_app, held_after_app, (IH h Hd Hh). cbn [mbind option_bind map held_after].
  unfold acquire. rewrite bool_decide_eq_false_2; [cbn [mbind option_bind]; by rewrite map_app, rev_app_distr|].
  intros [Hc|Hc]%elem_of_app; [|by apply (Hh c)]. revert Hc. apply family_absent. intros Hc. apply (Hx c); [done|by left].
Qed.

(** [mk] is the event that releases one of them. *)
Context (mk : Z -> ev) (mk_release : forall c h t, held_after h (mk c :: t) = h' ← release (f c) h; held_after h' t).

Lemma release_family cs : forall h t, NoDup cs -> (forall c, ~ f c ∈ h) -> (forall a c, a ∈ h -> uses a (f c) = false) ->
  held_after (rev (map f cs) ++ h) (map mk cs ++ t) = held_after h t.
Proof.
  induction cs as [|c cs IH]; intros h t Hd Hh Hu; [done|]. apply NoDup_cons in Hd as [Hc Hd]. cbn [map rev app]. rewrite <- app_assoc, mk_release.
  cbn [app]. unfold release. rewrite bool_decide_eq_true_2 by (apply elem_of_app; right; left).
  assert (Hn : existsb (fun a => uses a (f c)) (rev (map f cs) ++ f c :: h) = false).
  { apply not_true_is_false. intros (a & Ha & Hac)%existsb_exists. apply in_app_iff in Ha as [Ha|[<-|Ha]].
    - apply in_rev, in_map_iff in Ha as (c' & <- & _). by rewrite f_own in Hac.
    - by rewrite f_own in Hac.
    - rewrite Hu in Hac; [done|]. by apply list_elem_of_In. }
  rewrite Hn. cbn [andb negb mbind option_bind]. rewrite remove_app. cbn [List.remove]. destruct (resource_eq_dec (f c) (f c)); [|done].
  rewrite !remove_absent; [by apply IH|done|by apply family_absent].
Qed.
End Family.

(** Listeners and the interface are released while connections are left. *)
Lemma release_frame ps t : Forall (fun x => match x with Release (Listener _) | Release Netif => True | _ => False end) t ->
  forall h h', held_after h t = Some h' -> held_after (map Connection ps ++ h) t = Some (map Connection ps ++ h').
Proof.
  induction 1 as [|x t Hx _ IH]; intros h h'; [by intros [= <-]|]. destruct x as [|r| |]; try done. simpl.
  assert (Hr : forall p, r <> Connection p /\ uses (Connection p) r = false) by (intros p; by destruct r).
  unfold release. rewrite existsb_app. assert (existsb (fun a => uses a r) (map Connection ps) = false) as ->.
  { apply not_true_is_false. intros (a & (p & <- & _)%in_map_iff & Ha)%existsb_exists. destruct (Hr p) as [_ E]. by rewrite E in Ha. }
  assert (Hps : ~ r ∈ map Connection ps).
  { intros (p & E & _)%list_elem_of_In%in_map_iff. destruct (Hr p) as [Hn _]. by apply Hn. }
  rewrite (bool_decide_ext (r ∈ map Connection ps ++ h) (r ∈ h)) by (rewrite elem_of_app; tauto). cbn [orb].
  destruct (bool_decide (r ∈ h) && negb (existsb (fun a => uses a r) h)); cbn [mbind option_bind]; [|done].
  rewrite remove_app, (remove_absent r (map Connection ps)) by done. apply IH.
Qed.

(** What main holds at the device, besides what is set up from there. *)
Definition base (g : globals) : list resource := (if given (password_file_contents g) then [PasswordFile] else []) ++ [Blog].

Definition relay_held (o : options) : list resource := if given (opt_udpgw_remote_server_addr o) then [UdpGw] else [].

Ltac traced g o :=
  unfold base, relay_held, fail5, fail4a, fail4, fail3, fail2, fail1, release_password;
  destruct (given (password_file_contents g)), (given (opt_udpgw_remote_server_addr o)).

Lemma fail5_empties o g :
  held_after (LwipInitJob :: relay_held o ++ [ReadBuffer; ReadInterface; Device; Signals; Reactor] ++ base g) (fail5 o g) = Some [].
Proof. by traced g o. Qed.

(** ** The event loop *)

Definition lwip_held (s : lwip_state) : list resource :=
  (if listener_ip6 s then [Listener true] else []) ++ (if listener s then [Listener false] else []) ++ (if have_netif s then [Netif] else []).

(** What is held when the loop begins. *)
Definition loop_held (o : options) (g : globals) : list resource :=
  TcpTimer :: WriteBuf :: LwipInitJob :: relay_held o ++ [ReadBuffer; ReadInterface; Device; Signals; Reactor] ++ base g.

(** The set-up of lwIP leaves what its state says, and ends the program if it
    fails. *)
Lemma lwip_init_ok a o g ip :
  exists s tr, lwip_init_job_hadler a o (BIPAddr_ipv4 ip) {| have_netif := false; listener := false; listener_ip6 := false; quitting := false |} = Some (s, tr)
    /\ held_after (loop_held o g) tr = Some (lwip_held s ++ loop_held o g)
    /\ (quitting s = false -> have_netif s = true /\ listener s = true /\ listener_ip6 s = given (opt_netif_ip6addr o))
    /\ (listener s = true -> have_netif s = true) /\ (listener_ip6 s = true -> have_netif s = true).
Proof.
  unfold lwip_init_job_hadler, init_listener, loop_held, relay_held, base.
  destruct (given (opt_udpgw_remote_server_addr o)), (given (password_file_contents g)), (given (opt_netif_ip6addr o)),
    (a_netif_add a), (a_tcp_new a false), (a_tcp_bind a false), (a_tcp_listen a false); try (eexists _, _; split_and!; [reflexivity|reflexivity|done..]).
  all: destruct (a_tcp_new a true), (a_tcp_bind a true), (a_tcp_listen a true); (eexists _, _; split_and!; [reflexivity|reflexivity|done..]).
Qed.

Definition release_listeners (s : lwip_state) : list ev :=
  (if listener_ip6 s then [Release (Listener true)] else []) ++ (if listener s then [Release (Listener false)] else [])
  ++ (if have_netif s then [Release Netif] else []).

Lemma listeners_only s : Forall (fun x => match x with Release (Listener _) | Release Netif => True | _ => False end) (release_listeners s).
Proof. unfold release_listeners. destruct (listener_ip6 s), (listener s), (have_netif s); by repeat constructor. Qed.

Lemma release_lwip s o g : (listener s = true -> have_netif s = true) -> (listener_ip6 s = true -> have_netif s = true) ->
  held_after (lwip_held s ++ loop_held o g) (release_listeners s) = Some (loop_held o g).
Proof.
  intros Hn Hn6. unfold release_listeners, lwip_held, loop_held, relay_held, base.
  destruct (listener_ip6 s), (listener s), (have_netif s), (given (opt_udpgw_remote_server_addr o)), (given (password_file_contents g));
    try (by specialize (Hn eq_refl)); try (by specialize (Hn6 eq_refl)); reflexivity.
Qed.

(** Neither a client nor a connection is held before the loop, and what is held
    does not use one. *)
Lemma loop_held_apart s o g (a : resource) : a ∈ lwip_held s ++ loop_held o g ->
  (forall c, a <> Client c /\ uses a (Client c) = false) /\ (forall p, a <> Connection p /\ uses a (Connection p) = false).
Proof.
  intros Ha. assert (match a with Client _ | Connection _ => False | _ => True end); [|by destruct a].
  revert Ha. unfold lwip_held, loop_held, relay_held, base. rewrite list_elem_of_In.
  destruct (listener_ip6 s), (listener s), (have_netif s), (given (opt_udpgw_remote_server_addr o)), (given (password_file_contents g)); simpl;
    intuition (by subst).
Qed.

Lemma no_listener_apart o g : loop_held o g = lwip_held {| have_netif := false; listener := false; listener_ip6 := false; quitting := false |} ++ loop_held o g.
Proof. done. Qed.

Definition pcbs (l : leftover) : list Z := bound_pcbs l ++ active_pcbs l ++ tw_pcbs l.

Lemma tcp_remove_map l : tcp_remove l = map Abort l.
Proof. by induction l as [|p l IH]; [|simpl; rewrite IH]. Qed.

Lemma free_clients_map l : free_clients l = map (fun c => Release (Client c)) l.
Proof. by induction l as [|p l IH]; [|simpl; rewrite IH]. Qed.

(** After the loop the clients, everything of lwIP, the timer and the write buffer
    go. *)
Lemma after_loop_empties o g s l : NoDup (clients l) -> NoDup (pcbs l) ->
  (listener s = true -> have_netif s = true) -> (listener_ip6 s = true -> have_netif s = true) ->
  held_after (rev (map Client (clients l)) ++ rev (map Connection (pcbs l)) ++ lwip_held s ++ loop_held o g) (after_loop s l ++ fail5 o g) = Some [].
Proof.
  intros Hd Hdp Hn Hn6.
  assert (E : after_loop s l ++ fail5 o g
    = map (fun c => Release (Client c)) (clients l) ++ release_listeners s ++ map Abort (pcbs l) ++ [Release TcpTimer; Release WriteBuf] ++ fail5 o g).
  { unfold after_loop, release_listeners, pcbs. rewrite free_clients_map, !tcp_remove_map, !map_app, <- !app_assoc. done. }
  rewrite E, (release_family Client); [|by intros ?? [=]|done..| |].
  - rewrite <- map_rev, held_after_app, (release_frame (rev (pcbs l)) _ (listeners_only s) _ _ (release_lwip s o g Hn Hn6)). cbn [mbind option_bind].
    rewrite map_rev, (release_family Connection); [|by intros ?? [=]|done..| |].
    + rewrite <- (fail5_empties o g). unfold loop_held, relay_held, base.
      by destruct (given (opt_udpgw_remote_server_addr o)), (given (password_file_contents g)).
    + rewrite no_listener_apart. intros p Hp. by destruct (proj2 (loop_held_apart _ _ _ _ Hp) p).
    + rewrite no_listener_apart. intros a p Ha. by apply (proj2 (loop_held_apart _ _ _ _ Ha) p).
  - intros c [Hc|Hc]%elem_of_app; [|by destruct (proj1 (loop_held_apart _ _ _ _ Hc) c)].
    apply list_elem_of_In, in_rev, in_map_iff in Hc as (? & [=] & _).
  - intros a c [Ha|Ha]%elem_of_app; [|by apply (proj1 (loop_held_apart _ _ _ _ Ha) c)].
    by apply list_elem_of_In, in_rev, in_map_iff in Ha as (? & <- & _).
Qed.

(** ** main *)

Section Correct.
Context (LONG_MAX : Z) `{Resolver} (fs : file_system) (raw : Z -> bytes) (blog_channel_list : list (bytes * Z)).
Context (raw_size : forall n, 0 <= n -> blen (raw n) = n) (channels_generated : Z.of_nat (length blog_channel_list) = BLOG_NUM_CHANNELS).

Lemma configure_channels_ok o n levels : options_ok o -> (n <= Z.to_nat BLOG_NUM_CHANNELS)%nat -> Z.of_nat (length levels) = BLOG_NUM_CHANNELS ->
  exists levels', configure_channels n o levels = Some levels' /\ Z.of_nat (length levels') = BLOG_NUM_CHANNELS.
Proof.
  intros Ho. revert levels. induction n as [|n IH]; intros levels Hn Hl; [by exists levels|]. cbn [configure_channels].
  unfold BLOG_NUM_CHANNELS in *. pose proof (ok_levels _ Ho) as Hlen. pose proof (ok_level _ Ho) as Hlv. unfold BLOG_NUM_CHANNELS in Hlen.
  apply Forall_cons_iff in Hlv as [Hg Hlv].
  destruct (lookup_lt_is_Some_2 (opt_loglevels o) (Z.to_nat (147 - Z.of_nat (S n)))) as [l El]; [lia|]. rewrite El. cbn [mbind option_bind].
  assert (Hl5 : -1 <= l <= 5) by (rewrite List.Forall_forall in Hlv; apply Hlv; apply list_elem_of_In; by eapply list_elem_of_lookup_2).
  assert (Hset : forall x, 0 <= x <= 5 -> exists ls, BLog_SetChannelLoglevel levels (147 - Z.of_nat (S n)) x = Some ls /\ Z.of_nat (length ls) = 147).
  { intros x Hx. unfold BLog_SetChannelLoglevel, BLOG_NUM_CHANNELS, BLOG_DEBUG. rewrite !Z.geb_leb.
    rewrite !(proj2 (Z.leb_le _ _)), !(proj2 (Z.ltb_lt _ _)) by lia. eexists. split; [done|]. by rewrite length_insert. }
  destruct (Z.geb_spec l 0) as [H0|H0]; [destruct (Hset l ltac:(lia)) as (ls & -> & ?); apply IH; [lia|done]|].
  destruct (Z.geb_spec (opt_loglevel o) 0) as [H1|H1]; [destruct (Hset (opt_loglevel o) ltac:(lia)) as (ls & -> & ?); apply IH; [lia|done]|].
  apply IH; [lia|done].
Qed.

(** What the system leaves is not on two lists. *)
Definition env_ok (e : env) : Prop := NoDup (e_clients e) /\ NoDup (e_bound_pcbs e ++ e_active_pcbs e ++ e_tw_pcbs e).

Lemma main_device_ok e o g mtu : env_ok e -> configured fs o g ->
  exists tr, main_device e o g mtu = Some tr /\ held_after (Device :: Signals :: Reactor :: base g) tr = Some [].
Proof.
  intros [Hd Hdp] Hc. unfold main_device. destruct (e_read_buffer e); cbn [negb]; [|eexists; split; [done|]; by traced g o].
  set (relay := if given (opt_udpgw_remote_server_addr o) then match main_udp_mtu _ _ with Some _ => _ | None => Some false end else _).
  assert (exists b, relay = Some b) as [b ->].
  { unfold relay. destruct (given _); [|by exists true]. destruct (main_udp_mtu _ _); [|by exists false].
    unfold SocksUdpGwClient_Init. destruct (cf_socks _ _ _ Hc) as [_ Hs]. destruct (Options.socks_server_addr g); try done; by exists true. }
  cbn [mbind option_bind]. destruct b; cbn [negb]; [|eexists; split; [done|]; by traced g o].
  destruct (e_write_buf e); cbn [negb]; [|eexists; split; [done|]; by traced g o].
  unfold event_loop. destruct (cf_netif _ _ _ Hc) as (ip & -> & _).
  destruct (lwip_init_ok (e_lwip e) o g ip) as (s & tr & -> & Htr & _ & Hn & Hn6). cbn [mbind option_bind].
  set (l := if listener s && _ then _ else _).
  assert (Hl : NoDup (clients l) /\ NoDup (pcbs l)) by (unfold l; destruct (_ && _); [done|]; split; constructor). destruct Hl as [Hl Hlp].
  eexists. split; [done|]. rewrite held_after_app.
  assert (Hpre : held_after (Device :: Signals :: Reactor :: base g) (([Acquire ReadInterface] ++ [Acquire ReadBuffer])
    ++ ((if given (opt_udpgw_remote_server_addr o) then [Acquire UdpGw] else []) ++ [Acquire LwipInitJob]) ++ [Acquire WriteBuf; Acquire TcpTimer])
    = Some (loop_held o g)) by (unfold loop_held; by traced g o).
  rewrite <- !app_assoc in *. rewrite Hpre. cbn [mbind option_bind]. rewrite held_after_app, Htr. cbn [mbind option_bind].
  change (bound_pcbs l ++ active_pcbs l ++ tw_pcbs l) with (pcbs l).
  rewrite held_after_app, (acquire_family Connection); [|by intros ?? [=]|done|].
  2: { intros p Hp. by destruct (proj2 (loop_held_apart _ _ _ _ Hp) p). }
  cbn [mbind option_bind]. rewrite held_after_app, (acquire_family Client); [|by intros ?? [=]|done|].
  2: { intros c [Hc'|Hc']%elem_of_app; [|by destruct (proj1 (loop_held_apart _ _ _ _ Hc') c)].
       apply list_elem_of_In, in_rev, in_map_iff in Hc' as (? & [=] & _). }
  cbn [mbind option_bind]. by apply after_loop_empties.
Qed.

(** How the process ends, and what it holds then: nothing when main returns, and the
    logger alone when daemonize ends it. *)
Definition ends_well (e : env) (o : options) (out : outcome) (tr : list ev) : Prop :=
  match out with
  | Returned code => held_after [] tr = Some [] /\ code = (if opt_help o || opt_version o then 0 else 1)
  | Exited code => given (opt_pid o) = true /\ e_daemonize e = Exits code /\ held_after [] tr = Some [Blog]
  end.

(** The two ways to leave what C defines: --fake-proc writes 23 bytes over a
    program name that is shorter, and the device gets a negative descriptor. *)
Definition name_overwritten (o : options) (argv : list bytes) : Prop :=
  opt_fake_proc o = true /\ exists name, head argv = Some name /\ blen name < 22.
Definition fd_negative (e : env) : Prop := wait_for_fd (e_fd e) (e_raw_fd e) < -1.

Lemma main_run_ok e o : env_ok e -> options_ok o -> opt_help o = false -> opt_version o = false ->
  (exists g ok, process_arguments LONG_MAX fs raw o static_globals = Some (g, ok) /\ (ok = true -> configured fs o g)) ->
  match main_run LONG_MAX fs raw blog_channel_list e o with Some (out, tr) => ends_well e o out tr | None => fd_negative e end.
Proof.
  intros Hd Ho Hh Hv (g & ok & Ep & Hc). unfold main_run, ends_well. rewrite Hh, Hv. cbn [orb].
  set (logger := if opt_logger o =? LOGGER_STDOUT then _ else _).
  assert (exists b, logger = Some b) as [b ->] by (unfold logger; destruct (ok_logger _ Ho) as [->| ->]; by eexists).
  cbn [mbind option_bind]. destruct b; cbn [negb]; [|done].
  destruct (configure_channels_ok o (Z.to_nat BLOG_NUM_CHANNELS) (map snd blog_channel_list)) as (ls & -> & _);
    [done|lia|by rewrite length_map|]. cbn [mbind option_bind].
  destruct (Z.eqb_spec (wait_for_fd (e_fd e) (e_raw_fd e)) (-1)) as [E|E]; [done|].
  destruct (if given (opt_pid o) then e_daemonize e else Child) as [code|] eqn:Ed.
  { simpl. by destruct (given (opt_pid o)). }
  destruct (e_network e); cbn [negb]; [|done]. rewrite Ep. cbn [mbind option_bind].
  destruct ok; cbn [negb]; [|split; [by traced g o|done]].
  destruct (e_reactor e); cbn [negb]; [|split; [by traced g o|done]].
  destruct (e_signal e); cbn [negb]; [|split; [by traced g o|done]].
  unfold BTap_Init2. pose proof (ok_mtu _ Ho) as Hm.
  destruct (Z.geb_spec (wait_for_fd (e_fd e) (e_raw_fd e)) 0) as [Hfd|Hfd]; [|unfold fd_negative; simpl; lia].
  rewrite !Z.geb_leb, !(proj2 (Z.leb_le _ _)) by lia.
  destruct (e_fcntl e), (e_add_fd e); cbn [negb mbind option_bind]; try (split; [by traced g o|done]).
  destruct (main_device_ok e o g (opt_tun_mtu o) Hd (Hc eq_refl)) as (tr & -> & Htr). cbn [mbind option_bind]. split; [|done].
  rewrite <- Htr, !held_after_app. unfold base. by destruct (given (password_file_contents g)).
Qed.

End Correct.

(** ** The TCP timer *)

Fixpoint timer_runs (n : nat) (m : Z) : Z * list timer_call :=
  match n with
  | O => (m, [])
  | S n => let '(m, l) := timer_runs n m in let '(m, k) := tcp_timer_handler m in (m, l ++ k)
  end.

(** Every quarter of a second the TCP timer of lwIP is called, and the timers of one
    second after every fourth of them. *)
Lemma timer_rate n :
  let '(m, l) := timer_runs n 0 in
  m = Z.of_nat n mod 4 /\ Z.of_nat (List.length (List.filter (fun c => match c with Tcp_tmr => true | _ => false end) l)) = Z.of_nat n
  /\ Z.of_nat (List.length (List.filter (fun c => match c with Other_tmr => true | _ => false end) l)) = Z.of_nat n / 4.
Proof.
  induction n as [|n IH]; [done|]. cbn [timer_runs]. destruct (timer_runs n 0) as [m l]. destruct IH as (-> & H1 & H2).
  unfold tcp_timer_handler. rewrite !List.filter_app, !length_app. cbn [List.filter]. rewrite Nat2Z.inj_succ in *.
  destruct (Z.eqb_spec ((Z.of_nat n mod 4 + 1) mod 4) 0) as [E|E]; cbn [List.filter List.length]; rewrite !Nat2Z.inj_add, H1, H2; split_and!; try lia; dlia.
Qed.

(** * Concrete runs *)

Definition ex_list : list (bytes * Z) := map (fun n => (n, 4)) ex_channels.
Definition ex_fd : fd_answers := {| a_socket := true; a_bind := true; a_listen := true; a_select := true; a_accept := true; a_recv_fd := Some 7 |}.
Definition ex_no_fd : fd_answers := {| a_socket := true; a_bind := true; a_listen := true; a_select := true; a_accept := false; a_recv_fd := None |}.
Definition ex_lwip : lwip_answers :=
  {| a_netif_add := true; a_tcp_new := fun _ => true; a_tcp_bind := fun _ => true; a_tcp_listen := fun _ => true |}.
Definition ex_env (fd : fd_answers) (raw_fd : Z) : env :=
  {| e_syslog := true; e_fd := fd; e_raw_fd := raw_fd; e_daemonize := Child; e_network := true; e_reactor := true; e_signal := true;
     e_fcntl := true; e_add_fd := true; e_read_buffer := true; e_write_buf := true; e_lwip := ex_lwip; e_clients := [1; 2]; e_bound_pcbs := [];
     e_active_pcbs := [3]; e_tw_pcbs := [] |}.
Definition ex_start : list bytes := cstr "/data/app/lib/libtun2socks.so" :: drop 1 ex_argv.

Definition ex_options' : options := default static_options (default None (parse_arguments INT_MAX (map fst ex_list) static_options ex_start)).


(** The trace of this run. *)
Example ex_trace :
  main INT_MAX ex_files ex_raw ex_list (ex_env ex_fd 0) ex_start
  = Some (Returned 1,
      [Acquire Blog; Acquire PasswordFile; Acquire Reactor; Acquire Signals; Acquire Device; Acquire ReadInterface; Acquire ReadBuffer;
       Acquire UdpGw; Acquire LwipInitJob; Acquire WriteBuf; Acquire TcpTimer; Acquire Netif; Acquire (Pcb false); Release (Pcb false);
       Acquire (Listener false); Acquire (Connection 3); Acquire (Client 1); Acquire (Client 2); Release (Client 1); Release (Client 2); Release (Listener false);
       Release Netif; Abort 3; Release TcpTimer; Release WriteBuf; Release LwipInitJob; Release UdpGw; Release ReadBuffer;
       Release ReadInterface; Release Device; Release Signals; Release Reactor; Release PasswordFile; Release Blog]).
Proof. vm_compute. reflexivity. Qed.

(** Finding: when no one connects to the socket within ten seconds (accept fails), or
    when no file descriptor is received, wait_for_fd returns the value of a
    variable that was never set: main uses it as the device, and fails the
    assertion of BTap_Init2 if it is negative. *)
Theorem main_fd_uninitialised :
  (forall raw_fd, wait_for_fd ex_no_fd raw_fd = raw_fd)
  /\ main INT_MAX ex_files ex_raw ex_list (ex_env ex_no_fd (-7)) ex_start = None
  /\ exists tr, main INT_MAX ex_files ex_raw ex_list (ex_env ex_no_fd 0) ex_start = Some (Returned 1, tr) /\ Acquire Device ∈ tr.
Proof.
  split; [done|]. split; [vm_compute; reflexivity|]. eexists. split; [vm_compute; reflexivity|].
  apply list_elem_of_In. do 4 right. by left.
Qed.

(** Finding: --fake-proc writes 23 bytes to argv[0], past its end if the program was
    started by a shorter name. *)
Example fake_proc_overflow :
  main INT_MAX ex_files ex_raw ex_list (ex_env ex_fd 0) (map cstr ["tun2socks"; "--help"; "--fake-proc"]%string) = None.
Proof. vm_compute. reflexivity. Qed.
