(* ===== verification/UdpGwClient.v ===== *)
(** udpgw_client/UdpGwClient.c: the client of the UDP gateway.

    All datagrams travel over one connection to the gateway.  A pair of a local and
    a remote address has a connection with a number, the conid, that stands for it
    on the wire.  The connections are in two AVL trees (BAVL.v), by their addresses
    and by their conid, and in a list in the order of use (LinkedList1.v); when all
    conids are taken the least recently used connection gets the new addresses.
    Every connection has a flow of the fair queue (FairQueue.v), and one more flow
    sends the keep-alive packets.

    Connections are objects in a store [conns]; the address of a connection is also
    that of its list node, of its tree nodes and of its flow.  The flow elements
    between the queue and the server (PacketPassInactivityMonitor,
    PacketPassConnector, PacketStreamSender) and PacketProtoDecoder have no state
    that the client reads.  [None] is a failed ASSERT, an access to a freed
    connection or a write beyond the buffer of the writer, which has room for
    udpgw_mtu bytes. *)

From S2P Require Import Prelude ByteOrder BAddr UdpGwProto PacketFlow BAVL SLinkedList LinkedList1 FlowInterface SortedTree CAvl TreeIndex FairQueue.
From stdpp Require Import gmap.
Open Scope Z_scope.

#[local] Arguments BAVL_Remove : simpl never.
#[local] Arguments BAVL_Insert : simpl never.
#[local] Arguments BAVL_LookupExact : simpl never.
#[local] Arguments LinkedList1_Remove : simpl never.
#[local] Arguments LinkedList1_Append : simpl never.
#[local] Arguments PacketPassFairQueueFlow_Init : simpl never.
#[local] Arguments PacketPassFairQueueFlow_Free : simpl never.
#[local] Arguments PacketPassFairQueue_Init : simpl never.
#[local] Arguments fq_step : simpl never.

Definition UDPGW_CLIENT_FLAG_KEEPALIVE : Z := 1.
Definition UDPGW_CLIENT_FLAG_REBIND : Z := 2.
Definition UDPGW_CLIENT_FLAG_DNS : Z := 4.
Definition UDPGW_CLIENT_FLAG_IPV6 : Z := 8.
Definition sizeof_udpgw_header : Z := 3.

Record conaddr := { local_addr : BAddr; remote_addr : BAddr }.

Record connection := {
  con_addr : conaddr;
  first_flags : Z;
  con_first : option bytes;       (* first_data, while first_job is set *)
  con_conid : Z }.

Record UdpGwClient := {
  udp_mtu : Z;
  max_connections : Z;
  udpgw_mtu : Z;
  pp_mtu : Z;
  tree_by_conaddr : tree (A := ptr);
  tree_by_conid : tree (A := ptr);
  connections_list : LinkedList1;
  list_nodes : store;
  num_connections : Z;
  next_conid : Z;
  conns : gmap ptr connection;
  send_queue : fairqueue;
  keepalive_if : istate;          (* the state of the interface *)
  keepalive_sending : bool;
  have_server : bool }.

(** The address of keepalive_qflow, a member of the client. *)
Definition keepalive_qflow : ptr := 0.

Definition set_table (o : UdpGwClient) (t1 t2 : tree (A := ptr)) (l : LinkedList1) (h : store) (num : Z)
    (m : gmap ptr connection) : UdpGwClient :=
  {| udp_mtu := udp_mtu o; max_connections := max_connections o; udpgw_mtu := udpgw_mtu o; pp_mtu := pp_mtu o;
     tree_by_conaddr := t1; tree_by_conid := t2; connections_list := l; list_nodes := h; num_connections := num;
     next_conid := next_conid o; conns := m; send_queue := send_queue o; keepalive_if := keepalive_if o;
     keepalive_sending := keepalive_sending o; have_server := have_server o |}.
Definition set_conns (o : UdpGwClient) (m : gmap ptr connection) : UdpGwClient :=
  set_table o (tree_by_conaddr o) (tree_by_conid o) (connections_list o) (list_nodes o) (num_connections o) m.
Definition set_list (o : UdpGwClient) (l : LinkedList1) (h : store) : UdpGwClient :=
  set_table o (tree_by_conaddr o) (tree_by_conid o) l h (num_connections o) (conns o).
Definition set_next (o : UdpGwClient) (n : Z) : UdpGwClient :=
  {| udp_mtu := udp_mtu o; max_connections := max_connections o; udpgw_mtu := udpgw_mtu o; pp_mtu := pp_mtu o;
     tree_by_conaddr := tree_by_conaddr o; tree_by_conid := tree_by_conid o; connections_list := connections_list o;
     list_nodes := list_nodes o; num_connections := num_connections o; next_conid := n; conns := conns o;
     send_queue := send_queue o; keepalive_if := keepalive_if o; keepalive_sending := keepalive_sending o;
     have_server := have_server o |}.
Definition set_side (o : UdpGwClient) (q : fairqueue) (s : istate) (sending server : bool) : UdpGwClient :=
  {| udp_mtu := udp_mtu o; max_connections := max_connections o; udpgw_mtu := udpgw_mtu o; pp_mtu := pp_mtu o;
     tree_by_conaddr := tree_by_conaddr o; tree_by_conid := tree_by_conid o; connections_list := connections_list o;
     list_nodes := list_nodes o; num_connections := num_connections o; next_conid := next_conid o; conns := conns o;
     send_queue := q; keepalive_if := s; keepalive_sending := sending; have_server := server |}.
Definition set_send_queue (o : UdpGwClient) (q : fairqueue) : UdpGwClient :=
  set_side o q (keepalive_if o) (keepalive_sending o) (have_server o).

Definition uint16_comparator (v1 v2 : Z) : Z := B_COMPARE v1 v2.
Definition conaddr_comparator (v1 v2 : conaddr) : Z :=
  let r := BAddr_CompareOrder (remote_addr v1) (remote_addr v2) in
  if negb (r =? 0) then r else BAddr_CompareOrder (local_addr v1) (local_addr v2).

(** The values of the tree nodes. *)
Definition conaddr_of (m : gmap ptr connection) (p : ptr) : conaddr :=
  match m !! p with Some c => con_addr c | None => {| local_addr := BAddr_none; remote_addr := BAddr_none |} end.
Definition conid_of (m : gmap ptr connection) (p : ptr) : Z := match m !! p with Some c => con_conid c | None => 0 end.

Definition find_connection_by_conaddr (o : UdpGwClient) (a : conaddr) : option (option ptr) :=
  BAVL_LookupExact (conaddr_of (conns o)) conaddr_comparator (tree_by_conaddr o) a.
Definition find_connection_by_conid (o : UdpGwClient) (conid : Z) : option (option ptr) :=
  BAVL_LookupExact (conid_of (conns o)) uint16_comparator (tree_by_conid o) conid.

(** The loop of find_unused_conid, which leaves the conid it returns in
    next_conid. *)
Fixpoint find_conid_loop (fuel : nat) (o : UdpGwClient) (next : Z) : option Z :=
  found ← find_connection_by_conid o (u16 next);
  match found with
  | None => Some next
  | Some _ =>
      match fuel with
      | O => None
      | S fuel => find_conid_loop fuel o (if next =? max_connections o - 1 then 0 else next + 1)
      end
  end.
Definition find_unused_conid (o : UdpGwClient) : option (UdpGwClient * Z) :=
  ASSERT num_connections o <? max_connections o;
  next ← find_conid_loop (Z.to_nat (max_connections o)) o (next_conid o);
  Some (set_next o next, u16 next).

(** ** Packets *)

Definition udpgw_header_mem (flags conid : Z) : bytes := ltoh8 flags :: mem16 (ltoh16 conid).

(** [out] is the memory that BufferWriter_StartPacket gives out, [None] when the
    buffer is full; the result is the packet submitted by BufferWriter_EndPacket. *)
Definition connection_send (o : UdpGwClient) (c : connection) (out : option bytes) (flags : Z) (data : bytes)
    : option (option bytes) :=
  ASSERT blen data <=? udp_mtu o;
  match out with
  | None => Some None
  | Some out =>
      let remote := remote_addr (con_addr c) in
      let flags := if BAddr_type remote =? BADDR_TYPE_IPV6 then Z.lor flags UDPGW_CLIENT_FLAG_IPV6 else flags in
      let header := udpgw_header_mem flags (con_conid c) in
      out ← mem_write out 0 header;
      let out_pos := blen header in
      let addr := udpgw_addr_mem remote in
      out ← mem_write out out_pos addr;
      let out_pos := out_pos + blen addr in
      out ← mem_write out out_pos data;
      let out_pos := out_pos + blen data in
      ASSERT out_pos <=? udpgw_mtu o;
      Some (Some (btake out_pos out))
  end.

(** A packet of the server.  The result is what is handed to handler_received. *)
Definition recv_interface_handler_send (o : UdpGwClient) (data : bytes)
    : option (UdpGwClient * option (BAddr * BAddr * bytes)) :=
  ASSERT have_server o;
  ASSERT blen data <=? udpgw_mtu o;
  if blen data <? sizeof_udpgw_header then Some (o, None) else
  header ← mem_read data 0 sizeof_udpgw_header;
  let data := bdrop sizeof_udpgw_header data in
  let flags := ltoh8 (nth 0 header 0) in
  let conid := ltoh16 (load16 (drop 1 header)) in
  let finish (remote : BAddr) (data : bytes) :=
    if blen data >? udp_mtu o then Some (o, None) else
    con ← find_connection_by_conid o conid;
    match con with
    | None => Some (o, None)
    | Some p =>
        c ← conns o !! p;
        if negb (BAddr_CompareOrder (remote_addr (con_addr c)) remote =? 0) then Some (o, None) else
        '(l, h) ← LinkedList1_Remove (connections_list o) (list_nodes o) p;
        '(l, h) ← LinkedList1_Append l h p;
        Some (set_list o l h, Some (local_addr (con_addr c), remote_addr (con_addr c), data))
    end in
  if negb (Z.land flags UDPGW_CLIENT_FLAG_IPV6 =? 0) then
    if blen data <? sizeof_udpgw_addr_ipv6 then Some (o, None) else
    a ← mem_read data 0 sizeof_udpgw_addr_ipv6;
    finish (BAddr_MakeIPv6 a (load16 (drop 16 a))) (bdrop sizeof_udpgw_addr_ipv6 data)
  else
    if blen data <? sizeof_udpgw_addr_ipv4 then Some (o, None) else
    a ← mem_read data 0 sizeof_udpgw_addr_ipv4;
    finish (BAddr_MakeIPv4 (load32 a) (load16 (drop 4 a))) (bdrop sizeof_udpgw_addr_ipv4 data).

(** The result: handler_servererror is called. *)
Definition decoder_handler_error (o : UdpGwClient) : option bool := ASSERT have_server o; Some true.

(** ** Connections *)

(** What can fail in connection_init: malloc, which gives the address, and
    PacketProtoFlow_Init. *)
Record init_answers := { ans_malloc : option ptr; ans_ppflow : bool }.

Definition connection_init (o : UdpGwClient) (ans : init_answers) (a : conaddr) (flags : Z) (data : bytes)
    : option (UdpGwClient * option ptr) :=
  ASSERT num_connections o <? max_connections o;
  found ← find_connection_by_conaddr o a;
  ASSERT bool_decide (found = None);
  ASSERT blen data <=? udp_mtu o;
  match ans_malloc ans with
  | None => Some (o, None)
  | Some p =>
      '(o, conid) ← find_unused_conid o;
      let c := {| con_addr := a; first_flags := flags; con_first := Some data; con_conid := conid |} in
      q ← PacketPassFairQueueFlow_Init (send_queue o) p;
      let o := set_send_queue o q in
      if negb (ans_ppflow ans) then
        q ← PacketPassFairQueueFlow_Free (send_queue o) p;
        Some (set_send_queue o q, None)
      else
        let m := <[p := c]> (conns o) in
        let h := <[p := {| l1_p := None; l1_n := None |}]> (list_nodes o) in
        '(t1, inserted, _) ← BAVL_Insert (conaddr_of m) conaddr_comparator (tree_by_conaddr o) p;
        ASSERT (inserted : bool);
        '(t2, inserted, _) ← BAVL_Insert (conid_of m) uint16_comparator (tree_by_conid o) p;
        ASSERT (inserted : bool);
        '(l, h) ← LinkedList1_Append (connections_list o) h p;
        Some (set_table o t1 t2 l h (num_connections o + 1) m, Some p)
  end.

Definition connection_free (o : UdpGwClient) (p : ptr) : option UdpGwClient :=
  (* PacketPassFairQueueFlow_AssertFree *)
  ASSERT freeing (send_queue o) || negb (bool_decide (sending_flow (send_queue o) = Some p));
  '(l, h) ← LinkedList1_Remove (connections_list o) (list_nodes o) p;
  '(t, up) ← position p (tree_by_conid o) [];
  t2 ← BAVL_Remove t up;
  '(t, up) ← position p (tree_by_conaddr o) [];
  t1 ← BAVL_Remove t up;
  q ← PacketPassFairQueueFlow_Free (send_queue o) p;
  Some (set_table (set_send_queue o q) t1 t2 l (delete p h) (num_connections o - 1) (delete p (conns o))).

Definition connection_first_job_handler (o : UdpGwClient) (p : ptr) (out : option bytes)
    : option (UdpGwClient * option (ptr * bytes)) :=
  c ← conns o !! p;
  data ← con_first c;
  packet ← connection_send o c out (Z.lor UDPGW_CLIENT_FLAG_REBIND (first_flags c)) data;
  let c := {| con_addr := con_addr c; first_flags := first_flags c; con_first := None; con_conid := con_conid c |} in
  Some (set_conns o (<[p := c]> (conns o)), option_map (pair p) packet).

Definition reuse_connection (o : UdpGwClient) (a : conaddr) : option (UdpGwClient * ptr) :=
  found ← find_connection_by_conaddr o a;
  ASSERT bool_decide (found = None);
  ASSERT num_connections o >? 0;
  p ← LinkedList1_GetFirst (connections_list o);
  '(t, up) ← position p (tree_by_conaddr o) [];
  t1 ← BAVL_Remove t up;
  c ← conns o !! p;
  let c := {| con_addr := a; first_flags := first_flags c; con_first := con_first c; con_conid := con_conid c |} in
  let m := <[p := c]> (conns o) in
  '(t1, inserted, _) ← BAVL_Insert (conaddr_of m) conaddr_comparator t1 p;
  ASSERT (inserted : bool);
  Some (set_table o t1 (tree_by_conid o) (connections_list o) (list_nodes o) (num_connections o) m, p).

(** ** The client *)

Definition UdpGwClient_Init (mtu max send_buffer_size : Z) : option (option UdpGwClient) :=
  ASSERT mtu >=? 0;
  ASSERT udpgw_compute_mtu mtu >=? 0;
  ASSERT udpgw_compute_mtu mtu <=? PACKETPROTO_MAXPAYLOAD;
  ASSERT max >? 0;
  ASSERT send_buffer_size >? 0;
  let umtu := udpgw_compute_mtu mtu in
  let pmtu := umtu + sizeof_packetproto_header in
  q ← PacketPassFairQueue_Init pmtu 1 false false;
  match q with
  | None => Some None
  | Some q =>
      q ← PacketPassFairQueueFlow_Init q keepalive_qflow;
      Some (Some {| udp_mtu := mtu; max_connections := if max >? UINT16_MAX + 1 then UINT16_MAX + 1 else max;
                    udpgw_mtu := umtu; pp_mtu := pmtu; tree_by_conaddr := Null; tree_by_conid := Null;
                    connections_list := LinkedList1_Init; list_nodes := ∅; num_connections := 0; next_conid := 0; conns := ∅;
                    send_queue := q; keepalive_if := STATE_NONE; keepalive_sending := false; have_server := false |})
  end.

(** The loop of UdpGwClient_Free. *)
Fixpoint free_connections (fuel : nat) (o : UdpGwClient) : option UdpGwClient :=
  if LinkedList1_IsEmpty (connections_list o) then Some o else
  match fuel with
  | O => None
  | S fuel => p ← LinkedList1_GetFirst (connections_list o); o ← connection_free o p; free_connections fuel o
  end.
Definition UdpGwClient_Free (o : UdpGwClient) : option UdpGwClient :=
  let o := set_send_queue o (PacketPassFairQueue_PrepareFree (send_queue o)) in
  o ← free_connections (size (conns o)) o;
  let o := set_side o (send_queue o) (keepalive_if o) (keepalive_sending o) false in
  q ← PacketPassFairQueueFlow_Free (send_queue o) keepalive_qflow;
  _ ← PacketPassFairQueue_Free q;
  Some (set_send_queue o q).

(** The packet that was given to the writer of a connection is the second
    component; a new connection sends from its first job. *)
Definition UdpGwClient_SubmitPacket (o : UdpGwClient) (ans : init_answers) (out : option bytes)
    (local remote : BAddr) (is_dns : bool) (data : bytes) : option (UdpGwClient * option (ptr * bytes)) :=
  ASSERT is_ip local;
  ASSERT is_ip remote;
  ASSERT blen data <=? udp_mtu o;
  let a := {| local_addr := local; remote_addr := remote |} in
  con ← find_connection_by_conaddr o a;
  let flags := if is_dns then UDPGW_CLIENT_FLAG_DNS else 0 in
  '(o, con, flags) ←
    (if negb (nonnull con) && (num_connections o =? max_connections o)
     then '(o, p) ← reuse_connection o a; Some (o, Some p, Z.lor flags UDPGW_CLIENT_FLAG_REBIND)
     else Some (o, con, flags));
  match con with
  | None => '(o, _) ← connection_init o ans a flags data; Some (o, None)
  | Some p =>
      '(l, h) ← LinkedList1_Remove (connections_list o) (list_nodes o) p;
      '(l, h) ← LinkedList1_Append l h p;
      let o := set_list o l h in
      c ← conns o !! p;
      packet ← connection_send o c out flags data;
      Some (o, option_map (pair p) packet)
  end.

(** [decoder] is the result of PacketProtoDecoder_Init. *)
Definition UdpGwClient_ConnectServer (o : UdpGwClient) (decoder : bool) : option (UdpGwClient * bool) :=
  ASSERT negb (have_server o);
  if decoder then Some (set_side o (send_queue o) (keepalive_if o) (keepalive_sending o) true, true) else Some (o, false).
Definition UdpGwClient_DisconnectServer (o : UdpGwClient) : option UdpGwClient :=
  ASSERT have_server o;
  Some (set_side o (send_queue o) (keepalive_if o) (keepalive_sending o) false).

(** ** Keep-alive packets *)

(** The header of PacketProto, then that of the gateway protocol. *)
Definition keepalive_packet : bytes := mem16 sizeof_udpgw_header ++ [UDPGW_CLIENT_FLAG_KEEPALIVE; 0; 0].

Definition send_monitor_handler (o : UdpGwClient) : option UdpGwClient :=
  if keepalive_sending o then Some o else
  (* PacketPassInterface_Sender_Send *)
  ASSERT state_is (keepalive_if o) STATE_NONE;
  Some (set_side o (send_queue o) STATE_OPERATION_PENDING true (have_server o)).

Definition keepalive_if_handler_done (o : UdpGwClient) : option UdpGwClient :=
  ASSERT keepalive_sending o;
  Some (set_side o (send_queue o) (keepalive_if o) false (have_server o)).

(** * The table of connections *)

Definition conaddr_wf (a : conaddr) : Prop := BAddr_wf (local_addr a) /\ BAddr_wf (remote_addr a).

Lemma conaddr_comparator_zero a b : conaddr_wf a -> conaddr_wf b -> conaddr_comparator a b = 0 <-> a = b.
Proof.
  intros [Hal Har] [Hbl Hbr]. unfold conaddr_comparator. cbv zeta.
  destruct (Z.eqb_spec (BAddr_CompareOrder (remote_addr a) (remote_addr b)) 0) as [E|E]; cbn [negb].
  - rewrite BAddr_CompareOrder_zero by done. apply BAddr_CompareOrder_zero in E; [|done|done].
    destruct a, b; simpl in *; subst. split; [by intros ->|by intros [= ->]].
  - split; [done|]. intros ->. destruct E. by apply BAddr_CompareOrder_zero.
Qed.

#[export] Instance gw_conaddr_Comparator : Comparator conaddr_wf conaddr_comparator.
Proof.
  assert (Hr : forall a b : conaddr, conaddr_wf a -> conaddr_wf b ->
    let r := BAddr_CompareOrder (remote_addr a) (remote_addr b) in let l := BAddr_CompareOrder (local_addr a) (local_addr b) in
    (r = -1 \/ r = 0 \/ r = 1) /\ (l = -1 \/ l = 0 \/ l = 1)
    /\ BAddr_CompareOrder (remote_addr b) (remote_addr a) = - r /\ BAddr_CompareOrder (local_addr b) (local_addr a) = - l).
  { intros a b [Hal Har] [Hbl Hbr]. cbv zeta. split_and!; by first [apply (cmp_range (ok := BAddr_wf))|apply (cmp_antisym (ok := BAddr_wf))]. }
  split; unfold conaddr_comparator.
  - intros a b Ha Hb. destruct (Hr a b Ha Hb) as (H1 & H2 & _). destruct (_ =? 0); simpl; lia.
  - intros a b Ha Hb. destruct (Hr a b Ha Hb) as (H1 & H2 & -> & ->).
    destruct (Z.eqb_spec (BAddr_CompareOrder (remote_addr a) (remote_addr b)) 0) as [->|]; simpl; [done|].
    destruct (Z.eqb_spec (- BAddr_CompareOrder (remote_addr a) (remote_addr b)) 0); simpl; [lia|done].
  - intros a b c Ha Hb Hc. destruct (Hr a b Ha Hb) as (H1 & H2 & _), (Hr b c Hb Hc) as (H3 & H4 & _), Ha as [Hal Har], Hb as [Hbl Hbr], Hc as [Hcl Hcr].
    pose proof (cmp_trans (ok := BAddr_wf) _ _ _ Har Hbr Hcr) as Tr. pose proof (cmp_trans (ok := BAddr_wf) _ _ _ Hal Hbl Hcl) as Tl.
    destruct (Z.eqb_spec (BAddr_CompareOrder (remote_addr a) (remote_addr b)) 0) as [Eab|Eab].
    + apply BAddr_CompareOrder_zero in Eab; [|done|done]. rewrite Eab. simpl. intros E1.
      destruct (Z.eqb_spec (BAddr_CompareOrder (remote_addr b) (remote_addr c)) 0) as [Ebc|Ebc]; simpl; [by apply Tl|done].
    + simpl. intros E1. destruct (Z.eqb_spec (BAddr_CompareOrder (remote_addr b) (remote_addr c)) 0) as [Ebc|Ebc]; simpl; intros E2.
      * apply BAddr_CompareOrder_zero in Ebc; [|done|done]. rewrite <- Ebc, E1. done.
      * by rewrite (Tr E1 E2).
  - intros a b c Ha Hb Hc E. apply (conaddr_comparator_zero a b) in E; [by subst|done|done].
Qed.

(** The connections [ids], least recently used first. *)
Record links (o : UdpGwClient) (ids : list ptr) : Prop := {
  ln_rep : LinkedList1.rep (connections_list o) (list_nodes o) ids;
  ln_nodes : dom (list_nodes o) = list_to_set ids;
  ln_dom : dom (conns o) = list_to_set ids;
  ln_conaddr : index (conaddr_of (conns o)) conaddr_comparator conaddr_wf (tree_by_conaddr o) ids;
  ln_conid : index (conid_of (conns o)) uint16_comparator (fun _ => True) (tree_by_conid o) ids;
  ln_num : num_connections o = Z.of_nat (length ids);
  ln_range p c : conns o !! p = Some c -> 0 <= con_conid c < max_connections o }.

Lemma links_lookup o ids p : links o ids -> p ∈ ids <-> is_Some (conns o !! p).
Proof. intros L. rewrite <- elem_of_dom, (ln_dom _ _ L). by rewrite elem_of_list_to_set. Qed.

Lemma links_wf o ids p c : links o ids -> conns o !! p = Some c -> conaddr_wf (con_addr c).
Proof.
  intros L Hc. pose proof (index_ok _ _ _ _ _ p (ln_conaddr _ _ L)) as Hok. unfold conaddr_of in Hok. rewrite Hc in Hok.
  apply Hok. apply (links_lookup _ _ _ L). by eexists.
Qed.

(** Both searches find the connection with the key, which is unique. *)
Lemma by_conaddr_spec o ids a : links o ids -> conaddr_wf a ->
  exists r, find_connection_by_conaddr o a = Some r /\
    match r with
    | Some p => exists c, conns o !! p = Some c /\ con_addr c = a
    | None => forall p c, conns o !! p = Some c -> con_addr c <> a
    end.
Proof.
  intros L Ha. destruct (index_lookup _ _ _ _ _ a (ln_conaddr _ _ L) Ha) as (r & E & Hr). exists r. split; [exact E|].
  destruct r as [p|].
  - destruct Hr as [[c Hc]%(links_lookup _ _ _ L) E0]. exists c. split; [done|]. unfold conaddr_of in E0. rewrite Hc in E0.
    symmetry. by apply conaddr_comparator_zero in E0; [|done|eapply links_wf].
  - intros p c Hc <-. apply (Hr p); [apply (links_lookup _ _ _ L); by eexists|]. unfold conaddr_of. rewrite Hc.
    by apply conaddr_comparator_zero.
Qed.

Lemma by_conid_spec o ids i : links o ids ->
  exists r, find_connection_by_conid o i = Some r /\
    match r with
    | Some p => exists c, conns o !! p = Some c /\ con_conid c = i
    | None => forall p c, conns o !! p = Some c -> con_conid c <> i
    end.
Proof.
  intros L. destruct (index_lookup _ _ _ _ _ i (ln_conid _ _ L) I) as (r & E & Hr). exists r. split; [exact E|].
  unfold uint16_comparator, conid_of in Hr. destruct r as [p|].
  - destruct Hr as [[c Hc]%(links_lookup _ _ _ L) E0]. exists c. split; [done|]. rewrite Hc in E0.
    destruct (B_COMPARE_spec i (con_conid c)) as [[? _]|[[_ ?]|[_ ?]]]; lia.
  - intros p c Hc <-. apply (Hr p); [apply (links_lookup _ _ _ L); by eexists|]. rewrite Hc.
    destruct (B_COMPARE_spec (con_conid c) (con_conid c)) as [[_ ?]|[[? _]|[? _]]]; lia.
Qed.

Lemma conaddr_unique o ids p q c d : links o ids -> conns o !! p = Some c -> conns o !! q = Some d -> con_addr c = con_addr d -> p = q.
Proof.
  intros L Hc Hd E. destruct (ln_conaddr _ _ L) as [Hp _ [Hs _]]. destruct (decide (p = q)) as [|Hne]; [done|exfalso].
  assert (Hin : forall x, is_Some (conns o !! x) -> In x (inorder (tree_by_conaddr o)))
    by (intros x Hx; rewrite <- list_elem_of_In, Hp; by apply (links_lookup _ _ _ L)).
  assert (Hcmp : forall x y cx cy, conns o !! x = Some cx -> conns o !! y = Some cy -> con_addr cx = con_addr cy ->
                   BAVL.lt (conaddr_of (conns o)) conaddr_comparator x y -> False).
  { intros x y cx cy Hx Hy Exy Hlt. unfold BAVL.lt, conaddr_of in Hlt. rewrite Hx, Hy, Exy in Hlt.
    rewrite (proj2 (conaddr_comparator_zero (con_addr cy) (con_addr cy) ltac:(by eapply links_wf) ltac:(by eapply links_wf))) in Hlt by done. done. }
  pose proof (Hin p ltac:(by eexists)) as Hip. pose proof (Hin q ltac:(by eexists)) as Hiq. revert Hs Hip Hiq. generalize (inorder (tree_by_conaddr o)).
  intros xs Hs. induction Hs as [|x xs Hs IH Hf]; [done|]. rewrite List.Forall_forall in Hf. intros [->|Hip] [->|Hiq]; [done|..|by apply IH].
  - by apply (Hcmp p q c d Hc Hd E), Hf.
  - by apply (Hcmp q p d c Hd Hc (eq_sym E)), Hf.
Qed.

(** ** Unused conids *)

Definition unused (o : UdpGwClient) (n : Z) : Prop := forall p c, conns o !! p = Some c -> con_conid c <> n.

Section Unused.
Context (o : UdpGwClient) (ids : list ptr) (L : links o ids) (Hmax : 0 < max_connections o <= 65536).

Lemma next_mod n : 0 <= n < max_connections o -> (if n =? max_connections o - 1 then 0 else n + 1) = (n + 1) mod max_connections o.
Proof.
  intros Hn. destruct (Z.eqb_spec n (max_connections o - 1)) as [->|].
  - replace (max_connections o - 1 + 1) with (max_connections o) by lia. by rewrite Z_mod_same_full.
  - by rewrite Z.mod_small by lia.
Qed.

(** The loop ends at an unused conid, or every conid it tried is used. *)
Lemma find_conid_loop_spec fuel : forall next, 0 <= next < max_connections o ->
  (exists n, find_conid_loop fuel o next = Some n /\ 0 <= n < max_connections o /\ unused o n)
  \/ forall i, 0 <= i <= Z.of_nat fuel -> exists p c, conns o !! p = Some c /\ con_conid c = (next + i) mod max_connections o.
Proof.
  induction fuel as [|fuel IH]; intros next Hn; cbn [find_conid_loop];
    (assert (u16 next = next) as -> by (apply u16_small; lia));
    destruct (by_conid_spec o ids next L) as (r & -> & Hr); cbn [mbind option_bind]; (destruct r as [p|]; [|left; by exists next]);
    destruct Hr as (c & Hc & Ec).
  - right. intros i Hi. replace i with 0 by lia. rewrite Z.add_0_r, Z.mod_small by lia. by exists p, c.
  - rewrite next_mod by done. destruct (IH ((next + 1) mod max_connections o)) as [?|Hall]; [apply Z.mod_pos_bound; lia|by left|right].
    intros i Hi. destruct (Z.eq_dec i 0) as [->|]; [rewrite Z.add_0_r, Z.mod_small by lia; by exists p, c|].
    destruct (Hall (i - 1) ltac:(lia)) as (q & d & Hq & Ed). exists q, d. split; [done|]. rewrite Ed, Zplus_mod_idemp_l. f_equal. lia.
Qed.

Lemma all_used : (forall n, 0 <= n < max_connections o -> exists p c, conns o !! p = Some c /\ con_conid c = n) ->
  max_connections o <= num_connections o.
Proof.
  intros Hall. rewrite (ln_num _ _ L). set (k := Z.to_nat (max_connections o)).
  assert (Hincl : incl (map Z.of_nat (seq 0 k)) (map (conid_of (conns o)) ids)).
  { intros n Hn. apply in_map_iff in Hn as (i & <- & Hi). apply in_seq in Hi.
    destruct (Hall (Z.of_nat i) ltac:(lia)) as (p & c & Hc & Ec). apply in_map_iff. exists p. split; [unfold conid_of; by rewrite Hc|].
    rewrite <- list_elem_of_In. apply (links_lookup _ _ _ L). by eexists. }
  apply NoDup_incl_length in Hincl; [rewrite !length_map, length_seq in Hincl; lia|].
  apply NoDup_ListNoDup. change (NoDup (Z.of_nat <$> seq 0 k)). apply NoDup_fmap_2; [intros x y; lia|apply NoDup_seq].
Qed.

(** The search for an unused conid ends, because there are fewer connections than
    conids. *)
Lemma find_unused_conid_spec : 0 <= next_conid o < max_connections o -> num_connections o < max_connections o ->
  exists n, find_unused_conid o = Some (set_next o n, n) /\ 0 <= n < max_connections o /\ unused o n.
Proof.
  intros Hn Hnum. unfold find_unused_conid. replace (num_connections o <? max_connections o) with true by lia.
  destruct (find_conid_loop_spec (Z.to_nat (max_connections o)) (next_conid o) Hn) as [(n & -> & Hr & Hu)|Hall].
  - exists n. cbn [mbind option_bind]. rewrite u16_small by lia. done.
  - exfalso. enough (max_connections o <= num_connections o) by lia. apply all_used. intros n Hr.
    destruct (Hall ((n - next_conid o) mod max_connections o)) as (p & c & Hc & Ec).
    { pose proof (Z.mod_pos_bound (n - next_conid o) (max_connections o)). lia. }
    exists p, c. split; [done|]. rewrite Ec, Zplus_mod_idemp_r. replace (next_conid o + (n - next_conid o)) with n by lia. by apply Z.mod_small.
Qed.
End Unused.

(** ** Operations on the table *)

(** A store whose entry for [p] keeps what a tree is ordered by. *)
Lemma of_insert_ne m p q c : p <> q -> conaddr_of (<[p := c]> m) q = conaddr_of m q /\ conid_of (<[p := c]> m) q = conid_of m q.
Proof. intros Hne. unfold conaddr_of, conid_of. by rewrite !lookup_insert_ne. Qed.
Lemma of_insert_eq m p c : conaddr_of (<[p := c]> m) p = con_addr c /\ conid_of (<[p := c]> m) p = con_conid c.
Proof. unfold conaddr_of, conid_of. by rewrite !lookup_insert_eq. Qed.

Lemma set_snoc (ids : list ptr) p : list_to_set (ids ++ [p]) = {[p]} ∪ list_to_set ids :> gset ptr.
Proof. rewrite list_to_set_app_L. simpl. set_solver. Qed.

Lemma links_insert o ids p c :
  links o ids -> p ∉ ids -> conaddr_wf (con_addr c) -> 0 <= con_conid c < max_connections o ->
  (forall q d, conns o !! q = Some d -> con_addr d <> con_addr c) -> unused o (con_conid c) ->
  let m := <[p := c]> (conns o) in
  exists t1 r1 t2 r2 l h,
    BAVL_Insert (conaddr_of m) conaddr_comparator (tree_by_conaddr o) p = Some (t1, true, r1)
    /\ BAVL_Insert (conid_of m) uint16_comparator (tree_by_conid o) p = Some (t2, true, r2)
    /\ LinkedList1_Append (connections_list o) (<[p := {| l1_p := None; l1_n := None |}]> (list_nodes o)) p = Some (l, h)
    /\ links (set_table o t1 t2 l h (num_connections o + 1) m) (ids ++ [p]).
Proof.
  intros L Hp Hwf Hr Hna Hni m. pose proof L as [Hrep Hn Hd Ha Hi Hnum Hrng].
  assert (Hne : forall q, q ∈ ids -> p <> q) by congruence.
  destruct (index_insert (conaddr_of m) conaddr_comparator conaddr_wf (tree_by_conaddr o) ids p) as (t1 & r1 & E1 & H1).
  { eapply index_ext; [|exact Ha]. intros q Hq. by apply of_insert_ne, Hne. }
  { unfold m. by rewrite (proj1 (of_insert_eq _ _ _)). }
  { intros q Hq. unfold m. rewrite (proj1 (of_insert_eq _ _ _)), (proj1 (of_insert_ne _ _ _ _ (Hne q Hq))).
    apply (links_lookup _ _ _ L) in Hq as [d Hd']. unfold conaddr_of. rewrite Hd'. intros E0.
    apply conaddr_comparator_zero in E0; [|done|by eapply links_wf]. by apply (Hna q d). }
  destruct (index_insert (conid_of m) uint16_comparator (fun _ => True) (tree_by_conid o) ids p) as (t2 & r2 & E2 & H2).
  { eapply index_ext; [|exact Hi]. intros q Hq. by apply of_insert_ne, Hne. }
  { done. }
  { intros q Hq. unfold m. rewrite (proj2 (of_insert_eq _ _ _)), (proj2 (of_insert_ne _ _ _ _ (Hne q Hq))).
    apply (links_lookup _ _ _ L) in Hq as [d Hd']. unfold conid_of. rewrite Hd'. unfold uint16_comparator.
    specialize (Hni q d Hd'). destruct (B_COMPARE_spec (con_conid c) (con_conid d)) as [[? _]|[[_ ?]|[_ ?]]]; lia. }
  destruct (LinkedList1_Append_spec (connections_list o) (<[p := {| l1_p := None; l1_n := None |}]> (list_nodes o)) ids p)
    as (l & h & E3 & Hrep' & Hdom & _).
  { destruct Hrep as [F La N S]. split; try done. eapply seg1_frame; [|exact S]. intros x Hx. rewrite lookup_insert_ne; [done|]. by apply Hne. }
  { done. }
  { rewrite dom_insert_L. set_solver. }
  exists t1, r1, t2, r2, l, h. split_and!; [done..|]. split; simpl; try done.
  - by rewrite Hdom, dom_insert_L, Hn, set_snoc.
  - unfold m. by rewrite dom_insert_L, Hd, set_snoc.
  - rewrite Hnum, length_app. simpl. lia.
  - intros q d. unfold m. destruct (decide (p = q)) as [<-|]; [rewrite lookup_insert_eq; by intros [= <-]|].
    rewrite lookup_insert_ne by done. apply Hrng.
Qed.

Lemma links_remove o l p k :
  links o (l ++ p :: k) ->
  exists lo h t2' up2 t2 t1' up1 t1,
    LinkedList1_Remove (connections_list o) (list_nodes o) p = Some (lo, h)
    /\ position p (tree_by_conid o) [] = Some (t2', up2) /\ BAVL_Remove t2' up2 = Some t2
    /\ position p (tree_by_conaddr o) [] = Some (t1', up1) /\ BAVL_Remove t1' up1 = Some t1
    /\ links (set_table o t1 t2 lo (delete p h) (num_connections o - 1) (delete p (conns o))) (l ++ k).
Proof.
  intros L. pose proof L as [Hrep Hn Hd Ha Hi Hnum Hrng].
  destruct (NoDup_middle _ _ _ (rep_nodup _ _ _ Hrep)) as (Hpl & Hpk & Hlk & _).
  destruct (LinkedList1_Remove_spec _ _ _ _ _ Hrep) as (lo & h & E & Hrep' & Hdom & _).
  destruct (index_remove _ _ _ _ _ _ _ Hi) as (t2' & up2 & t2 & Ep2 & Er2 & H2).
  destruct (index_remove _ _ _ _ _ _ _ Ha) as (t1' & up1 & t1 & Ep1 & Er1 & H1).
  assert (Hset : list_to_set (l ++ k) = list_to_set (l ++ p :: k) ∖ {[p]} :> gset ptr).
  { apply set_eq. intros x. rewrite elem_of_difference, !elem_of_list_to_set, elem_of_singleton, !elem_of_app, elem_of_cons.
    split; [|naive_solver]. intros Hx. split; [naive_solver|]. intros ->. by destruct Hx. }
  assert (Hne : forall q, q ∈ l ++ k -> p <> q) by (intros q [?|?]%elem_of_app ->; done).
  exists lo, h, t2', up2, t2, t1', up1, t1. split_and!; [done..|]. split; simpl; try done.
  - destruct Hrep' as [F La N S]. split; try done. eapply seg1_frame; [|exact S]. intros x Hx. by rewrite lookup_delete_ne by (by apply Hne).
  - by rewrite dom_delete_L, Hdom, Hn, Hset.
  - by rewrite dom_delete_L, Hd, Hset.
  - eapply index_ext; [|exact H1]. intros q Hq. unfold conaddr_of. by rewrite lookup_delete_ne by (by apply Hne).
  - eapply index_ext; [|exact H2]. intros q Hq. unfold conid_of. by rewrite lookup_delete_ne by (by apply Hne).
  - rewrite Hnum, !length_app. simpl. lia.
  - intros q d [_ Hq]%lookup_delete_Some. by eapply Hrng.
Qed.

(** The least recently used connection gets new addresses. *)
Lemma reuse_connection_spec o p k a c :
  links o (p :: k) -> conns o !! p = Some c -> conaddr_wf a -> (forall q d, conns o !! q = Some d -> con_addr d <> a) ->
  let c' := {| con_addr := a; first_flags := first_flags c; con_first := con_first c; con_conid := con_conid c |} in
  exists t1, reuse_connection o a
      = Some (set_table o t1 (tree_by_conid o) (connections_list o) (list_nodes o) (num_connections o) (<[p := c']> (conns o)), p)
    /\ links (set_table o t1 (tree_by_conid o) (connections_list o) (list_nodes o) (num_connections o) (<[p := c']> (conns o))) (p :: k).
Proof.
  intros L Hc Hwf Hna c'. pose proof L as [Hrep Hn Hd Ha Hi Hnum Hrng].
  pose proof (rep_nodup _ _ _ Hrep) as Hnd. apply NoDup_cons in Hnd as [Hpk Hk].
  destruct (index_remove _ _ _ _ [] p k Ha) as (t' & up & t1 & Ep & Er & H1).
  assert (Hne : forall q, q ∈ k -> p <> q) by congruence.
  destruct (index_insert (conaddr_of (<[p := c']> (conns o))) conaddr_comparator conaddr_wf t1 k p) as (t1' & r & E1 & H1').
  { eapply index_ext; [|exact H1]. intros q Hq. by apply of_insert_ne, Hne. }
  { by rewrite (proj1 (of_insert_eq _ _ _)). }
  { intros q Hq. rewrite (proj1 (of_insert_eq _ _ _)), (proj1 (of_insert_ne _ _ _ _ (Hne q Hq))).
    assert (is_Some (conns o !! q)) as [d Hd'] by (apply (links_lookup _ _ _ L); by right).
    unfold conaddr_of. rewrite Hd'. intros E0. apply conaddr_comparator_zero in E0; [|done|by eapply links_wf]. by apply (Hna q d). }
  exists t1'. split.
  - unfold reuse_connection. destruct (by_conaddr_spec o (p :: k) a L Hwf) as (found & -> & Hf). cbn [mbind option_bind].
    destruct found as [q|]; [destruct Hf as (d & Hq & Ed); by destruct (Hna q d)|]. rewrite bool_decide_eq_true_2 by done.
    replace (num_connections o >? 0) with true by (symmetry; rewrite Hnum, Z.gtb_ltb; apply Z.ltb_lt; cbn [length]; lia). unfold LinkedList1_GetFirst. rewrite (rep_first _ _ _ Hrep).
    cbn [hd_or mbind option_bind]. rewrite Ep. cbn [mbind option_bind]. rewrite Er. cbn [mbind option_bind]. rewrite Hc. cbn [mbind option_bind].
    fold c'. rewrite E1. done.
  - split; simpl; try done.
    + rewrite dom_insert_lookup_L; [done|by eexists].
    + rewrite (Permutation_cons_append k p). exact H1'.
    + eapply index_ext; [|exact Hi]. intros q _. destruct (decide (p = q)) as [<-|Hq]; [|by apply of_insert_ne].
      rewrite (proj2 (of_insert_eq _ _ _)). unfold conid_of. by rewrite Hc.
    + intros q d. destruct (decide (p = q)) as [<-|]; [rewrite lookup_insert_eq; intros [= <-]; exact (Hrng p c Hc)|].
      rewrite lookup_insert_ne by done. apply Hrng.
Qed.

(** A connection that was used becomes the last of the list. *)
Lemma links_touch o l p k :
  links o (l ++ p :: k) ->
  exists lo h lo' h', LinkedList1_Remove (connections_list o) (list_nodes o) p = Some (lo, h)
    /\ LinkedList1_Append lo h p = Some (lo', h') /\ links (set_list o lo' h') ((l ++ k) ++ [p]).
Proof.
  intros L. pose proof L as [Hrep Hn Hd Ha Hi Hnum Hrng].
  destruct (NoDup_middle _ _ _ (rep_nodup _ _ _ Hrep)) as (Hpl & Hpk & Hlk & _).
  destruct (LinkedList1_Remove_spec _ _ _ _ _ Hrep) as (lo & h & E & Hrep' & Hdom & _).
  destruct (LinkedList1_Append_spec lo h (l ++ k) p Hrep') as (lo' & h' & E' & Hrep2 & Hdom2 & _).
  { by intros [?|?]%elem_of_app. }
  { rewrite Hdom, Hn. set_solver. }
  pose proof (Permutation_to_end l k p) as Hperm.
  assert (Hset : list_to_set (l ++ p :: k) = list_to_set ((l ++ k) ++ [p]) :> gset ptr).
  { apply set_eq. intros x. rewrite !elem_of_list_to_set. by rewrite Hperm. }
  exists lo, h, lo', h'. split_and!; try done. split; simpl; try done.
  - by rewrite Hdom2, Hdom, Hn, Hset.
  - by rewrite Hd, Hset.
  - by rewrite <- Hperm.
  - by rewrite <- Hperm.
  - rewrite Hnum. by rewrite Hperm.
Qed.

(** The first job only forgets the first packet. *)
Lemma links_put o ids p c c' :
  links o ids -> conns o !! p = Some c -> con_addr c' = con_addr c -> con_conid c' = con_conid c -> links (set_conns o (<[p := c']> (conns o))) ids.
Proof.
  intros L Hc Ea Ei. pose proof L as [Hrep Hn Hd Ha Hi Hnum Hrng]. split; simpl; try done.
  - rewrite dom_insert_lookup_L; [done|by eexists].
  - eapply index_ext; [|exact Ha]. intros q _. destruct (decide (p = q)) as [<-|Hq]; [|by apply of_insert_ne].
    rewrite (proj1 (of_insert_eq _ _ _)). unfold conaddr_of. by rewrite Hc.
  - eapply index_ext; [|exact Hi]. intros q _. destruct (decide (p = q)) as [<-|Hq]; [|by apply of_insert_ne].
    rewrite (proj2 (of_insert_eq _ _ _)). unfold conid_of. by rewrite Hc.
  - intros q d. destruct (decide (p = q)) as [<-|]; [rewrite lookup_insert_eq; intros [= <-]; rewrite Ei; exact (Hrng p c Hc)|].
    rewrite lookup_insert_ne by done. apply Hrng.
Qed.

(** * Packets *)

(** A packet of the gateway protocol. *)
Definition gw_packet (flags conid : Z) (remote : BAddr) (data : bytes) : bytes :=
  (if BAddr_type remote =? BADDR_TYPE_IPV6 then Z.lor flags 8 else flags) :: mem16 (u16 conid) ++ udpgw_addr_mem remote ++ data.

Lemma gw_send_fits o c out flags data :
  blen out = udpgw_mtu o -> udpgw_mtu o = udp_mtu o + 22 -> blen data <= udp_mtu o ->
  BAddr_wf (remote_addr (con_addr c)) -> is_ip (remote_addr (con_addr c)) = true ->
  connection_send o c (Some out) flags data = Some (Some (gw_packet flags (con_conid c) (remote_addr (con_addr c)) data)).
Proof.
  intros Hout Hmtu Hd Hwf Hip. unfold connection_send. rewrite (proj2 (Z.leb_le (blen data) _)) by done. cbv zeta.
  set (r := remote_addr (con_addr c)) in *. set (fl := if _ =? _ then _ else _). set (h := udpgw_header_mem fl (con_conid c)).
  set (a := udpgw_addr_mem r). assert (Hh : blen h = 3) by done.
  assert (Ha : 0 <= blen a <= 18) by (unfold a; rewrite blen_addr by done; destruct (BAddr_type r =? BADDR_TYPE_IPV4); lia). pose proof (blen_nonneg data).
  destruct (write_behind [] h 0 out) as (m1 & E1 & HL1 & Ht1); [done..|lia|lia|]. rewrite E1. cbn [mbind option_bind].
  destruct (write_behind h a (blen h) m1) as (m2 & E2 & HL2 & Ht2); [done|done|lia|lia|]. rewrite E2. cbn [mbind option_bind].
  destruct (write_behind (h ++ a) data (blen h + blen a) m2) as (m3 & E3 & HL3 & Ht3); [done|by rewrite blen_app|lia|lia|].
  rewrite E3. cbn [mbind option_bind]. rewrite (proj2 (Z.leb_le (blen h + blen a + blen data) _)) by lia. rewrite Ht3.
  rewrite <- app_assoc. reflexivity.
Qed.

(** The conid, the remote address and the data of a packet. *)
Definition gw_parse (data : bytes) : option (Z * BAddr * bytes) :=
  match data with
  | flags :: c0 :: c1 :: rest =>
      let conid := load16 [c0; c1] in
      if Z.testbit flags 3
      then if 18 <=? blen rest then let a := btake 18 rest in Some (conid, BAddr_ipv6 (btake 16 a) (load16 (drop 16 a)), bdrop 18 rest) else None
      else if 6 <=? blen rest then let a := btake 6 rest in Some (conid, BAddr_ipv4 (load32 a) (load16 (drop 4 a)), bdrop 6 rest) else None
  | _ => None
  end.

Lemma land_testbit x n : 0 <= n -> (Z.land x (2 ^ n) =? 0) = negb (Z.testbit x n).
Proof.
  intros Hn. destruct (Z.testbit x n) eqn:E; simpl.
  - apply Z.eqb_neq. intros H0. assert (Z.testbit (Z.land x (2 ^ n)) n = true) as Ht by (by rewrite Z.land_spec, E, Z.pow2_bits_true).
    by rewrite H0, Z.bits_0 in Ht.
  - apply Z.eqb_eq. apply Z.bits_inj'. intros m Hm. rewrite Z.land_spec, Z.bits_0. destruct (Z.eq_dec n m) as [<-|].
    + by rewrite E.
    + by rewrite Z.pow2_bits_false, andb_false_r.
Qed.

Lemma is_bytes_drop_nat n l : is_bytes l -> is_bytes (drop n l).
Proof. apply Forall_drop. Qed.

Lemma is_bytes_cons x l : is_bytes (x :: l) <-> is_byte x /\ is_bytes l.
Proof. apply Forall_cons_iff. Qed.

Lemma gw_parse_wf data i r pl : is_bytes data -> gw_parse data = Some (i, r, pl) -> 0 <= i < 65536 /\ BAddr_wf r /\ is_ip r = true.
Proof.
  intros Hb. unfold gw_parse. destruct data as [|f [|c0 [|c1 rest]]]; try done.
  apply is_bytes_cons in Hb as [_ Hb]. apply is_bytes_cons in Hb as [H0 Hb]. apply is_bytes_cons in Hb as [H1 Hb].
  assert (Hi : 0 <= load16 [c0; c1] < 65536) by (apply load16_range; apply is_bytes_cons; split; [done|]; apply is_bytes_cons; split; [done|constructor]).
  destruct (Z.testbit f 3).
  - destruct (18 <=? blen rest) eqn:El; [|done]. zbool. intros [= <- <- <-]. split; [done|]. split; [|done]. simpl.
    assert (Ht : is_bytes (btake 18 rest)) by auto with cmem. split_and!; [|auto with cmem|apply load16_range; by apply is_bytes_drop_nat..].
    apply Nat2Z.inj. change (blen (btake 16 (btake 18 rest)) = 16). rewrite btake_btake by lia. apply blen_btake. lia.
  - destruct (6 <=? blen rest) eqn:El; [|done]. zbool. intros [= <- <- <-]. split; [done|]. split; [|done]. simpl.
    assert (Ht : is_bytes (btake 6 rest)) by auto with cmem. split; [|apply load16_range; by apply is_bytes_drop_nat].
    assert (Hl : blen (btake 6 rest) = 6) by (apply blen_btake; lia). destruct (btake 6 rest) as [|b0 [|b1 [|b2 [|b3 l]]]]; try done.
    repeat (apply is_bytes_cons in Ht as [? Ht]). by apply load32_range.
Qed.

(** What the gateway echoes is parsed back. *)
Lemma gw_parse_packet flags conid r data :
  BAddr_wf r -> is_ip r = true -> 0 <= conid < 65536 -> Z.testbit flags 3 = false -> 
  gw_parse (gw_packet flags conid r data) = Some (conid, r, data).
Proof.
  intros Hwf Hip Hc Hf. pose proof (blen_nonneg data). unfold gw_packet, gw_parse. rewrite u16_small by lia.
  change (mem16 conid ++ ?l) with (nth 0 (mem16 conid) 0 :: nth 1 (mem16 conid) 0 :: l). cbv beta iota.
  change [nth 0 (mem16 conid) 0; nth 1 (mem16 conid) 0] with (mem16 conid ++ []). rewrite load16_mem16 by done.
  destruct r as [|ip port|ip port|]; try done; cbn [BAddr_type].
  - change (BADDR_TYPE_IPV4 =? BADDR_TYPE_IPV6) with false. cbv iota. rewrite Hf. destruct Hwf as [Hi Hp].
    destruct (parse_ipv4 ip port data Hi Hp) as (E1 & E2 & E3 & E4). cbn [udpgw_addr_mem] in *.
    set (a := mem32 ip ++ mem16 port) in *. assert (Hl : blen a = 6) by done. rewrite blen_app, Hl.
    replace (6 <=? 6 + blen data) with true by lia. rewrite btake_app_exact by done. cbv zeta. by rewrite E2, E3, E4.
  - change (BADDR_TYPE_IPV6 =? BADDR_TYPE_IPV6) with true. cbv iota. rewrite Z.lor_spec, Hf. change (Z.testbit 8 3) with true. cbn [orb].
    destruct Hwf as (Hi & _ & Hp). destruct (parse_ipv6 ip port data Hi Hp) as (E1 & E2 & E3 & E4). cbn [udpgw_addr_mem] in *.
    set (a := ip ++ mem16 port) in *. assert (Hl : blen a = 18) by (unfold a, blen; rewrite length_app, Hi; done). rewrite blen_app, Hl.
    replace (18 <=? 18 + blen data) with true by lia. rewrite btake_app_exact by done. cbv zeta. by rewrite E2, E3, E4.
Qed.

(** * The queue *)

Lemma queue_init (q : fairqueue) xs l p :
  fq_inv q xs l -> freeing q = false -> p ∉ l ->
  exists q' xs', PacketPassFairQueueFlow_Init q p = Some q' /\ fq_inv q' xs' (l ++ [p]) /\ freeing q' = false /\ fq_mtu q' = fq_mtu q
    /\ forall g, busyb q' g = busyb q g.
Proof.
  intros Hi Hf Hp. destruct (fq_step_ok q xs l (FlowInit p) Hi) as (q' & eff & xs' & E & Hi' & D).
  { split; [done|]. destruct (flows q !! p) eqn:Ep; [|done]. destruct Hp. apply (co_flows _ _ _ (iv_core _ _ _ Hi)). by eexists. }
  unfold fq_step in E. destruct (PacketPassFairQueueFlow_Init q p) as [q1|]; [|done]. injection E as <- <-.
  exists q1, xs'. split_and!; [done|done|..]; [by rewrite (did_freeing _ _ _ _ D)|apply (did_params _ _ _ _ D)|apply (did_busy _ _ _ _ D)].
Qed.

Lemma queue_free (q : fairqueue) xs l p :
  fq_inv q xs l -> p ∈ l -> freeing q = true \/ sending_flow q <> Some p ->
  exists q' xs', PacketPassFairQueueFlow_Free q p = Some q' /\ fq_inv q' xs' (LinkedList1.remove_one p l) /\ freeing q' = freeing q
    /\ fq_mtu q' = fq_mtu q /\ forall g, busyb q' g = busyb q g && negb (g =? p).
Proof.
  intros Hi Hp Hf. destruct (fq_step_ok q xs l (FlowFree p) Hi) as (q' & eff & xs' & E & Hi' & D).
  { split; [|done]. by apply (co_flows _ _ _ (iv_core _ _ _ Hi)). }
  unfold fq_step in E. destruct (PacketPassFairQueueFlow_Free q p) as [q1|]; [|done]. injection E as <- <-.
  exists q1, xs'. split_and!; [done|done|..]; [by rewrite (did_freeing _ _ _ _ D)|apply (did_params _ _ _ _ D)|apply (did_busy _ _ _ _ D)].
Qed.

Record gw_side (o : UdpGwClient) (ids : list ptr) : Prop := {
  sd_queue : exists xs l, fq_inv (send_queue o) xs l /\ l ≡ₚ keepalive_qflow :: ids;
  sd_freeing : freeing (send_queue o) = false;
  sd_mtu : fq_mtu (send_queue o) = pp_mtu o;
  sd_sending : keepalive_sending o = negb (state_is (keepalive_if o) STATE_NONE);
  sd_busy : busyb (send_queue o) keepalive_qflow = state_is (keepalive_if o) STATE_BUSY }.

Record gw_config (o : UdpGwClient) : Prop := {
  cf_max : 0 < max_connections o <= 65536;
  cf_next : 0 <= next_conid o < max_connections o;
  cf_num : num_connections o <= max_connections o;
  cf_mtu : 0 <= udp_mtu o /\ udpgw_mtu o = udp_mtu o + 22 /\ pp_mtu o = udpgw_mtu o + 2 /\ udpgw_mtu o <= 65535 }.

(** No first job is pending. *)
Definition gw_idle (o : UdpGwClient) : Prop := forall p c, conns o !! p = Some c -> con_first c = None /\ is_ip (remote_addr (con_addr c)) = true.

Record gw_inv (o : UdpGwClient) (ids : list ptr) : Prop := {
  gi_links : links o ids;
  gi_side : gw_side o ids;
  gi_config : gw_config o;
  gi_idle : gw_idle o }.

Lemma keepalive_not_connection o ids : gw_side o ids -> keepalive_qflow ∉ ids.
Proof.
  intros [(xs & l & Hi & Hl) _ _ _ _]. pose proof (rep_nodup _ _ _ (co_list _ _ _ (iv_core _ _ _ Hi))) as Hd.
  rewrite Hl in Hd. by apply NoDup_cons in Hd as [? _].
Qed.

(** * What happens to a client *)

Record submission := {
  s_local : BAddr; s_remote : BAddr; s_is_dns : bool; s_data : bytes;
  s_answers : init_answers;
  s_out : option bytes }.            (* the memory of BufferWriter_StartPacket *)

Inductive gw_event :=
| GSubmit (s : submission)             (* UdpGwClient_SubmitPacket, and the first job of a new connection *)
| GReceive (data : bytes)              (* a packet of the server *)
| GConnect (decoder : bool) | GDisconnect | GServerError
| GMonitor                             (* the server got nothing for keepalive_time *)
| GKeepaliveOperation | GKeepaliveDone (* the jobs of keepalive_if *)
| GQueue (e : fq_event).               (* a packet of a connection, the output, the schedule job *)

Inductive gw_output := Sent (packet : bytes) | Delivered (local remote : BAddr) (data : bytes).

(** What can happen: the caller keeps to the contract, memory that is given out
    has the size of the MTU, malloc gives an address that is not in use, and the
    interfaces and jobs call a handler only in the state that belongs to it. *)
Definition gw_allowed (o : UdpGwClient) (e : gw_event) : Prop :=
  match e with
  | GSubmit s =>
      BAddr_wf (s_local s) /\ BAddr_wf (s_remote s) /\ is_ip (s_local s) = true /\ is_ip (s_remote s) = true /\ blen (s_data s) <= udp_mtu o
      /\ (forall b, s_out s = Some b -> blen b = udpgw_mtu o)
      /\ (forall p, ans_malloc (s_answers s) = Some p -> conns o !! p = None /\ p <> keepalive_qflow)
  | GReceive data => have_server o = true /\ is_bytes data /\ blen data <= udpgw_mtu o
  | GConnect _ => have_server o = false
  | GDisconnect | GServerError => have_server o = true
  | GMonitor => True
  | GKeepaliveOperation => keepalive_if o = STATE_OPERATION_PENDING
  | GKeepaliveDone => keepalive_if o = STATE_DONE_PENDING
  | GQueue e =>
      match e with
      | FlowSend f _ _ => f <> keepalive_qflow /\ allowed (send_queue o) e
      | OutputDone | ScheduleJob => allowed (send_queue o) e
      | _ => False
      end
  end.

(** The first job of a connection that was just created runs before anything
    else: it is on top of the job stack when the caller returns. *)
Definition gw_first_job (o : UdpGwClient) (p : option ptr) (out : option bytes) : option (UdpGwClient * option (ptr * bytes)) :=
  match p with
  | Some p =>
      match conns o !! p with
      | Some c => match con_first c with Some _ => connection_first_job_handler o p out | None => Some (o, None) end
      | None => Some (o, None)
      end
  | None => Some (o, None)
  end.

Definition gw_sent (x : option (ptr * bytes)) : list gw_output := match x with Some (_, pk) => [Sent pk] | None => [] end.

Definition gw_step (o : UdpGwClient) (e : gw_event) : option (UdpGwClient * list gw_output) :=
  match e with
  | GSubmit s =>
      '(o, sent) ← UdpGwClient_SubmitPacket o (s_answers s) (s_out s) (s_local s) (s_remote s) (s_is_dns s) (s_data s);
      '(o, sent') ← gw_first_job o (ans_malloc (s_answers s)) (s_out s);
      Some (o, gw_sent sent ++ gw_sent sent')
  | GReceive data =>
      '(o, r) ← recv_interface_handler_send o data;
      Some (o, match r with Some (l, rm, d) => [Delivered l rm d] | None => [] end)
  | GConnect decoder => '(o, _) ← UdpGwClient_ConnectServer o decoder; Some (o, [])
  | GDisconnect => o ← UdpGwClient_DisconnectServer o; Some (o, [])
  | GServerError => _ ← decoder_handler_error o; Some (o, [])
  | GMonitor => o ← send_monitor_handler o; Some (o, [])
  | GKeepaliveOperation =>
      ASSERT state_is (keepalive_if o) STATE_OPERATION_PENDING;
      '(q, _) ← fq_step (send_queue o) (FlowSend keepalive_qflow keepalive_qflow (blen keepalive_packet));
      Some (set_side o q STATE_BUSY (keepalive_sending o) (have_server o), [])
  | GKeepaliveDone =>
      ASSERT state_is (keepalive_if o) STATE_DONE_PENDING;
      o ← keepalive_if_handler_done (set_side o (send_queue o) STATE_NONE (keepalive_sending o) (have_server o)); Some (o, [])
  | GQueue e =>
      '(q, eff) ← fq_step (send_queue o) e;
      if existsb (fun x => match x with EDone f => f =? keepalive_qflow | _ => false end) eff
      then ASSERT state_is (keepalive_if o) STATE_BUSY;
           Some (set_side o q STATE_DONE_PENDING (keepalive_sending o) (have_server o), [])
      else Some (set_send_queue o q, [])
  end.

(** * The specification: connections, least recently used first *)

Abbreviation gw_sessions := (list (Z * conaddr)).

(** A packet is sent unless the buffer of the connection is full. *)
Definition spec_send (s : submission) (rebind : bool) (conid : Z) : list gw_output :=
  match s_out s with
  | Some _ => [Sent (gw_packet (Z.lor (if s_is_dns s then 4 else 0) (if rebind then 2 else 0)) conid (s_remote s) (s_data s))]
  | None => []
  end.

Definition addr_of (s : submission) : conaddr := {| local_addr := s_local s; remote_addr := s_remote s |}.
Definition created (s : submission) : bool := match ans_malloc (s_answers s) with Some _ => ans_ppflow (s_answers s) | None => false end.

Inductive gw_spec (mtu max : Z) : gw_sessions -> gw_event -> gw_sessions -> list gw_output -> Prop :=
| spec_known l k i s :
    gw_spec mtu max (l ++ (i, addr_of s) :: k) (GSubmit s) ((l ++ k) ++ [(i, addr_of s)]) (spec_send s false i)
| spec_reuse i a k s :
    addr_of s ∉ ((i, a) :: k).*2 -> Z.of_nat (length ((i, a) :: k)) = max ->
    gw_spec mtu max ((i, a) :: k) (GSubmit s) (k ++ [(i, addr_of s)]) (spec_send s true i)
| spec_create l i s :
    addr_of s ∉ l.*2 -> Z.of_nat (length l) < max -> created s = true -> 0 <= i < max -> i ∉ l.*1 ->
    gw_spec mtu max l (GSubmit s) (l ++ [(i, addr_of s)]) (spec_send s true i)
| spec_fail l s :
    addr_of s ∉ l.*2 -> Z.of_nat (length l) < max -> created s = false -> gw_spec mtu max l (GSubmit s) l []
| spec_deliver l i a k data payload :
    gw_parse data = Some (i, remote_addr a, payload) -> blen payload <= mtu ->
    gw_spec mtu max (l ++ (i, a) :: k) (GReceive data) ((l ++ k) ++ [(i, a)]) [Delivered (local_addr a) (remote_addr a) payload]
| spec_drop l data :
    (forall i a payload, gw_parse data = Some (i, remote_addr a, payload) -> blen payload <= mtu -> (i, a) ∉ l) ->
    gw_spec mtu max l (GReceive data) l []
| spec_quiet l e : match e with GSubmit _ | GReceive _ => False | _ => True end -> gw_spec mtu max l e l [].

Definition sessions_of (o : UdpGwClient) (ids : list ptr) : gw_sessions := map (fun p => (conid_of (conns o) p, conaddr_of (conns o) p)) ids.

(** * The client implements the specification *)

Definition gw_ok (o : UdpGwClient) (ids : list ptr) (e : gw_event) : Prop :=
  exists o' outs ids', gw_step o e = Some (o', outs) /\ gw_inv o' ids'
    /\ gw_spec (udp_mtu o) (max_connections o) (sessions_of o ids) e (sessions_of o' ids') outs
    /\ udp_mtu o' = udp_mtu o /\ max_connections o' = max_connections o.

Lemma sessions_of_same o o' ids :
  (forall p, p ∈ ids -> conid_of (conns o') p = conid_of (conns o) p /\ conaddr_of (conns o') p = conaddr_of (conns o) p) ->
  sessions_of o' ids = sessions_of o ids.
Proof. intros Hs. apply map_ext_in. intros p Hp%list_elem_of_In. destruct (Hs p Hp) as [-> ->]. done. Qed.

Lemma sessions_of_lookup o p c : conns o !! p = Some c -> (conid_of (conns o) p, conaddr_of (conns o) p) = (con_conid c, con_addr c).
Proof. unfold conid_of, conaddr_of. by intros ->. Qed.

Lemma sessions_unknown o ids a : links o ids -> (forall p c, conns o !! p = Some c -> con_addr c <> a) -> a ∉ (sessions_of o ids).*2.
Proof.
  intros L Hna Hin. apply list_elem_of_fmap in Hin as ([i b] & -> & Hb). unfold sessions_of in Hb.
  apply list_elem_of_fmap in Hb as (p & [= -> ->] & Hp). apply (links_lookup _ _ _ L) in Hp as [c Hc].
  apply (Hna p c Hc). unfold conaddr_of. by rewrite Hc.
Qed.

Lemma sessions_unused o ids n : links o ids -> unused o n -> n ∉ (sessions_of o ids).*1.
Proof.
  intros L Hun Hin. apply list_elem_of_fmap in Hin as ([i b] & -> & Hb). unfold sessions_of in Hb.
  apply list_elem_of_fmap in Hb as (p & [= -> ->] & Hp). apply (links_lookup _ _ _ L) in Hp as [c Hc].
  apply (Hun p c Hc). unfold conid_of. by rewrite Hc.
Qed.

Lemma sessions_length o ids : links o ids -> Z.of_nat (length (sessions_of o ids)) = num_connections o.
Proof. intros L. unfold sessions_of. by rewrite length_map, (ln_num _ _ L). Qed.

Lemma first_job_none o p out : (forall q, p = Some q -> conns o !! q = None) -> gw_first_job o p out = Some (o, None).
Proof. intros Hp. destruct p as [p|]; [|done]. simpl. by rewrite (Hp p eq_refl). Qed.

(** The packet of an existing connection. *)
Lemma send_existing o s c (rebind : bool) :
  gw_config o -> BAddr_wf (s_remote s) -> is_ip (s_remote s) = true -> blen (s_data s) <= udp_mtu o ->
  (forall b, s_out s = Some b -> blen b = udpgw_mtu o) -> con_addr c = addr_of s ->
  exists pk, connection_send o c (s_out s) (Z.lor (if s_is_dns s then 4 else 0) (if rebind then 2 else 0)) (s_data s) = Some pk
    /\ forall p : ptr, gw_sent (option_map (pair p) pk) = spec_send s rebind (con_conid c).
Proof.
  intros Hcf Hwr Hir Hd Hout Ea. pose proof (cf_mtu _ Hcf) as (_ & Hm & _). unfold spec_send.
  destruct (s_out s) as [b|].
  - rewrite gw_send_fits; rewrite ?Ea; try done; [|by apply Hout]. eexists. split; [done|]. done.
  - unfold connection_send. rewrite (proj2 (Z.leb_le _ _) Hd). by exists None.
Qed.

Lemma gw_config_same o o' : gw_config o -> max_connections o' = max_connections o -> next_conid o' = next_conid o ->
  num_connections o' = num_connections o -> udp_mtu o' = udp_mtu o -> udpgw_mtu o' = udpgw_mtu o -> pp_mtu o' = pp_mtu o -> gw_config o'.
Proof. intros [] E1 E2 E3 E4 E5 E6. split; congruence || (rewrite ?E1, ?E2, ?E3, ?E4, ?E5, ?E6; done). Qed.

Lemma gw_side_perm o o' ids ids' : gw_side o ids -> ids ≡ₚ ids' -> send_queue o' = send_queue o -> keepalive_if o' = keepalive_if o ->
  keepalive_sending o' = keepalive_sending o -> pp_mtu o' = pp_mtu o -> gw_side o' ids'.
Proof.
  intros [(xs & l & Hi & Hl) S2 S3 S4 S5] Hp E1 E2 E3 E4. split; rewrite ?E1, ?E2, ?E3, ?E4; try done.
  exists xs, l. split; [done|]. by rewrite Hl, Hp.
Qed.

Lemma gw_submit_known o l p k s c :
  gw_inv o (l ++ p :: k) -> gw_allowed o (GSubmit s) -> conns o !! p = Some c -> con_addr c = addr_of s ->
  find_connection_by_conaddr o (addr_of s) = Some (Some p) -> gw_ok o (l ++ p :: k) (GSubmit s).
Proof.
  intros Hi Ha Hc Eca Ef. pose proof Hi as [L S Hcf Hid]. pose proof Ha as (Hwl & Hwr & Hil & Hir & Hd & Hout & Hmal).
  destruct (links_touch o l p k L) as (lo & h & lo' & h' & E1 & E2 & L').
  destruct (send_existing (set_list o lo' h') s c false) as (pk & Epk & Hpk); [by apply (gw_config_same o)|done..|].
  rewrite Z.lor_0_r in Epk.
  exists (set_list o lo' h'), (spec_send s false (con_conid c)), ((l ++ k) ++ [p]). split_and!; try done.
  - cbn [gw_step]. unfold UdpGwClient_SubmitPacket. rewrite Hil, Hir, (proj2 (Z.leb_le _ _) Hd). cbv zeta. fold (addr_of s). rewrite Ef.
    cbn [mbind option_bind nonnull negb andb]. rewrite E1. cbn [mbind option_bind]. rewrite E2. cbn [mbind option_bind set_list set_table conns].
    rewrite Hc. cbn [mbind option_bind]. fold (set_list o lo' h'). 
    change (if s_is_dns s then UDPGW_CLIENT_FLAG_DNS else 0) with (if s_is_dns s then 4 else 0). rewrite Epk. cbn [mbind option_bind].
    rewrite first_job_none by (intros q Eq; by destruct (Hmal q Eq)). cbn [mbind option_bind]. by rewrite Hpk, app_nil_r.
  - split; [done| |by apply (gw_config_same o)|done]. eapply gw_side_perm; [exact S|apply Permutation_to_end|done..].
  - unfold sessions_of. rewrite !map_app. cbn [map set_list set_table conns]. rewrite (sessions_of_lookup o p c Hc), Eca. apply spec_known.
Qed.

Lemma submit_reuse o p k s c :
  gw_inv o (p :: k) -> gw_allowed o (GSubmit s) -> conns o !! p = Some c -> num_connections o = max_connections o ->
  find_connection_by_conaddr o (addr_of s) = Some None -> (forall q d, conns o !! q = Some d -> con_addr d <> addr_of s) ->
  gw_ok o (p :: k) (GSubmit s).
Proof.
  intros Hi Ha Hc Hfull Ef Hna. pose proof Hi as [L S Hcf Hid]. pose proof Ha as (Hwl & Hwr & Hil & Hir & Hd & Hout & Hmal).
  destruct (reuse_connection_spec o p k (addr_of s) c L Hc ltac:(done) Hna) as (t1 & Er & L1). cbv zeta in *.
  set (c' := {| con_addr := addr_of s; first_flags := first_flags c; con_first := con_first c; con_conid := con_conid c |}) in *.
  set (o1 := set_table o _ _ _ _ _ _) in *. destruct (links_touch o1 [] p k L1) as (lo & h & lo' & h' & E1 & E2 & L').
  assert (Hc1 : conns o1 !! p = Some c') by apply lookup_insert_eq.
  destruct (send_existing (set_list o1 lo' h') s c' true) as (pk & Epk & Hpk); [by apply (gw_config_same o)|done..|].
  exists (set_list o1 lo' h'), (spec_send s true (con_conid c)), (k ++ [p]). split_and!; try done.
  - cbn [gw_step]. unfold UdpGwClient_SubmitPacket. rewrite Hil, Hir, (proj2 (Z.leb_le _ _) Hd). cbv zeta. fold (addr_of s). rewrite Ef.
    cbn [mbind option_bind nonnull negb andb]. rewrite (proj2 (Z.eqb_eq _ _) Hfull), Er. cbn [mbind option_bind]. rewrite E1. cbn [mbind option_bind].
    rewrite E2. cbn [mbind option_bind]. change (conns (set_list o1 lo' h')) with (conns o1). rewrite Hc1. cbn [mbind option_bind].
    change (Z.lor (if s_is_dns s then UDPGW_CLIENT_FLAG_DNS else 0) UDPGW_CLIENT_FLAG_REBIND) with (Z.lor (if s_is_dns s then 4 else 0) 2).
    rewrite Epk. cbn [mbind option_bind]. rewrite first_job_none; [cbn [mbind option_bind]; by rewrite Hpk, app_nil_r|].
    intros q Eq. destruct (Hmal q Eq) as [Hq _]. simpl. rewrite lookup_insert_ne; [done|congruence].
  - split; [done| |by apply (gw_config_same o)|].
    + eapply gw_side_perm; [exact S|apply Permutation_cons_append|done..].
    + intros q d. simpl. destruct (decide (p = q)) as [<-|]; [|rewrite lookup_insert_ne by done; apply Hid].
      rewrite lookup_insert_eq. intros [= <-]. simpl. split; [by apply (Hid p c)|done].
  - pose proof (rep_nodup _ _ _ (ln_rep _ _ L)) as Hnd. apply NoDup_cons in Hnd as [Hpk' _].
    assert (Es : sessions_of (set_list o1 lo' h') (k ++ [p]) = sessions_of o k ++ [(con_conid c, addr_of s)]).
    { unfold sessions_of. rewrite map_app. cbn [map]. f_equal; [|by rewrite (sessions_of_lookup (set_list o1 lo' h') p c' Hc1)].
      apply sessions_of_same. intros q Hq. simpl. split; apply of_insert_ne; congruence. }
    rewrite Es. change (sessions_of o (p :: k)) with ((conid_of (conns o) p, conaddr_of (conns o) p) :: sessions_of o k).
    pose proof (sessions_unknown o (p :: k) (addr_of s) L Hna) as Hunk. pose proof (sessions_length o (p :: k) L) as Hlen.
    change (sessions_of o (p :: k)) with ((conid_of (conns o) p, conaddr_of (conns o) p) :: sessions_of o k) in Hunk, Hlen.
    rewrite (sessions_of_lookup o p c Hc) in *. apply spec_reuse; [done|]. by rewrite Hlen.
Qed.

(** A new connection: a conid is chosen, a flow is added to the queue, and, when
    everything could be allocated, the connection is entered in the table. *)
Lemma connection_init_spec' o ids s flags p :
  gw_inv o ids -> gw_allowed o (GSubmit s) -> num_connections o < max_connections o -> ans_malloc (s_answers s) = Some p ->
  find_connection_by_conaddr o (addr_of s) = Some None -> (forall q d, conns o !! q = Some d -> con_addr d <> addr_of s) ->
  exists o' n, 0 <= n < max_connections o /\ unused o n /\ gw_config o'
    /\ next_conid o' = n /\ udp_mtu o' = udp_mtu o /\ udpgw_mtu o' = udpgw_mtu o /\ max_connections o' = max_connections o
    /\ if ans_ppflow (s_answers s)
       then let c := {| con_addr := addr_of s; first_flags := flags; con_first := Some (s_data s); con_conid := n |} in
            connection_init o (s_answers s) (addr_of s) flags (s_data s) = Some (o', Some p)
            /\ conns o' = <[p := c]> (conns o) /\ links o' (ids ++ [p]) /\ gw_side o' (ids ++ [p])
       else connection_init o (s_answers s) (addr_of s) flags (s_data s) = Some (o', None)
            /\ conns o' = conns o /\ links o' ids /\ gw_side o' ids.
Proof.
  intros Hi Ha Hnum Hm Ef Hna. pose proof Hi as [L S Hcf Hid]. pose proof Ha as (Hwl & Hwr & Hil & Hir & Hd & Hout & Hmal).
  destruct (Hmal p Hm) as [Hp Hpk]. destruct (find_unused_conid_spec o ids L (cf_max _ Hcf) (cf_next _ Hcf) Hnum) as (n & En & Hn & Hun).
  assert (Hpi : p ∉ ids) by (intros [? ?]%(links_lookup _ _ _ L); congruence).
  pose proof S as [(xs & fl & Hq & Hfl) S2 S3 S4 S5].
  assert (Hpf : p ∉ fl) by (rewrite Hfl; set_solver).
  destruct (queue_init _ xs fl p Hq S2 Hpf) as (q & xs' & Eq & Hq' & Hf' & Hm' & Hb').
  unfold connection_init. rewrite Hm, Ef, (proj2 (Z.ltb_lt _ _) Hnum), (proj2 (Z.leb_le _ _) Hd). cbn [mbind option_bind].
  rewrite bool_decide_eq_true_2 by done. rewrite En. cbn [mbind option_bind]. change (send_queue (set_next o n)) with (send_queue o). rewrite Eq.
  cbn [mbind option_bind]. destruct (ans_ppflow (s_answers s)); cbn [negb].
  - set (c := {| con_addr := addr_of s; first_flags := flags; con_first := Some (s_data s); con_conid := n |}).
    destruct (links_insert o ids p c L Hpi (conj Hwl Hwr) Hn Hna Hun) as (t1 & r1 & t2 & r2 & l & h & E1 & E2 & E3 & L'). cbv zeta in *.
    cbn [set_send_queue set_side conns list_nodes set_next tree_by_conaddr tree_by_conid connections_list num_connections].
    rewrite E1. cbn [mbind option_bind]. rewrite E2. cbn [mbind option_bind]. rewrite E3. cbn [mbind option_bind].
    exists (set_table (set_send_queue (set_next o n) q) t1 t2 l h (num_connections o + 1) (<[p := c]> (conns o))), n. split; [done|]. split; [done|]. split; [|cbv zeta; split_and!; try done].
    + destruct Hcf as [C1 C2 C3 C4]. split; simpl; try done; lia.
    + destruct L' as [L1 L2 L3 L4 L5 L6 L7]. by split.
    + split; simpl; try done; [|by rewrite Hm'|by rewrite Hb']. exists xs', (fl ++ [p]). split; [done|]. by rewrite Hfl.
  - destruct (queue_free q xs' (fl ++ [p]) p Hq') as (q2 & xs2 & Eq2 & Hq2 & Hf2 & Hm2 & Hb2); [set_solver|right|].
    { intros Es. destruct (iv_send _ _ _ Hq' p Es) as (x & Ex & _ & _). pose proof (Hb' p) as Hbp. unfold busyb in Hbp. rewrite Ex in Hbp.
      assert (flows (send_queue o) !! p = None) as En'.
      { destruct (flows (send_queue o) !! p) eqn:E; [|done]. destruct Hpf. apply (co_flows _ _ _ (iv_core _ _ _ Hq)). by eexists. }
      rewrite En' in Hbp. rewrite (proj2 (iv_busy _ _ _ Hq' p x Hf' Ex)) in Hbp by auto. done. }
    cbn [set_send_queue set_side send_queue]. rewrite Eq2. cbn [mbind option_bind]. rewrite LinkedList1.remove_one_app, app_nil_r in Hq2 by done.
    exists (set_send_queue (set_send_queue (set_next o n) q) q2), n. split; [done|]. split; [done|]. split; [|cbv zeta; split_and!; try done].
    + destruct Hcf as [C1 C2 C3 C4]. split; simpl; done.
    + destruct L as [L1 L2 L3 L4 L5 L6 L7]. by split.
    + split; simpl; try done.
      * by exists xs2, fl.
      * by rewrite Hf2.
      * by rewrite Hm2, Hm'.
      * rewrite Hb2, Hb', S5. destruct (Z.eqb_spec keepalive_qflow p); [congruence|]. by rewrite andb_true_r.
Qed.

Lemma first_job_spec o ids p s n flags :
  links o ids -> gw_config o -> BAddr_wf (s_remote s) -> is_ip (s_remote s) = true -> blen (s_data s) <= udp_mtu o ->
  (forall b, s_out s = Some b -> blen b = udpgw_mtu o) ->
  conns o !! p = Some {| con_addr := addr_of s; first_flags := flags; con_first := Some (s_data s); con_conid := n |} ->
  flags = (if s_is_dns s then 4 else 0) ->
  let c' := {| con_addr := addr_of s; first_flags := flags; con_first := None; con_conid := n |} in
  exists pk, gw_first_job o (Some p) (s_out s) = Some (set_conns o (<[p := c']> (conns o)), pk)
    /\ gw_sent pk = spec_send s true n /\ links (set_conns o (<[p := c']> (conns o))) ids.
Proof.
  intros L Hcf Hwr Hir Hd Hout Hc -> c'. destruct (send_existing o s _ true Hcf Hwr Hir Hd Hout (eq_refl : con_addr c' = addr_of s)) as (pk & Epk & Hpk).
  exists (option_map (pair p) pk). split_and!.
  - cbn [gw_first_job]. rewrite Hc. cbn [con_first]. unfold connection_first_job_handler. rewrite Hc. cbn [mbind option_bind con_first].
    cbn [first_flags]. change UDPGW_CLIENT_FLAG_REBIND with 2. rewrite (Z.lor_comm 2).
    assert (Es : forall out fl d, connection_send o {| con_addr := addr_of s; first_flags := if s_is_dns s then 4 else 0;
      con_first := Some (s_data s); con_conid := n |} out fl d = connection_send o c' out fl d) by done.
    rewrite Es, Epk. done.
  - apply Hpk.
  - by eapply links_put.
Qed.

Lemma gw_submit_new o ids s :
  gw_inv o ids -> gw_allowed o (GSubmit s) -> num_connections o < max_connections o ->
  find_connection_by_conaddr o (addr_of s) = Some None -> (forall q d, conns o !! q = Some d -> con_addr d <> addr_of s) ->
  gw_ok o ids (GSubmit s).
Proof.
  intros Hi Ha Hnum Ef Hna. pose proof Hi as [L S Hcf Hid]. pose proof Ha as (Hwl & Hwr & Hil & Hir & Hd & Hout & Hmal).
  set (flags := if s_is_dns s then 4 else 0).
  assert (Estep : gw_step o (GSubmit s) = ('(o, _) ← connection_init o (s_answers s) (addr_of s) flags (s_data s);
    '(o, sent) ← gw_first_job o (ans_malloc (s_answers s)) (s_out s); Some (o, gw_sent sent))).
  { cbn [gw_step]. unfold UdpGwClient_SubmitPacket. rewrite Hil, Hir, (proj2 (Z.leb_le _ _) Hd). cbv zeta. fold (addr_of s). rewrite Ef.
    cbn [mbind option_bind nonnull negb andb]. rewrite (proj2 (Z.eqb_neq (num_connections o) (max_connections o))) by lia. cbn [mbind option_bind].
    change (if s_is_dns s then UDPGW_CLIENT_FLAG_DNS else 0) with flags.
    destruct (connection_init o (s_answers s) (addr_of s) flags (s_data s)) as [[o1 r]|]; [|done]. cbn [mbind option_bind].
    destruct (gw_first_job o1 _ _) as [[o2 r2]|]; done. }
  pose proof (sessions_unknown o ids (addr_of s) L Hna) as Hunk. pose proof (sessions_length o ids L) as Hlen.
  destruct (ans_malloc (s_answers s)) as [p|] eqn:Em.
  - destruct (connection_init_spec' o ids s flags p Hi Ha Hnum Em Ef Hna) as (o1 & n & Hn & Hun & Hcf1 & _ & Hmtu & Hgw & Hmax & Hcase).
    destruct (Hmal p eq_refl) as [Hp Hpk]. destruct (ans_ppflow (s_answers s)) eqn:Epf.
    + destruct Hcase as (E1 & Ec1 & L1 & S1).
      destruct (first_job_spec o1 (ids ++ [p]) p s n flags L1 Hcf1 Hwr Hir) as (pk & Ej & Epk & L2);
        [by rewrite Hmtu|by rewrite Hgw|by rewrite Ec1, lookup_insert_eq|done|]. cbv zeta in *. set (o2 := set_conns _ _) in *.
      exists o2, (spec_send s true n), (ids ++ [p]). rewrite Estep, E1. cbn [mbind option_bind]. rewrite Ej. cbn [mbind option_bind]. rewrite Epk.
      split_and!; try done.
      * split; [done| |by apply (gw_config_same o1)|].
        -- by apply (gw_side_perm o1 _ (ids ++ [p])).
        -- intros q d. simpl. rewrite Ec1. destruct (decide (p = q)) as [<-|]; [rewrite lookup_insert_eq; by intros [= <-]|].
           rewrite !lookup_insert_ne by done. apply Hid.
      * assert (Es : sessions_of o2 (ids ++ [p]) = sessions_of o ids ++ [(n, addr_of s)]).
        { unfold sessions_of. rewrite map_app. cbn [map]. simpl. f_equal; [|by destruct (of_insert_eq (conns o1) p
            {| con_addr := addr_of s; first_flags := flags; con_first := None; con_conid := n |}) as [-> ->]].
          apply (sessions_of_same o o2). intros q Hq. assert (p <> q) by (intros ->; apply (links_lookup _ _ _ L) in Hq as [? ?]; congruence).
          simpl. rewrite Ec1. unfold conid_of, conaddr_of. by rewrite !lookup_insert_ne. }
        rewrite Es. apply spec_create; [done|lia|unfold created; by rewrite Em|done|by apply sessions_unused].
    + destruct Hcase as (E1 & Ec1 & L1 & S1). exists o1, [], ids. rewrite Estep, E1. cbn [mbind option_bind].
      rewrite first_job_none by (intros q [= <-]; by rewrite Ec1). split_and!; try done.
      * split; [done|done|done|]. intros q d. rewrite Ec1. apply Hid.
      * rewrite (sessions_of_same o o1) by (by rewrite Ec1). apply spec_fail; [done|lia|unfold created; by rewrite Em].
  - exists o, [], ids. rewrite Estep. unfold connection_init. rewrite Ef, Em, (proj2 (Z.ltb_lt _ _) Hnum), (proj2 (Z.leb_le _ _) Hd).
    cbn. split_and!; try done. apply spec_fail; [done|lia|unfold created; by rewrite Em].
Qed.

Lemma submit_ok o ids s : gw_inv o ids -> gw_allowed o (GSubmit s) -> gw_ok o ids (GSubmit s).
Proof.
  intros Hi Ha. pose proof Hi as [L S Hcf Hid]. pose proof Ha as (Hwl & Hwr & _).
  destruct (by_conaddr_spec o ids (addr_of s) L ltac:(done)) as (r & Ef & Hr). destruct r as [p|].
  - destruct Hr as (c & Hc & Ec). assert (Hp : p ∈ ids) by (apply (links_lookup _ _ _ L); by eexists).
    apply list_elem_of_split in Hp as (l & k & ->). by eapply gw_submit_known.
  - destruct (Z.eq_dec (num_connections o) (max_connections o)) as [E|E].
    + destruct ids as [|p k]; [rewrite (ln_num _ _ L) in E; pose proof (cf_max _ Hcf); simpl in E; lia|].
      assert (is_Some (conns o !! p)) as [c Hc] by (apply (links_lookup _ _ _ L); left). by eapply submit_reuse.
    + pose proof (cf_num _ Hcf). apply gw_submit_new; try done. lia.
Qed.

(** ** Packets of the server *)

(** The end of recv_interface_handler_send. *)
Definition gw_accept (o : UdpGwClient) (conid : Z) (remote : BAddr) (data : bytes) : option (UdpGwClient * option (BAddr * BAddr * bytes)) :=
  if blen data >? udp_mtu o then Some (o, None) else
  con ← find_connection_by_conid o conid;
  match con with
  | None => Some (o, None)
  | Some p =>
      c ← conns o !! p;
      if negb (BAddr_CompareOrder (remote_addr (con_addr c)) remote =? 0) then Some (o, None) else
      '(l, h) ← LinkedList1_Remove (connections_list o) (list_nodes o) p;
      '(l, h) ← LinkedList1_Append l h p;
      Some (set_list o l h, Some (local_addr (con_addr c), remote_addr (con_addr c), data))
  end.

Lemma recv_parse o data : have_server o = true -> is_bytes data -> blen data <= udpgw_mtu o ->
  recv_interface_handler_send o data
  = match gw_parse data with Some (i, r, pl) => gw_accept o i r pl | None => Some (o, None) end.
Proof.
  intros Hs Hb Hl. unfold recv_interface_handler_send, sizeof_udpgw_header. rewrite Hs, (proj2 (Z.leb_le _ _) Hl).
  destruct data as [|f [|c0 [|c1 rest]]]; try done. 
  pose proof (blen_nonneg rest). replace (blen (f :: c0 :: c1 :: rest) <? 3) with false by (rewrite !blen_cons; lia).
  assert (mem_read (f :: c0 :: c1 :: rest) 0 3 = Some [f; c0; c1]) as -> by apply (mem_read_app [f; c0; c1] rest).
  cbn [mbind option_bind]. cbv zeta. change (bdrop 3 (f :: c0 :: c1 :: rest)) with rest. change (ltoh8 (nth 0 [f; c0; c1] 0)) with f.
  change (drop 1 [f; c0; c1]) with [c0; c1].
  apply is_bytes_cons in Hb as [_ Hb]. apply is_bytes_cons in Hb as [H0 Hb]. apply is_bytes_cons in Hb as [H1 Hb].
  assert (ltoh16 (load16 [c0; c1]) = load16 [c0; c1]) as ->.
  { apply u16_small. apply load16_range. apply is_bytes_cons; split; [done|]. apply is_bytes_cons; split; [done|constructor]. }
  change UDPGW_CLIENT_FLAG_IPV6 with (2 ^ 3). rewrite land_testbit, negb_involutive by lia. cbn [gw_parse].
  unfold sizeof_udpgw_addr_ipv6, sizeof_udpgw_addr_ipv4. destruct (Z.testbit f 3).
  - destruct (Z.ltb_spec (blen rest) 18); [by replace (18 <=? blen rest) with false by lia|]. replace (18 <=? blen rest) with true by lia.
    rewrite (mem_read_in rest 0 18) by lia. done.
  - destruct (Z.ltb_spec (blen rest) 6); [by replace (6 <=? blen rest) with false by lia|]. replace (6 <=? blen rest) with true by lia.
    rewrite (mem_read_in rest 0 6) by lia. done.
Qed.

Lemma session_in o ids i a : links o ids -> (i, a) ∈ sessions_of o ids <-> exists p c, conns o !! p = Some c /\ con_conid c = i /\ con_addr c = a.
Proof.
  intros L. unfold sessions_of. rewrite list_elem_of_fmap. split.
  - intros (p & [= -> ->] & Hp). apply (links_lookup _ _ _ L) in Hp as [c Hc]. exists p, c. unfold conid_of, conaddr_of. by rewrite Hc.
  - intros (p & c & Hc & <- & <-). exists p. split; [unfold conid_of, conaddr_of; by rewrite Hc|]. apply (links_lookup _ _ _ L). by eexists.
Qed.

Lemma conid_unique o ids p q c d : links o ids -> conns o !! p = Some c -> conns o !! q = Some d -> con_conid c = con_conid d -> p = q.
Proof.
  intros L Hc Hd E. destruct (ln_conid _ _ L) as [Hp _ [Hs _]]. destruct (decide (p = q)) as [|Hne]; [done|exfalso].
  assert (Hin : forall x, is_Some (conns o !! x) -> In x (inorder (tree_by_conid o)))
    by (intros x Hx; rewrite <- list_elem_of_In, Hp; by apply (links_lookup _ _ _ L)).
  pose proof (Hin p ltac:(by eexists)) as Hip. pose proof (Hin q ltac:(by eexists)) as Hiq. revert Hs Hip Hiq. generalize (inorder (tree_by_conid o)).
  intros xs Hs. induction Hs as [|x xs Hs IH Hf]; [done|]. rewrite List.Forall_forall in Hf. unfold BAVL.lt, uint16_comparator, conid_of in Hf.
  intros [->|Hip] [->|Hiq]; [done|..|by apply IH]; [specialize (Hf q Hiq)|specialize (Hf p Hip)];
    rewrite Hc, Hd, E, B_COMPARE_lt in Hf; lia.
Qed.

Lemma receive_ok o ids data : gw_inv o ids -> gw_allowed o (GReceive data) -> gw_ok o ids (GReceive data).
Proof.
  intros Hi (Hs & Hb & Hl). pose proof Hi as [L S Hcf Hid]. unfold gw_ok. cbn [gw_step]. rewrite recv_parse by done.
  assert (Hdrop : (forall i a pl, gw_parse data = Some (i, remote_addr a, pl) -> blen pl <= udp_mtu o -> (i, a) ∉ sessions_of o ids) ->
    exists o' outs ids', ('(o, r) ← Some (o, None); Some (o, match r with Some (l, rm, d) => [Delivered l rm d] | None => [] end)) = Some (o', outs)
      /\ gw_inv o' ids' /\ gw_spec (udp_mtu o) (max_connections o) (sessions_of o ids) (GReceive data) (sessions_of o' ids') outs
      /\ udp_mtu o' = udp_mtu o /\ max_connections o' = max_connections o).
  { intros Hd. exists o, [], ids. split_and!; try done. by apply spec_drop. }
  destruct (gw_parse data) as [[[i r] pl]|] eqn:Ep; [|by apply Hdrop].
  destruct (gw_parse_wf _ _ _ _ Hb Ep) as (Hri & Hrw & _). unfold gw_accept.
  destruct (Z.gtb_spec (blen pl) (udp_mtu o)) as [Hbig|Hfit]; [apply Hdrop; intros i' a' pl' [= _ _ <-]; lia|].
  destruct (by_conid_spec o ids i L) as (con & -> & Hcon). cbn [mbind option_bind].
  destruct con as [p|].
  2: { apply Hdrop. intros i' a' pl' [= <- _ _] _ (p & c & Hc & Ei & _)%(session_in _ _ _ _ L). by apply (Hcon p c). }
  destruct Hcon as (c & Hc & Ei). rewrite Hc. cbn [mbind option_bind].
  destruct (links_wf _ _ _ _ L Hc) as [_ Hwr]. destruct (Z.eqb_spec (BAddr_CompareOrder (remote_addr (con_addr c)) r) 0) as [E|E]; cbn [negb].
  2: { apply Hdrop. intros i' a pl' [= <- Er _] _ (q & d & Hd & Ei' & Ea)%(session_in _ _ _ _ L).
       assert (q = p) as -> by (eapply conid_unique; [exact L|exact Hd|exact Hc|congruence]). apply E. apply BAddr_CompareOrder_zero; [done|done|].
       assert (d = c) as -> by congruence. congruence. }
  apply BAddr_CompareOrder_zero in E; [|done|done]. subst r i.
  assert (Hp : p ∈ ids) by (apply (links_lookup _ _ _ L); by eexists). apply list_elem_of_split in Hp as (l & k & ->).
  destruct (links_touch o l p k L) as (lo & h & lo' & h' & E1 & E2 & L'). rewrite E1. cbn [mbind option_bind]. rewrite E2. cbn [mbind option_bind].
  eexists _, _, ((l ++ k) ++ [p]). split; [done|]. split_and!; try done.
  - split; [done| |by apply (gw_config_same o)|done]. eapply gw_side_perm; [exact S|apply Permutation_to_end|done..].
  - unfold sessions_of. rewrite !map_app. cbn [map set_list set_table conns]. rewrite (sessions_of_lookup o p c Hc). by apply spec_deliver.
Qed.

(** ** The other events *)

Lemma gw_side_change o o' ids xs l :
  gw_side o ids -> fq_inv (send_queue o') xs l -> l ≡ₚ keepalive_qflow :: ids -> freeing (send_queue o') = false ->
  fq_mtu (send_queue o') = fq_mtu (send_queue o) -> pp_mtu o' = pp_mtu o -> keepalive_sending o' = negb (state_is (keepalive_if o') STATE_NONE) ->
  busyb (send_queue o') keepalive_qflow = state_is (keepalive_if o') STATE_BUSY -> gw_side o' ids.
Proof. intros [_ _ S3 _ _] Hi Hl Hf Hm Hp Hs Hb. split; [by exists xs, l|done|congruence|done|done]. Qed.

Lemma existsb_done (eff : list fq_effect) f : existsb (fun x => match x with EDone g => g =? f | _ => false end) eff = true <-> EDone f ∈ eff.
Proof.
  rewrite existsb_exists. split.
  - intros (x & Hx & Ex). destruct x; try done. apply Z.eqb_eq in Ex as ->. by rewrite list_elem_of_In.
  - intros Hin. exists (EDone f). split; [by rewrite <- list_elem_of_In|apply Z.eqb_refl].
Qed.

Lemma queue_ok o ids e : gw_inv o ids -> gw_allowed o (GQueue e) -> gw_ok o ids (GQueue e).
Proof.
  intros Hi Ha. pose proof Hi as [L S Hcf Hid]. pose proof S as [(xs & l & Hq & Hl) S2 S3 S4 S5]. unfold gw_ok. cbn [gw_step].
  assert (Hal : allowed (send_queue o) e) by (destruct e; cbn [gw_allowed] in Ha; tauto).
  assert (Hkind : flows_after e l = l /\ match e with PrepareFree => true | _ => freeing (send_queue o) end = false) by (destruct e; cbn [gw_allowed] in Ha; tauto).
  destruct Hkind as [Hfa Hfr]. destruct (fq_step_ok _ xs l e Hq Hal) as (q & eff & xs' & E & Hq' & D). rewrite Hfa in Hq'. rewrite E. cbn [mbind option_bind].
  pose proof (did_params _ _ _ _ D) as [_ Hm]. pose proof (did_freeing _ _ _ _ D) as Hf. rewrite Hfr in Hf.
  pose proof (did_busy _ _ _ _ D keepalive_qflow) as Hb. pose proof (did_done _ _ _ _ D keepalive_qflow) as Hd.
  assert (Hquiet : forall o', conns o' = conns o -> gw_spec (udp_mtu o) (max_connections o) (sessions_of o ids) (GQueue e) (sessions_of o' ids) []).
  { intros o' Ec. rewrite (sessions_of_same o o') by (by rewrite Ec). by apply spec_quiet. }
  assert (Hlinks : forall q s b v, links (set_side o q s b v) ids) by (intros; destruct L as [L1 L2 L3 L4 L5 L6 L7]; by split).
  destruct (existsb _ eff) eqn:Ex.
  - apply existsb_done, Hd in Ex as [-> Es].
    assert (Hbk : busyb (send_queue o) keepalive_qflow = true)
      by (destruct (iv_send _ _ _ Hq _ Es) as (x & Exx & _); unfold busyb; rewrite Exx; apply (iv_busy _ _ _ Hq _ x S2 Exx); by right).
    rewrite Hbk in S5; rewrite <- S5; eexists _, _, ids; split; [done|]; split_and!; try done; [|by apply Hquiet].
    split; [apply Hlinks| |by apply (gw_config_same o)|done].
    eapply (gw_side_change o); [exact S|exact Hq'|done|done|done|done| |simpl; rewrite Hb; simpl; by rewrite Hbk, bool_decide_eq_true_2].
    simpl; rewrite S4; symmetry in S5; apply bool_decide_eq_true in S5; by rewrite S5.
  - eexists _, _, ids. split; [done|]. split_and!; try done; [|by apply Hquiet].
    split; [apply Hlinks| |by apply (gw_config_same o)|done].
    eapply (gw_side_change o); [exact S|exact Hq'|done|done|done|done|done|]. simpl. rewrite Hb, <- S5.
    destruct e; cbn [busy_after gw_allowed] in Ha |- *; try done.
    + destruct Ha as [Hne _]. destruct (Z.eqb_spec keepalive_qflow f); [congruence|done].
    + rewrite bool_decide_eq_false_2, andb_true_r; [done|]. intros Es. apply not_true_iff_false in Ex. apply Ex, existsb_done, Hd. done.
Qed.

Lemma keepalive_operation_ok o ids : gw_inv o ids -> gw_allowed o GKeepaliveOperation -> gw_ok o ids GKeepaliveOperation.
Proof.
  intros Hi Ha. cbn [gw_allowed] in Ha. pose proof Hi as [L S Hcf Hid]. pose proof S as [(xs & l & Hq & Hl) S2 S3 S4 S5].
  unfold gw_ok. cbn [gw_step]. rewrite Ha in *. cbn in S4, S5. change (state_is STATE_OPERATION_PENDING STATE_OPERATION_PENDING) with true. cbv iota.
  set (e := FlowSend keepalive_qflow keepalive_qflow (blen keepalive_packet)).
  assert (is_Some (flows (send_queue o) !! keepalive_qflow)) as [x Hx] by (apply (co_flows _ _ _ (iv_core _ _ _ Hq)); rewrite Hl; left).
  assert (Hal : allowed (send_queue o) e).
  { cbn [allowed e]. split; [done|]. split; [pose proof (cf_mtu _ Hcf); change (blen keepalive_packet) with 5; lia|].
    exists x. split; [done|]. unfold busyb in S5. by rewrite Hx in S5. }
  destruct (fq_step_ok _ xs l e Hq Hal) as (q & eff & xs' & E & Hq' & D). rewrite E. cbn [mbind option_bind].
  eexists _, _, ids. split; [done|]. split_and!; try done.
  - split; [destruct L as [L1 L2 L3 L4 L5 L6 L7]; by split| |by apply (gw_config_same o)|done].
    eapply (gw_side_change o); [exact S|exact Hq'|done|..]; simpl.
    + exact (eq_trans (did_freeing _ _ _ _ D) S2).
    + apply (did_params _ _ _ _ D).
    + done.
    + done.
    + exact (did_busy _ _ _ _ D keepalive_qflow).
  - exact (spec_quiet _ _ (sessions_of o ids) GKeepaliveOperation I).
Qed.

Lemma small_events_ok o ids e : gw_inv o ids -> gw_allowed o e ->
  match e with GConnect _ | GDisconnect | GServerError | GMonitor | GKeepaliveDone => True | _ => False end -> gw_ok o ids e.
Proof.
  intros Hi Ha He. pose proof Hi as [L S Hcf Hid]. pose proof S as [(xs & l & Hq & Hl) S2 S3 S4 S5].
  assert (Hset : forall st b v, b = negb (state_is st STATE_NONE) -> busyb (send_queue o) keepalive_qflow = state_is st STATE_BUSY ->
    gw_step o e = Some (set_side o (send_queue o) st b v, []) -> gw_ok o ids e).
  { intros st b v Hb Hbu E. exists (set_side o (send_queue o) st b v), [], ids. split; [done|]. split_and!; try done.
    - split; [destruct L as [L1 L2 L3 L4 L5 L6 L7]; by split| |by apply (gw_config_same o)|done].
      by eapply (gw_side_change o); [exact S|exact Hq|..].
    - apply (spec_quiet _ _ (sessions_of o ids)). by destruct e. }
  assert (Hsame : gw_step o e = Some (o, []) -> gw_ok o ids e).
  { intros E. exists o, [], ids. split_and!; try done. apply spec_quiet. by destruct e. }
  destruct e; try done; cbn [gw_allowed gw_step] in *.
  - unfold UdpGwClient_ConnectServer in *. rewrite Ha in *. destruct decoder; [eapply Hset; [exact S4|exact S5|done]|by apply Hsame].
  - unfold UdpGwClient_DisconnectServer in *. rewrite Ha in *. by eapply Hset; [exact S4|exact S5|].
  - unfold decoder_handler_error in *. rewrite Ha in *. by apply Hsame.
  - unfold send_monitor_handler in *. destruct (keepalive_sending o) eqn:Es; [by apply Hsame|].
    symmetry in S4. apply negb_false_iff in S4. pose proof S4 as S4'. apply bool_decide_eq_true in S4'. rewrite S4' in *.
    by eapply (Hset STATE_OPERATION_PENDING true).
  - unfold keepalive_if_handler_done in *. rewrite Ha in *. cbn in S4, S5. change (state_is STATE_DONE_PENDING STATE_DONE_PENDING) with true in *.
    cbn [set_side keepalive_sending] in *. rewrite S4 in *. by eapply (Hset STATE_NONE false).
Qed.

Lemma gw_step_ok o ids e : gw_inv o ids -> gw_allowed o e -> gw_ok o ids e.
Proof.
  intros Hi Ha. destruct e; eauto using submit_ok, receive_ok, queue_ok, keepalive_operation_ok; by apply small_events_ok.
Qed.

(** * Runs *)

Inductive gw_runs : UdpGwClient -> list gw_event -> UdpGwClient -> list gw_output -> Prop :=
| gw_runs_nil o : gw_runs o [] o []
| gw_runs_cons o e o1 out es o' outs :
    gw_allowed o e -> gw_step o e = Some (o1, out) -> gw_runs o1 es o' outs -> gw_runs o (e :: es) o' (out ++ outs).

Inductive spec_runs (mtu max : Z) : gw_sessions -> list gw_event -> gw_sessions -> list gw_output -> Prop :=
| spec_runs_nil l : spec_runs mtu max l [] l []
| spec_runs_cons l e l1 out es l' outs :
    gw_spec mtu max l e l1 out -> spec_runs mtu max l1 es l' outs -> spec_runs mtu max l (e :: es) l' (out ++ outs).

(** The connections of a client in the order of its list, read from its links. *)
Fixpoint walk (fuel : nat) (h : store) (p : option ptr) : list ptr :=
  match fuel, p with
  | S fuel, Some p => p :: walk fuel h (match h !! p with Some x => l1_n x | None => None end)
  | _, _ => []
  end.
Definition connection_list (o : UdpGwClient) : list ptr := walk (size (list_nodes o)) (list_nodes o) (LinkedList1_GetFirst (connections_list o)).

Lemma walk_seg h l : forall fuel p, seg1 h p l None -> (length l <= fuel)%nat -> walk fuel h (hd_or l None) = l.
Proof.
  induction l as [|x l IH]; intros fuel p Hs Hf; simpl; [by destruct fuel|]. destruct Hs as [Hx Hs]. simpl in Hf.
  destruct fuel as [|fuel]; [lia|]. simpl. rewrite Hx. simpl. f_equal. apply (IH fuel (Some x)); [done|lia].
Qed.

Lemma connection_list_spec o ids : links o ids -> connection_list o = ids.
Proof.
  intros L. unfold connection_list, LinkedList1_GetFirst. rewrite (rep_first _ _ _ (ln_rep _ _ L)).
  apply (walk_seg _ _ _ None); [apply (rep_seg _ _ _ (ln_rep _ _ L))|]. rewrite <- size_dom, (ln_nodes _ _ L).
  rewrite size_list_to_set; [done|]. apply (rep_nodup _ _ _ (ln_rep _ _ L)).
Qed.

Definition sessions (o : UdpGwClient) : gw_sessions := sessions_of o (connection_list o).

Definition gw_initial (o : UdpGwClient) : Prop := exists mtu max size, 0 <= mtu <= INT_MAX - 22 /\ UdpGwClient_Init mtu max size = Some (Some o).
Definition gw_reachable (o : UdpGwClient) : Prop := exists o0 es outs, gw_initial o0 /\ gw_runs o0 es o outs.

Lemma gw_initial_inv o : gw_initial o -> gw_inv o [] /\ have_server o = false.
Proof.
  intros (mtu & max & size & Hm & E). unfold UdpGwClient_Init in E. destruct (mtu >=? 0); [|done]. destruct (udpgw_compute_mtu mtu >=? 0); [|done].
  destruct (udpgw_compute_mtu mtu <=? PACKETPROTO_MAXPAYLOAD) eqn:E2; [|done]. destruct (max >? 0) eqn:E3; [|done]. destruct (size >? 0); [|done].
  rewrite udpgw_compute_mtu_value in * by lia. unfold PACKETPROTO_MAXPAYLOAD, UINT16_MAX, sizeof_packetproto_header, INT_MAX in *. zbool.
  destruct (PacketPassFairQueue_Init (T := CAvl) (mtu + 22 + 2) 1 false false) as [[q|]|] eqn:Eq; [|done..]. cbn [mbind option_bind] in E.
  assert (Hq : fq_inv q [] []).
  { apply initial_inv. exists (mtu + 22 + 2), 1, false, false. unfold INT_MAX. split_and!; [lia..|done]. }
  assert (Hfq : freeing q = false /\ fq_mtu q = mtu + 24 /\ busyb q keepalive_qflow = false).
  { unfold PacketPassFairQueue_Init in Eq. cbn [negb orb] in Eq. change (1 >? 0) with true in Eq. cbv iota in Eq.
    destruct (negb _) in Eq; [done|]. injection Eq as <-. simpl. split_and!; [done|lia|done]. }
  destruct Hfq as (Hf & Hmq & Hb).
  destruct (queue_init q [] [] keepalive_qflow Hq Hf) as (q' & xs' & Eq' & Hq' & Hf' & Hm' & Hb'); [apply not_elem_of_nil|].
  rewrite Eq' in E. cbn [mbind option_bind] in E. injection E as <-. split; [|done].
  split; simpl.
  - split; simpl; try done; [split; [done|done|constructor|done]|apply index_empty..].
  - split; simpl; try done; [by exists xs', [keepalive_qflow]|by rewrite Hm', Hmq; lia|by rewrite Hb'].
  - split; simpl; change (65535 + 1) with 65536 in *; [destruct (Z.gtb_spec max 65536); lia..|lia].
  - intros p c. simpl. by rewrite lookup_empty.
Qed.

Lemma gw_runs_inv o es o' outs ids : gw_runs o es o' outs -> gw_inv o ids ->
  exists ids', gw_inv o' ids' /\ spec_runs (udp_mtu o) (max_connections o) (sessions_of o ids) es (sessions_of o' ids') outs
    /\ udp_mtu o' = udp_mtu o /\ max_connections o' = max_connections o.
Proof.
  intros Hr. revert ids. induction Hr as [o|o e o1 out es o' outs Ha E _ IH]; intros ids Hi; [exists ids; split_and!; try done; constructor|].
  destruct (gw_step_ok o ids e Hi Ha) as (o2 & out2 & ids2 & E2 & Hi2 & Hs2 & Hm2 & Hx2). rewrite E in E2. injection E2 as <- <-.
  destruct (IH ids2 Hi2) as (ids' & Hi' & Hs' & Hm' & Hx'). rewrite Hm2, Hx2 in *. exists ids'. split_and!; [done| |congruence..].
  by econstructor.
Qed.

Lemma gw_reachable_inv o : gw_reachable o -> exists ids, gw_inv o ids.
Proof. intros (o0 & es & outs & [Hi _]%gw_initial_inv & Hr). destruct (gw_runs_inv _ _ _ _ _ Hr Hi) as (ids & ? & _). by exists ids. Qed.

Lemma gw_inv_sessions o ids : gw_inv o ids -> sessions o = sessions_of o ids.
Proof. intros [L _ _ _]. unfold sessions. by rewrite (connection_list_spec _ _ L). Qed.

(** C8. The gateway client implements a list of connections, least recently used
    first: known addresses keep their conid, a new pair of addresses gets an
    unused conid or, when there is none, that of the least recently used
    connection, with the REBIND flag; a packet of the server is delivered only
    with the conid and the remote address of a connection, to its local address.
    After every sequence of datagrams, server packets, connects, keep-alives and
    queue events, every event that can happen next is handled: no ASSERT fails, no
    search loops forever and no buffer is exceeded. *)
Theorem UdpGwClient_refines_sessions o0 es o outs :
  gw_initial o0 -> gw_runs o0 es o outs ->
  spec_runs (udp_mtu o0) (max_connections o0) [] es (sessions o) outs
  /\ forall e, gw_allowed o e -> exists o' out, gw_step o e = Some (o', out)
       /\ gw_spec (udp_mtu o) (max_connections o) (sessions o) e (sessions o') out.
Proof.
  intros [Hi _]%gw_initial_inv Hr. destruct (gw_runs_inv _ _ _ _ _ Hr Hi) as (ids & Hi' & Hs & Hm & Hx).
  rewrite (gw_inv_sessions _ _ Hi'). split; [exact Hs|]. intros e Ha.
  destruct (gw_step_ok o ids e Hi' Ha) as (o2 & out2 & ids2 & E2 & Hi2 & Hs2 & _). exists o2, out2. split; [done|].
  by rewrite (gw_inv_sessions _ _ Hi2).
Qed.

(** C24. In every state the conids of the connections are different numbers below
    max_connections, their address pairs are different, and there are at most
    max_connections of them. *)
Theorem UdpGwClient_conids_unique o :
  gw_reachable o ->
  NoDup (sessions o).*1 /\ NoDup (sessions o).*2 /\ Forall (fun i => 0 <= i < max_connections o) (sessions o).*1
  /\ Z.of_nat (length (sessions o)) = num_connections o /\ num_connections o <= max_connections o <= 65536.
Proof.
  intros (ids & Hi)%gw_reachable_inv. rewrite (gw_inv_sessions _ _ Hi). destruct Hi as [L _ Hcf _].
  pose proof (rep_nodup _ _ _ (ln_rep _ _ L)) as Hnd. pose proof (links_lookup o ids) as Hlk.
  assert (Hdup : forall {B} (f : ptr -> B), (forall p q, p ∈ ids -> q ∈ ids -> f p = f q -> p = q) -> NoDup (f <$> ids)).
  { intros B f Hf. apply NoDup_fmap_2_strong; [|done]. intros p q. apply Hf. }
  unfold sessions_of. split_and!.
  - change (NoDup (fst <$> ((fun p => (conid_of (conns o) p, conaddr_of (conns o) p)) <$> ids))). rewrite <- list_fmap_compose. apply Hdup.
    intros p q [c Hc]%(Hlk _ L) [d Hd]%(Hlk _ L). simpl. unfold conid_of. rewrite Hc, Hd. by eapply conid_unique.
  - change (NoDup (snd <$> ((fun p => (conid_of (conns o) p, conaddr_of (conns o) p)) <$> ids))). rewrite <- list_fmap_compose. apply Hdup.
    intros p q [c Hc]%(Hlk _ L) [d Hd]%(Hlk _ L). simpl. unfold conaddr_of. rewrite Hc, Hd. by eapply conaddr_unique.
  - rewrite Forall_forall. intros i Hi. apply list_elem_of_fmap in Hi as ([j b] & -> & Hb). apply list_elem_of_fmap in Hb as (p & [= -> ->] & Hp).
    apply (Hlk _ L) in Hp as [c Hc]. simpl. unfold conid_of. rewrite Hc. by eapply ln_range.
  - rewrite length_map. by rewrite (ln_num _ _ L).
  - apply (cf_num _ Hcf).
  - apply (cf_max _ Hcf).
Qed.

(** ** Replies *)


Lemma is_bytes_mem16 x : is_bytes (mem16 x).
Proof. unfold mem16. all_bytes. Qed.
Lemma is_bytes_mem32 x : is_bytes (mem32 x).
Proof. unfold mem32. all_bytes. Qed.

Lemma gw_packet_bytes flags i r data :
  0 <= flags < 8 -> BAddr_wf r -> is_bytes data -> is_bytes (gw_packet flags i r data).
Proof.
  intros Hf Hr Hd. unfold gw_packet. apply is_bytes_cons. split.
  { assert (flags = 0 \/ flags = 1 \/ flags = 2 \/ flags = 3 \/ flags = 4 \/ flags = 5 \/ flags = 6 \/ flags = 7) as Hcase by lia.
    unfold is_byte. destruct (BAddr_type r =? BADDR_TYPE_IPV6); [|lia].
    destruct Hcase as [->|[->|[->|[->|[->|[->|[->| ->]]]]]]]; vm_compute; split; congruence. }
  apply is_bytes_app. split; [apply is_bytes_mem16|]. apply is_bytes_app. split; [|done].
  destruct r as [|ip port|ip port|]; cbn [udpgw_addr_mem].
  - apply Forall_nil_2.
  - apply is_bytes_app. split; [apply is_bytes_mem32|apply is_bytes_mem16].
  - destruct Hr as (_ & ? & _). apply is_bytes_app. split; [done|apply is_bytes_mem16].
  - apply Forall_nil_2.
Qed.

Lemma gw_packet_length flags i r data : BAddr_wf r -> is_ip r = true -> blen (gw_packet flags i r data) <= 21 + blen data.
Proof.
  intros Hr Hi. unfold gw_packet. rewrite blen_cons, !blen_app, blen_addr by done. change (blen (mem16 (u16 i))) with 2.
  destruct (BAddr_type r =? BADDR_TYPE_IPV4); lia.
Qed.

Lemma delivers o ids i a data flags :
  gw_inv o ids -> have_server o = true -> (i, a) ∈ sessions_of o ids -> is_bytes data -> blen data <= udp_mtu o -> 0 <= flags < 8 ->
  exists o', gw_step o (GReceive (gw_packet flags i (remote_addr a) data)) = Some (o', [Delivered (local_addr a) (remote_addr a) data]).
Proof.
  intros Hi Hs Hin Hb Hl Hf. pose proof Hi as [L _ Hcf Hid]. apply (session_in _ _ _ _ L) in Hin as (p & c & Hc & <- & <-).
  destruct (links_wf _ _ _ _ L Hc) as [Hwl Hwr]. destruct (Hid p c Hc) as [_ Hip]. pose proof (ln_range _ _ L p c Hc) as Hr. pose proof (cf_max _ Hcf) as Hm.
  cbn [gw_step]. rewrite recv_parse; [|done|by apply gw_packet_bytes|].
  2: { pose proof (gw_packet_length flags (con_conid c) (remote_addr (con_addr c)) data Hwr Hip). pose proof (cf_mtu _ Hcf). lia. }
  rewrite gw_parse_packet; [|done|done|lia|].
  2: { apply Z.bits_above_log2; [lia|]. destruct (Z.eq_dec flags 0) as [->|]; [done|]. apply Z.log2_lt_pow2; lia. }
  unfold gw_accept. destruct (Z.gtb_spec (blen data) (udp_mtu o)); [lia|].
  destruct (by_conid_spec o ids (con_conid c) L) as (con & -> & Hcon). cbn [mbind option_bind].
  destruct con as [q|]; [|by destruct (Hcon p c)]. destruct Hcon as (d & Hd & Ed).
  assert (q = p) as -> by (eapply conid_unique; [exact L|exact Hd|exact Hc|done]). rewrite Hc. cbn [mbind option_bind].
  rewrite (proj2 (BAddr_CompareOrder_zero _ _ Hwr Hwr) eq_refl). cbn [negb Z.eqb].
  assert (Hp : p ∈ ids) by (apply (links_lookup _ _ _ L); by eexists). apply list_elem_of_split in Hp as (l & k & ->).
  destruct (links_touch o l p k L) as (lo & h & lo' & h' & E1 & E2 & L'). rewrite E1. cbn [mbind option_bind]. rewrite E2. cbn [mbind option_bind].
  by eexists.
Qed.

(** C23. A packet that was sent carries a conid; in every later state in which that
    conid still belongs to the same addresses, a reply from the remote address with
    this conid is delivered to the local address that sent the packet. *)
Theorem UdpGwClient_reply o s o1 pk :
  gw_reachable o -> gw_allowed o (GSubmit s) -> gw_step o (GSubmit s) = Some (o1, [Sent pk]) ->
  exists flags i, pk = gw_packet flags i (s_remote s) (s_data s) /\ (i, addr_of s) ∈ sessions o1
    /\ forall o2 data reply_flags, gw_reachable o2 -> have_server o2 = true -> (i, addr_of s) ∈ sessions o2 -> is_bytes data ->
         blen data <= udp_mtu o2 -> 0 <= reply_flags < 8 ->
         exists o3, gw_step o2 (GReceive (gw_packet reply_flags i (s_remote s) data)) = Some (o3, [Delivered (s_local s) (s_remote s) data]).
Proof.
  intros (ids & Hi)%gw_reachable_inv Ha E. destruct (gw_step_ok o ids _ Hi Ha) as (o' & outs & ids1 & E' & Hi1 & Hs & _).
  rewrite E in E'. injection E' as <- <-.
  assert (exists flags i, pk = gw_packet flags i (s_remote s) (s_data s) /\ (i, addr_of s) ∈ sessions_of o1 ids1) as (flags & i & Epk & Hin).
  { remember (sessions_of o1 ids1) as l1. remember [Sent pk] as outs. remember (GSubmit s) as e.
    destruct Hs; try done; injection Heqe as ->; unfold spec_send in Heqouts; (destruct (s_out s); [|done]); injection Heqouts as <-;
      do 2 eexists; (split; [done|]); apply elem_of_app; right; left. }
  exists flags, i. split; [done|]. split; [by rewrite (gw_inv_sessions _ _ Hi1)|].
  intros o2 data rf (ids2 & Hi2)%gw_reachable_inv Hsv Hin2 Hb Hl Hrf. rewrite (gw_inv_sessions _ _ Hi2) in Hin2.
  exact (delivers o2 ids2 i (addr_of s) data rf Hi2 Hsv Hin2 Hb Hl Hrf).
Qed.

(** ** The end *)

Lemma connection_free_freeing o p k xs l :
  links o (p :: k) -> fq_inv (send_queue o) xs l -> l ≡ₚ keepalive_qflow :: p :: k -> freeing (send_queue o) = true ->
  exists o' xs' l', connection_free o p = Some o' /\ links o' k /\ fq_inv (send_queue o') xs' l' /\ l' ≡ₚ keepalive_qflow :: k
    /\ freeing (send_queue o') = true.
Proof.
  intros L Hq Hl Hf. destruct (links_remove o [] p k L) as (lo & h & t2' & up2 & t2 & t1' & up1 & t1 & E1 & E2 & E3 & E4 & E5 & L').
  assert (Hp : p ∈ l) by (rewrite Hl; set_solver).
  destruct (queue_free _ xs l p Hq Hp (or_introl Hf)) as (q & xs' & Eq & Hq' & Hf' & _).
  unfold connection_free. rewrite Hf, E1. cbn [orb mbind option_bind]. rewrite E2. cbn [mbind option_bind]. rewrite E3. cbn [mbind option_bind].
  rewrite E4. cbn [mbind option_bind]. rewrite E5. cbn [mbind option_bind]. rewrite Eq. cbn [mbind option_bind].
  do 3 eexists. split; [done|]. split; [destruct L' as [L1 L2 L3 L4 L5 L6 L7]; by split|]. split; [exact Hq'|]. split; [|simpl; congruence].
  pose proof (rep_nodup _ _ _ (co_list _ _ _ (iv_core _ _ _ Hq))) as Hnd.
  apply list_elem_of_split in Hp as (l1 & l2 & ->). apply NoDup_middle in Hnd as (Hn & _). rewrite LinkedList1.remove_one_app by done.
  apply (Permutation_cons_inv (a := p)). rewrite Permutation_middle, Hl. apply perm_swap.
Qed.

Lemma free_connections_spec ids : forall fuel o xs l,
  links o ids -> fq_inv (send_queue o) xs l -> l ≡ₚ keepalive_qflow :: ids -> freeing (send_queue o) = true -> (length ids <= fuel)%nat ->
  exists o' xs' l', free_connections fuel o = Some o' /\ links o' [] /\ fq_inv (send_queue o') xs' l' /\ l' ≡ₚ [keepalive_qflow]
    /\ freeing (send_queue o') = true.
Proof.
  induction ids as [|p k IH]; intros fuel o xs l L Hq Hl Hf Hfu.
  - assert (LinkedList1_IsEmpty (connections_list o) = true) as Ee
      by (unfold LinkedList1_IsEmpty; by rewrite (rep_first _ _ _ (ln_rep _ _ L))).
    exists o, xs, l. split_and!; try done. destruct fuel; cbn [free_connections]; by rewrite Ee.
  - destruct (connection_free_freeing o p k xs l L Hq Hl Hf) as (o1 & xs1 & l1 & E & L1 & Hq1 & Hl1 & Hf1).
    simpl in Hfu. destruct fuel as [|fuel]; [lia|]. cbn [free_connections]. unfold LinkedList1_IsEmpty, LinkedList1_GetFirst.
    rewrite (rep_first _ _ _ (ln_rep _ _ L)). cbn [hd_or]. rewrite bool_decide_eq_false_2 by done. cbn [mbind option_bind]. rewrite E. cbn [mbind option_bind].
    eapply IH; [exact L1|exact Hq1|done|done|lia].
Qed.

(** C25. UdpGwClient_Free ends in every state the client can be in, also while a packet
    is being sent: every connection is freed, the queue has no flow, no packet and
    nothing to send when it is freed, and no ASSERT fails. *)
Theorem UdpGwClient_Free_empties o :
  gw_reachable o -> exists o', UdpGwClient_Free o = Some o' /\ conns o' = ∅ /\ sessions o' = [] /\ flows (send_queue o') = ∅.
Proof.
  intros (ids & [L S Hcf Hid])%gw_reachable_inv. pose proof S as [(xs & l & Hq & Hl) _ _ _ _]. unfold UdpGwClient_Free.
  destruct (fq_step_ok _ xs l PrepareFree Hq I) as (q & eff & xs1 & E & Hq1 & D). unfold fq_step in E. injection E as <- <-. cbn [flows_after] in Hq1.
  set (o1 := set_send_queue o (PacketPassFairQueue_PrepareFree (send_queue o))).
  assert (L1 : links o1 ids) by (destruct L as [L1 L2 L3 L4 L5 L6 L7]; by split).
  assert (Hlen : (length ids <= size (conns o1))%nat).
  { rewrite <- size_dom, (ln_dom _ _ L1), size_list_to_set; [done|]. apply (rep_nodup _ _ _ (ln_rep _ _ L1)). }
  destruct (free_connections_spec ids _ o1 xs1 l L1 Hq1 Hl eq_refl Hlen) as (o2 & xs2 & l2 & -> & L2 & Hq2 & Hl2 & Hf2). cbn [mbind option_bind].
  apply Permutation_singleton_r in Hl2 as ->. cbn [set_side send_queue].
  destruct (queue_free _ xs2 _ keepalive_qflow Hq2 ltac:(left) (or_introl Hf2)) as (q3 & xs3 & -> & Hq3 & Hf3 & _). cbn [mbind option_bind].
  cbn [LinkedList1.remove_one] in Hq3. rewrite Z.eqb_refl in Hq3.
  assert (Hnone : forall f, flows q3 !! f = None).
  { intros f. destruct (flows q3 !! f) eqn:Ef; [|done]. destruct (not_elem_of_nil f). apply (co_flows _ _ _ (iv_core _ _ _ Hq3)). by eexists. }
  assert (Hfree : PacketPassFairQueue_Free q3 = Some ()) by (eapply free_empty_ok; [exact Hq3|]; apply map_eq; intros f; by rewrite Hnone).
  rewrite Hfree. cbn [mbind option_bind]. eexists. split; [done|]. split_and!.
  - simpl. apply dom_empty_iff_L. by rewrite (ln_dom _ _ L2).
  - unfold sessions. match goal with |- sessions_of ?x _ = _ => change (connection_list x) with (connection_list o2) end.
    by rewrite (connection_list_spec _ _ L2).
  - simpl. apply map_eq. intros f. by rewrite Hnone.
Qed.

(** * A concrete client *)

Definition gw_allowedb (o : UdpGwClient) (e : gw_event) : bool :=
  match e with
  | GSubmit s =>
      bool_decide (BAddr_wf (s_local s)) && bool_decide (BAddr_wf (s_remote s)) && is_ip (s_local s) && is_ip (s_remote s)
      && (blen (s_data s) <=? udp_mtu o)
      && match s_out s with Some b => blen b =? udpgw_mtu o | None => true end
      && match ans_malloc (s_answers s) with Some p => negb (nonnull (conns o !! p)) && negb (p =? keepalive_qflow) | None => true end
  | GReceive data => have_server o && bool_decide (is_bytes data) && (blen data <=? udpgw_mtu o)
  | GConnect _ => negb (have_server o)
  | GMonitor => true
  | GKeepaliveOperation => state_is (keepalive_if o) STATE_OPERATION_PENDING
  | GQueue OutputDone => allowedb (send_queue o) OutputDone
  | _ => false
  end.

Lemma gw_allowedb_allowed o e : gw_allowedb o e = true -> gw_allowed o e.
Proof.
  destruct e; try done; cbn [gw_allowedb gw_allowed].
  - rewrite !andb_true_iff, !bool_decide_eq_true. intros ((((((H1 & H2) & H3) & H4) & H5) & H6) & H7). split_and!; try done; [lia|..].
    + intros b Eb. rewrite Eb in H6. lia.
    + intros p Ep. rewrite Ep in H7. apply andb_true_iff in H7 as [H7 H8]. split; [by destruct (conns o !! p)|].
      destruct (Z.eqb_spec p keepalive_qflow); [done|lia].
  - rewrite !andb_true_iff, bool_decide_eq_true. intros [[? ?] ?]. split_and!; [done|done|lia].
  - by rewrite negb_true_iff.
  - unfold state_is. by rewrite bool_decide_eq_true.
  - destruct e; try done. apply allowedb_allowed.
Qed.

Fixpoint gw_exec (o : UdpGwClient) (es : list gw_event) : option (UdpGwClient * list gw_output) :=
  match es with
  | [] => Some (o, [])
  | e :: es => ASSERT gw_allowedb o e; '(o, out) ← gw_step o e; '(o, outs) ← gw_exec o es; Some (o, out ++ outs)
  end.

Lemma gw_exec_runs es : forall o o' outs, gw_exec o es = Some (o', outs) -> gw_runs o es o' outs.
Proof.
  induction es as [|e es IH]; intros o o' outs E; simpl in E; [injection E as <- <-; constructor|].
  destruct (gw_allowedb o e) eqn:Ea; [|done]. destruct (gw_step o e) as [[o1 out]|] eqn:E1; [|done]. cbn [mbind option_bind] in E.
  destruct (gw_exec o1 es) as [[o2 outs2]|] eqn:E2; [|done]. injection E as <- <-. econstructor; [by apply gw_allowedb_allowed|done|by apply IH].
Qed.

Definition ex_local (n : Z) : BAddr := BAddr_ipv4 n 1000.
Definition ex_server : BAddr := BAddr_ipv4 134744072 53.
Definition ex_submit (n : Z) (p : ptr) (data : bytes) : gw_event :=
  GSubmit {| s_local := ex_local n; s_remote := ex_server; s_is_dns := false; s_data := data;
             s_answers := {| ans_malloc := Some p; ans_ppflow := true |}; s_out := Some (repeat 0 122) |}.
Definition ex_dead : UdpGwClient :=
  {| udp_mtu := 0; max_connections := 0; udpgw_mtu := 0; pp_mtu := 0; tree_by_conaddr := Null; tree_by_conid := Null; connections_list := LinkedList1_Init;
     list_nodes := ∅; num_connections := 0; next_conid := 0; conns := ∅; send_queue := ex_init; keepalive_if := STATE_NONE; keepalive_sending := false;
     have_server := false |}.
(** At most two connections. *)
Definition ex_gw : UdpGwClient := match UdpGwClient_Init 100 2 8 with Some (Some o) => o | _ => ex_dead end.
Definition ex_gw_run (o : UdpGwClient) (es : list gw_event) : UdpGwClient * list gw_output := default (ex_dead, []) (gw_exec o es).

Lemma ex_gw_initial : gw_initial ex_gw.
Proof. exists 100, 2, 8. split; [done|]. vm_compute. reflexivity. Qed.

(** Three local addresses: the third one takes the conid of the first. *)
Definition ex_gw_events : list gw_event :=
  [GConnect true; ex_submit 1 1000 [7]; ex_submit 2 2000 [8; 9]; GMonitor; GKeepaliveOperation; ex_submit 3 3000 [];
   GReceive (gw_packet 0 1 ex_server [5])].

Lemma ex_gw_runs : gw_runs ex_gw ex_gw_events (ex_gw_run ex_gw ex_gw_events).1 (ex_gw_run ex_gw ex_gw_events).2.
Proof.
  apply gw_exec_runs. unfold ex_gw_run. assert (is_Some (gw_exec ex_gw ex_gw_events)) as [[o outs] ->] by (vm_compute; by eexists). done.
Qed.

Lemma ex_gw_reachable : gw_reachable (ex_gw_run ex_gw ex_gw_events).1.
Proof. exists ex_gw, ex_gw_events, (ex_gw_run ex_gw ex_gw_events).2. split; [apply ex_gw_initial|apply ex_gw_runs]. Qed.

Lemma UdpGwClient_refines_sessions_witness :
  spec_runs 100 2 [] ex_gw_events
    [(0, {| local_addr := ex_local 3; remote_addr := ex_server |}); (1, {| local_addr := ex_local 2; remote_addr := ex_server |})]
    [Sent (gw_packet 2 0 ex_server [7]); Sent (gw_packet 2 1 ex_server [8; 9]); Sent (gw_packet 2 0 ex_server []);
     Delivered (ex_local 2) ex_server [5]].
Proof.
  exact (proj1 (UdpGwClient_refines_sessions ex_gw ex_gw_events (ex_gw_run ex_gw ex_gw_events).1 (ex_gw_run ex_gw ex_gw_events).2
                  ex_gw_initial ex_gw_runs)).
Defined.

Lemma UdpGwClient_conids_unique_witness :
  NoDup [0; 1] /\ Z.of_nat 2 = num_connections (ex_gw_run ex_gw ex_gw_events).1.
Proof.
  destruct (UdpGwClient_conids_unique (ex_gw_run ex_gw ex_gw_events).1 ex_gw_reachable) as (H1 & _ & _ & H2 & _). split; [exact H1|exact H2].
Defined.

(** The second local address sends again, then the third one does; the reply of the
    server to the former comes after that. *)
Definition ex_again : submission :=
  {| s_local := ex_local 2; s_remote := ex_server; s_is_dns := false; s_data := [1; 2; 3];
     s_answers := {| ans_malloc := Some 4000; ans_ppflow := true |}; s_out := Some (repeat 0 122) |}.
Definition ex_sent : UdpGwClient := (ex_gw_run (ex_gw_run ex_gw ex_gw_events).1 [GSubmit ex_again]).1.
Definition ex_later : UdpGwClient := (ex_gw_run ex_gw (ex_gw_events ++ [GSubmit ex_again; ex_submit 3 5000 [4]])).1.

Lemma ex_later_reachable : gw_reachable ex_later.
Proof.
  exists ex_gw, (ex_gw_events ++ [GSubmit ex_again; ex_submit 3 5000 [4]]), (ex_gw_run ex_gw (ex_gw_events ++ [GSubmit ex_again; ex_submit 3 5000 [4]])).2.
  split; [apply ex_gw_initial|]. apply gw_exec_runs. unfold ex_later, ex_gw_run.
  assert (is_Some (gw_exec ex_gw (ex_gw_events ++ [GSubmit ex_again; ex_submit 3 5000 [4]]))) as [[o outs] ->] by (vm_compute; by eexists). done.
Qed.

Lemma UdpGwClient_reply_witness :
  gw_step (ex_gw_run ex_gw ex_gw_events).1 (GSubmit ex_again) = Some (ex_sent, [Sent (gw_packet 0 1 ex_server [1; 2; 3])])
  /\ have_server ex_later = true
  /\ exists o3, gw_step ex_later (GReceive (gw_packet 0 1 ex_server [9; 9])) = Some (o3, [Delivered (ex_local 2) ex_server [9; 9]]).
Proof.
  assert (Hstep : gw_step (ex_gw_run ex_gw ex_gw_events).1 (GSubmit ex_again) = Some (ex_sent, [Sent (gw_packet 0 1 ex_server [1; 2; 3])]))
    by (vm_compute; reflexivity).
  assert (Hserver : have_server ex_later = true) by (vm_compute; reflexivity).
  split; [exact Hstep|]. split; [exact Hserver|].
  destruct (UdpGwClient_reply (ex_gw_run ex_gw ex_gw_events).1 ex_again ex_sent (gw_packet 0 1 ex_server [1; 2; 3]) ex_gw_reachable)
    as (flags & i & _ & Hin & Hreply); [apply gw_allowedb_allowed; vm_compute; reflexivity|exact Hstep|].
  assert (i = 1) as ->.
  { assert (Hs : sessions ex_sent = [(0, addr_of {| s_local := ex_local 3; s_remote := ex_server; s_is_dns := false; s_data := [];
      s_answers := s_answers ex_again; s_out := None |}); (1, addr_of ex_again)]) by (vm_compute; reflexivity).
    rewrite Hs in Hin. apply elem_of_cons in Hin as [[=]|Hin]. apply list_elem_of_singleton in Hin. by injection Hin. }
  apply (Hreply ex_later [9; 9] 0); [exact ex_later_reachable|exact Hserver| |apply (bool_decide_unpack _); vm_compute; exact I|vm_compute; discriminate|lia].
  assert (Hl : exists l, sessions ex_later = (1, addr_of ex_again) :: l) by (eexists; vm_compute; reflexivity).
  destruct Hl as [l ->]. left.
Defined.

Lemma UdpGwClient_Free_empties_witness :
  exists o', UdpGwClient_Free (ex_gw_run ex_gw ex_gw_events).1 = Some o' /\ conns o' = ∅ /\ sessions o' = [] /\ flows (send_queue o') = ∅.
Proof. exact (UdpGwClient_Free_empties (ex_gw_run ex_gw ex_gw_events).1 ex_gw_reachable). Defined.
