(* ===== verification/RedBase64.v ===== *)
(** Base 64 of redsocks: redsocks/base64.c, and basic_authentication_encode of
    redsocks/http-auth.c, which sends "user:password" with it to an HTTP proxy.

    The loops are translated with the width of their variables: i_bits is an
    unsigned int and v an int, both of 32 bits.  Every store to the output is
    checked against the size of the buffer. *)

From S2P Require Import Prelude ByteOrder ParseNumber CString.
From Stdlib Require Import Ascii String.
#[local] Abbreviation length := Datatypes.length.
#[local] Abbreviation concat := List.concat.
Open Scope Z_scope.

Definition map2 : bytes :=
  [62; 255; 255; 255; 63; 52; 53; 54; 55; 56; 57; 58; 59; 60; 61; 255;
   255; 255; 255; 255; 255; 255; 0; 1; 2; 3; 4; 5; 6; 7; 8; 9;
   10; 11; 12; 13; 14; 15; 16; 17; 18; 19; 20; 21; 22; 23; 24; 25;
   255; 255; 255; 255; 255; 255; 26; 27; 28; 29; 30; 31; 32; 33; 34; 35;
   36; 37; 38; 39; 40; 41; 42; 43; 44; 45; 46; 47; 48; 49; 50; 51].

Definition b64 : bytes := cstr "ABCDEFGHIJKLMNOPQRSTUVWXYZabcdefghijklmnopqrstuvwxyz0123456789+/".

Definition UINT_MAX : Z := 4294967295.
Definition BASE64_SIZE (x : Z) : Z := (x + 2) / 3 * 4 + 1.

(** * base64_decode *)

(** [None] is the result -1; [dst] is what was written to the output.  The number
    of characters read is [i], and [v] wraps where the shift of the int would
    overflow. *)
Fixpoint decode_loop (input : bytes) (i v : Z) (dst : bytes) (out_size : Z) : option bytes :=
  match input with
  | [] => Some dst
  | c :: input =>
      if c =? CHR "=" then Some dst else
      let index := u32 (c - 43) in
      if index >=? blen map2 then None else
      if nth (Z.to_nat index) map2 0 =? 255 then None else
      let v := s32 (Z.shiftl v 6 + nth (Z.to_nat index) map2 0) in
      let dst := if negb (Z.land i 3 =? 0) then
                   if blen dst <? out_size then dst ++ [u8 (Z.shiftr v (6 - 2 * Z.land i 3))] else dst
                 else dst in
      decode_loop input (i + 1) v dst out_size
  end.

Definition base64_decode (input : bytes) (out_size : Z) : option bytes := decode_loop input 0 0 [] out_size.

(** * base64_encode *)

(** *dst++ = c, in a buffer of [out_size] bytes. *)
Definition put (out_size : Z) (dst : bytes) (c : Z) : option bytes := ASSERT blen dst <? out_size; Some (dst ++ [c]).

(** The inner loop; it stores at least one character. *)
Fixpoint sextets (fuel : nat) (out_size i_bits i_shift bytes_remaining : Z) (dst : bytes) : option (Z * bytes) :=
  c ← b64 !! Z.to_nat (Z.land (Z.shiftr (u32 (Z.shiftl i_bits 6)) i_shift) 63);
  dst ← put out_size dst c;
  let i_shift := i_shift - 6 in
  if (i_shift >? 6) || ((bytes_remaining =? 0) && (i_shift >? 0)) then
    match fuel with O => None | S fuel => sextets fuel out_size i_bits i_shift bytes_remaining dst end
  else Some (i_shift, dst).

Fixpoint encode_loop (out_size : Z) (input : bytes) (i_bits i_shift : Z) (dst : bytes) : option bytes :=
  match input with
  | [] => Some dst
  | c :: input =>
      let i_bits := u32 (u32 (Z.shiftl i_bits 8) + c) in
      '(i_shift, dst) ← sextets 3 out_size i_bits (i_shift + 8) (blen input) dst;
      encode_loop out_size input i_bits i_shift dst
  end.

(** while ((dst - ret) & 3) *)
Fixpoint pad_loop (fuel : nat) (out_size : Z) (dst : bytes) : option bytes :=
  if negb (Z.land (blen dst) 3 =? 0) then
    match fuel with O => None | S fuel => dst ← put out_size dst (CHR "="); pad_loop fuel out_size dst end
  else Some dst.

(** The string in the output buffer, [None] inside for NULL. *)
Definition base64_encode (out_size : Z) (input : bytes) : option (option bytes) :=
  let in_size := blen input in
  if (in_size >=? UINT_MAX / 4) || (out_size <? BASE64_SIZE in_size) then Some None else
  dst ← encode_loop out_size input 0 0 [];
  dst ← pad_loop 3 out_size dst;
  _ ← put out_size dst 0;
  Some (Some dst).

(** * http-auth.c *)

Definition basic_authentication_encode (user passwd : bytes) : option (option bytes) :=
  let pair := user ++ [CHR ":"] ++ passwd in
  let basic_len := BASE64_SIZE (blen pair) in
  base64_encode basic_len pair.

(** * The encoding of RFC 4648 *)

(** The character of a sextet. *)
Definition sym (x : Z) : Z := nth (Z.to_nat x) b64 0.

(** The sextets of a group of at most three octets. *)
Definition group (l : bytes) : bytes :=
  match l with
  | [] => []
  | [a] => [a / 4; a mod 4 * 16]
  | [a; b] => [a / 4; a mod 4 * 16 + b / 16; b mod 16 * 4]
  | a :: b :: c :: _ => [a / 4; a mod 4 * 16 + b / 16; b mod 16 * 4 + c / 64; c mod 64]
  end.

(** The sextets of the octets, in groups of three. *)
Fixpoint sextets_of (l : bytes) : bytes :=
  match l with
  | a :: b :: c :: l => group [a; b; c] ++ sextets_of l
  | l => group l
  end.

Definition padding (n : Z) : bytes := if n mod 3 =? 1 then [CHR "="; CHR "="] else if n mod 3 =? 2 then [CHR "="] else [].

Definition rfc4648 (l : bytes) : bytes := map sym (sextets_of l) ++ padding (blen l).

Example rfc4648_foobar : rfc4648 (cstr "foobar") = cstr "Zm9vYmFy" /\ rfc4648 (cstr "fooba") = cstr "Zm9vYmE=" /\ rfc4648 (cstr "foob") = cstr "Zm9vYg==".
Proof. vm_compute. done. Qed.

Example base64_encode_foobar : base64_encode 9 (cstr "fooba") = Some (Some (cstr "Zm9vYmE=")) /\ base64_decode (cstr "Zm9vYmE=") 10 = Some (cstr "fooba").
Proof. vm_compute. done. Qed.

(** * The encoder *)

Lemma sym_lookup x : 0 <= x < 64 -> b64 !! Z.to_nat x = Some (sym x).
Proof.
  intros Hx. unfold sym. rewrite nth_lookup. destruct (b64 !! Z.to_nat x) eqn:E; [done|].
  apply lookup_ge_None in E. change (length b64) with 64%nat in E. lia.
Qed.

Lemma put_ok out_size dst c : blen dst < out_size -> put out_size dst c = Some (dst ++ [c]).
Proof. intros H. unfold put. by rewrite (proj2 (Z.ltb_lt _ _)). Qed.

(** The sextet at a shift, from the low 14 bits of i_bits. *)
Lemma sextet_at b x : 0 <= b < 4294967296 -> x = b mod 16384 ->
  let at_ sh := Z.land (Z.shiftr (u32 (Z.shiftl b 6)) sh) 63 in
  at_ 14 = x / 256 /\ at_ 12 = x / 64 mod 64 /\ at_ 10 = x / 16 mod 64 /\ at_ 8 = x / 4 mod 64 /\ at_ 6 = x mod 64
  /\ at_ 4 = x * 4 mod 64 /\ at_ 2 = x * 16 mod 64.
Proof.
  intros Hb -> at_. unfold at_. change 63 with (Z.ones 6). unfold u32.
  rewrite !Z.land_ones, !Z.shiftr_div_pow2, !Z.shiftl_mul_pow2 by lia.
  change (2 ^ 14) with 16384; change (2 ^ 12) with 4096; change (2 ^ 10) with 1024; change (2 ^ 8) with 256; change (2 ^ 6) with 64;
    change (2 ^ 4) with 16; change (2 ^ 2) with 4.
  split_and!; dlia.
Qed.

Lemma next_bits b c : 0 <= b -> 0 <= c < 256 -> u32 (u32 (Z.shiftl b 8) + c) mod 16384 = b mod 64 * 256 + c
  /\ 0 <= u32 (u32 (Z.shiftl b 8) + c) < 4294967296.
Proof.
  intros Hb Hc. rewrite Z.shiftl_mul_pow2 by lia. change (2 ^ 8) with 256. unfold u32. split; dlia.
Qed.

Lemma sextets_eq fuel out_size b sh n dst x : Z.land (Z.shiftr (u32 (Z.shiftl b 6)) sh) 63 = x -> 0 <= x < 64 -> blen dst < out_size ->
  sextets fuel out_size b sh n dst =
    if (sh - 6 >? 6) || ((n =? 0) && (sh - 6 >? 0)) then
      match fuel with O => None | S fuel => sextets fuel out_size b (sh - 6) n (dst ++ [sym x]) end
    else Some (sh - 6, dst ++ [sym x]).
Proof.
  intros Ex Hx Hd. destruct fuel; cbn [sextets]; rewrite Ex, sym_lookup by done; cbn [mbind option_bind]; by rewrite put_ok.
Qed.

(** What an octet [c] adds, when the state has [s] bits left, the low ones of [y]. *)
Definition octet_sextets (s y c : Z) (last : bool) : bytes :=
  if s =? 0 then (c / 4) :: (if last then [c mod 4 * 16] else [])
  else if s =? 2 then (y mod 4 * 16 + c / 16) :: (if last then [c mod 16 * 4] else [])
  else if s =? 4 then (y mod 16 * 4 + c / 64) :: (if last then [c mod 64] else [])
  else y :: c / 4 :: (if last then [c mod 4 * 16] else []).

Ltac octet_case n A B Hsz :=
  destruct (Z.eqb_spec n 0) as [->|Hn0]; rewrite ?blen_cons, ?blen_nil in Hsz;
  rewrite (sextets_eq _ _ _ _ _ _ _ A) by (rewrite ?blen_app, ?blen_cons, ?blen_nil; dlia);
  [cbn -[sextets sym Z.div Z.modulo];
   rewrite (sextets_eq _ _ _ _ _ _ _ B) by (rewrite ?blen_app, ?blen_cons, ?blen_nil; dlia); cbn -[sextets sym Z.div Z.modulo];
   eexists; split; [rewrite <- ?app_assoc; reflexivity|]; split; [done|]; split; [done|lia]
  |rewrite (proj2 (Z.eqb_neq n 0) Hn0); cbn -[sextets sym Z.div Z.modulo];
   eexists; split; [rewrite <- ?app_assoc; reflexivity|]; split; [done|]; split; [done|lia]].

Lemma octet_ok out_size b s c n dst : (s = 0 \/ s = 2 \/ s = 4 \/ s = 6) -> 0 <= b -> 0 <= c < 256 -> 0 <= n ->
  blen dst + blen (octet_sextets s (b mod 64) c (n =? 0)) <= out_size ->
  let b' := u32 (u32 (Z.shiftl b 8) + c) in
  exists s', sextets 3 out_size b' (s + 8) n dst = Some (s', dst ++ map sym (octet_sextets s (b mod 64) c (n =? 0)))
    /\ (n <> 0 -> s' = (if s =? 6 then 2 else s + 2)) /\ b' mod 64 = c mod 64 /\ 0 <= b'.
Proof.
  intros Hs Hb Hc Hn Hsz b'. destruct (next_bits b c Hb Hc) as [Hx Hb']. fold b' in Hx, Hb'.
  destruct (sextet_at b' _ Hb' (eq_sym Hx)) as (A14 & A12 & A10 & A8 & A6 & A4 & A2).
  pose proof (Z.mod_pos_bound b 64 ltac:(lia)). set (y := b mod 64) in *.
  assert (Hl : b' mod 64 = c mod 64) by dlia.
  pose proof (blen_nonneg dst). destruct Hs as [->|[->|[->| ->]]]; unfold octet_sextets in *; cbn [Z.eqb Pos.eqb] in *.
  - change (0 + 8) with 8. replace ((y * 256 + c) / 4 mod 64) with (c / 4) in A8 by dlia.
    replace ((y * 256 + c) * 16 mod 64) with (c mod 4 * 16) in A2 by dlia. octet_case n A8 A2 Hsz.
  - change (2 + 8) with 10. replace ((y * 256 + c) / 16 mod 64) with (y mod 4 * 16 + c / 16) in A10 by dlia.
    replace ((y * 256 + c) * 4 mod 64) with (c mod 16 * 4) in A4 by dlia. octet_case n A10 A4 Hsz.
  - change (4 + 8) with 12. replace ((y * 256 + c) / 64 mod 64) with (y mod 16 * 4 + c / 64) in A12 by dlia.
    replace ((y * 256 + c) mod 64) with (c mod 64) in A6 by dlia. octet_case n A12 A6 Hsz.
  - change (6 + 8) with 14. replace ((y * 256 + c) / 256) with y in A14 by dlia.
    replace ((y * 256 + c) / 4 mod 64) with (c / 4) in A8 by dlia. replace ((y * 256 + c) * 16 mod 64) with (c mod 4 * 16) in A2 by dlia.
    rewrite !blen_cons in Hsz. pose proof (blen_nonneg (if n =? 0 then [c mod 4 * 16] else [])).
    rewrite (sextets_eq _ _ _ _ _ _ _ A14) by lia. cbn -[sextets sym Z.div Z.modulo]. octet_case n A8 A2 Hsz.
Qed.

(** On the sextets that were stored. *)
Lemma encode_octet out_size b s c l ds : (s = 0 \/ s = 2 \/ s = 4 \/ s = 6) -> 0 <= b -> 0 <= c < 256 ->
  blen ds + blen (octet_sextets s (b mod 64) c (bool_decide (l = []))) <= out_size ->
  exists b' s', encode_loop out_size (c :: l) b s (map sym ds)
    = encode_loop out_size l b' s' (map sym (ds ++ octet_sextets s (b mod 64) c (bool_decide (l = []))))
    /\ (l <> [] -> s' = (if s =? 6 then 2 else s + 2)) /\ b' mod 64 = c mod 64 /\ 0 <= b'.
Proof.
  intros Hs Hb Hc Hsz. assert (El : (blen l =? 0) = bool_decide (l = [])) by (destruct l; [done|rewrite blen_cons; pose proof (blen_nonneg l); apply Z.eqb_neq; lia]).
  rewrite <- El in *. destruct (octet_ok out_size b s c (blen l) (map sym ds) Hs Hb Hc (blen_nonneg l)) as (s' & E & Hs' & Hl & Hb').
  { unfold blen in *. by rewrite length_map. }
  cbn [encode_loop]. rewrite E, map_app. cbn [mbind option_bind]. eexists _, s'. split; [done|]. split; [|done]. intros Hne. apply Hs'.
  destruct l; [done|]. rewrite blen_cons. pose proof (blen_nonneg l). lia.
Qed.

(** Octets up to the end of a group, when [s] bits of the octet [y] are left. *)
Lemma encode_end out_size b s c ds : (s = 0 \/ s = 2 \/ s = 4 \/ s = 6) -> 0 <= b -> 0 <= c < 256 ->
  blen ds + blen (octet_sextets s (b mod 64) c true) <= out_size ->
  encode_loop out_size [c] b s (map sym ds) = Some (map sym (ds ++ octet_sextets s (b mod 64) c true)).
Proof.
  intros Hs Hb Hc Hsz. destruct (encode_octet out_size b s c [] ds Hs Hb Hc Hsz) as (b' & s' & -> & _). done.
Qed.

Lemma encode_more out_size b s c l ds : (s = 0 \/ s = 2 \/ s = 4 \/ s = 6) -> 0 <= b -> 0 <= c < 256 -> l <> [] ->
  blen ds + blen (octet_sextets s (b mod 64) c false) <= out_size ->
  exists b', encode_loop out_size (c :: l) b s (map sym ds)
    = encode_loop out_size l b' (if s =? 6 then 2 else s + 2) (map sym (ds ++ octet_sextets s (b mod 64) c false))
    /\ b' mod 64 = c mod 64 /\ 0 <= b'.
Proof.
  intros Hs Hb Hc Hne Hsz. destruct (encode_octet out_size b s c l ds Hs Hb Hc) as (b' & s' & E & Hs' & Hb'); rewrite bool_decide_eq_false_2 in * by done; [done|].
  exists b'. by rewrite E, (Hs' Hne).
Qed.

(** The last sextet of the group before is still to be stored when [s] is 6. *)
Definition pending (s b : Z) : bytes := if s =? 6 then [b mod 64] else [].

Lemma octet_first s b a last : s = 0 \/ s = 6 ->
  octet_sextets s (b mod 64) a last = pending s b ++ a / 4 :: (if last : bool then [a mod 4 * 16] else []).
Proof. by intros [-> | ->]. Qed.

Lemma sextets_of_group a b c l : sextets_of (a :: b :: c :: l) = group [a; b; c] ++ sextets_of l.
Proof. done. Qed.

Lemma encode_loop_spec out_size n : forall l b s ds, (length l <= n)%nat -> l <> [] -> is_bytes l -> s = 0 \/ s = 6 -> 0 <= b ->
  blen ds + blen (pending s b) + blen (sextets_of l) <= out_size ->
  encode_loop out_size l b s (map sym ds) = Some (map sym (ds ++ pending s b ++ sextets_of l)).
Proof.
  induction n as [|n IH]; intros l b s ds Hn Hne Hl Hs Hb Hsz; [destruct l; [done|simpl in Hn; lia]|].
  assert (Hs4 : s = 0 \/ s = 2 \/ s = 4 \/ s = 6) by tauto. assert (Hs2 : (if s =? 6 then 2 else s + 2) = 2) by (by destruct Hs as [-> | ->]).
  destruct l as [|a1 l]; [done|]. apply Forall_cons_iff in Hl as [H1 Hl]. unfold is_byte in H1.
  destruct l as [|a2 l].
  { cbn in Hsz. rewrite encode_end; rewrite ?octet_first by done; [done..|]. rewrite blen_app, !blen_cons, blen_nil in *. lia. }
  apply Forall_cons_iff in Hl as [H2 Hl]. unfold is_byte in H2.
  assert (Hlen : 3 <= blen (sextets_of (a1 :: a2 :: l))).
  { destruct l; cbn; rewrite !blen_cons; [rewrite blen_nil; lia|]. pose proof (blen_nonneg (sextets_of l)). lia. }
  destruct (encode_more out_size b s a1 (a2 :: l) ds) as (b1 & -> & E1 & P1); [done..| |].
  { rewrite octet_first by done. rewrite blen_app, blen_cons, blen_nil. lia. }
  rewrite octet_first, Hs2 by done. set (ds1 := ds ++ pending s b ++ [a1 / 4]). assert (Hd1 : blen ds1 = blen ds + blen (pending s b) + 1) by (unfold ds1; rewrite !blen_app, blen_cons, blen_nil; lia).
  destruct l as [|a3 l].
  { rewrite encode_end; cbn in *; [|tauto|done..|rewrite !blen_cons, blen_nil in *; lia]. unfold ds1. rewrite <- !app_assoc, E1. cbn.
    do 7 f_equal. dlia. }
  apply Forall_cons_iff in Hl as [H3 Hl]. unfold is_byte in H3.
  destruct (encode_more out_size b1 2 a2 (a3 :: l) ds1) as (b2 & -> & E2 & P2); [tauto|done..| |].
  { cbn. rewrite blen_cons, blen_nil. cbn in Hsz. rewrite !blen_cons in Hsz. pose proof (blen_nonneg (sextets_of l)). lia. }
  cbn [Z.eqb Pos.eqb octet_sextets]. change (2 + 2) with 4. set (ds2 := ds1 ++ [b1 mod 64 mod 4 * 16 + a2 / 16]). assert (Hd2 : blen ds2 = blen ds1 + 1) by (unfold ds2; by rewrite blen_app).
  destruct l as [|a4 l].
  { rewrite encode_end; cbn in *; [|tauto|done..|rewrite !blen_cons, blen_nil in *; lia]. unfold ds2, ds1. rewrite <- !app_assoc, E1, E2. cbn.
    do 7 f_equal; [dlia|]. do 2 f_equal. dlia. }
  destruct (encode_more out_size b2 4 a3 (a4 :: l) ds2) as (b3 & -> & E3 & P3); [tauto|done..| |].
  { cbn. rewrite blen_cons, blen_nil. rewrite sextets_of_group in Hsz. cbn [group app] in Hsz. rewrite !blen_cons in Hsz. pose proof (blen_nonneg (sextets_of (a4 :: l))). lia. }
  cbn [Z.eqb Pos.eqb octet_sextets]. change (4 + 2) with 6. set (ds3 := ds2 ++ [b2 mod 64 mod 16 * 4 + a3 / 64]). assert (Hd3 : blen ds3 = blen ds2 + 1) by (unfold ds3; by rewrite blen_app).
  rewrite (IH (a4 :: l) b3 6 ds3); [|simpl in Hn |- *; lia|done..|by right|done|].
  - unfold ds3, ds2, ds1. rewrite sextets_of_group, <- !app_assoc. unfold pending at 2. cbn [Z.eqb Pos.eqb group app]. rewrite E1, E2, E3.
    assert (a1 mod 64 mod 4 = a1 mod 4) as -> by dlia. assert (a2 mod 64 mod 16 = a2 mod 16) as -> by dlia. done.
  - rewrite sextets_of_group in Hsz. cbn [group app] in Hsz. rewrite !blen_cons in Hsz. unfold pending at 1. cbn [Z.eqb Pos.eqb]. rewrite blen_cons, blen_nil. lia.
Qed.

(** Groups of three, as an induction principle. *)
Lemma group_ind (P : bytes -> Prop) : P [] -> (forall a, P [a]) -> (forall a b, P [a; b]) ->
  (forall a b c l, P l -> P (a :: b :: c :: l)) -> forall l, P l.
Proof.
  intros H0 H1 H2 H3. assert (H : forall n l, (length l <= n)%nat -> P l); [|intros l; by apply (H (length l))].
  induction n as [|n IH]; intros [|a [|b [|c l]]] Hn; simpl in *; auto; [lia..|]. apply H3, IH. lia.
Qed.

Lemma sextets_of_length l : blen (sextets_of l) = blen l / 3 * 4 + (if blen l mod 3 =? 0 then 0 else blen l mod 3 + 1).
Proof.
  induction l as [|a|a b|a b c l IH] using group_ind; [done..|]. rewrite sextets_of_group, blen_app, IH, !blen_cons.
  change (blen (group [a; b; c])) with 4.
  replace (1 + (1 + (1 + blen l))) with (blen l + 1 * 3) by lia. rewrite Z.div_add, Z.mod_add by lia. lia.
Qed.

Lemma land_3 x : Z.land x 3 = x mod 4.
Proof. change 3 with (Z.ones 2). by rewrite Z.land_ones. Qed.

Lemma pad_ok out_size l : BASE64_SIZE (blen l) <= out_size ->
  pad_loop 3 out_size (map sym (sextets_of l)) = Some (rfc4648 l) /\ blen (rfc4648 l) = BASE64_SIZE (blen l) - 1.
Proof.
  intros Hsz. assert (Hl : blen (map sym (sextets_of l)) = blen (sextets_of l)) by (unfold blen; by rewrite length_map).
  pose proof (sextets_of_length l) as Hs. unfold rfc4648, padding, BASE64_SIZE in *. rewrite blen_app, Hl.
  pose proof (blen_nonneg l). set (n := blen l) in *. set (d := map sym _) in *.
  assert (n mod 3 = 0 \/ n mod 3 = 1 \/ n mod 3 = 2) as [E|[E|E]] by (pose proof (Z.mod_pos_bound n 3); lia); rewrite E in *; cbn [Z.eqb Pos.eqb] in *; rewrite ?blen_cons, blen_nil.
  - split; [|dlia]. cbn [pad_loop]. rewrite land_3, app_nil_r. assert (blen d mod 4 = 0) as -> by (rewrite Hl, Hs; dlia). done.
  - split; [|dlia]. cbn [pad_loop]. rewrite land_3. assert (blen d mod 4 = 2) as -> by (rewrite Hl, Hs; dlia). cbn [negb Z.eqb].
    rewrite put_ok by dlia. cbn [mbind option_bind]. rewrite blen_app, blen_cons, blen_nil, land_3.
    assert ((blen d + (1 + 0)) mod 4 = 3) as -> by (rewrite Hl, Hs; dlia). cbn [negb Z.eqb].
    rewrite put_ok by (rewrite blen_app, blen_cons, blen_nil; dlia). cbn [mbind option_bind]. rewrite !blen_app, !blen_cons, !blen_nil, land_3.
    assert ((blen d + (1 + 0) + (1 + 0)) mod 4 = 0) as -> by (rewrite Hl, Hs; dlia). cbn [negb Z.eqb]. by rewrite <- app_assoc.
  - split; [|dlia]. cbn [pad_loop]. rewrite land_3. assert (blen d mod 4 = 3) as -> by (rewrite Hl, Hs; dlia). cbn [negb Z.eqb].
    rewrite put_ok by dlia. cbn [mbind option_bind]. rewrite blen_app, blen_cons, blen_nil, land_3.
    assert ((blen d + (1 + 0)) mod 4 = 0) as -> by (rewrite Hl, Hs; dlia). done.
Qed.

Lemma base64_encode_spec out_size l : is_bytes l -> blen l < UINT_MAX / 4 -> BASE64_SIZE (blen l) <= out_size ->
  base64_encode out_size l = Some (Some (rfc4648 l)).
Proof.
  intros Hl Hn Hsz. unfold base64_encode. rewrite (proj2 (Z.ltb_ge _ _) Hsz).
  assert (blen l >=? UINT_MAX / 4 = false) as -> by (rewrite Z.geb_leb; by apply Z.leb_gt). cbn [orb].
  assert (encode_loop out_size l 0 0 [] = Some (map sym (sextets_of l))) as ->.
  { destruct l as [|a l]; [done|]. apply (encode_loop_spec out_size (length (a :: l)) (a :: l) 0 0 []); [done..|by left|done|].
    unfold pending. cbn [Z.eqb]. rewrite blen_nil, sextets_of_length. unfold BASE64_SIZE in Hsz.
    pose proof (blen_nonneg (a :: l)). destruct (Z.eqb_spec (blen (a :: l) mod 3) 0); dlia. }
  cbn [mbind option_bind]. destruct (pad_ok out_size l Hsz) as [-> Hlen]. cbn [mbind option_bind]. by rewrite put_ok by lia.
Qed.

(** * The decoder *)

(** The tables are inverse to each other. *)
Lemma map2_sym x : 0 <= x < 64 ->
  sym x <> CHR "=" /\ sym x <> 0 /\ u32 (sym x - 43) < blen map2 /\ nth (Z.to_nat (u32 (sym x - 43))) map2 0 = x.
Proof.
  intros Hx.
  assert (H : forallb (fun n => let c := sym (Z.of_nat n) in negb (c =? CHR "=") && negb (c =? 0) && (u32 (c - 43) <? blen map2)
    && (nth (Z.to_nat (u32 (c - 43))) map2 0 =? Z.of_nat n)) (seq 0 64) = true) by (vm_compute; reflexivity).
  rewrite forallb_forall in H. specialize (H (Z.to_nat x)). rewrite Z2Nat.id in H by lia. specialize (H ltac:(apply in_seq; lia)).
  cbv zeta in H. repeat (apply andb_prop in H as [H ?]). apply negb_true_iff, Z.eqb_neq in H.
  repeat match goal with E : negb _ = true |- _ => apply negb_true_iff, Z.eqb_neq in E | E : (_ <? _) = true |- _ => apply Z.ltb_lt in E
    | E : (_ =? _) = true |- _ => apply Z.eqb_eq in E end. done.
Qed.

Lemma decode_sym x rest i v dst out_size : 0 <= x < 64 -> decode_loop (sym x :: rest) i v dst out_size =
  let v := s32 (Z.shiftl v 6 + x) in
  decode_loop rest (i + 1) v
    (if i mod 4 =? 0 then dst else if blen dst <? out_size then dst ++ [u8 (Z.shiftr v (6 - 2 * (i mod 4)))] else dst) out_size.
Proof.
  intros Hx. destruct (map2_sym x Hx) as (H1 & _ & H2 & H3). cbn [decode_loop]. rewrite (proj2 (Z.eqb_neq _ _) H1).
  rewrite Z.geb_leb, (proj2 (Z.leb_gt _ _) H2), H3, land_3. rewrite (proj2 (Z.eqb_neq x 255)) by lia. cbn [negb]. by destruct (i mod 4 =? 0).
Qed.

(** A byte is made of the last two sextets. *)
Lemma decoded_byte w y : 0 <= y < 64 ->
  s32 (Z.shiftl w 6 + y) mod 64 = y
  /\ u8 (Z.shiftr (s32 (Z.shiftl w 6 + y)) 4) = (w mod 64 * 64 + y) / 16
  /\ u8 (Z.shiftr (s32 (Z.shiftl w 6 + y)) 2) = w mod 64 mod 16 * 16 + y / 4
  /\ u8 (Z.shiftr (s32 (Z.shiftl w 6 + y)) 0) = w mod 64 mod 4 * 64 + y.
Proof.
  intros Hy. rewrite Z.shiftr_0_r, !Z.shiftr_div_pow2, Z.shiftl_mul_pow2 by lia.
  change (2 ^ 6) with 64; change (2 ^ 4) with 16; change (2 ^ 2) with 4. unfold s32, u32, u8.
  destruct ((w * 64 + y) mod 4294967296 <? 2147483648); split_and!; dlia.
Qed.

(** The first sextet of a group, and the ones after it. *)
Lemma decode_first x rest i v dst out_size : 0 <= x < 64 -> i mod 4 = 0 ->
  exists w, decode_loop (sym x :: rest) i v dst out_size = decode_loop rest (i + 1) w dst out_size /\ w mod 64 = x.
Proof.
  intros Hx Hi. rewrite decode_sym by done. cbv zeta. rewrite Hi. cbn [Z.eqb]. eexists. split; [done|]. by apply decoded_byte.
Qed.

Lemma decode_next x y z rest i w dst out_size : 0 <= y < 64 -> w mod 64 = x -> blen dst < out_size ->
  (i mod 4 = 1 /\ z = (x * 64 + y) / 16) \/ (i mod 4 = 2 /\ z = x mod 16 * 16 + y / 4) \/ (i mod 4 = 3 /\ z = x mod 4 * 64 + y) ->
  exists w', decode_loop (sym y :: rest) i w dst out_size = decode_loop rest (i + 1) w' (dst ++ [z]) out_size /\ w' mod 64 = y.
Proof.
  intros Hy <- Hd Hi. rewrite decode_sym by done. cbv zeta. rewrite (proj2 (Z.ltb_lt _ _) Hd).
  destruct (decoded_byte w y Hy) as (D0 & D1 & D2 & D3). eexists. split; [|exact D0].
  destruct Hi as [[-> ->]|[[-> ->]|[-> ->]]]; cbn [Z.eqb]; [change (6 - 2 * 1) with 4; by rewrite D1|change (6 - 2 * 2) with 2; by rewrite D2|change (6 - 2 * 3) with 0; by rewrite D3].
Qed.

Lemma decode_end p i v dst out_size : decode_loop (CHR "=" :: p) i v dst out_size = Some dst.
Proof. done. Qed.

(** Whatever [v] holds from the groups before. *)
Lemma decode_rfc4648 out_size l : is_bytes l -> forall i v dst, i mod 4 = 0 -> blen dst + blen l <= out_size ->
  decode_loop (rfc4648 l) i v dst out_size = Some (dst ++ l).
Proof.
  induction l as [|a|a b|a b c l IH] using group_ind; intros Hl i v dst Hi Hd; repeat (apply Forall_cons_iff in Hl as [? Hl]); unfold is_byte in *;
    rewrite ?blen_cons, ?blen_nil in Hd.
  - by rewrite app_nil_r.
  - change (rfc4648 [a]) with [sym (a / 4); sym (a mod 4 * 16); CHR "="; CHR "="].
    destruct (decode_first (a / 4) [sym (a mod 4 * 16); CHR "="; CHR "="] i v dst out_size) as (w & -> & Ew); [dlia|done|].
    destruct (decode_next (a / 4) (a mod 4 * 16) a [CHR "="; CHR "="] (i + 1) w dst out_size) as (w' & -> & _); [dlia|done|lia|left; dlia|]. apply decode_end.
  - change (rfc4648 [a; b]) with [sym (a / 4); sym (a mod 4 * 16 + b / 16); sym (b mod 16 * 4); CHR "="].
    destruct (decode_first (a / 4) [sym (a mod 4 * 16 + b / 16); sym (b mod 16 * 4); CHR "="] i v dst out_size) as (w & -> & Ew); [dlia|done|].
    destruct (decode_next (a / 4) (a mod 4 * 16 + b / 16) a [sym (b mod 16 * 4); CHR "="] (i + 1) w dst out_size) as (w1 & -> & Ew1); [dlia|done|lia|left; dlia|].
    destruct (decode_next (a mod 4 * 16 + b / 16) (b mod 16 * 4) b [CHR "="] (i + 1 + 1) w1 (dst ++ [a]) out_size) as (w2 & -> & _);
      [dlia|done|rewrite blen_app, blen_cons, blen_nil; lia|right; left; dlia|]. rewrite decode_end. by rewrite <- app_assoc.
  - assert (Er : rfc4648 (a :: b :: c :: l) = sym (a / 4) :: sym (a mod 4 * 16 + b / 16) :: sym (b mod 16 * 4 + c / 64) :: sym (c mod 64) :: rfc4648 l).
    { unfold rfc4648, padding. rewrite sextets_of_group, !blen_cons. replace (1 + (1 + (1 + blen l))) with (blen l + 1 * 3) by lia. by rewrite Z.mod_add by lia. }
    rewrite Er. set (r := rfc4648 l) in *.
    destruct (decode_first (a / 4) (sym (a mod 4 * 16 + b / 16) :: sym (b mod 16 * 4 + c / 64) :: sym (c mod 64) :: r) i v dst out_size) as (w & -> & Ew); [dlia|done|].
    destruct (decode_next (a / 4) (a mod 4 * 16 + b / 16) a (sym (b mod 16 * 4 + c / 64) :: sym (c mod 64) :: r) (i + 1) w dst out_size) as (w1 & -> & Ew1);
      [dlia|done|pose proof (blen_nonneg l); lia|left; dlia|].
    destruct (decode_next (a mod 4 * 16 + b / 16) (b mod 16 * 4 + c / 64) b (sym (c mod 64) :: r) (i + 1 + 1) w1 (dst ++ [a]) out_size) as (w2 & -> & Ew2);
      [dlia|done|rewrite blen_app, blen_cons, blen_nil; pose proof (blen_nonneg l); lia|right; left; dlia|].
    destruct (decode_next (b mod 16 * 4 + c / 64) (c mod 64) c r (i + 1 + 1 + 1) w2 ((dst ++ [a]) ++ [b]) out_size) as (w3 & -> & _);
      [dlia|done|rewrite !blen_app, !blen_cons, !blen_nil; pose proof (blen_nonneg l); lia|right; right; dlia|].
    rewrite (IH Hl); [by rewrite <- !app_assoc|dlia|]. rewrite !blen_app, !blen_cons, !blen_nil. lia.
Qed.

(** C16. What base64_encode writes is the encoding of RFC 4648; with its terminator it
    fits a buffer of BASE64_SIZE bytes, no store leaves the buffer, and
    base64_decode turns it back into the data. *)
Theorem base64_roundtrip data out_size dec_size :
  is_bytes data -> blen data < UINT_MAX / 4 -> BASE64_SIZE (blen data) <= out_size -> blen data <= dec_size ->
  base64_encode out_size data = Some (Some (rfc4648 data)) /\ blen (rfc4648 data) + 1 = BASE64_SIZE (blen data)
  /\ base64_decode (rfc4648 data) dec_size = Some data.
Proof.
  intros Hd Hn Ho Hs. split; [by apply base64_encode_spec|]. split; [destruct (pad_ok out_size data Ho); lia|].
  by apply (decode_rfc4648 dec_size data Hd 0 0 []).
Qed.

Lemma base64_roundtrip_witness :
  base64_encode 13 (cstr "user:pass") = Some (Some (rfc4648 (cstr "user:pass"))) /\ blen (rfc4648 (cstr "user:pass")) + 1 = BASE64_SIZE (blen (cstr "user:pass"))
  /\ base64_decode (rfc4648 (cstr "user:pass")) 9 = Some (cstr "user:pass").
Proof. apply (base64_roundtrip (cstr "user:pass") 13 9); [apply (bool_decide_unpack _); vm_compute; exact I|vm_compute; reflexivity|vm_compute; discriminate..]. Defined.

(** basic_authentication_encode never writes outside its buffer, and returns the
    encoding of "user:password". *)
Lemma basic_authentication_encode_spec user passwd : is_bytes user -> is_bytes passwd -> blen user + 1 + blen passwd < UINT_MAX / 4 ->
  basic_authentication_encode user passwd = Some (Some (rfc4648 (user ++ [CHR ":"] ++ passwd))).
Proof.
  intros Hu Hp Hl. unfold basic_authentication_encode. apply base64_encode_spec; [|rewrite !blen_app, blen_cons, blen_nil; lia|lia].
  apply is_bytes_app. split; [done|]. apply is_bytes_app. split; [|done]. by constructor.
Qed.
