(* ===== verification/RedMd5.v ===== *)
(** MD5 of redsocks: redsocks/md5.c, used by the digest authentication of
    redsocks/http-auth.c.

    A word is a [Z] below 2^32 and every addition wraps.  The macro SET assigns to
    its first argument, and from one use to the next the four names rotate: a step
    is a function on the four registers that returns them rotated.  X is the block
    read as little-endian words, which is what the code reads on a little-endian
    machine, aligned or not.  The module [Rfc] states RFC 1321 without the code:
    padding, table, word functions, the order and rotations of the 64 steps. *)

From S2P Require Import Prelude ByteOrder ParseNumber CString.
From Stdlib Require Import Ascii String.
#[local] Abbreviation length := Datatypes.length.
#[local] Abbreviation concat := List.concat.
Open Scope Z_scope.

(** * The block function *)

Definition T_MASK : Z := 4294967295.
Definition T : list Z :=
  [Z.lxor T_MASK 0x28955b87; Z.lxor T_MASK 0x173848a9; 0x242070db; Z.lxor T_MASK 0x3e423111;
   Z.lxor T_MASK 0x0a83f050; 0x4787c62a; Z.lxor T_MASK 0x57cfb9ec; Z.lxor T_MASK 0x02b96afe;
   0x698098d8; Z.lxor T_MASK 0x74bb0850; Z.lxor T_MASK 0x0000a44e; Z.lxor T_MASK 0x76a32841;
   0x6b901122; Z.lxor T_MASK 0x02678e6c; Z.lxor T_MASK 0x5986bc71; 0x49b40821;
   Z.lxor T_MASK 0x09e1da9d; Z.lxor T_MASK 0x3fbf4cbf; 0x265e5a51; Z.lxor T_MASK 0x16493855;
   Z.lxor T_MASK 0x29d0efa2; 0x02441453; Z.lxor T_MASK 0x275e197e; Z.lxor T_MASK 0x182c0437;
   0x21e1cde6; Z.lxor T_MASK 0x3cc8f829; Z.lxor T_MASK 0x0b2af278; 0x455a14ed;
   Z.lxor T_MASK 0x561c16fa; Z.lxor T_MASK 0x03105c07; 0x676f02d9; Z.lxor T_MASK 0x72d5b375;
   Z.lxor T_MASK 0x0005c6bd; Z.lxor T_MASK 0x788e097e; 0x6d9d6122; Z.lxor T_MASK 0x021ac7f3;
   Z.lxor T_MASK 0x5b4115bb; 0x4bdecfa9; Z.lxor T_MASK 0x0944b49f; Z.lxor T_MASK 0x4140438f;
   0x289b7ec6; Z.lxor T_MASK 0x155ed805; Z.lxor T_MASK 0x2b10cf7a; 0x04881d05;
   Z.lxor T_MASK 0x262b2fc6; Z.lxor T_MASK 0x1924661a; 0x1fa27cf8; Z.lxor T_MASK 0x3b53a99a;
   Z.lxor T_MASK 0x0bd6ddbb; 0x432aff97; Z.lxor T_MASK 0x546bdc58; Z.lxor T_MASK 0x036c5fc6;
   0x655b59c3; Z.lxor T_MASK 0x70f3336d; Z.lxor T_MASK 0x00100b82; Z.lxor T_MASK 0x7a7ba22e;
   0x6fa87e4f; Z.lxor T_MASK 0x01d3191f; Z.lxor T_MASK 0x5cfebceb; 0x4e0811a1;
   Z.lxor T_MASK 0x08ac817d; Z.lxor T_MASK 0x42c50dca; 0x2ad7d2bb; Z.lxor T_MASK 0x14792c6e].

Definition not32 (x : Z) : Z := u32 (Z.lnot x).
Definition ROTATE_LEFT (x n : Z) : Z := Z.lor (u32 (Z.shiftl x n)) (Z.shiftr x (32 - n)).

Definition word_fn : Type := Z -> Z -> Z -> Z.
(** The macros F, G, H and I. *)
Module Word.
Definition F : word_fn := fun x y z => Z.lor (Z.land x y) (Z.land (not32 x) z).
Definition G : word_fn := fun x y z => Z.lor (Z.land x z) (Z.land y (not32 z)).
Definition H : word_fn := fun x y z => Z.lxor (Z.lxor x y) z.
Definition I : word_fn := fun x y z => Z.lxor y (Z.lor x (not32 z)).
End Word.

(** The registers a, b, c and d. *)
Record regs := { ra : Z; rb : Z; rc : Z; rd : Z }.

(** SET(a, b, c, d, k, s, Ti), with the names of the next SET. *)
Definition SET (X : list Z) (f : word_fn) (k s Ti : Z) (r : regs) : regs :=
  let t := u32 (ra r + f (rb r) (rc r) (rd r) + nth (Z.to_nat k) X 0 + Ti) in
  {| ra := rd r; rb := u32 (ROTATE_LEFT t s + rb r); rc := rb r; rd := rc r |}.

(** The sixty-four uses of SET: function, word and shift. *)
Definition steps : list (word_fn * Z * Z) :=
  [(Word.F, 0, 7); (Word.F, 1, 12); (Word.F, 2, 17); (Word.F, 3, 22);
   (Word.F, 4, 7); (Word.F, 5, 12); (Word.F, 6, 17); (Word.F, 7, 22);
   (Word.F, 8, 7); (Word.F, 9, 12); (Word.F, 10, 17); (Word.F, 11, 22);
   (Word.F, 12, 7); (Word.F, 13, 12); (Word.F, 14, 17); (Word.F, 15, 22);
   (Word.G, 1, 5); (Word.G, 6, 9); (Word.G, 11, 14); (Word.G, 0, 20);
   (Word.G, 5, 5); (Word.G, 10, 9); (Word.G, 15, 14); (Word.G, 4, 20);
   (Word.G, 9, 5); (Word.G, 14, 9); (Word.G, 3, 14); (Word.G, 8, 20);
   (Word.G, 13, 5); (Word.G, 2, 9); (Word.G, 7, 14); (Word.G, 12, 20);
   (Word.H, 5, 4); (Word.H, 8, 11); (Word.H, 11, 16); (Word.H, 14, 23);
   (Word.H, 1, 4); (Word.H, 4, 11); (Word.H, 7, 16); (Word.H, 10, 23);
   (Word.H, 13, 4); (Word.H, 0, 11); (Word.H, 3, 16); (Word.H, 6, 23);
   (Word.H, 9, 4); (Word.H, 12, 11); (Word.H, 15, 16); (Word.H, 2, 23);
   (Word.I, 0, 6); (Word.I, 7, 10); (Word.I, 14, 15); (Word.I, 5, 21);
   (Word.I, 12, 6); (Word.I, 3, 10); (Word.I, 10, 15); (Word.I, 1, 21);
   (Word.I, 8, 6); (Word.I, 15, 10); (Word.I, 6, 15); (Word.I, 13, 21);
   (Word.I, 4, 6); (Word.I, 11, 10); (Word.I, 2, 15); (Word.I, 9, 21)].

Definition words (data : bytes) : list Z := map (fun i => load32 (btake 4 (bdrop (4 * Z.of_nat i) data))) (seq 0 16).

Definition md5_process (abcd : regs) (data : bytes) : regs :=
  let X := words data in
  let r := fold_left (fun r '((f, k, s), Ti) => SET X f k s Ti r) (combine steps T) abcd in
  {| ra := u32 (ra abcd + ra r); rb := u32 (rb abcd + rb r); rc := u32 (rc abcd + rc r); rd := u32 (rd abcd + rd r) |}.

(** * The state *)

Record md5_state := { count0 : Z; count1 : Z; abcd : regs; buf : bytes (* 64 bytes *) }.

Definition md5_init (raw : bytes) : md5_state :=
  {| count0 := 0; count1 := 0;
     abcd := {| ra := 0x67452301; rb := Z.lxor T_MASK 0x10325476; rc := Z.lxor T_MASK 0x67452301; rd := 0x10325476 |};
     buf := raw |}.

(** The loop over the full blocks of [data]: the registers, p and left at its end. *)
Fixpoint process_blocks (fuel : nat) (r : regs) (data : bytes) (p left : Z) : option (regs * Z * Z) :=
  if left >=? 64 then
    block ← mem_read data p 64;
    match fuel with O => None | S fuel => process_blocks fuel (md5_process r block) data (p + 64) (left - 64) end
  else Some (r, p, left).

(** From "Process full blocks" on. *)
Definition append_blocks (s : md5_state) (r : regs) (data : bytes) (p left : Z) : option md5_state :=
  '(r, p, left) ← process_blocks (Z.to_nat (left / 64)) r data p left;
  b ← (if left =? 0 then Some (buf s) else d ← mem_read data p left; mem_write (buf s) 0 d);
  Some {| count0 := count0 s; count1 := count1 s; abcd := r; buf := b |}.

Definition md5_append (s : md5_state) (data : bytes) (nbytes : Z) : option md5_state :=
  let offset := Z.land (Z.shiftr (count0 s) 3) 63 in
  let nbits := u32 (Z.shiftl nbytes 3) in
  if nbytes <=? 0 then Some s else
  let c1 := u32 (count1 s + Z.shiftr nbytes 29) in
  let c0 := u32 (count0 s + nbits) in
  let c1 := if c0 <? nbits then u32 (c1 + 1) else c1 in
  let s := {| count0 := c0; count1 := c1; abcd := abcd s; buf := buf s |} in
  if negb (offset =? 0) then
    let copy := if offset + nbytes >? 64 then 64 - offset else nbytes in
    d ← mem_read data 0 copy;
    b ← mem_write (buf s) offset d;
    let s := {| count0 := c0; count1 := c1; abcd := abcd s; buf := b |} in
    if offset + copy <? 64 then Some s else append_blocks s (md5_process (abcd s) b) data copy (nbytes - copy)
  else append_blocks s (abcd s) data 0 nbytes.

Definition md5_pad : bytes := 128 :: repeat 0 63.

(** The bytes of the words, the lowest first. *)
Definition le_bytes (ws : list Z) : bytes := map (fun i => u8 (Z.shiftr (nth (i / 4) ws 0) (Z.of_nat (i mod 4) * 8))) (seq 0 (4 * length ws)).

Definition md5_finish (s : md5_state) : option bytes :=
  let data := le_bytes [count0 s; count1 s] in
  s ← md5_append s md5_pad (Z.land (u32 (55 - Z.shiftr (count0 s) 3)) 63 + 1);
  s ← md5_append s data 8;
  let r := abcd s in
  Some (le_bytes [ra r; rb r; rc r; rd r]).

(** Appending some strings and finishing, as the callers do; the length that strlen
    gives is converted to an int. *)
Fixpoint md5_append_all (s : md5_state) (pieces : list bytes) : option md5_state :=
  match pieces with [] => Some s | d :: ds => s ← md5_append s d (s32 (blen d)); md5_append_all s ds end.

Definition md5 (raw : bytes) (pieces : list bytes) : option bytes := s ← md5_append_all (md5_init raw) pieces; md5_finish s.

Example md5_abc : md5 (repeat 0 64) [cstr "a"; cstr "bc"] = Some [0x90; 0x01; 0x50; 0x98; 0x3c; 0xd2; 0x4f; 0xb0; 0xd6; 0x96; 0x3f; 0x7d; 0x28; 0xe1; 0x7f; 0x72].
Proof. vm_compute. reflexivity. Qed.

Example md5_80_digits :
  md5 (repeat 0 64) [cstr "1234567890123456789012345678901234567890123456789012345678901234567"; cstr "8901234567890"]
  = Some [0x57; 0xed; 0xf4; 0xa2; 0x2b; 0xe3; 0xc9; 0x55; 0xac; 0x49; 0xda; 0x2e; 0x21; 0x07; 0xb6; 0x7a].
Proof. vm_compute. reflexivity. Qed.

(** * RFC 1321

    The algorithm as the RFC has it, independent of the code: words as sums of bytes, the
    auxiliary functions bit by bit, the table from the sine, and the registers A, B, C
    and D in an array that each operation changes in one place. *)
Module Rfc.
Definition MOD : Z := 4294967296.

(** The word with the given bits. *)
Definition of_bits (f : Z -> bool) : Z := fold_right Z.add 0 (map (fun i => if f (Z.of_nat i) then 2 ^ Z.of_nat i else 0) (seq 0 32)).
Definition bitwise (f : bool -> bool -> bool -> bool) (x y z : Z) : Z :=
  of_bits (fun i => f (Z.testbit x i) (Z.testbit y i) (Z.testbit z i)).

(** If X then Y else Z; if Z then X else Y; the parity; Y xor (X or not Z). *)
Definition aux (round : nat) : bool -> bool -> bool -> bool :=
  match round with
  | 0%nat => fun x y z => if x then y else z
  | 1%nat => fun x y z => if z then x else y
  | 2%nat => fun x y z => xorb x (xorb y z)
  | _ => fun x y z => xorb y (x || negb z)
  end.

Definition rotate (x s : Z) : Z := x * 2 ^ s mod MOD + x / 2 ^ (32 - s).

(** The sine of [x] radians in units of 2^-256, by its series; the terms after the
    two hundredth are below one unit for all [x] up to 64. *)
Fixpoint sine_terms (n : nat) (k x term : Z) : Z :=
  match n with
  | O => 0
  | S n => term - sine_terms n (k + 2) x (term * (x * x) / ((k + 1) * (k + 2)))
  end.
Definition sine (x : Z) : Z := sine_terms 200 1 x (x * 2 ^ 256).

(** The integer part of 4294967296 times abs(sin(i + 1)). *)
Definition T (i : nat) : Z := Z.abs (sine (Z.of_nat i + 1)) / 2 ^ 224.

Definition K (i : nat) : Z :=
  let n := Z.of_nat i in nth (i / 16) [n; 5 * n + 1; 3 * n + 5; 7 * n] 0 mod 16.
Definition shift (i : nat) : Z :=
  nth (i mod 4) (nth (i / 16) [[7; 12; 17; 22]; [5; 9; 14; 20]; [4; 11; 16; 23]; [6; 10; 15; 21]] []) 0.

Definition word (block : bytes) (k : Z) : Z :=
  let b i := nth (Z.to_nat (4 * k + i)) block 0 in b 0 + 256 * b 1 + 65536 * b 2 + 16777216 * b 3.

(** The place of a, b, c or d in the operation [i]: ABCD, DABC, CDAB, BCDA. *)
Definition place (i j : nat) : nat := ((j + 3 * i) mod 4)%nat.

(** [abcd k s i]: a = b + ((a + F(b,c,d) + X[k] + T[i]) <<< s). *)
Definition operation (block : bytes) (g : list Z) (i : nat) : list Z :=
  let v j := nth (place i j) g 0 in
  <[place i 0 := (v 1%nat + rotate ((v 0%nat + bitwise (aux (i / 16)) (v 1%nat) (v 2%nat) (v 3%nat) + word block (K i) + T i) mod MOD) (shift i)) mod MOD]> g.

Definition process (g : list Z) (block : bytes) : list Z :=
  let g' := fold_left (operation block) (seq 0 64) g in
  map (fun j => (nth j g 0 + nth j g' 0) mod MOD) (seq 0 4).

Fixpoint blocks (k : nat) (g : list Z) (m : bytes) : list Z :=
  match k with O => g | S k => blocks k (process g (btake 64 m)) (bdrop 64 m) end.

(** Low-order bytes first. *)
Definition bytes_of (w : Z) : bytes := map (fun i => w / 256 ^ Z.of_nat i mod 256) (seq 0 4).

(** A one bit, zeros up to eight bytes before the end of a block, and the length in
    bits modulo 2^64, as two words. *)
Definition padded (m : bytes) : bytes :=
  let n := blen m in
  m ++ (128 :: repeat 0 (Z.to_nat ((55 - n) mod 64))) ++ bytes_of (8 * n mod MOD) ++ bytes_of (8 * n / MOD mod MOD).

Definition initial : list Z := [0x67452301; 0xefcdab89; 0x98badcfe; 0x10325476].

Definition digest (m : bytes) : bytes :=
  concat (map bytes_of (blocks (Z.to_nat (blen (Rfc.padded m) / 64)) initial (padded m))).
End Rfc.

Definition rfc1321 (m : bytes) : bytes := Rfc.digest m.

(** * The block function is that of the RFC *)

Lemma bits_sum (f : Z -> bool) w n : (forall i, 0 <= i < Z.of_nat n -> Z.testbit w i = f i) ->
  fold_right Z.add 0 (map (fun i => if f (Z.of_nat i) then 2 ^ Z.of_nat i else 0) (seq 0 n)) = w mod 2 ^ Z.of_nat n.
Proof.
  induction n as [|n IH]; intros Hw; [by rewrite Z.mod_1_r|].
  rewrite seq_S, map_app, fold_right_app. cbn [map fold_right Nat.add]. rewrite Z.add_0_r.
  assert (Hf : forall l a, fold_right Z.add a l = fold_right Z.add 0 l + a) by (induction l as [|x l IHl]; intros a; cbn [fold_right]; [lia|rewrite IHl; lia]).
  rewrite Hf, IH by (intros i Hi; apply Hw; lia). rewrite Nat2Z.inj_succ, Z.pow_succ_r, (Z.mul_comm 2) by lia.
  rewrite Z.rem_mul_r, <- Z.testbit_spec', Hw by lia. destruct (f (Z.of_nat n)); cbn [Z.b2z]; lia.
Qed.

Definition in_word (x : Z) : Prop := 0 <= x < Rfc.MOD.

Lemma bitwise_eq f w x y z : in_word w ->
  (forall i, 0 <= i < 32 -> Z.testbit w i = f (Z.testbit x i) (Z.testbit y i) (Z.testbit z i)) -> w = Rfc.bitwise f x y z.
Proof.
  intros Hw Hb. unfold Rfc.bitwise, Rfc.of_bits. rewrite (bits_sum (fun i => f (Z.testbit x i) (Z.testbit y i) (Z.testbit z i)) w 32) by (intros i Hi; by apply Hb).
  change (2 ^ Z.of_nat 32) with Rfc.MOD. symmetry. by apply Z.mod_small.
Qed.

Lemma in_word_bits x : in_word x <-> 0 <= x /\ forall i, 32 <= i -> Z.testbit x i = false.
Proof.
  unfold in_word. change Rfc.MOD with (2 ^ 32). split.
  - intros [H1 H2]. split; [done|]. intros i Hi. destruct (Z.eq_dec x 0) as [->|]; [apply Z.bits_0|]. apply Z.bits_above_log2; [done|].
    apply Z.lt_le_trans with 32; [apply Z.log2_lt_pow2; lia|done].
  - intros [H1 H2]. split; [done|]. destruct (Z.lt_ge_cases x (2 ^ 32)) as [|Hge]; [done|].
    assert (Hl : 32 <= Z.log2 x) by (apply Z.log2_le_pow2; lia). specialize (H2 _ Hl). rewrite Z.bit_log2 in H2 by lia. done.
Qed.

Lemma in_word_bitop (op : Z -> Z -> Z) (f : bool -> bool -> bool) x y :
  (forall i, 0 <= i -> Z.testbit (op x y) i = f (Z.testbit x i) (Z.testbit y i)) -> f false false = false -> 0 <= op x y -> in_word x -> in_word y -> in_word (op x y).
Proof.
  intros Hb Hf Hp Hx Hy. apply in_word_bits in Hx as [_ Hx]. apply in_word_bits in Hy as [_ Hy]. apply in_word_bits. split; [done|].
  intros i Hi. by rewrite Hb, Hx, Hy by lia.
Qed.
Lemma in_word_land x y : in_word x -> in_word y -> in_word (Z.land x y).
Proof. intros Hx Hy. apply (in_word_bitop Z.land andb); try done; [intros; apply Z.land_spec|]. apply Z.land_nonneg. left. apply Hx. Qed.
Lemma in_word_lor x y : in_word x -> in_word y -> in_word (Z.lor x y).
Proof. intros Hx Hy. apply (in_word_bitop Z.lor orb); try done; [intros; apply Z.lor_spec|]. apply Z.lor_nonneg. split; [apply Hx|apply Hy]. Qed.
Lemma in_word_lxor x y : in_word x -> in_word y -> in_word (Z.lxor x y).
Proof. intros Hx Hy. apply (in_word_bitop Z.lxor xorb); try done; [intros; apply Z.lxor_spec|]. apply Z.lxor_nonneg. split; intros _; [apply Hy|apply Hx]. Qed.
Lemma in_word_u32 x : in_word (u32 x).
Proof. unfold in_word, Rfc.MOD. apply u32_range. Qed.
Create HintDb words.
#[local] Hint Resolve in_word_land in_word_lor in_word_lxor in_word_u32 : words.

Lemma not32_bit x i : 0 <= i < 32 -> Z.testbit (not32 x) i = negb (Z.testbit x i).
Proof.
  intros Hi. unfold not32, u32. change 4294967296 with (2 ^ 32). rewrite Z.mod_pow2_bits_low by lia. apply Z.lnot_spec. lia.
Qed.

Definition code_fn (round : nat) : word_fn := nth round [Word.F; Word.G; Word.H; Word.I] Word.I.

Lemma code_fn_rfc round x y z : (round < 4)%nat -> in_word x -> in_word y -> in_word z ->
  code_fn round x y z = Rfc.bitwise (Rfc.aux round) x y z.
Proof.
  intros Hr Hx Hy Hz. unfold code_fn. destruct round as [|[|[|[|round]]]]; [..|lia]; cbn [nth]; apply bitwise_eq; try intros i Hi;
    unfold Word.F, Word.G, Word.H, Word.I, not32; auto 8 with words; fold (not32 x); fold (not32 z);
    rewrite ?Z.lor_spec, ?Z.land_spec, ?Z.lxor_spec, ?Z.lor_spec, ?Z.land_spec, ?not32_bit by done;
    by destruct (Z.testbit x i), (Z.testbit y i), (Z.testbit z i).
Qed.

Lemma rotate_rfc x s : in_word x -> 0 < s < 32 -> ROTATE_LEFT x s = Rfc.rotate x s.
Proof.
  unfold in_word, Rfc.MOD. intros Hx Hs. unfold ROTATE_LEFT, Rfc.rotate, u32. rewrite Z.shiftl_mul_pow2, Z.shiftr_div_pow2 by lia. fold Rfc.MOD.
  assert (E : Rfc.MOD = 2 ^ (32 - s) * 2 ^ s) by (rewrite <- Z.pow_add_r by lia; replace (32 - s + s) with 32 by lia; done).
  assert (P1 : 0 < 2 ^ s) by (apply Z.pow_pos_nonneg; lia). assert (P2 : 0 < 2 ^ (32 - s)) by (apply Z.pow_pos_nonneg; lia).
  rewrite E, Z.mul_mod_distr_r by lia. rewrite <- (Z.shiftl_mul_pow2 (x mod _)) at 1 by lia. apply lor_shiftl_add; [lia|]. split; [apply Z.div_pos; lia|].
  apply Z.div_lt_upper_bound; [done|]. rewrite <- E. unfold Rfc.MOD. lia.
Qed.

Lemma nth_bdrop n k l : 0 <= n -> nth k (bdrop n l) 0 = nth (Z.to_nat n + k) l 0.
Proof. intros _. unfold bdrop. revert l. induction (Z.to_nat n) as [|m IH]; intros l; [done|]. destruct l; [by rewrite drop_nil; destruct k|]. apply IH. Qed.

Lemma words_rfc data k : blen data = 64 -> is_bytes data -> 0 <= k < 16 -> nth (Z.to_nat k) (words data) 0 = Rfc.word data k.
Proof.
  intros Hl Hb Hk. unfold words. set (f := fun i => load32 (btake 4 (bdrop (4 * Z.of_nat i) data))).
  rewrite (nth_indep _ 0 (f 0%nat)) by (rewrite length_map, length_seq; lia).
  rewrite (map_nth f), seq_nth by lia. unfold f. rewrite Nat.add_0_l, Z2Nat.id by lia.
  pose proof (blen_btake 4 (bdrop (4 * k) data) ltac:(rewrite blen_bdrop; lia)) as L.
  assert (E : forall i, (i < 4)%nat -> nth i (btake 4 (bdrop (4 * k) data)) 0 = nth (Z.to_nat (4 * k + Z.of_nat i)) data 0).
  { intros i Hi. transitivity (nth i (bdrop (4 * k) data) 0); [|rewrite nth_bdrop by lia; f_equal; lia].
    rewrite <- (btake_bdrop 4 (bdrop (4 * k) data)) at 2. symmetry. apply app_nth1. unfold blen in L. lia. }
  pose proof (is_bytes_btake 4 _ (is_bytes_bdrop (4 * k) _ Hb)) as HB.
  pose proof (E 0%nat ltac:(lia)) as E0. pose proof (E 1%nat ltac:(lia)) as E1. pose proof (E 2%nat ltac:(lia)) as E2. pose proof (E 3%nat ltac:(lia)) as E3.
  destruct (btake 4 (bdrop (4 * k) data)) as [|a [|b [|c [|d [|? ?]]]]]; unfold blen in L; cbn [length] in L; try lia.
  cbn [nth] in E0, E1, E2, E3.
  change (Z.of_nat 0) with 0 in E0; change (Z.of_nat 1) with 1 in E1; change (Z.of_nat 2) with 2 in E2; change (Z.of_nat 3) with 3 in E3. inversion_clear HB as [|? ? Ba HB1]. inversion_clear HB1 as [|? ? Bb HB2].
  inversion_clear HB2 as [|? ? Bc HB3]. inversion_clear HB3 as [|? ? Bd _].
  rewrite read_le32_cons by done. unfold Rfc.word. cbv zeta. rewrite <- E0, <- E1, <- E2, <- E3. lia.
Qed.

(** The registers of the code, in the places of the RFC before the operation [i]. *)
Definition places (i : nat) (r : regs) : list Z :=
  nth (i mod 4) [[ra r; rb r; rc r; rd r]; [rb r; rc r; rd r; ra r]; [rc r; rd r; ra r; rb r]; [rd r; ra r; rb r; rc r]] [].

Definition in_words (r : regs) : Prop := in_word (ra r) /\ in_word (rb r) /\ in_word (rc r) /\ in_word (rd r).

Lemma SET_words X f k s t r : in_words r -> in_words (SET X f k s t r).
Proof. intros (? & ? & ? & ?). unfold SET, in_words. cbn. auto with words. Qed.

Lemma place_mod i j : Rfc.place i j = Rfc.place (i mod 4) j.
Proof. unfold Rfc.place. by rewrite <- (Nat.Div0.add_mod_idemp_r j (3 * i)), <- (Nat.Div0.mul_mod_idemp_r 3 i), (Nat.Div0.add_mod_idemp_r j). Qed.

Definition step_fact (i : nat) : bool :=
  (0 <? Rfc.shift i) && (Rfc.shift i <? 32) && (0 <=? Rfc.K i) && (Rfc.K i <? 16).
Lemma step_facts : forallb step_fact (seq 0 64) = true.
Proof. vm_compute. reflexivity. Qed.
Lemma step_ok i : (i < 64)%nat -> 0 < Rfc.shift i < 32 /\ 0 <= Rfc.K i < 16.
Proof.
  intros Hi. pose proof step_facts as H. rewrite forallb_forall in H. specialize (H i (proj2 (in_seq 64 0 i) ltac:(lia))).
  unfold step_fact in H. zbool. lia.
Qed.

Lemma SET_rfc data i r : blen data = 64 -> is_bytes data -> (i < 64)%nat -> in_words r ->
  Rfc.operation data (places i r) i = places (S i) (SET (words data) (code_fn (i / 16)) (Rfc.K i) (Rfc.shift i) (Rfc.T i) r).
Proof.
  intros Hl Hb Hi (Ha & Hb' & Hc & Hd). destruct (step_ok i Hi) as [Hs Hk].
  unfold Rfc.operation, places, SET. rewrite !(place_mod i). assert (Em : (S i mod 4 = S (i mod 4) mod 4)%nat) by (rewrite <- (Nat.add_1_l i), <- (Nat.add_1_l (i mod 4)); symmetry; apply Nat.Div0.add_mod_idemp_r). rewrite Em.
  rewrite (words_rfc data (Rfc.K i)) by done. rewrite code_fn_rfc by (try done; apply Nat.Div0.div_lt_upper_bound; lia).
  assert (Hm : (i mod 4 < 4)%nat) by (apply Nat.mod_upper_bound; lia). unfold u32. fold Rfc.MOD. rewrite rotate_rfc by (try done; apply Z.mod_pos_bound; unfold Rfc.MOD; lia).
  clear -Hm. generalize (Rfc.word data (Rfc.K i)) (Rfc.T i) (Rfc.shift i) (Rfc.aux (i / 16)). intros W T sh A.
  rewrite (Z.add_comm (Rfc.rotate _ sh)).
  destruct (i mod 4)%nat as [|[|[|[|m]]]]; [..|lia]; destruct r; reflexivity.
Qed.
Definition rfc_set (data : bytes) (r : regs) (i : nat) : regs :=
  SET (words data) (code_fn (i / 16)) (Rfc.K i) (Rfc.shift i) (Rfc.T i) r.

(** The table of the code is that of the sine, its words and shifts those of the RFC. *)
Lemma steps_rfc : steps = map (fun i => (code_fn (i / 16), Rfc.K i, Rfc.shift i)) (seq 0 64).
Proof. reflexivity. Qed.
Lemma T_rfc : T = map Rfc.T (seq 0 64).
Proof. vm_compute. reflexivity. Qed.

Lemma combine_map {A B C} (f : A -> B) (g : A -> C) l : combine (map f l) (map g l) = map (fun x => (f x, g x)) l.
Proof. induction l as [|x l IH]; cbn [map combine]; [done|by rewrite IH]. Qed.

Lemma operations_rfc data n : blen data = 64 -> is_bytes data -> forall a r, (a + n <= 64)%nat -> in_words r ->
  fold_left (Rfc.operation data) (seq a n) (places a r) = places (a + n) (fold_left (rfc_set data) (seq a n) r)
  /\ in_words (fold_left (rfc_set data) (seq a n) r).
Proof.
  intros Hl Hb. induction n as [|n IH]; intros a r Ha Hr; cbn [seq fold_left]; [by rewrite Nat.add_0_r|].
  rewrite SET_rfc by (try done; lia). rewrite <- Nat.add_succ_comm. apply IH; [lia|]. by apply SET_words.
Qed.

Lemma process_rfc data r : blen data = 64 -> is_bytes data -> in_words r ->
  places 0 (md5_process r data) = Rfc.process (places 0 r) data /\ in_words (md5_process r data).
Proof.
  intros Hl Hb Hr. unfold md5_process, Rfc.process. rewrite steps_rfc, T_rfc, combine_map.
  assert (Ef : forall l r0, fold_left (fun r '((f, k, s), Ti) => SET (words data) f k s Ti r) (map (fun i => (code_fn (i / 16), Rfc.K i, Rfc.shift i, Rfc.T i)) l) r0
    = fold_left (rfc_set data) l r0) by (induction l as [|x l IHl]; intros r0; cbn [map fold_left]; [done|apply IHl]).
  rewrite Ef. destruct (operations_rfc data 64 Hl Hb 0 r ltac:(lia) Hr) as [-> _].
  generalize (fold_left (rfc_set data) (seq 0 64) r). intros r'. clear.
  split; [by destruct r, r'|]. unfold in_words. cbn [ra rb rc rd]. auto with words.
Qed.

(** * The messages that were absorbed *)

(** The registers after the first [k] blocks of a message. *)
Fixpoint absorb (k : nat) (r : regs) (m : bytes) : regs :=
  match k with O => r | S k => absorb k (md5_process r (btake 64 m)) (bdrop 64 m) end.

Definition blocks (n : Z) : nat := Z.to_nat (n / 64).

Definition digest_of (m : bytes) : bytes :=
  let r := absorb (blocks (blen (Rfc.padded m))) (abcd (md5_init [])) (Rfc.padded m) in
  le_bytes [ra r; rb r; rc r; rd r].

(** * The state holds a message *)

Record holds (s : md5_state) (m : bytes) : Prop := {
  ho_count : count0 s = 8 * blen m mod 4294967296 /\ count1 s = 8 * blen m / 4294967296 mod 4294967296;
  ho_abcd : abcd s = absorb (blocks (blen m)) (abcd (md5_init [])) m;
  ho_len : blen (buf s) = 64;
  ho_buf : btake (blen m mod 64) (buf s) = bdrop (64 * (blen m / 64)) m }.

Lemma count_append n nb : 0 <= n -> 0 < nb <= INT_MAX ->
  let c0 := 8 * n mod 4294967296 in
  let c1 := 8 * n / 4294967296 mod 4294967296 in
  let nbits := u32 (Z.shiftl nb 3) in
  let c0' := u32 (c0 + nbits) in
  let c1' := u32 (c1 + Z.shiftr nb 29) in
  c0' = 8 * (n + nb) mod 4294967296
  /\ (if c0' <? nbits then u32 (c1' + 1) else c1') = 8 * (n + nb) / 4294967296 mod 4294967296
  /\ Z.land (Z.shiftr c0 3) 63 = n mod 64.
Proof.
  intros Hn Hb. cbv zeta. unfold INT_MAX, u32 in *. change 63 with (Z.ones 6). rewrite Z.land_ones, Z.shiftl_mul_pow2, !Z.shiftr_div_pow2 by lia.
  change (2 ^ 3) with 8; change (2 ^ 29) with 536870912; change (2 ^ 6) with 64. split; [dlia|]. split; [|dlia].
  destruct (Z.ltb_spec ((8 * n mod 4294967296 + nb * 8 mod 4294967296) mod 4294967296) (nb * 8 mod 4294967296)); dlia.
Qed.

Lemma absorb_plus j k r m : absorb (j + k) r m = absorb k (absorb j r m) (bdrop (64 * Z.of_nat j) m).
Proof.
  revert r m. induction j as [|j IH]; intros r m; [by rewrite bdrop_0|]. cbn [absorb Nat.add]. rewrite IH. f_equal.
  rewrite bdrop_bdrop by lia. f_equal. lia.
Qed.

Lemma absorb_app k r m d : 64 * Z.of_nat k <= blen m -> absorb k r (m ++ d) = absorb k r m.
Proof.
  revert r m. induction k as [|k IH]; intros r m Hk; [done|]. cbn [absorb]. rewrite btake_app_le, bdrop_app_le by lia.
  apply IH. rewrite blen_bdrop by lia. lia.
Qed.

Lemma process_blocks_spec k : forall r data p left, 0 <= p -> p + left <= blen data -> left / 64 = Z.of_nat k -> 0 <= left ->
  process_blocks k r data p left = Some (absorb k r (bdrop p data), p + 64 * Z.of_nat k, left mod 64).
Proof.
  induction k as [|k IH]; intros r data p left Hp Hd Hk Hl; cbn [process_blocks absorb]; rewrite Z.geb_leb.
  - rewrite (proj2 (Z.leb_gt _ _)) by dlia. rewrite Z.mod_small by dlia. f_equal. f_equal. f_equal. lia.
  - rewrite (proj2 (Z.leb_le _ _)) by dlia. rewrite mem_read_in by dlia. cbn [mbind option_bind].
    rewrite IH by dlia. rewrite bdrop_bdrop by lia. replace ((left - 64) mod 64) with (left mod 64) by dlia. do 3 f_equal. lia.
Qed.

Lemma append_blocks_ok s M j data p left :
  count0 s = 8 * blen M mod 4294967296 -> count1 s = 8 * blen M / 4294967296 mod 4294967296 -> blen (buf s) = 64 ->
  0 <= j -> j mod 64 = 0 -> 0 <= left -> left = blen M - j -> 0 <= p -> p + left <= blen data -> btake left (bdrop p data) = bdrop j M ->
  exists s', append_blocks s (absorb (blocks j) (abcd (md5_init [])) M) data p left = Some s' /\ holds s' M.
Proof.
  intros C0 C1 Hb Hj Hj64 Hl El Hp Hd E. unfold append_blocks.
  rewrite (process_blocks_spec (blocks left)) by (unfold blocks; dlia). cbn [mbind option_bind].
  assert (Er : absorb (blocks left) (absorb (blocks j) (abcd (md5_init [])) M) (bdrop p data) = absorb (blocks (blen M)) (abcd (md5_init [])) M).
  { rewrite <- (btake_bdrop left (bdrop p data)), E, absorb_app by (rewrite blen_bdrop; unfold blocks; dlia). replace j with (64 * Z.of_nat (blocks j)) at 2 by (unfold blocks; dlia). rewrite <- absorb_plus. f_equal. unfold blocks. dlia. }
  rewrite Er. assert (Hrest : btake (left mod 64) (bdrop (p + 64 * Z.of_nat (blocks left)) data) = bdrop (64 * (blen M / 64)) M).
  { replace (64 * (blen M / 64)) with (j + 64 * Z.of_nat (blocks left)) by (unfold blocks; dlia). rewrite <- (bdrop_bdrop _ j M), <- E, <- (bdrop_bdrop _ p data) by (unfold blocks; dlia).
    rewrite <- bdrop_btake by (unfold blocks; dlia). do 2 f_equal. unfold blocks. dlia. }
  replace (left mod 64) with (blen M mod 64) in * by dlia.
  destruct (Z.eqb_spec (blen M mod 64) 0) as [Hz|Hz]; cbn [mbind option_bind].
  - eexists. split; [done|]. split; cbn; try done. rewrite Hz. unfold btake. cbn [Z.to_nat take]. symmetry. apply length_zero_iff_nil.
    pose proof (blen_bdrop (64 * (blen M / 64)) M ltac:(dlia)) as Hlen. unfold blen in Hlen at 1. dlia.
  - assert (Hlen : blen (bdrop (64 * (blen M / 64)) M) = blen M mod 64) by (rewrite blen_bdrop; dlia).
    rewrite mem_read_in by (unfold blocks; dlia). cbn [mbind option_bind]. rewrite Hrest.
    destruct (mem_write_some (buf s) 0 (bdrop (64 * (blen M / 64)) M)) as (b & Eb & Lb); [done|dlia|]. rewrite Eb. cbn [mbind option_bind].
    eexists. split; [done|]. split; cbn; [done|done|lia|]. rewrite <- Hlen. apply mem_write_prefix in Eb. by rewrite Z.add_0_l in Eb.
Qed.

Lemma md5_append_ok s m data nbytes : holds s m -> 0 <= nbytes <= INT_MAX -> nbytes <= blen data ->
  exists s', md5_append s data nbytes = Some s' /\ holds s' (m ++ btake nbytes data).
Proof.
  intros [[C0 C1] Ha Hl Hb] Hd Hdata. unfold md5_append. set (d := btake nbytes data). assert (Hnb : nbytes = blen d) by (unfold d; rewrite blen_btake; lia).
  assert (Hsub : forall a k, 0 <= a -> 0 <= k -> a + k <= blen d -> btake k (bdrop a data) = btake k (bdrop a d)).
  { intros a k Ha' Hk Hak. unfold d. replace nbytes with (a + (nbytes - a)) by lia. rewrite bdrop_btake, btake_btake by lia. done. }
  rewrite Hnb in *. pose proof (blen_nonneg d). pose proof (blen_nonneg m).
  destruct (Z.leb_spec (blen d) 0) as [Hz|Hz].
  { assert (d = []) as -> by (destruct d; [done|rewrite blen_cons in Hz; pose proof (blen_nonneg d); lia]). rewrite app_nil_r. by exists s. }
  rewrite C0, C1. destruct (count_append (blen m) (blen d) ltac:(lia) ltac:(lia)) as (-> & -> & ->).
  rewrite <- blen_app. pose proof (blen_app m d) as Hml. set (o := blen m mod 64) in *.
  destruct (Z.eqb_spec o 0) as [Ho|Ho]; cbn [negb].
  - rewrite Ha, <- (absorb_app _ _ m d) by (unfold blocks; dlia). apply append_blocks_ok; cbn; try done; try dlia.
    rewrite bdrop_0, <- (bdrop_0 data), (Hsub 0 (blen d)), bdrop_0, btake_all, bdrop_app_exact by lia. done.
  - set (copy := if o + blen d >? 64 then 64 - o else blen d).
    assert (Hcp : 0 < copy <= blen d /\ o + copy <= 64 /\ (o + copy < 64 -> copy = blen d)) by (unfold copy; destruct (Z.gtb_spec (o + blen d) 64); dlia).
    rewrite mem_read_in by lia. cbn [mbind option_bind buf abcd]. rewrite (Hsub 0 copy), bdrop_0 by lia.
    destruct (mem_write_some (buf s) o (btake copy d)) as (b & Eb & Lb); [dlia|rewrite blen_btake; dlia|]. rewrite Eb. cbn [mbind option_bind].
    assert (Hbuf : btake (o + copy) b = bdrop (64 * (blen m / 64)) m ++ btake copy d).
    { rewrite <- Hb. apply mem_write_prefix in Eb. rewrite blen_btake in Eb by lia. done. }
    destruct (Z.ltb_spec (o + copy) 64) as [Hlt|Hge].
    + eexists. split; [done|]. split; cbn; [done| |lia|].
      * rewrite Ha, <- (absorb_app _ _ m d) by (unfold blocks; dlia). f_equal. unfold blocks. dlia.
      * assert (Ec : copy = blen d) by lia. replace (blen (m ++ d) mod 64) with (o + copy) by dlia. rewrite Hbuf, Ec, btake_all.
        replace (blen (m ++ d) / 64) with (blen m / 64) by dlia. rewrite bdrop_app_le; [done|dlia].
    + assert (Hblk : md5_process (abcd s) b = absorb (blocks (64 * (blen m / 64) + 64)) (abcd (md5_init [])) (m ++ d)).
      { replace (blocks (64 * (blen m / 64) + 64)) with (blocks (blen m) + 1)%nat by (unfold blocks; dlia).
        rewrite absorb_plus, absorb_app, <- Ha by (unfold blocks; dlia). cbn [absorb]. f_equal.
        assert (btake 64 b = b) as Eb64 by (rewrite <- (btake_all b) at 2; f_equal; lia).
        rewrite <- Eb64. replace 64 with (o + copy) at 1 by lia. rewrite Hbuf. rewrite bdrop_app_le by (unfold blocks; dlia).
        replace (64 * Z.of_nat (blocks (blen m))) with (64 * (blen m / 64)) by (unfold blocks; dlia).
        rewrite btake_app_ge by (rewrite blen_bdrop; dlia). f_equal. f_equal. rewrite blen_bdrop; dlia. }
      cbn [abcd]. rewrite Hblk. apply append_blocks_ok; cbn; try done; try dlia.
      rewrite bdrop_app_ge, (Hsub copy (blen d - copy)) by dlia. replace (blen d - copy) with (blen (bdrop copy d)) by (rewrite blen_bdrop; lia).
      rewrite btake_all. f_equal. dlia.
Qed.

Lemma md5_append_all_ok pieces : forall s m, holds s m -> Forall (fun d => blen d <= INT_MAX) pieces ->
  exists s', md5_append_all s pieces = Some s' /\ holds s' (m ++ concat pieces).
Proof.
  induction pieces as [|d ds IH]; intros s m Hs Hp; [exists s; by rewrite app_nil_r|]. apply Forall_cons_iff in Hp as [Hd Hp]. pose proof (blen_nonneg d).
  destruct (md5_append_ok s m d (blen d) Hs) as (s1 & E & Hs1); [lia..|]. rewrite btake_all in Hs1. cbn [md5_append_all concat]. rewrite s32_small, E by lia. cbn [mbind option_bind].
  destruct (IH s1 _ Hs1 Hp) as (s2 & -> & Hs2). exists s2. by rewrite app_assoc.
Qed.

Lemma md5_init_holds raw : blen raw = 64 -> holds (md5_init raw) [].
Proof. intros Hr. by split. Qed.

Lemma le_bytes_2 a b : le_bytes [a; b] = Rfc.bytes_of a ++ Rfc.bytes_of b.
Proof. unfold le_bytes, Rfc.bytes_of. cbn -[Z.div Z.modulo Z.pow Z.shiftr]. by rewrite !Z.shiftr_div_pow2. Qed.
Lemma le_bytes_4 a b c d : le_bytes [a; b; c; d] = concat (map Rfc.bytes_of [a; b; c; d]).
Proof. unfold le_bytes, Rfc.bytes_of. cbn -[Z.div Z.modulo Z.pow Z.shiftr]. by rewrite !Z.shiftr_div_pow2. Qed.

Lemma absorb_rfc k : forall r m, 64 * Z.of_nat k <= blen m -> is_bytes m -> in_words r ->
  places 0 (absorb k r m) = Rfc.blocks k (places 0 r) m.
Proof.
  induction k as [|k IH]; intros r m Hl Hb Hr; [done|]. cbn [absorb Rfc.blocks].
  destruct (process_rfc (btake 64 m) r) as [E Hw]; [rewrite blen_btake; lia|by apply is_bytes_btake|done|]. rewrite <- E.
  apply IH; [rewrite blen_bdrop; lia|by apply is_bytes_bdrop|done].
Qed.

Lemma bytes_of_bytes w : is_bytes (Rfc.bytes_of w).
Proof. unfold Rfc.bytes_of. repeat constructor; unfold is_byte; apply Z.mod_pos_bound; lia. Qed.

Lemma padded_bytes m : is_bytes m -> is_bytes (Rfc.padded m).
Proof.
  intros Hm. unfold Rfc.padded. cbv zeta. rewrite !is_bytes_app. split_and!; [done| |apply bytes_of_bytes|apply bytes_of_bytes].
  constructor; [unfold is_byte; lia|]. generalize (Z.to_nat ((55 - blen m) mod 64)). intros n. clear.
  induction n; constructor; [unfold is_byte; lia|done].
Qed.

Lemma digest_of_rfc m : is_bytes m -> digest_of m = rfc1321 m.
Proof.
  intros Hm. unfold digest_of, rfc1321, Rfc.digest. rewrite le_bytes_4. f_equal. f_equal. change Rfc.initial with (places 0 (abcd (md5_init []))).
  pose proof (blen_nonneg (Rfc.padded m)).
  rewrite <- (absorb_rfc _ (abcd (md5_init []))); [reflexivity|dlia|by apply padded_bytes|].
  unfold in_words, in_word, Rfc.MOD. vm_compute. repeat split; discriminate.
Qed.

Lemma md5_finish_ok s m : holds s m -> md5_finish s = Some (digest_of m).
Proof.
  intros Hs. unfold md5_finish. pose proof Hs as [[C0 C1] _ _ _]. pose proof (blen_nonneg m). set (k := (55 - blen m) mod 64).
  assert (Hk : Z.land (u32 (55 - Z.shiftr (count0 s) 3)) 63 = k).
  { rewrite C0. change 63 with (Z.ones 6). rewrite Z.land_ones, Z.shiftr_div_pow2 by lia. unfold u32, k. change (2 ^ 3) with 8; change (2 ^ 6) with 64. dlia. }
  rewrite Hk, C0, C1. assert (Hk64 : 0 <= k < 64) by (apply Z.mod_pos_bound; lia).
  assert (Hpad : btake (k + 1) md5_pad = 128 :: repeat 0 (Z.to_nat k)).
  { unfold md5_pad, btake. replace (Z.to_nat (k + 1)) with (S (Z.to_nat k)) by lia. cbn [take]. f_equal.
    replace 63%nat with (Z.to_nat k + (63 - Z.to_nat k))%nat by lia. rewrite repeat_app. apply take_app_length'. by rewrite repeat_length. }
  destruct (md5_append_ok s m md5_pad (k + 1) Hs) as (s1 & -> & H1); [unfold INT_MAX; lia|change (blen md5_pad) with 64; lia|]. cbn [mbind option_bind].
  set (len := le_bytes _). assert (Hlen : blen len = 8) by done.
  destruct (md5_append_ok s1 _ len 8 H1) as (s2 & -> & H2); [done|lia|]. cbn [mbind option_bind]. rewrite Hpad in H2.
  replace (btake 8 len) with len in H2 by (rewrite <- Hlen, btake_all; done). destruct H2 as [_ Ha _ _]. rewrite Ha. unfold digest_of.
  assert (Rfc.padded m = (m ++ 128 :: repeat 0 (Z.to_nat k)) ++ len) as -> by (unfold Rfc.padded, len; rewrite le_bytes_2, <- app_assoc; done). done.
Qed.

Lemma md5_digest raw pieces : blen raw = 64 -> Forall (fun d => is_bytes d /\ blen d <= INT_MAX) pieces ->
  md5 raw pieces = Some (rfc1321 (concat pieces)).
Proof.
  intros Hr Hp. unfold md5. destruct (md5_append_all_ok pieces _ [] (md5_init_holds raw Hr)) as (s & -> & Hs); [revert Hp; apply Forall_impl; tauto|].
  cbn [mbind option_bind]. rewrite (md5_finish_ok _ _ Hs). f_equal. cbn [app]. apply digest_of_rfc. clear -Hp.
  induction Hp as [|d ds [Hd _] _ IH]; [constructor|]. cbn [concat]. by apply is_bytes_app.
Qed.

Lemma process_length g b : length (Rfc.process g b) = 4%nat.
Proof. done. Qed.
Lemma blocks_length k : forall g m, length g = 4%nat -> length (Rfc.blocks k g m) = 4%nat.
Proof. induction k as [|k IH]; intros g m Hg; [done|]. cbn [Rfc.blocks]. apply IH, process_length. Qed.

Lemma digest_length m : length (rfc1321 m) = 16%nat.
Proof.
  unfold rfc1321, Rfc.digest. pose proof (blocks_length (Z.to_nat (blen (Rfc.padded m) / 64)) Rfc.initial (Rfc.padded m) eq_refl) as H.
  destruct (Rfc.blocks _ _ _) as [|a [|b [|c [|d [|? ?]]]]]; cbn [length] in H; try lia. reflexivity.
Qed.

Lemma rfc1321_bytes m : is_bytes (rfc1321 m).
Proof.
  unfold rfc1321, Rfc.digest. induction (Rfc.blocks _ _ _) as [|w l IH]; [constructor|]. cbn [map concat]. apply is_bytes_app. split; [apply bytes_of_bytes|done].
Qed.


