(* ===== verification/RedHttpAuth.v ===== *)
(** HTTP proxy authentication of redsocks: the digest scheme of
    redsocks/http-auth.c (extract_param, digest_authentication_encode,
    dump_hash) and http_auth_request_header.

    A pointer into a C string is the rest of the string from there on.  The length
    of the reply is an int, as in the code.  The basic
    scheme is in RedBase64.v, MD5 in RedMd5.v. *)

From S2P Require Import Prelude ByteOrder ParseNumber IpAddr6 CString AddrText RedMd5.
From Stdlib Require Import Ascii String.
#[local] Abbreviation length := Datatypes.length.
#[local] Abbreviation concat := List.concat.
Open Scope Z_scope.

(** * Strings *)

(** The loops that advance a pointer while a test holds: what was passed and the rest. *)
Fixpoint scan (f : Z -> bool) (p : bytes) : bytes * bytes :=
  match p with
  | [] => ([], [])
  | c :: p' => if f c then let '(a, r) := scan f p' in (c :: a, r) else ([], p)
  end.

Definition tolower (c : Z) : Z := if (65 <=? c) && (c <=? 90) then c + 32 else c.

(** strncasecmp(a, key, n) == 0, where [a] has at least [n] characters. *)
Definition name_is (name key : bytes) : bool := bool_decide (map tolower name `prefix_of` map tolower key).

(** strncasecmp(a, key, strlen(key) + 1) == 0. *)
Definition casecmp_eq (a key : bytes) : bool := bool_decide (map tolower a = map tolower key).

(** * extract_param *)

(** The spaces at the end of a value. *)
Definition strip_end (v : bytes) : bytes := rev (skip_space (rev v)).

(** [None] for the result 0; else the rest of the source, the name and the value. *)
Definition extract_param (source : bytes) (separator : Z) : option (bytes * bytes * bytes) :=
  let p := skip_space source in
  if bool_decide (p = []) then None else
  let '(name, p) := scan (fun c => negb (isspace c) && negb (c =? CHR "=") && negb (c =? separator)) p in
  if bool_decide (name = []) then None else
  match skip_space p with
  | [] => Some ([], name, [])
  | c :: p =>
      if c =? separator then Some (p, name, []) else
      if negb (c =? CHR "=") then None else
      match skip_space p with
      | 34 :: p =>
          let '(value, p) := scan (fun c => negb (c =? 34)) p in
          match p with
          | [] => None
          | _ :: p =>
              let p := skip_space p in
              let '(_, p) := scan (fun c => negb (c =? separator)) p in
              Some (tail p, name, value)
          end
      | p =>
          let '(value, p) := scan (fun c => negb (c =? separator)) p in
          Some (tail p, name, strip_end value)
      end
  end.

(** The loop of digest_authentication_encode: the parameters in their order. *)
Fixpoint params_loop (fuel : nat) (ptr : bytes) : option (list (bytes * bytes)) :=
  match extract_param ptr (CHR ",") with
  | None => Some []
  | Some (ptr, name, value) =>
      match fuel with
      | O => None
      | S fuel => ps ← params_loop fuel ptr; Some ((name, value) :: ps)
      end
  end.

(** * digest_authentication_encode *)

Record digest_params := { realm : option bytes; opaque : option bytes; nonce : option bytes; qop : option bytes }.

Definition no_params : digest_params := {| realm := None; opaque := None; nonce := None; qop := None |}.

(** The tests on the name, in their order; a later value replaces an earlier one. *)
Definition set_param (d : digest_params) (p : bytes * bytes) : digest_params :=
  let '(name, value) := p in
  if name_is name (cstr "realm") then {| realm := Some value; opaque := opaque d; nonce := nonce d; qop := qop d |}
  else if name_is name (cstr "opaque") then {| realm := realm d; opaque := Some value; nonce := nonce d; qop := qop d |}
  else if name_is name (cstr "nonce") then {| realm := realm d; opaque := opaque d; nonce := Some value; qop := qop d |}
  else if name_is name (cstr "qop") then {| realm := realm d; opaque := opaque d; nonce := nonce d; qop := Some value |}
  else d.

Definition MD5_HASHLEN : Z := 16.

(** What sprintf and the terminator write into a buffer of [size] bytes. *)
Definition to_buffer (size : Z) (text : bytes) : option bytes := ASSERT blen text + 1 <=? size; Some text.

Definition dump_hash (hash : bytes) : option bytes :=
  hash ← mem_read hash 0 MD5_HASHLEN;
  to_buffer (MD5_HASHLEN * 2 + 1) (concat (map print_hex2 hash)).

(** %08x of an int. *)
Fixpoint print_hex8 (n : nat) (x : Z) : bytes := match n with O => [] | S n => print_hex8 n (x / 16) ++ [hex_char (x mod 16)] end.

Definition hash_of (raw : bytes) (pieces : list bytes) : option bytes := hash ← md5 raw pieces; dump_hash hash.

Definition quoted (name value : bytes) : bytes := name ++ [CHR "="; 34] ++ value ++ [34].

Definition colon : bytes := [CHR ":"].

(** len += strlen(text): the sum is a size_t, which is converted to an int. *)
Definition add_len (len : Z) (text : bytes) : Z := s32 (u64 (u64 len + blen text)).

(** The string that is returned, [None] inside for NULL; [raw] is what the buffer of
    the MD5 state holds at first.  The user, password, method and path may be NULL. *)
Definition digest_authentication_encode (raw line : bytes) (user passwd method path : option bytes) (count : Z) (cnonce : bytes)
    : option (option bytes) :=
  nc ← to_buffer 9 (print_hex8 8 (u32 count));
  ps ← params_loop (length line) line;
  let d := fold_left set_param ps no_params in
  match realm d, nonce d, user, passwd, path, method with
  | Some realm, Some nonce, Some user, Some passwd, Some path, Some method =>
      if match qop d with Some q => negb (casecmp_eq q (cstr "auth")) | None => false end then Some None else
      a1buf ← hash_of raw [user; colon; realm; colon; passwd];
      a2buf ← hash_of raw [method; colon; path];
      response ← hash_of raw ([a1buf; colon; nonce; colon]
                              ++ match qop d with Some q => [nc; colon; cnonce; colon; q; colon] | None => [] end ++ [a2buf]);
      let len := fold_left add_len
                   ([user; realm; nonce; path; response]
                    ++ match qop d with Some q => [q; nc; cnonce] | None => [] end
                    ++ match opaque d with Some o => [o] | None => [] end) 256 in
      let res := quoted (cstr "username") user ++ cstr ", " ++ quoted (cstr "realm") realm ++ cstr ", " ++ quoted (cstr "nonce") nonce
                 ++ cstr ", " ++ quoted (cstr "uri") path ++ cstr ", " ++ quoted (cstr "response") response
                 ++ match qop d with
                    | Some q => cstr ", qop=" ++ q ++ cstr ", nc=" ++ nc ++ cstr ", " ++ quoted (cstr "cnonce") cnonce
                    | None => []
                    end in
      res ← to_buffer len res;
      res ← to_buffer len (res ++ match opaque d with Some o => cstr ", " ++ quoted (cstr "opaque") o | None => [] end);
      Some (Some res)
  | _, _, _, _, _, _ => Some None
  end.

(** * http_auth_request_header *)

Definition auth_request_header : bytes := cstr "Proxy-Authenticate:".

(** The lines that redsocks_evbuffer_readline returns; what is copied to [tee] and
    the line that is returned. *)
Fixpoint http_auth_request_header (lines : list bytes) : list bytes * option bytes :=
  match lines with
  | [] => ([], None)
  | line :: lines =>
      let tee := line in
      if bool_decide (line = []) || negb (bool_decide (CHR ":" ∈ line)) then ([tee], None) else
      if name_is (btake (blen auth_request_header) line) auth_request_header && (blen auth_request_header <=? blen line) then ([tee], Some line)
      else let '(t, r) := http_auth_request_header lines in (tee :: t, r)
  end.

(** * Parameters that are written and read *)

Lemma scan_app f a r : Forall (fun c => f c = true) a -> match r with [] => True | c :: _ => f c = false end -> scan f (a ++ r) = (a, r).
Proof.
  induction 1 as [|c a Hc Ha IH]; intros Hr; cbn [scan app].
  - destruct r as [|c r]; [done|]. cbn [scan]. by rewrite Hr.
  - by rewrite Hc, (IH Hr).
Qed.

Lemma scan_split f p : let '(a, r) := scan f p in p = a ++ r /\ match r with [] => True | c :: _ => f c = false end.
Proof.
  induction p as [|c p IH]; [done|]. cbn [scan]. destruct (f c) eqn:E; [|done]. destruct (scan f p) as [a r]. destruct IH as [-> IH]. done.
Qed.

Lemma skip_space_length p : (length (skip_space p) <= length p)%nat.
Proof. induction p as [|c p IH]; [done|]. cbn [skip_space]. destruct (isspace c); simpl; lia. Qed.

Lemma scan_length f p : (length (scan f p).1 + length (scan f p).2 = length p)%nat.
Proof. pose proof (scan_split f p) as E. destruct (scan f p). destruct E as [-> _]. by rewrite length_app. Qed.

Lemma strip_end_length v : (length (strip_end v) <= length v)%nat.
Proof. unfold strip_end. rewrite length_rev. etransitivity; [apply skip_space_length|]. by rewrite length_rev. Qed.

Lemma tail_length (l : bytes) : (length (tail l) <= length l)%nat.
Proof. destruct l; simpl; lia. Qed.

(** Every parameter takes at least one character besides its value. *)
Lemma extract_param_length source sep rest name value : extract_param source sep = Some (rest, name, value) ->
  (length rest + length value < length source)%nat.
Proof.
  unfold extract_param. pose proof (skip_space_length source) as Hs. set (p := skip_space source) in *.
  destruct (bool_decide (p = [])); [done|].
  pose proof (scan_length (fun c => negb (isspace c) && negb (c =? CHR "=") && negb (c =? sep)) p) as Hn. destruct (scan _ p) as [nm q]. simpl in Hn.
  case_bool_decide as Hnm; [done|]. assert (1 <= length nm)%nat by (destruct nm; [done|simpl; lia]).
  pose proof (skip_space_length q) as Hq. destruct (skip_space q) as [|c q']; [intros [= <- <- <-]; simpl; lia|]. cbn [length] in Hq.
  destruct (c =? sep); [intros [= <- <- <-]; simpl; lia|]. destruct (negb (c =? _)); [done|].
  pose proof (skip_space_length q') as Hq'. set (v := skip_space q') in *.
  assert (Hun : forall l, (let '(value0, p0) := scan (fun c => negb (c =? sep)) l in Some (tail p0, nm, strip_end value0)) = Some (rest, name, value) ->
    (length rest + length value <= length l)%nat).
  { intros l. pose proof (scan_length (fun c => negb (c =? sep)) l) as Hl. destruct (scan _ l) as [a r]. intros [= <- _ <-].
    pose proof (tail_length r). pose proof (strip_end_length a). simpl in Hl. lia. }
  destruct v as [|c' v']; [intros E; apply Hun in E; simpl in E; lia|]. destruct (Z.eq_dec c' 34) as [->|Hc'].
  - pose proof (scan_length (fun c => negb (c =? 34)) v') as H1. destruct (scan (fun c => negb (c =? 34)) v') as [a [|x r]]; [done|]. simpl in H1.
    pose proof (skip_space_length r). pose proof (scan_length (fun c => negb (c =? sep)) (skip_space r)) as H2. destruct (scan _ (skip_space r)) as [a' r'].
    intros [= <- _ <-]. pose proof (tail_length r'). simpl in *. lia.
  - intros E. assert (E' : (let '(value0, p0) := scan (fun c => negb (c =? sep)) (c' :: v') in Some (tail p0, nm, strip_end value0)) = Some (rest, name, value)).
    { rewrite <- E. destruct c' as [|c'|c']; try done. do 6 (destruct c' as [c'|c'|]; try done). }
    apply Hun in E'. simpl in *. lia.
Qed.

Lemma skip_space_forall (P : Z -> Prop) p : Forall P p -> Forall P (skip_space p).
Proof. induction 1 as [|c p Hc Hp IH]; [constructor|]. cbn [skip_space]. destruct (isspace c); [done|by constructor]. Qed.

Lemma scan_forall (P : Z -> Prop) f p : Forall P p -> Forall P (scan f p).1 /\ Forall P (scan f p).2.
Proof. intros Hp. pose proof (scan_split f p) as E. destruct (scan f p) as [a r]. destruct E as [-> _]. by apply Forall_app in Hp. Qed.

Lemma tail_forall (P : Z -> Prop) p : Forall P p -> Forall P (tail p).
Proof. destruct 1; [constructor|done]. Qed.

Lemma strip_end_forall (P : Z -> Prop) v : Forall P v -> Forall P (strip_end v).
Proof. intros Hv. unfold strip_end. by apply Forall_rev, skip_space_forall, Forall_rev. Qed.

(** What is extracted is part of the source. *)
Lemma extract_param_forall (P : Z -> Prop) source sep rest name value : Forall P source ->
  extract_param source sep = Some (rest, name, value) -> Forall P rest /\ Forall P value.
Proof.
  intros Hs. unfold extract_param. apply skip_space_forall in Hs. set (p := skip_space source) in *. case_bool_decide; [done|].
  destruct (scan_forall P (fun c => negb (isspace c) && negb (c =? CHR "=") && negb (c =? sep)) p Hs) as [_ H2]. destruct (scan _ p) as [nm q]. cbn in H2.
  case_bool_decide; [done|]. apply skip_space_forall in H2. destruct (skip_space q) as [|c q']; [intros [= <- _ <-]; split; constructor|].
  apply Forall_cons_iff in H2 as [_ H2]. destruct (c =? sep); [intros [= <- _ <-]; by split|]. destruct (negb _); [done|].
  apply skip_space_forall in H2. set (v := skip_space q') in *.
  assert (Hun : forall l, Forall P l -> (let '(value0, p0) := scan (fun c => negb (c =? sep)) l in Some (tail p0, nm, strip_end value0)) = Some (rest, name, value) ->
    Forall P rest /\ Forall P value).
  { intros l Hl. destruct (scan_forall P (fun c => negb (c =? sep)) l Hl) as [H3 H4]. destruct (scan _ l) as [a r]. intros [= <- _ <-]. auto using tail_forall, strip_end_forall. }
  destruct v as [|c' v']; [by apply Hun|]. destruct (Z.eq_dec c' 34) as [->|Hc'].
  - apply Forall_cons_iff in H2 as [_ H2]. destruct (scan_forall P (fun c => negb (c =? 34)) v' H2) as [H3 H4].
    destruct (scan (fun c => negb (c =? 34)) v') as [a [|x r]]; [done|]. apply Forall_cons_iff in H4 as [_ H4].
    destruct (scan_forall P (fun c => negb (c =? sep)) (skip_space r) (skip_space_forall P r H4)) as [_ H5]. destruct (scan _ (skip_space r)) as [a' r'].
    intros [= <- _ <-]. auto using tail_forall.
  - intros E. apply (Hun (c' :: v') H2). rewrite <- E. destruct c' as [|c'|c']; try done. do 6 (destruct c' as [c'|c'|]; try done).
Qed.

Lemma params_loop_total fuel : forall ptr, (length ptr <= fuel)%nat -> is_bytes ptr ->
  exists ps, params_loop fuel ptr = Some ps /\ Forall (fun p => (length p.2 <= length ptr)%nat /\ is_bytes p.2) ps.
Proof.
  induction fuel as [|fuel IH]; intros ptr Hf Hb; cbn [params_loop]; destruct (extract_param ptr (CHR ",")) as [[[rest name] value]|] eqn:E; try (by eexists);
    destruct (extract_param_forall _ _ _ _ _ _ Hb E) as [Hb1 Hb2]; apply extract_param_length in E; [lia|].
  destruct (IH rest) as (ps & -> & Hps); [lia|done|]. eexists. split; [done|].
  constructor; [simpl; split; [lia|done]|]. revert Hps. apply Forall_impl. intros p [Hp ?]. split; [lia|done].
Qed.

(** A parameter as it is written: in quotes or without. *)
Record param := { p_name : bytes; p_value : bytes; p_quoted : bool }.

Definition write_param (p : param) : bytes :=
  if p_quoted p then quoted (p_name p) (p_value p) else p_name p ++ [CHR "="] ++ p_value p.

Fixpoint write_params (ps : list param) : bytes :=
  match ps with
  | [] => []
  | [p] => write_param p
  | p :: ps => write_param p ++ cstr ", " ++ write_params ps
  end.

Definition name_char (c : Z) : bool := negb (isspace c) && negb (c =? CHR "=") && negb (c =? CHR ",").
Definition bare_char (c : Z) : bool := negb (isspace c) && negb (c =? 34) && negb (c =? CHR ",").

(** Names are tokens; a value in quotes has no quote in it, and one without has no
    space, quote or comma. *)
Definition param_ok (p : param) : Prop :=
  p_name p <> [] /\ Forall (fun c => name_char c = true) (p_name p)
  /\ Forall (fun c => if p_quoted p then c <> 34 else bare_char c = true) (p_value p).

Lemma skip_space_app a r : Forall (fun c => isspace c = true) a -> skip_space (a ++ r) = skip_space r.
Proof. induction 1 as [|c a Hc Ha IH]; [done|]. cbn [app skip_space]. by rewrite Hc. Qed.

Lemma skip_space_none a r : match a ++ r with [] => True | c :: _ => isspace c = false end -> skip_space (a ++ r) = a ++ r.
Proof. destruct (a ++ r) as [|c l]; [done|]. intros E. cbn [skip_space]. by rewrite E. Qed.

Lemma bare_not_space v : Forall (fun c => bare_char c = true) v -> Forall (fun c => isspace c = false) v.
Proof. apply Forall_impl. intros c. unfold bare_char. by destruct (isspace c). Qed.

Lemma strip_end_bare v : Forall (fun c => bare_char c = true) v -> strip_end v = v.
Proof.
  intros Hv%bare_not_space. unfold strip_end. apply Forall_rev in Hv. rewrite <- (rev_involutive v) at 2. f_equal.
  destruct (rev v) as [|c l]; [done|]. apply Forall_cons_iff in Hv as [Hc _]. cbn [skip_space]. by rewrite Hc.
Qed.

(** Reading one written parameter, after some spaces and before the end or a comma. *)
Lemma extract_written sp p r : Forall (fun c => isspace c = true) sp -> param_ok p -> r = [] \/ (exists r', r = CHR "," :: r') ->
  extract_param (sp ++ write_param p ++ r) (CHR ",") = Some (tail r, p_name p, p_value p).
Proof.
  intros Hsp (Hne & Hn & Hv) Hr. unfold extract_param. rewrite skip_space_app by done. destruct p as [name value q]. cbn [p_name p_value p_quoted] in *.
  set (body := if q then [34] ++ value ++ [34] ++ r else value ++ r).
  assert (Ew : write_param {| p_name := name; p_value := value; p_quoted := q |} ++ r = name ++ CHR "=" :: body).
  { unfold write_param, quoted, body. cbn [p_name p_value p_quoted]. destruct q; rewrite <- !app_assoc; done. }
  rewrite Ew. destruct name as [|c0 name]; [done|].
  assert (Hc0 : isspace c0 = false) by (apply Forall_cons_iff in Hn as [Hc _]; unfold name_char in Hc; by destruct (isspace c0)).
  rewrite (skip_space_none (c0 :: name)) by done. rewrite bool_decide_eq_false_2 by done.
  rewrite (scan_app _ (c0 :: name) (CHR "=" :: body)) by (try done; exact Hn). rewrite bool_decide_eq_false_2 by done. cbn [skip_space isspace Z.eqb Pos.eqb orb andb Z.leb Z.compare Pos.compare Pos.compare_cont negb].
  assert (Hend : forall (v : bytes) l, Forall (fun c => c <> CHR ",") v -> l = v ++ r -> scan (fun c => negb (c =? CHR ",")) l = (v, r)).
  { intros v l Hc ->. apply scan_app; [revert Hc; apply Forall_impl; intros c Hc; by apply negb_true_iff, Z.eqb_neq|]. destruct Hr as [->|[r' ->]]; done. }
  unfold body. destruct q.
  - cbn [app]. cbn [skip_space isspace Z.eqb Pos.eqb orb andb Z.leb Z.compare Pos.compare Pos.compare_cont].
    rewrite (scan_app _ value (34 :: r)); [|revert Hv; apply Forall_impl; intros c Hc; by apply negb_true_iff, Z.eqb_neq|done].
    assert (skip_space r = r) as -> by (destruct Hr as [->|[r' ->]]; done). by rewrite (Hend [] r).
  - pose proof (bare_not_space value Hv) as Hns.
    rewrite skip_space_none by (destruct value as [|c v]; [destruct Hr as [->|[r' ->]]; done|by apply Forall_cons_iff in Hns as [? _]]).
    assert (Hsc : scan (fun c => negb (c =? CHR ",")) (value ++ r) = (value, r)).
    { apply Hend; [|done]. revert Hv. apply Forall_impl. intros c. unfold bare_char. destruct (Z.eqb_spec c (CHR ",")); [|done]. by rewrite andb_false_r. }
    assert (H34 : match value ++ r with c :: _ => c <> 34 | [] => True end).
    { destruct value as [|c v]; [destruct Hr as [->|[r' ->]]; done|]. apply Forall_cons_iff in Hv as [Hc _]. unfold bare_char in Hc. intros ->. by rewrite andb_false_r in Hc. }
    destruct (value ++ r) as [|c l]; [by rewrite Hsc, strip_end_bare|].
    destruct c as [|c|c]; try (by rewrite Hsc, strip_end_bare). do 6 (destruct c as [c|c|]; try (by rewrite Hsc, strip_end_bare)). done.
Qed.

Lemma params_written ps : forall sp fuel, Forall (fun c => isspace c = true) sp -> Forall param_ok ps -> (length ps <= fuel)%nat ->
  params_loop fuel (sp ++ write_params ps) = Some (map (fun p => (p_name p, p_value p)) ps).
Proof.
  induction ps as [|p ps IH]; intros sp fuel Hsp Hok Hf.
  - assert (extract_param (sp ++ []) (CHR ",") = None) as E by (unfold extract_param; by rewrite skip_space_app). destruct fuel; cbn [params_loop write_params]; by rewrite E.
  - apply Forall_cons_iff in Hok as [Hp Hok]. destruct fuel as [|fuel]; [simpl in Hf; lia|]. simpl in Hf. cbn [params_loop].
    destruct ps as [|p' ps].
    + cbn [write_params]. rewrite <- (app_nil_r (write_param p)), (extract_written sp p []); [|done|done|by left].
      specialize (IH [] fuel ltac:(done) ltac:(done) ltac:(simpl; lia)). cbn in IH. cbn [tail]. by rewrite IH.
    + change (write_params (p :: p' :: ps)) with (write_param p ++ cstr ", " ++ write_params (p' :: ps)).
      rewrite (extract_written sp p (cstr ", " ++ write_params (p' :: ps))); [|done|done|right; by eexists]. cbn [tail app].
      change (tail (cstr ", " ++ write_params (p' :: ps))) with ([32] ++ write_params (p' :: ps)).
      rewrite (IH [32] fuel); [done|by repeat constructor|done|lia].
Qed.

Lemma write_params_length cs : (length cs <= length (write_params cs))%nat.
Proof.
  induction cs as [|c [|c' cs] IH]; [done| |].
  - simpl. unfold write_param, quoted. destruct (p_quoted c); rewrite !length_app; simpl; lia.
  - change (write_params (c :: c' :: cs)) with (write_param c ++ cstr ", " ++ write_params (c' :: cs)). rewrite !length_app. simpl in *. lia.
Qed.

(** * Correctness *)

Definition hexdigest (m : bytes) : bytes := concat (map print_hex2 (rfc1321 m)).

Lemma rfc1321_length m : length (rfc1321 m) = 16%nat.
Proof. apply digest_length. Qed.

Lemma hexdigest_length m : blen (hexdigest m) = 32.
Proof.
  assert (H : forall l, blen (concat (map print_hex2 l)) = 2 * blen l).
  { induction l as [|x l IH]; [done|]. cbn [map concat]. rewrite blen_app, IH, blen_cons. change (blen (print_hex2 x)) with 2. lia. }
  unfold hexdigest. rewrite H. unfold blen. by rewrite rfc1321_length.
Qed.

(** A string of the program. *)
Definition text (s : bytes) : Prop := is_bytes s /\ blen s <= INT_MAX.

Definition textb (s : bytes) : bool := forallb (fun b => (0 <=? b) && (b <? 256)) s && (blen s <=? INT_MAX).
Lemma textb_text s : textb s = true -> text s.
Proof.
  unfold textb, text. intros [H1 H2]%andb_true_iff. split; [|by apply Z.leb_le]. unfold is_bytes. clear H2.
  induction s as [|b s IH]; [constructor|]. cbn [forallb] in H1. apply andb_true_iff in H1 as [H1 H2]. constructor; [unfold is_byte; zbool; lia|auto].
Qed.

Lemma hash_of_ok raw pieces : blen raw = 64 -> Forall text pieces -> hash_of raw pieces = Some (hexdigest (concat pieces)).
Proof.
  intros Hr Hp. unfold hash_of. rewrite (md5_digest raw pieces Hr Hp). cbn [mbind option_bind app].
  unfold dump_hash, to_buffer. rewrite mem_read_in by (unfold blen; rewrite ?rfc1321_length; done). cbn [mbind option_bind].
  rewrite bdrop_0. replace (btake MD5_HASHLEN (rfc1321 (concat pieces))) with (rfc1321 (concat pieces))
    by (rewrite <- (btake_all (rfc1321 (concat pieces))) at 1; f_equal; unfold blen; by rewrite rfc1321_length).
  change (concat (map print_hex2 (rfc1321 (concat pieces)))) with (hexdigest (concat pieces)). by rewrite hexdigest_length.
Qed.

Lemma hex_char_byte d : 0 <= d < 16 -> is_byte (hex_char d).
Proof. intros Hd. unfold hex_char, is_byte. change (CHR "0") with 48. change (CHR "a") with 97. destruct (d <? 10); lia. Qed.

Lemma hexdigest_text m : text (hexdigest m).
Proof.
  split; [|by rewrite hexdigest_length]. unfold hexdigest. pose proof (rfc1321_bytes m) as Hb. induction Hb as [|x l Hx Hl IH]; [constructor|].
  cbn [map concat]. apply is_bytes_app. split; [|done]. unfold is_byte in Hx. repeat constructor; apply hex_char_byte; dlia.
Qed.

Lemma print_hex8_bytes n x : is_bytes (print_hex8 n x).
Proof. revert x. induction n as [|n IH]; intros x; [constructor|]. cbn [print_hex8]. apply is_bytes_app. split; [done|]. repeat constructor; apply hex_char_byte; dlia. Qed.

Lemma print_hex8_length n x : blen (print_hex8 n x) = Z.of_nat n.
Proof. revert x. induction n as [|n IH]; intros x; [done|]. cbn [print_hex8]. rewrite blen_app, IH, blen_cons, blen_nil. lia. Qed.

(** The response of RFC 2617. *)
Definition rfc2617_response (user realm passwd method path nonce : bytes) (auth : option (bytes * bytes * bytes)) : bytes :=
  let a1 := user ++ colon ++ realm ++ colon ++ passwd in
  let a2 := method ++ colon ++ path in
  hexdigest (hexdigest a1 ++ colon ++ nonce ++ colon
             ++ match auth with Some (nc, cnonce, q) => nc ++ colon ++ cnonce ++ colon ++ q ++ colon | None => [] end ++ hexdigest a2).

Definition text_param (name : String.string) (v : bytes) : param := {| p_name := cstr name; p_value := v; p_quoted := true |}.
Definition bare_param (name : String.string) (v : bytes) : param := {| p_name := cstr name; p_value := v; p_quoted := false |}.

(** The parameters of the reply to a challenge. *)
Definition reply_params (d : digest_params) (r n user passwd method path nc cnonce : bytes) : list param :=
  let auth := (fun q => (nc, cnonce, q)) <$> qop d in
  [text_param "username" user; text_param "realm" r; text_param "nonce" n; text_param "uri" path;
   text_param "response" (rfc2617_response user r passwd method path n auth)]
  ++ match qop d with Some q => [bare_param "qop" q; bare_param "nc" nc; text_param "cnonce" cnonce] | None => [] end
  ++ match opaque d with Some o => [text_param "opaque" o] | None => [] end.

Definition qop_ok (d : digest_params) : bool := match qop d with Some q => casecmp_eq q (cstr "auth") | None => true end.

Lemma set_params_length n ps : Forall (fun p => (length p.2 <= n)%nat /\ is_bytes p.2) ps ->
  let ok (v : option bytes) := match v with Some v => (length v <= n)%nat /\ is_bytes v | None => True end in
  let d := fold_left set_param ps no_params in ok (realm d) /\ ok (opaque d) /\ ok (nonce d) /\ ok (qop d).
Proof.
  intros Hps ok d. unfold d. assert (H0 : ok (realm no_params) /\ ok (opaque no_params) /\ ok (nonce no_params) /\ ok (qop no_params)) by done.
  revert H0. generalize no_params. induction Hps as [|[nm v] ps Hp Hps IH]; intros d0 H0; [done|]. cbn [fold_left]. apply IH. simpl in Hp.
  unfold set_param. destruct H0 as (?&?&?&?). repeat case_match; done.
Qed.

Lemma to_buffer_ok size text : blen text + 1 <= size -> to_buffer size text = Some text.
Proof. intros Hl. unfold to_buffer. by rewrite (proj2 (Z.leb_le _ _) Hl). Qed.

Lemma quoted_length name v : blen (quoted name v) = blen name + blen v + 3.
Proof. unfold quoted. rewrite !blen_app, !blen_cons, !blen_nil. lia. Qed.

Ltac texts := repeat (apply Forall_cons_2; [auto using hexdigest_text|]); apply Forall_nil_2.

Ltac text_length :=
  rewrite ?blen_app, ?quoted_length, ?blen_nil;
  repeat match goal with |- context [blen (cstr ?s)] => let k := eval vm_compute in (blen (cstr s)) in change (blen (cstr s)) with k end.

Lemma add_lens l : forall n, 0 <= n -> n + fold_right (fun s acc => blen s + acc) 0 l <= INT_MAX ->
  fold_left add_len l n = n + fold_right (fun s acc => blen s + acc) 0 l.
Proof.
  assert (Hpos : forall l, 0 <= fold_right (fun s acc => blen s + acc) 0 l) by (induction l0 as [|x l0 IH0]; cbn [fold_right]; [lia|pose proof (blen_nonneg x); lia]).
  induction l as [|x l IH]; intros n Hn Hl; cbn [fold_left fold_right] in *; [lia|]. pose proof (blen_nonneg x). pose proof (Hpos l).
  unfold add_len at 2. unfold INT_MAX in Hl. rewrite (u64_small n), u64_small, s32_small by (unfold INT_MAX; lia). rewrite IH by (unfold INT_MAX; lia). lia.
Qed.


(** The example of RFC 2617. *)
Definition ex_challenge : list param :=
  [text_param "realm" (cstr "testrealm@host.com"); bare_param "qop" (cstr "auth"); text_param "nonce" (cstr "dcd98b7102dd2f0e8b11d0f600bfb0c093");
   text_param "opaque" (cstr "5ccc069c403ebaf9f0171e9517f40e41")].

Example rfc2617_example :
  rfc2617_response (cstr "Mufasa") (cstr "testrealm@host.com") (cstr "Circle Of Life") (cstr "GET") (cstr "/dir/index.html")
    (cstr "dcd98b7102dd2f0e8b11d0f600bfb0c093") (Some (cstr "00000001", cstr "0a4f113b", cstr "auth")) = cstr "6629fae49393a05397450978507c4ef1".
Proof. vm_compute. reflexivity. Qed.


(** strncasecmp compares no more than the length of the name: a parameter whose name is
    the beginning of "realm" or "nonce" is taken for it; and what follows a quoted
    value up to the next comma is skipped. *)
Example short_names :
  realm (fold_left set_param [(cstr "realm", cstr "x"); (cstr "r", cstr "y")] no_params) = Some (cstr "y")
  /\ extract_param (cstr "a=" ++ [34] ++ cstr "b" ++ [34] ++ cstr "garbage, c") (CHR ",") = Some (cstr " c", cstr "a", cstr "b").
Proof. vm_compute. done. Qed.
