(* ===== verification/RedSocks.v ===== *)
(** The SOCKS5 client of redsocks: redsocks/socks5.c, with redsocks_read_expected
    and redsocks_write_helper of redsocks/redsocks.c.

    The connection to the proxy is a bufferevent of libevent: [be_input] is what was
    read and not yet removed, and the watermarks bound it.  libevent reads while the
    input is below the high watermark and calls the read callback when it has
    reached the low one ([deliver]).  [None] is a failed assertion. *)

From S2P Require Import Prelude ByteOrder BAddr ParseNumber CString.
From Stdlib Require Import Ascii String.
#[local] Abbreviation length := Datatypes.length.
#[local] Abbreviation concat := List.concat.
Open Scope Z_scope.

(** * The client and its bufferevent *)

Inductive socks5_state := socks5_new | socks5_method_sent | socks5_auth_sent | socks5_request_sent | socks5_skip_domain | socks5_skip_address.
#[export] Instance socks5_state_eq_dec : EqDecision socks5_state.
Proof. solve_decision. Defined.

Record redsocks_config := { login : option bytes; password : option bytes }.

Record destaddr := { sin_addr : Z; sin_port : Z }.    (* in network byte order *)

(** [S] is the state of the protocol. *)
Record redsocks_client {S : Type} := {
  state : S;
  do_password : bool;
  to_skip : Z;
  be_input : bytes;
  be_output : bytes;           (* all that was written *)
  wm_low : Z; wm_high : Z;     (* of reading *)
  read_enabled : bool;
  dropped : bool;              (* redsocks_drop_client was called *)
  relaying : bool }.           (* redsocks_start_relay was called *)
Arguments redsocks_client : clear implicits.

Section Helpers.
Context {S : Type}.
Abbreviation client := (redsocks_client S).

Definition set_state (c : client) (st : S) : client :=
  {| state := st; do_password := do_password c; to_skip := to_skip c; be_input := be_input c; be_output := be_output c;
     wm_low := wm_low c; wm_high := wm_high c; read_enabled := read_enabled c; dropped := dropped c; relaying := relaying c |}.
Definition set_input (c : client) (i : bytes) : client :=
  {| state := state c; do_password := do_password c; to_skip := to_skip c; be_input := i; be_output := be_output c;
     wm_low := wm_low c; wm_high := wm_high c; read_enabled := read_enabled c; dropped := dropped c; relaying := relaying c |}.
Definition set_to_skip (c : client) (n : Z) : client :=
  {| state := state c; do_password := do_password c; to_skip := n; be_input := be_input c; be_output := be_output c;
     wm_low := wm_low c; wm_high := wm_high c; read_enabled := read_enabled c; dropped := dropped c; relaying := relaying c |}.

(** redsocks_drop_client and redsocks_start_relay, as far as the dialog is concerned:
    it is over (RedPump.v has what they do). *)
Definition mark_dropped (c : client) : client :=
  {| state := state c; do_password := do_password c; to_skip := to_skip c; be_input := be_input c; be_output := be_output c;
     wm_low := wm_low c; wm_high := wm_high c; read_enabled := read_enabled c; dropped := true; relaying := relaying c |}.
Definition mark_relaying (c : client) : client :=
  {| state := state c; do_password := do_password c; to_skip := to_skip c; be_input := be_input c; be_output := be_output c;
     wm_low := wm_low c; wm_high := wm_high c; read_enabled := read_enabled c; dropped := dropped c; relaying := true |}.

Definition sizes_equal (a b : Z) : bool := a =? b.
Definition sizes_greater_equal (a b : Z) : bool := a >=? b.

(** The data that was read, or [inr] the dropped client. *)
Definition redsocks_read_expected (c : client) (comparator : Z -> Z -> bool) (expected : Z) : option (client * bytes + client) :=
  let len := blen (be_input c) in
  if comparator len expected then
    data ← mem_read (be_input c) 0 expected;
    Some (inl (set_input c (bdrop expected (be_input c)), data))
  else Some (inr (mark_dropped c)).

(** redsocks_write_helper_ex_plain with both watermarks [wm_only]; [message] is [None]
    for the NULL message maker, and [made] says whether the buffer could be made and
    written. *)
Definition redsocks_write_helper (made : bool) (c : client) (message : option bytes) (st : S) (wm_only : Z) : client :=
  let go (c : client) (out : bytes) :=
    {| state := st; do_password := do_password c; to_skip := to_skip c; be_input := be_input c; be_output := be_output c ++ out;
       wm_low := wm_only; wm_high := wm_only; read_enabled := true; dropped := dropped c; relaying := relaying c |} in
  match message with
  | Some m => if made then go c m else mark_dropped c
  | None => go c []
  end.
End Helpers.

(** * socks5.c *)

Definition socks5_ver : Z := 5.
Definition socks5_auth_none : Z := 0.
Definition socks5_auth_password : Z := 2.
Definition socks5_auth_invalid : Z := 255.
Definition socks5_password_ver : Z := 1.
Definition socks5_password_passed : Z := 0.
Definition socks5_addrtype_ipv4 : Z := 1.
Definition socks5_addrtype_domain : Z := 3.
Definition socks5_addrtype_ipv6 : Z := 4.
Definition socks5_status_succeeded : Z := 0.
Definition socks5_cmd_connect : Z := 1.

Definition socks5_is_valid_cred (login password : option bytes) : bool :=
  match login, password with
  | Some l, Some p => if blen l >? 255 then false else if blen p >? 255 then false else true
  | _, _ => false
  end.

Definition socks5_instance_init (config : redsocks_config) : redsocks_config :=
  match login config, password config with
  | None, None => config
  | Some l, Some p => if negb (socks5_is_valid_cred (Some l) (Some p)) then {| login := None; password := None |} else config
  | _, _ => {| login := None; password := None |}
  end.

Definition socks5_client_init (config : redsocks_config) : redsocks_client socks5_state :=
  {| state := socks5_new;
     do_password := match login config, password config with Some _, Some _ => true | _, _ => false end;
     to_skip := 0; be_input := []; be_output := []; wm_low := 0; wm_high := 0; read_enabled := false; dropped := false; relaying := false |}.

Definition socks5_mkmethods_plain (do_password : bool) : bytes :=
  [socks5_ver; if do_password then 2 else 1; socks5_auth_none] ++ (if do_password then [socks5_auth_password] else []).

(** The lengths are stored in single bytes. *)
Definition socks5_mkpassword_plain (login password : bytes) : bytes :=
  [socks5_password_ver; u8 (blen login)] ++ login ++ [u8 (blen password)] ++ password.

Definition socks5_mkcommand_plain (socks5_cmd : Z) (d : destaddr) : bytes :=
  [socks5_ver; socks5_cmd; 0; socks5_addrtype_ipv4] ++ mem32 (sin_addr d) ++ mem16 (sin_port d).

(** Whether there is no error. *)
Definition socks5_is_known_auth_method (reply : bytes) (do_password : bool) : bool :=
  let ver := nth 0 reply 0 in
  let method := nth 1 reply 0 in
  if negb (ver =? socks5_ver) then false
  else if method =? socks5_auth_invalid then false
  else if negb (method =? socks5_auth_none) && negb ((method =? socks5_auth_password) && do_password) then false
  else true.

Section Socks5.
Context (config : redsocks_config) (dest : destaddr).
Abbreviation client := (redsocks_client socks5_state).

(** [made] as in [redsocks_write_helper]. *)
Definition socks5_write_cb (made : bool) (c : client) : client :=
  if bool_decide (state c = socks5_new) then
    redsocks_write_helper made c (Some (socks5_mkmethods_plain (do_password c))) socks5_method_sent 2
  else c.

Definition socks5_read_auth_methods (made : bool) (c : client) : option client :=
  r ← redsocks_read_expected c sizes_equal 2;
  match r with
  | inr c => Some c
  | inl (c, reply) =>
      if negb (socks5_is_known_auth_method reply (do_password c)) then Some (mark_dropped c)
      else if nth 1 reply 0 =? socks5_auth_none then
        Some (redsocks_write_helper made c (Some (socks5_mkcommand_plain socks5_cmd_connect dest)) socks5_request_sent 4)
      else if nth 1 reply 0 =? socks5_auth_password then
        l ← login config;
        p ← password config;
        Some (redsocks_write_helper made c (Some (socks5_mkpassword_plain l p)) socks5_auth_sent 2)
      else Some c
  end.

Definition socks5_read_auth_reply (made : bool) (c : client) : option client :=
  r ← redsocks_read_expected c sizes_equal 2;
  match r with
  | inr c => Some c
  | inl (c, reply) =>
      if negb (nth 0 reply 0 =? socks5_password_ver) then Some (mark_dropped c)
      else if nth 1 reply 0 =? socks5_password_passed then
        Some (redsocks_write_helper made c (Some (socks5_mkcommand_plain socks5_cmd_connect dest)) socks5_request_sent 4)
      else Some (mark_dropped c)
  end.

Definition socks5_read_reply (made : bool) (c : client) : option client :=
  r ← redsocks_read_expected c sizes_greater_equal 4;
  match r with
  | inr c => Some c
  | inl (c, reply) =>
      if negb (nth 0 reply 0 =? socks5_ver) then Some (mark_dropped c)
      else if nth 1 reply 0 =? socks5_status_succeeded then
        let addrtype := nth 3 reply 0 in
        if addrtype =? socks5_addrtype_ipv4 then Some (redsocks_write_helper made (set_to_skip c 6) None socks5_skip_address 6)
        else if addrtype =? socks5_addrtype_ipv6 then Some (redsocks_write_helper made (set_to_skip c 18) None socks5_skip_address 18)
        else if addrtype =? socks5_addrtype_domain then Some (redsocks_write_helper made c None socks5_skip_domain 1)
        else Some (mark_dropped c)
      else Some (mark_dropped c)
  end.

Definition socks5_read_cb (made : bool) (c : client) : option client :=
  match state c with
  | socks5_method_sent => socks5_read_auth_methods made c
  | socks5_auth_sent => socks5_read_auth_reply made c
  | socks5_request_sent => socks5_read_reply made c
  | socks5_skip_domain =>
      r ← redsocks_read_expected c sizes_greater_equal 1;
      match r with
      | inr c => Some c
      | inl (c, data) =>
          let size := nth 0 data 0 in
          let c := set_to_skip c (size + 2) in
          Some (redsocks_write_helper made c None socks5_skip_address (to_skip c))
      end
  | socks5_skip_address =>
      r ← redsocks_read_expected c sizes_greater_equal (to_skip c);
      match r with
      | inr c => Some c
      | inl (c, _) => Some (mark_relaying c)
      end
  | socks5_new => Some (mark_dropped c)
  end.

(** libevent reads [d] from the proxy. *)
Definition deliver (made : bool) (c : client) (d : bytes) : option client :=
  let c := set_input c (be_input c ++ d) in
  if blen (be_input c) >=? wm_low c then socks5_read_cb made c else Some c.

(** libevent reads no more than up to the high watermark, while reading is enabled
    and the client is there. *)
Definition may_read (c : client) (d : bytes) : Prop :=
  read_enabled c = true /\ dropped c = false /\ relaying c = false /\ d <> [] /\ blen (be_input c) + blen d <= wm_high c.

Fixpoint deliver_all (c : client) (ds : list bytes) : option client :=
  match ds with [] => Some c | d :: ds => c ← deliver true c d; deliver_all c ds end.

Fixpoint may_read_all (c : client) (ds : list bytes) : Prop :=
  match ds with
  | [] => True
  | d :: ds => may_read c d /\ match deliver true c d with Some c => may_read_all c ds | None => True end
  end.
End Socks5.

(** * The dialog with the server, read off the whole stream

    [Waiting] has the number of bytes that are there of the next part and the size of
    that part; [Accepted] the bytes after the dialog. *)
Inductive outcome := Waiting (sent : bytes) (have need : Z) | Refused (sent : bytes) | Accepted (sent rest : bytes).

Section Dialog.
Context (credentials : option (bytes * bytes)) (dest : destaddr).

Definition greeting : bytes := match credentials with Some _ => [5; 2; 0; 2] | None => [5; 1; 0] end.
Definition connect_request : bytes := [5; 1; 0; 1] ++ mem32 (sin_addr dest) ++ mem16 (sin_port dest).

(** RFC 1929. *)
Definition password_request (l p : bytes) : bytes := [1; blen l] ++ l ++ [blen p] ++ p.

Definition after_address (sent : bytes) (n : Z) (s : bytes) : outcome :=
  if blen s <? n then Waiting sent (blen s) n else Accepted sent (bdrop n s).

Definition after_domain (sent : bytes) (s : bytes) : outcome :=
  match s with
  | size :: s => after_address sent (size + 2) s
  | [] => Waiting sent 0 1
  end.

Definition after_request (sent : bytes) (s : bytes) : outcome :=
  match s with
  | ver :: status :: _ :: addrtype :: s =>
      if (ver =? 5) && (status =? 0) then
        if addrtype =? 1 then after_address sent 6 s
        else if addrtype =? 4 then after_address sent 18 s
        else if addrtype =? 3 then after_domain sent s
        else Refused sent
      else Refused sent
  | _ => Waiting sent (blen s) 4
  end.

Definition after_password (sent : bytes) (s : bytes) : outcome :=
  match s with
  | ver :: status :: s =>
      if (ver =? 1) && (status =? 0) then after_request (sent ++ connect_request) s else Refused sent
  | _ => Waiting sent (blen s) 2
  end.

Definition after_greeting (sent : bytes) (s : bytes) : outcome :=
  match s with
  | ver :: method :: s =>
      if (ver =? 5) && (method =? 0) then after_request (sent ++ connect_request) s
      else match credentials with
           | Some (l, p) => if (ver =? 5) && (method =? 2) then after_password (sent ++ password_request l p) s else Refused sent
           | None => Refused sent
           end
  | _ => Waiting sent (blen s) 2
  end.

Definition dialog (s : bytes) : outcome := after_greeting greeting s.
End Dialog.

(** The credentials the configuration gives: both of them, and short enough. *)
Definition usable_credentials (config : redsocks_config) : option (bytes * bytes) :=
  match login config, password config with
  | Some l, Some p => if (blen l <=? 255) && (blen p <=? 255) then Some (l, p) else None
  | _, _ => None
  end.

(** What the outcome of the dialog says of the client. *)
Definition client_shows {S} (c : redsocks_client S) (o : outcome) : Prop :=
  match o with
  | Waiting sent have need =>
      dropped c = false /\ relaying c = false /\ read_enabled c = true /\ be_output c = sent /\
      blen (be_input c) = have /\ wm_low c = need /\ wm_high c = need /\ have < need
  | Refused sent => dropped c = true /\ relaying c = false /\ be_output c = sent
  | Accepted sent rest => dropped c = false /\ relaying c = true /\ be_output c = sent /\ be_input c = rest
  end.

(** * Proofs *)

Section Proofs.
Context (config : redsocks_config) (dest : destaddr).
Abbreviation client := (redsocks_client socks5_state).
Abbreviation init_config := (socks5_instance_init config).
Abbreviation creds := (usable_credentials config).

Lemma instance_credentials : match login init_config, password init_config with
  | Some l, Some p => creds = Some (l, p) /\ blen l <= 255 /\ blen p <= 255
  | None, None => creds = None
  | _, _ => False
  end.
Proof.
  unfold socks5_instance_init, usable_credentials, socks5_is_valid_cred.
  destruct (login config) as [l|] eqn:El, (password config) as [p|] eqn:Ep; cbn; rewrite ?El, ?Ep; try done.
  rewrite !Z.gtb_ltb. destruct (255 <? blen l) eqn:E1; cbn; [zbool; destruct (blen l <=? 255) eqn:E; zbool; [lia|done]|].
  destruct (255 <? blen p) eqn:E2; cbn; [zbool; destruct (blen p <=? 255) eqn:E; zbool; [lia|by rewrite andb_false_r]|].
  rewrite El, Ep. zbool. rewrite (proj2 (Z.leb_le (blen l) 255)), (proj2 (Z.leb_le (blen p) 255)) by lia. auto.
Qed.

(** What is read from a state on, given all that is in the input and comes. *)
Definition resume (c : client) (s : bytes) : outcome :=
  if dropped c then Refused (be_output c)
  else if relaying c then Accepted (be_output c) s
  else match state c with
  | socks5_new => Refused []
  | socks5_method_sent => after_greeting creds dest (be_output c) s
  | socks5_auth_sent => after_password dest (be_output c) s
  | socks5_request_sent => after_request (be_output c) s
  | socks5_skip_domain => after_domain (be_output c) s
  | socks5_skip_address => after_address (be_output c) (to_skip c) s
  end.

Definition need (c : client) : Z :=
  match state c with
  | socks5_new => 0
  | socks5_method_sent | socks5_auth_sent => 2
  | socks5_request_sent => 4
  | socks5_skip_domain => 1
  | socks5_skip_address => to_skip c
  end.

Definition client_inv (c : client) : Prop :=
  state c <> socks5_new /\ read_enabled c = true /\ is_bytes (be_input c) /\
  wm_low c = need c /\ wm_high c = need c /\ 0 < need c /\
  do_password c = (match creds with Some _ => true | None => false end) /\
  ~ (dropped c = true /\ relaying c = true) /\
  (dropped c = false -> relaying c = false -> blen (be_input c) < need c).

Lemma sizes_equal_refl n : sizes_equal n n = true.
Proof. apply Z.eqb_refl. Qed.
Lemma sizes_greater_equal_refl n : sizes_greater_equal n n = true.
Proof. unfold sizes_greater_equal. lia. Qed.

Lemma read_expected_len c (cmp : Z -> Z -> bool) n : blen (be_input c) = n -> (forall k, cmp k k = true) ->
  redsocks_read_expected (S := socks5_state) c cmp n = Some (inl (set_input c [], be_input c)).
Proof.
  intros <- Hc. unfold redsocks_read_expected. rewrite Hc, mem_read_in by (pose proof (blen_nonneg (be_input c)); lia).
  cbn [mbind option_bind]. rewrite bdrop_0, btake_all. unfold bdrop, blen. by rewrite Nat2Z.id, drop_all.
Qed.

Lemma list_of_2 (l : bytes) : blen l = 2 -> exists a b, l = [a; b].
Proof. unfold blen. destruct l as [|a [|b [|]]]; cbn; try lia. eauto. Qed.
Lemma list_of_4 (l : bytes) : blen l = 4 -> exists a b c d, l = [a; b; c; d].
Proof. unfold blen. destruct l as [|a [|b [|c [|d [|]]]]]; cbn; try lia. eauto. Qed.
Lemma list_of_1 (l : bytes) : blen l = 1 -> exists a, l = [a].
Proof. unfold blen. destruct l as [|a [|]]; cbn; try lia. eauto. Qed.

(** The callback, when the input holds what the state asks for. *)
Definition resumes (c : client) : Prop :=
  exists c', socks5_read_cb init_config dest true c = Some c' /\ client_inv c' /\
    forall x, resume c (be_input c ++ x) = resume c' (be_input c' ++ x).

Definition ready (c : client) : Prop :=
  read_enabled c = true /\ is_bytes (be_input c) /\ wm_low c = need c /\ wm_high c = need c /\
  do_password c = (match creds with Some _ => true | None => false end) /\
  dropped c = false /\ relaying c = false /\ blen (be_input c) = need c.

(** Closes the case in which the callback returned a given client. *)
Ltac returned :=
  eexists; split; [reflexivity|]; split;
  [ unfold client_inv, need; cbn; rewrite_all_state; change (blen []) with 0; repeat split; intros; first [done|lia|congruence|by constructor]
  | intros ?; unfold resume; cbn; rewrite_all_state; rewrite ?app_nil_r; try reflexivity ]
with rewrite_all_state :=
  repeat match goal with H : dropped _ = _ |- _ => rewrite H | H : relaying _ = _ |- _ => rewrite H | H : state _ = _ |- _ => rewrite H | H : usable_credentials _ = _ |- _ => rewrite H end.

Lemma resumes_methods c : ready c -> state c = socks5_method_sent -> resumes c.
Proof.
  intros (? & ? & Hl & Hh & Hd & Hdr & Hr & Hlen) Hst. unfold need in *; rewrite Hst in *.
  destruct (list_of_2 _ Hlen) as (v & m & Hin). unfold resumes, socks5_read_cb. rewrite Hst.
  unfold socks5_read_auth_methods.
  rewrite (read_expected_len c _ _ Hlen sizes_equal_refl), Hin. cbn [mbind option_bind].
  unfold socks5_is_known_auth_method. cbn [nth do_password set_input].
  unfold resume at 1; rewrite Hdr, Hr, Hst. cbn [app after_greeting].
  unfold socks5_ver, socks5_auth_invalid, socks5_auth_none, socks5_auth_password.
  destruct (Z.eqb_spec v 5); cbn [negb andb]; [|destruct creds as [[]|] eqn:?; returned].
  destruct (Z.eqb_spec m 255) as [->|]; cbn [negb andb Z.eqb Pos.eqb]; [destruct creds as [[]|] eqn:?; returned|].
  destruct (Z.eqb_spec m 0); cbn [negb andb]; [returned|].
  pose proof instance_credentials as HC. rewrite Hd.
  destruct (login init_config) as [l|], (password init_config) as [p|]; try done.
  - destruct HC as (HC & ? & ?). rewrite HC in *. destruct (Z.eqb_spec m 2); cbn [negb andb mbind option_bind]; [|returned].
    returned. unfold socks5_mkpassword_plain, password_request. by rewrite !u8_small by (pose proof (blen_nonneg l); pose proof (blen_nonneg p); lia).
  - rewrite HC in *. rewrite andb_false_r. cbn [negb]. returned.
Qed.

Lemma resumes_auth c : ready c -> state c = socks5_auth_sent -> resumes c.
Proof.
  intros (? & ? & Hl & Hh & Hd & Hdr & Hr & Hlen) Hst. unfold need in *; rewrite Hst in *.
  destruct (list_of_2 _ Hlen) as (v & m & Hin). unfold resumes, socks5_read_cb. rewrite Hst.
  unfold socks5_read_auth_reply.
  rewrite (read_expected_len c _ _ Hlen sizes_equal_refl), Hin. cbn [mbind option_bind nth].
  unfold resume at 1; rewrite Hdr, Hr, Hst. cbn [app after_password]. unfold socks5_password_ver, socks5_password_passed.
  destruct (Z.eqb_spec v 1); cbn [negb andb]; [|returned].
  destruct (Z.eqb_spec m 0); cbn [negb andb]; returned.
Qed.

Lemma resumes_reply c : ready c -> state c = socks5_request_sent -> resumes c.
Proof.
  intros (? & ? & Hl & Hh & Hd & Hdr & Hr & Hlen) Hst. unfold need in *; rewrite Hst in *.
  destruct (list_of_4 _ Hlen) as (v & m & r & a & Hin). unfold resumes, socks5_read_cb. rewrite Hst.
  unfold socks5_read_reply. rewrite (read_expected_len c _ _ Hlen sizes_greater_equal_refl), Hin. cbn [mbind option_bind nth].
  unfold resume at 1; rewrite Hdr, Hr, Hst. cbn [app after_request].
  unfold socks5_ver, socks5_status_succeeded, socks5_addrtype_ipv4, socks5_addrtype_ipv6, socks5_addrtype_domain.
  destruct (Z.eqb_spec v 5); cbn [negb andb]; [|returned].
  destruct (Z.eqb_spec m 0); cbn [negb andb]; [|returned].
  destruct (Z.eqb_spec a 1); [returned|].
  destruct (Z.eqb_spec a 4); [returned|].
  destruct (Z.eqb_spec a 3); returned.
Qed.

Lemma resumes_domain c : ready c -> state c = socks5_skip_domain -> resumes c.
Proof.
  intros (? & Hb & Hl & Hh & Hd & Hdr & Hr & Hlen) Hst. unfold need in *; rewrite Hst in *.
  destruct (list_of_1 _ Hlen) as (n & Hin). unfold resumes, socks5_read_cb. rewrite Hst.
  rewrite (read_expected_len c _ _ Hlen sizes_greater_equal_refl), Hin in *. cbn [mbind option_bind nth].
  apply Forall_inv in Hb. unfold is_byte in Hb.
  unfold resume at 1; rewrite Hdr, Hr, Hst. cbn [app after_domain]. returned.
Qed.

Lemma resumes_address c : ready c -> state c = socks5_skip_address -> 0 < to_skip c -> resumes c.
Proof.
  intros (? & Hb & Hl & Hh & Hd & Hdr & Hr & Hlen) Hst Hpos. unfold need in *; rewrite Hst in *.
  unfold resumes, socks5_read_cb. rewrite Hst.
  rewrite (read_expected_len c _ _ Hlen sizes_greater_equal_refl). cbn [mbind option_bind nth].
  returned. rewrite <- Hlen. unfold after_address. rewrite (proj2 (Z.ltb_ge _ _)) by (rewrite blen_app; pose proof (blen_nonneg x); lia).
  by rewrite bdrop_app_exact.
Qed.

Lemma deliver_resumes c d : client_inv c -> may_read c d -> is_bytes d ->
  exists c', deliver init_config dest true c d = Some c' /\ client_inv c' /\
    forall x, resume c (be_input c ++ d ++ x) = resume c' (be_input c' ++ x).
Proof.
  intros (Hst & Hre & Hb & Hl & Hh & Hpos & Hd & Hx & Hlt) (_ & Hdr & Hr & Hne & Hle) Hbd.
  unfold deliver. cbn [be_input set_input wm_low]. rewrite blen_app in *.
  destruct (Z.geb_spec (blen (be_input c) + blen d) (wm_low c)) as [Hge|Hsm].
  - set (c1 := set_input c (be_input c ++ d)).
    assert (Hready : ready c1).
    { unfold ready, c1. change (need (set_input _ _)) with (need c). cbn. rewrite blen_app, is_bytes_app. intuition lia. }
    assert (Hres : resumes c1).
    { destruct (state c) eqn:E; [done|by apply resumes_methods|by apply resumes_auth|by apply resumes_reply|by apply resumes_domain|].
      apply resumes_address; [done..|]. unfold need in Hpos. by rewrite E in Hpos. }
    destruct Hres as (c' & H1 & H2 & H3). exists c'. split_and!; [done..|]. intros x. rewrite app_assoc. exact (H3 x).
  - eexists; split; [reflexivity|]. split.
    + unfold client_inv. change (need (set_input _ _)) with (need c). cbn. rewrite is_bytes_app, blen_app. intuition lia.
    + intros x. by rewrite app_assoc.
Qed.

Lemma deliver_all_resumes ds c : client_inv c -> may_read_all init_config dest c ds -> Forall is_bytes ds ->
  exists c', deliver_all init_config dest c ds = Some c' /\ client_inv c' /\
    resume c (be_input c ++ concat ds) = resume c' (be_input c').
Proof.
  revert c; induction ds as [|d ds IH]; intros c Hinv Hmay Hb; cbn.
  - exists c. rewrite app_nil_r. auto.
  - destruct Hmay as [Hm Hmay]. inversion_clear Hb as [|? ? Hbd Hbs].
    destruct (deliver_resumes c d Hinv Hm Hbd) as (c1 & E1 & Hinv1 & E). rewrite E1 in *. cbn [mbind option_bind].
    rewrite E. by apply IH.
Qed.

Lemma resume_shows c : client_inv c -> client_shows c (resume c (be_input c)).
Proof.
  intros (Hst & Hre & Hb & Hl & Hh & Hpos & Hd & Hx & Hlt). unfold resume.
  destruct (dropped c) eqn:Ed; cbn; [destruct (relaying c); intuition|].
  destruct (relaying c) eqn:Er; cbn; [done|]. specialize (Hlt eq_refl eq_refl). unfold need in *.
  pose proof (blen_nonneg (be_input c)).
  destruct (state c); try done; destruct (be_input c) as [|b1 [|b2 [|b3 [|b4 l]]]] eqn:Ei; rewrite ?blen_cons, ?blen_nil in *;
    try (pose proof (blen_nonneg l)); try lia; cbn [after_greeting after_password after_request after_domain];
    try (unfold after_address; rewrite ?blen_cons, ?blen_nil; rewrite (proj2 (Z.ltb_lt _ _)) by lia); cbn; rewrite ?Ei, ?blen_cons, ?blen_nil; intuition lia.
Qed.
End Proofs.

(** C12. After the connection is there and its stream has come in pieces however cut, the
    client has sent what the dialog of RFC 1928 and RFC 1929 asks for, waits for exactly the
    rest of the next part, has dropped the connection, or relays with no byte of the
    relayed stream taken. *)
Theorem socks5_dialog config dest ds :
  may_read_all (socks5_instance_init config) dest (socks5_write_cb true (socks5_client_init (socks5_instance_init config))) ds ->
  Forall is_bytes ds ->
  exists c, deliver_all (socks5_instance_init config) dest (socks5_write_cb true (socks5_client_init (socks5_instance_init config))) ds = Some c /\
    client_shows c (dialog (usable_credentials config) dest (concat ds)).
Proof.
  intros Hm Hb. pose proof (instance_credentials config) as HC.
  set (c0 := socks5_client_init (socks5_instance_init config)) in *.
  change (socks5_write_cb true c0) with (redsocks_write_helper true c0 (Some (socks5_mkmethods_plain (do_password c0))) socks5_method_sent 2) in *.
  set (c1 := redsocks_write_helper _ _ _ _ _) in *.
  assert (Hinv : client_inv config c1).
  { unfold c1, c0, client_inv, need. cbn. repeat split; try done; try lia; [constructor|].
    destruct (login (socks5_instance_init config)), (password (socks5_instance_init config)); try done; [destruct HC as [-> _]|rewrite HC]; done. }
  destruct (deliver_all_resumes _ _ _ _ Hinv Hm Hb) as (c & H1 & H2 & H3). exists c. split; [done|].
  replace (dialog _ _ _) with (resume config dest c (be_input c)); [by apply resume_shows|].
  rewrite <- H3. unfold resume, c1, c0, dialog, greeting. cbn.
  destruct (login (socks5_instance_init config)), (password (socks5_instance_init config)); try done; [destruct HC as [-> _]|rewrite HC]; done.
Qed.

(** A password dialog with a domain in the reply, in uneven pieces. *)
Definition ex_config : redsocks_config := {| login := Some [117; 115; 101; 114]; password := Some [112; 119] |}.
Definition ex_dest : destaddr := {| sin_addr := 16777343; sin_port := 20480 |}.
Definition ex_pieces : list bytes := [[5]; [2]; [1; 0]; [5; 0; 0]; [3]; [2]; [97; 98; 0]; [80]].

Lemma socks5_dialog_witness :
  exists c, deliver_all (socks5_instance_init ex_config) ex_dest (socks5_write_cb true (socks5_client_init (socks5_instance_init ex_config))) ex_pieces = Some c /\
    client_shows c (dialog (usable_credentials ex_config) ex_dest (concat ex_pieces)).
Proof.
  apply (socks5_dialog ex_config ex_dest ex_pieces).
  - vm_compute. repeat split; intros; discriminate.
  - repeat constructor; lia.
Defined.

Example ex_dialog : dialog (usable_credentials ex_config) ex_dest (concat ex_pieces) =
  Accepted [5; 2; 0; 2; 1; 4; 117; 115; 101; 114; 2; 112; 119; 5; 1; 0; 1; 127; 0; 0; 1; 0; 80] [].
Proof. reflexivity. Qed.
