(* ===== verification/RedPump.v ===== *)
(** The relaying of redsocks: redsocks/redsocks.c, from the end of the dialog with the
    proxy to the release of the connection (the pump on bufferevents).

    A connection has two sockets, one to the client and one to the proxy, each with a
    bufferevent of libevent.  What libevent does for redsocks is in [bufferevent] and
    [pump_step]: it appends to the input what it reads, up to the high watermark,
    while reading is enabled; it writes the output while the write event is pending;
    it calls the callbacks of redsocks.  [None] is a failed assertion or the use of a
    released client. *)

From S2P Require Import Prelude ByteOrder.
Open Scope Z_scope.

(** * libevent *)

Definition EV_READ : Z := 2.
Definition EV_WRITE : Z := 4.

(** Whether [x & bit]. *)
Definition has (x bit : Z) : bool := negb (Z.land x bit =? 0).

Record bufferevent := {
  input : bytes;
  output : bytes;
  enabled : Z;
  ev_write : bool;                       (* the write event is pending *)
  wm_read_high : Z; wm_write_high : Z;   (* the low watermarks are 0 *)
  (* the socket: all that was written to it, and how it was shut down *)
  written : bytes;
  fin : bool }.

Definition set_bufs (b : bufferevent) (i o : bytes) (evw : bool) : bufferevent :=
  {| input := i; output := o; enabled := enabled b; ev_write := evw; wm_read_high := wm_read_high b; wm_write_high := wm_write_high b;
     written := written b; fin := fin b |}.
Definition set_enabled (b : bufferevent) (en : Z) (evw : bool) : bufferevent :=
  {| input := input b; output := output b; enabled := en; ev_write := evw; wm_read_high := wm_read_high b; wm_write_high := wm_write_high b;
     written := written b; fin := fin b |}.
Definition set_fin (b : bufferevent) : bufferevent :=
  {| input := input b; output := output b; enabled := enabled b; ev_write := ev_write b; wm_read_high := wm_read_high b; wm_write_high := wm_write_high b;
     written := written b; fin := true |}.

Definition bufferevent_enable (b : bufferevent) (event : Z) : bufferevent :=
  set_enabled b (Z.lor (enabled b) event) (if has event EV_WRITE then true else ev_write b).
Definition bufferevent_disable (b : bufferevent) (event : Z) : bufferevent :=
  set_enabled b (Z.land (enabled b) (Z.lnot event)) (if has event EV_WRITE then false else ev_write b).

(** evbuffer_add_buffer to the output; new data starts the write event. *)
Definition bufferevent_write (b : bufferevent) (data : bytes) : bufferevent :=
  set_bufs b (input b) (output b ++ data) (if (0 <? blen data) && has (enabled b) EV_WRITE then true else ev_write b).
Definition drain_input (b : bufferevent) : bufferevent := set_bufs b [] (output b) (ev_write b).

Definition bufferevent_setwatermark (b : bufferevent) (highmark : Z) : bufferevent :=
  {| input := input b; output := output b; enabled := enabled b; ev_write := ev_write b; wm_read_high := highmark; wm_write_high := highmark;
     written := written b; fin := fin b |}.

(** * The connection *)

Inductive side := Client | Relay.
Definition other (s : side) : side := match s with Client => Relay | Relay => Client end.

Record redsocks_client := {
  client : bufferevent; relay : bufferevent;
  client_evshut : Z; relay_evshut : Z;
  pump_active : bool;
  freed : bool }.

Definition be (c : redsocks_client) (s : side) : bufferevent := match s with Client => client c | Relay => relay c end.
Definition evshut (c : redsocks_client) (s : side) : Z := match s with Client => client_evshut c | Relay => relay_evshut c end.

Definition set_be (c : redsocks_client) (s : side) (b : bufferevent) : redsocks_client :=
  {| client := match s with Client => b | Relay => client c end; relay := match s with Client => relay c | Relay => b end;
     client_evshut := client_evshut c; relay_evshut := relay_evshut c; pump_active := pump_active c; freed := freed c |}.
Definition set_evshut (c : redsocks_client) (s : side) (e : Z) : redsocks_client :=
  {| client := client c; relay := relay c;
     client_evshut := match s with Client => e | Relay => client_evshut c end; relay_evshut := match s with Client => relay_evshut c | Relay => e end;
     pump_active := pump_active c; freed := freed c |}.

Definition shut_both (c : redsocks_client) : bool :=
  (relay_evshut c =? Z.lor EV_READ EV_WRITE) && (client_evshut c =? Z.lor EV_READ EV_WRITE).

(** The release; logging and the accounting of connections are left out. *)
Definition redsocks_drop_client (c : redsocks_client) : redsocks_client :=
  {| client := client c; relay := relay c; client_evshut := client_evshut c; relay_evshut := relay_evshut c;
     pump_active := pump_active c; freed := true |}.

Inductive shut_how := SHUT_RD | SHUT_WR | SHUT_RDWR.

(** shutdown(2) itself: only the end of the outgoing stream is seen by the peer. *)
Definition shutdown (b : bufferevent) (how : shut_how) : bufferevent :=
  match how with SHUT_RD => b | SHUT_WR | SHUT_RDWR => set_fin b end.

Definition redsocks_shutdown (c : redsocks_client) (s : side) (how : shut_how) : option redsocks_client :=
  ASSERT negb (freed c);
  let evhow := match how with SHUT_RD => EV_READ | SHUT_WR => EV_WRITE | SHUT_RDWR => Z.lor EV_READ EV_WRITE end in
  let b := be c s in
  let b := if negb (match how with SHUT_RD => has (evshut c s) EV_WRITE | _ => false end) then shutdown b how else b in
  let b := bufferevent_disable b evhow in
  let c := set_evshut (set_be c s b) s (Z.lor (evshut c s) evhow) in
  Some (if shut_both c then redsocks_drop_client c else c).

Definition redsocks_relay_readcb (c : redsocks_client) (from to : side) : option redsocks_client :=
  ASSERT negb (freed c);
  if blen (output (be c to)) <? wm_write_high (be c to) then
    let data := input (be c from) in
    let c := set_be c to (bufferevent_write (be c to) data) in
    Some (set_be c from (drain_input (be c from)))
  else if has (enabled (be c from)) EV_READ then Some (set_be c from (bufferevent_disable (be c from) EV_READ))
  else Some c.

Definition redsocks_relay_writecb (c : redsocks_client) (from to : side) : option redsocks_client :=
  ASSERT negb (freed c);
  let from_eof := has (evshut c from) EV_READ in
  if (blen (input (be c from)) =? 0) && from_eof then redsocks_shutdown c to SHUT_WR
  else if blen (output (be c to)) <? wm_write_high (be c to) then
    let data := input (be c from) in
    let c := set_be c to (bufferevent_write (be c to) data) in
    let c := set_be c from (drain_input (be c from)) in
    if negb from_eof && negb (has (enabled (be c from)) EV_READ) then Some (set_be c from (bufferevent_enable (be c from) EV_READ))
    else Some c
  else Some c.

(** [eof]: the event is EVBUFFER_READ|EVBUFFER_EOF.  Both bufferevents are there. *)
Definition redsocks_event_error (c : redsocks_client) (s : side) (eof : bool) : option redsocks_client :=
  ASSERT negb (freed c);
  if eof then
    c ← redsocks_shutdown c s SHUT_RD;
    ASSERT negb (freed c);   (* client->state is read *)
    if pump_active c && (blen (output (be c (other s))) =? 0) then redsocks_shutdown c (other s) SHUT_WR
    else Some c
  else Some (redsocks_drop_client c).

Definition REDSOCKS_RELAY_HALFBUFF : Z := 4096.

Definition redsocks_start_bufferpump (c : redsocks_client) : redsocks_client :=
  let start (s : side) (b : bufferevent) :=
    bufferevent_enable (bufferevent_setwatermark b REDSOCKS_RELAY_HALFBUFF) (Z.land (Z.lor EV_READ EV_WRITE) (Z.lnot (evshut c s))) in
  {| client := start Client (client c); relay := start Relay (relay c); client_evshut := client_evshut c; relay_evshut := relay_evshut c;
     pump_active := pump_active c; freed := freed c |}.

(** The handler [fini] of the protocol does not touch what is modelled here. *)
Definition redsocks_start_relay (c : redsocks_client) : option redsocks_client :=
  ASSERT negb (freed c);
  Some (redsocks_start_bufferpump
    {| client := client c; relay := relay c; client_evshut := client_evshut c; relay_evshut := relay_evshut c; pump_active := true; freed := freed c |}).

(** * What libevent reports *)

Inductive pump_event :=
| Readable (s : side) (d : bytes)    (* the socket had [d] *)
| Eof (s : side)
| Writable (s : side) (n : Z)        (* the socket took [n] bytes of the output *)
| Error (s : side).

(** The callbacks are those redsocks_start_bufferpump sets. *)
Definition pump_step (c : redsocks_client) (e : pump_event) : option redsocks_client :=
  match e with
  | Readable s d =>
      let b := be c s in
      redsocks_relay_readcb (set_be c s (set_bufs b (input b ++ d) (output b) (ev_write b))) s (other s)
  | Eof s => redsocks_event_error (set_be c s (bufferevent_disable (be c s) EV_READ)) s true
  | Writable s n =>
      let b := be c s in
      let rest := bdrop n (output b) in
      let b := {| input := input b; output := rest; enabled := enabled b; ev_write := if blen rest =? 0 then false else ev_write b;
                  wm_read_high := wm_read_high b; wm_write_high := wm_write_high b; written := written b ++ btake n (output b); fin := fin b |} in
      let c := set_be c s b in
      if blen rest =? 0 then redsocks_relay_writecb c (other s) s else Some c
  | Error s => redsocks_event_error c s false
  end.

Definition reads (c : redsocks_client) (s : side) : bool :=
  has (enabled (be c s)) EV_READ && (blen (input (be c s)) <? wm_read_high (be c s)).

Definition pump_allowed (c : redsocks_client) (e : pump_event) : Prop :=
  freed c = false /\
  match e with
  | Readable s d => reads c s = true /\ d <> [] /\ blen (input (be c s)) + blen d <= wm_read_high (be c s)
  | Eof s => reads c s = true
  | Writable s n => ev_write (be c s) = true /\ 0 <= n <= blen (output (be c s)) /\ (output (be c s) <> [] -> 0 < n)
  | Error s => True
  end.

Fixpoint pump_run (c : redsocks_client) (es : list pump_event) : option redsocks_client :=
  match es with [] => Some c | e :: es => c ← pump_step c e; pump_run c es end.

Fixpoint pump_allowed_run (c : redsocks_client) (es : list pump_event) : Prop :=
  match es with
  | [] => True
  | e :: es => pump_allowed c e /\ match pump_step c e with Some c => pump_allowed_run c es | None => True end
  end.

(** What a side sent. *)
Fixpoint received (s : side) (es : list pump_event) : bytes :=
  match es with
  | [] => []
  | Readable Client d :: es => (match s with Client => d | Relay => [] end) ++ received s es
  | Readable Relay d :: es => (match s with Relay => d | Client => [] end) ++ received s es
  | _ :: es => received s es
  end.

Definition is_error (e : pump_event) : bool := match e with Error _ => true | _ => false end.
Definition failed (es : list pump_event) : bool := existsb is_error es.
Definition is_eof (s : side) (e : pump_event) : bool :=
  match e, s with Eof Client, Client | Eof Relay, Relay => true | _, _ => false end.
Definition ended (s : side) (es : list pump_event) : bool := existsb (is_eof s) es.

(** The end of the stream of [f] is reported while data of it waits in the input and
    nothing in the output of the other side. *)
Definition ends_early (f : side) (c : redsocks_client) (e : pump_event) : bool :=
  is_eof f e && negb (blen (input (be c f)) =? 0) && (blen (output (be c (other f))) =? 0).
Fixpoint ended_early (f : side) (c : redsocks_client) (es : list pump_event) : bool :=
  match es with
  | [] => false
  | e :: es => ends_early f c e || match pump_step c e with Some c => ended_early f c es | None => false end
  end.

(** * One direction

    What the two bufferevents hold of the stream from one side to the other. *)
Record channel := {
  v_written : bytes;    (* on the socket of the receiver *)
  v_output : bytes;
  v_input : bytes;
  v_evw : bool;         (* the write event of the receiver is pending *)
  v_fin : bool;         (* the receiver was told the end *)
  v_enR : bool; v_enW : bool;   (* reading from the sender and writing to the receiver are enabled *)
  v_shR : bool; v_shW : bool }. (* the evshut bits *)

Definition view (c : redsocks_client) (f : side) : channel :=
  {| v_written := written (be c (other f)); v_output := output (be c (other f)); v_input := input (be c f);
     v_evw := ev_write (be c (other f)); v_fin := fin (be c (other f));
     v_enR := has (enabled (be c f)) EV_READ; v_enW := has (enabled (be c (other f))) EV_WRITE;
     v_shR := has (evshut c f) EV_READ; v_shW := has (evshut c (other f)) EV_WRITE |}.

Definition HALF : Z := REDSOCKS_RELAY_HALFBUFF.

Definition ch_move (v : channel) : channel :=
  {| v_written := v_written v; v_output := v_output v ++ v_input v; v_input := [];
     v_evw := if (0 <? blen (v_input v)) && v_enW v then true else v_evw v; v_fin := v_fin v; v_enR := v_enR v; v_enW := v_enW v; v_shR := v_shR v; v_shW := v_shW v |}.
Definition ch_hold (v : channel) : channel :=
  {| v_written := v_written v; v_output := v_output v; v_input := v_input v; v_evw := v_evw v; v_fin := v_fin v;
     v_enR := false; v_enW := v_enW v; v_shR := v_shR v; v_shW := v_shW v |}.
Definition ch_resume (v : channel) : channel :=
  {| v_written := v_written v; v_output := v_output v; v_input := v_input v; v_evw := v_evw v; v_fin := v_fin v;
     v_enR := negb (v_shR v) || v_enR v; v_enW := v_enW v; v_shR := v_shR v; v_shW := v_shW v |}.
Definition ch_finish (v : channel) : channel :=
  {| v_written := v_written v; v_output := v_output v; v_input := v_input v; v_evw := false; v_fin := true;
     v_enR := v_enR v; v_enW := false; v_shR := v_shR v; v_shW := true |}.
Definition ch_end (v : channel) : channel :=
  {| v_written := v_written v; v_output := v_output v; v_input := v_input v; v_evw := v_evw v; v_fin := v_fin v;
     v_enR := false; v_enW := v_enW v; v_shR := true; v_shW := v_shW v |}.
Definition ch_put (v : channel) (d : bytes) : channel :=
  {| v_written := v_written v; v_output := v_output v; v_input := v_input v ++ d; v_evw := v_evw v; v_fin := v_fin v;
     v_enR := v_enR v; v_enW := v_enW v; v_shR := v_shR v; v_shW := v_shW v |}.
Definition ch_take (v : channel) (n : Z) : channel :=
  {| v_written := v_written v ++ btake n (v_output v); v_output := bdrop n (v_output v); v_input := v_input v;
     v_evw := if blen (bdrop n (v_output v)) =? 0 then false else v_evw v; v_fin := v_fin v;
     v_enR := v_enR v; v_enW := v_enW v; v_shR := v_shR v; v_shW := v_shW v |}.

(** The direction an event is about. *)
Definition about (e : pump_event) : side :=
  match e with Readable s _ | Eof s | Error s => s | Writable s _ => other s end.

Definition ch_step (v : channel) (e : pump_event) : channel :=
  match e with
  | Readable _ d =>
      let v := ch_put v d in if blen (v_output v) <? HALF then ch_move v else ch_hold v
  | Eof _ => let v := ch_end v in if blen (v_output v) =? 0 then ch_finish v else v
  | Writable _ n =>
      let v := ch_take v n in
      if blen (v_output v) =? 0 then
        if (blen (v_input v) =? 0) && v_shR v then ch_finish v else ch_resume (ch_move v)
      else v
  | Error _ => v
  end.

(** * Bits *)

Lemma has_lor x y b : has (Z.lor x y) b = has x b || has y b.
Proof.
  unfold has. rewrite Z.land_lor_distr_l. destruct (Z.eqb_spec (Z.land x b) 0) as [->|]; [by rewrite Z.lor_0_l|].
  destruct (Z.eqb_spec (Z.lor (Z.land x b) (Z.land y b)) 0) as [E|]; [|done].
  apply Z.lor_eq_0_iff in E. by destruct E.
Qed.

Lemma has_without x y b : has (Z.land x y) b = negb (Z.land x (Z.land y b) =? 0).
Proof. unfold has. by rewrite Z.land_assoc. Qed.

Lemma without_read_read x : has (Z.land x (Z.lnot EV_READ)) EV_READ = false.
Proof. rewrite has_without. change (Z.land _ EV_READ) with 0. by rewrite Z.land_0_r. Qed.
Lemma without_read_write x : has (Z.land x (Z.lnot EV_READ)) EV_WRITE = has x EV_WRITE.
Proof. rewrite has_without. by change (Z.land (Z.lnot EV_READ) EV_WRITE) with EV_WRITE. Qed.
Lemma without_write_read x : has (Z.land x (Z.lnot EV_WRITE)) EV_READ = has x EV_READ.
Proof. rewrite has_without. by change (Z.land (Z.lnot EV_WRITE) EV_READ) with EV_READ. Qed.
Lemma without_write_write x : has (Z.land x (Z.lnot EV_WRITE)) EV_WRITE = false.
Proof. rewrite has_without. change (Z.land (Z.lnot EV_WRITE) EV_WRITE) with 0. by rewrite Z.land_0_r. Qed.
Lemma has_read_write : has EV_READ EV_WRITE = false.
Proof. reflexivity. Qed.
Lemma has_write_read : has EV_WRITE EV_READ = false.
Proof. reflexivity. Qed.
Lemma has_read : has EV_READ EV_READ = true.
Proof. reflexivity. Qed.
Lemma has_write : has EV_WRITE EV_WRITE = true.
Proof. reflexivity. Qed.

Create Rewrite HintDb evbits.
#[export] Hint Rewrite has_lor without_read_read without_read_write without_write_read without_write_write has_read has_write has_read_write has_write_read orb_false_r orb_true_r : evbits.

Definition mask (x : Z) : Prop := x = 0 \/ x = EV_READ \/ x = EV_WRITE \/ x = Z.lor EV_READ EV_WRITE.

Lemma mask_lor x y : mask x -> y = EV_READ \/ y = EV_WRITE -> mask (Z.lor x y).
Proof. unfold mask. intros [->|[->|[->| ->]]] [->| ->]; vm_compute; auto. Qed.

Lemma mask_full x : mask x -> (x =? Z.lor EV_READ EV_WRITE) = has x EV_READ && has x EV_WRITE.
Proof. by intros [->|[->|[->| ->]]]. Qed.

(** * The pump is two channels *)

Definition ch_done (v : channel) : bool := v_shR v && v_shW v.

Record wired (c : redsocks_client) : Prop := {
  w_mask : forall s, mask (evshut c s);
  w_read : forall s, wm_read_high (be c s) = HALF;
  w_write : forall s, wm_write_high (be c s) = HALF;
  w_active : pump_active c = true }.

Lemma shut_both_done c : wired c -> shut_both c = ch_done (view c Client) && ch_done (view c Relay).
Proof.
  intros W. unfold shut_both. rewrite (mask_full (relay_evshut c) (w_mask _ W Relay)), (mask_full (client_evshut c) (w_mask _ W Client)). unfold ch_done, view; cbn.
  by destruct (has (relay_evshut c) EV_READ), (has (relay_evshut c) EV_WRITE), (has (client_evshut c) EV_READ), (has (client_evshut c) EV_WRITE).
Qed.

Ltac views := unfold view; cbn -[has Z.lor Z.land Z.lnot EV_READ EV_WRITE HALF blen bdrop btake Z.ltb Z.eqb app]; autorewrite with evbits.
Ltac same_wires W :=
  destruct W as [W1 W2 W3 W4]; constructor;
  [ intros []; cbn -[Z.lor]; try apply mask_lor; auto; first [apply (W1 Client)|apply (W1 Relay)]
  | intros []; cbn; first [apply (W2 Client)|apply (W2 Relay)] | intros []; cbn; first [apply (W3 Client)|apply (W3 Relay)] | exact W4 ].

Lemma channel_put c s d (W : wired c) :
  let c' := set_be c s (set_bufs (be c s) (input (be c s) ++ d) (output (be c s)) (ev_write (be c s))) in
  wired c' /\ view c' s = ch_put (view c s) d /\ view c' (other s) = view c (other s).
Proof. cbn zeta. split; [destruct s; same_wires W|]. by destruct s. Qed.

Lemma view_move c s (W : wired c) :
  let c1 := set_be c (other s) (bufferevent_write (be c (other s)) (input (be c s))) in
  let c2 := set_be c1 s (drain_input (be c1 s)) in
  wired c2 /\ view c2 s = ch_move (view c s) /\ view c2 (other s) = view c (other s).
Proof. cbn zeta. split; [destruct s; same_wires W|]. by destruct s. Qed.

Lemma view_hold c s (W : wired c) :
  let c' := set_be c s (bufferevent_disable (be c s) EV_READ) in
  wired c' /\ view c' s = ch_hold (view c s) /\ view c' (other s) = view c (other s).
Proof. cbn zeta. split; [destruct s; same_wires W|]. by destruct s; views. Qed.

Lemma view_enable c s (W : wired c) : v_shR (view c s) = false ->
  let c' := set_be c s (bufferevent_enable (be c s) EV_READ) in
  wired c' /\ view c' s = ch_resume (view c s) /\ view c' (other s) = view c (other s).
Proof. intros E. cbn zeta. split; [destruct s; same_wires W|]. unfold ch_resume. by destruct s; views; cbn in E; rewrite E, ?orb_true_r. Qed.

Definition take_output (c : redsocks_client) (s : side) (n : Z) : redsocks_client :=
  let b := be c s in
  let rest := bdrop n (output b) in
  set_be c s {| input := input b; output := rest; enabled := enabled b; ev_write := if blen rest =? 0 then false else ev_write b;
    wm_read_high := wm_read_high b; wm_write_high := wm_write_high b; written := written b ++ btake n (output b); fin := fin b |}.

Lemma view_take c s n (W : wired c) :
  wired (take_output c s n) /\ view (take_output c s n) (other s) = ch_take (view c (other s)) n /\ view (take_output c s n) s = view c s.
Proof. split; [destruct s; same_wires W|]. by destruct s. Qed.

Lemma shutdown_rd c s : freed c = false -> wired c -> v_shW (view c s) = false ->
  exists c', redsocks_shutdown c s SHUT_RD = Some c' /\ freed c' = false /\ wired c' /\
    view c' s = ch_end (view c s) /\ view c' (other s) = view c (other s).
Proof.
  intros Hf W Hs. unfold redsocks_shutdown. rewrite Hf. cbn [negb]. cbn zeta.
  replace (if negb (has (evshut c s) EV_WRITE) then _ else _) with (be c s) by (by destruct (has _ _)).
  set (c1 := set_evshut _ _ _).
  assert (W1 : wired c1) by (unfold c1; destruct s; same_wires W).
  assert (V : view c1 s = ch_end (view c s) /\ view c1 (other s) = view c (other s)) by (unfold c1; by destruct s; views).
  destruct V as [V1 V2].
  assert (E : shut_both c1 = false).
  { rewrite shut_both_done by done. destruct s; cbn [other] in *; rewrite V1; unfold ch_done, ch_end; cbn [v_shR v_shW]; rewrite Hs; [done|apply andb_false_r]. }
  rewrite E. exists c1. auto.
Qed.

Lemma shutdown_wr c t : freed c = false -> wired c ->
  exists c', redsocks_shutdown c t SHUT_WR = Some c' /\ wired c' /\
    view c' (other t) = ch_finish (view c (other t)) /\ view c' t = view c t /\
    freed c' = ch_done (view c' Client) && ch_done (view c' Relay).
Proof.
  intros Hf W. unfold redsocks_shutdown. rewrite Hf. cbn [negb shutdown]. cbn zeta.
  set (c1 := set_evshut _ _ _).
  assert (W1 : wired c1) by (unfold c1; destruct t; same_wires W).
  assert (V : view c1 (other t) = ch_finish (view c (other t)) /\ view c1 t = view c t) by (unfold c1; by destruct t; views).
  destruct V as [V1 V2]. destruct (shut_both c1) eqn:E; rewrite shut_both_done in E by done.
  - exists (redsocks_drop_client c1). split_and!; first [done|exact (eq_sym E)|by destruct W1; constructor].
  - exists c1. rewrite E. split_and!; try done.
Qed.

Lemma other_other s : other (other s) = s.
Proof. by destruct s. Qed.

(** What a step gives: the direction of the event makes its step, the other one stays,
    and the client is released when both have ended. *)
Definition step_ok (c : redsocks_client) (e : pump_event) : Prop :=
  exists c', pump_step c e = Some c' /\ wired c' /\
    view c' (about e) = ch_step (view c (about e)) e /\ view c' (other (about e)) = view c (other (about e)) /\
    freed c' = is_error e || ch_done (view c' Client) && ch_done (view c' Relay).

(** A channel that has not ended has not told the receiver, and reads only while it
    has not ended. *)
Definition ch_open (v : channel) : Prop :=
  (v_shW v = true -> v_shR v = true) /\ (v_enR v = true -> v_shR v = false).

Lemma not_done c c' s : freed c = false -> freed c' = freed c -> v_shR (view c' s) = false ->
  freed c' = false || ch_done (view c' Client) && ch_done (view c' Relay).
Proof. intros -> -> Hs. unfold ch_done. destruct s; rewrite Hs; cbn; [done|by rewrite andb_false_r]. Qed.

Lemma step_readable c s d : wired c -> ch_open (view c s) -> pump_allowed c (Readable s d) -> step_ok c (Readable s d).
Proof.
  intros W (_ & Hop) (Hf & Hr & Hd & Hle). unfold reads in Hr. apply andb_true_iff in Hr as [Hr _].
  specialize (Hop Hr). unfold step_ok, pump_step.
  destruct (channel_put c s d W) as (W1 & V1 & V1'). set (c1 := set_be c s _) in *.
  unfold redsocks_relay_readcb. replace (freed c1) with false by (by unfold c1; destruct s). cbn [negb].
  rewrite (w_write _ W1). cbn [about ch_step]. rewrite <- V1. change (v_output (view c1 s)) with (output (be c1 (other s))). fold HALF.
  destruct (Z.ltb_spec (blen (output (be c1 (other s)))) HALF).
  - destruct (view_move c1 s W1) as (W2 & V2 & V2'). eexists; split; [reflexivity|]. split; [done|]. split; [done|]. split; [by rewrite V2'|].
    eapply (not_done c _ s); [done| |by rewrite V2, V1]. unfold c1; by destruct s.
  - replace (has (enabled (be c1 s)) EV_READ) with true by (rewrite <- Hr; unfold c1; by destruct s).
    destruct (view_hold c1 s W1) as (W2 & V2 & V2'). eexists; split; [reflexivity|]. split; [done|]. split; [done|]. split; [by rewrite V2'|].
    eapply (not_done c _ s); [done| |by rewrite V2, V1]. unfold c1; by destruct s.
Qed.

Lemma step_eof c s : wired c -> ch_open (view c s) -> pump_allowed c (Eof s) -> step_ok c (Eof s).
Proof.
  intros W (Ho & Hop) (Hf & Hr). unfold reads in Hr. apply andb_true_iff in Hr as [Hr _]. specialize (Hop Hr).
  unfold step_ok, pump_step. destruct (view_hold c s W) as (W1 & V1 & V1'). set (c1 := set_be c s _) in *.
  assert (Hf1 : freed c1 = false) by (by unfold c1; destruct s).
  assert (HW : v_shW (view c1 s) = false) by (rewrite V1; cbn [ch_hold v_shW]; destruct (v_shW (view c s)); [specialize (Ho eq_refl); congruence|done]).
  unfold redsocks_event_error. rewrite Hf1. cbn [negb].
  destruct (shutdown_rd c1 s Hf1 W1 HW) as (c2 & -> & Hf2 & W2 & V2 & V2'). cbn [mbind option_bind]. rewrite Hf2. cbn [negb].
  rewrite (w_active _ W2). cbn [andb about ch_step].
  assert (V3 : view c2 s = ch_end (view c s)) by (rewrite V2, V1; by destruct (view c s)).
  change (output (be c2 (other s))) with (v_output (view c2 s)). rewrite V3.
  destruct (blen _ =? 0) eqn:E.
  - destruct (shutdown_wr c2 (other s) Hf2 W2) as (c3 & -> & W3 & V4 & V4' & Hf3). rewrite other_other in V4.
    exists c3. split_and!; try done; [by rewrite V4, V3|by rewrite V4', V2', V1'].
  - exists c2. split_and!; try done; [by rewrite V2', V1'|]. rewrite Hf2. symmetry. unfold ch_done.
    rewrite V1 in HW; cbn [ch_hold v_shW] in HW.
    destruct s; cbn [is_error orb]; rewrite V3; cbn [ch_end v_shR v_shW]; rewrite HW; by rewrite ?andb_false_r.
Qed.

Lemma resume_noop v : negb (v_shR v) && negb (v_enR v) = false -> ch_resume v = v.
Proof. destruct v as [? ? ? ? ? enR ? shR ?]; unfold ch_resume; cbn. by destruct enR, shR. Qed.

Lemma step_writable c s n : wired c -> ch_done (view c Client) && ch_done (view c Relay) = false ->
  pump_allowed c (Writable s n) -> step_ok c (Writable s n).
Proof.
  intros W Hnd (Hf & Hr). unfold step_ok, pump_step. cbn zeta. fold (take_output c s n).
  destruct (view_take c s n W) as (W1 & V1 & V1'). set (c1 := take_output c s n) in *.
  assert (Hf1 : freed c1 = false) by (by unfold c1; destruct s). cbn [about ch_step]. rewrite other_other, <- V1.
  assert (Hdone : forall c', freed c' = false -> ch_done (view c' (other s)) = ch_done (view c (other s)) -> view c' s = view c s ->
    freed c' = is_error (Writable s n) || ch_done (view c' Client) && ch_done (view c' Relay)).
  { intros c' -> E1 E2. cbn [is_error orb]. symmetry. destruct s; cbn [other] in *; by rewrite ?E1, ?E2. }
  replace (bdrop n (output (be c s))) with (v_output (view c1 (other s))) by (rewrite V1; by destruct s).
  destruct (blen (v_output (view c1 (other s))) =? 0) eqn:E0.
  - unfold redsocks_relay_writecb. rewrite Hf1. cbn [negb].
    change (input (be c1 (other s))) with (v_input (view c1 (other s))). change (has (evshut c1 (other s)) EV_READ) with (v_shR (view c1 (other s))).
    destruct ((blen (v_input (view c1 (other s))) =? 0) && v_shR (view c1 (other s))) eqn:E1.
    + destruct (shutdown_wr c1 s Hf1 W1) as (c3 & -> & W3 & V4 & V4' & Hf3). exists c3. split_and!; try done. by rewrite V4', V1'.
    + replace (output (be c1 s)) with (v_output (view c1 (other s))) by (by destruct s). apply Z.eqb_eq in E0. rewrite E0, (w_write _ W1).
      change (0 <? HALF) with true. cbn match. change (v_input (view c1 (other s))) with (input (be c1 (other s))).
      pose proof (view_move c1 (other s) W1) as (W2 & V2 & V2'). rewrite other_other in W2, V2, V2'.
      set (c2 := set_be (set_be c1 s _) (other s) _) in *.
      assert (Hf2 : freed c2 = false) by (by unfold c2; destruct s).
      replace (v_shR (view c1 (other s))) with (v_shR (view c2 (other s))) by (by rewrite V2).
      change (has (enabled (be c2 (other s))) EV_READ) with (v_enR (view c2 (other s))).
      assert (ED : ch_done (view c2 (other s)) = ch_done (view c (other s))) by (by rewrite V2, V1).
      destruct (negb (v_shR (view c2 (other s))) && negb (v_enR (view c2 (other s)))) eqn:E2.
      * apply andb_true_iff in E2 as [E2 _]. apply negb_true_iff in E2. destruct (view_enable c2 (other s) W2 E2) as (W3 & V3 & V3').
        eexists; split; [reflexivity|]. rewrite other_other in V3'. split_and!; [done|by rewrite V3, V2|by rewrite V3', V2', V1'|].
        apply Hdone; [by unfold c2; destruct s|by rewrite V3|by rewrite V3', V2'].
      * exists c2. split_and!; [done|done| |by rewrite V2', V1'|apply Hdone; [done|done|by rewrite V2', V1']].
        rewrite V2 in *. by rewrite resume_noop.
  - exists c1. split_and!; [done|done|done|by rewrite V1'|apply Hdone; [done|by rewrite V1|done]].
Qed.

Lemma step_error c s : wired c -> pump_allowed c (Error s) -> step_ok c (Error s).
Proof.
  intros W (Hf & _). unfold step_ok, pump_step, redsocks_event_error. rewrite Hf. cbn [negb].
  eexists; split; [reflexivity|]. split; [by destruct W; constructor|]. done.
Qed.

(** * The invariant of a direction

    [d] is all that came to be relayed, [i0] what of it waited in the input at the
    beginning, [B] bounds what was there then, and [early] tells that the stream
    ended while that still waited. *)
Record ch_inv (B : Z) (i0 d : bytes) (early : bool) (v : channel) : Prop := {
  c_data : v_written v ++ v_output v ++ v_input v = d;
  c_fin : v_fin v = v_shW v;
  c_shut : v_shW v = true -> v_shR v = true /\ v_output v = [] /\ (v_input v = [] \/ early = true);
  c_first : v_input v = [] \/ v_output v <> [] \/ v_input v = i0;
  c_idle : v_shW v = true -> v_evw v = false;
  c_read : v_enR v = true -> v_shR v = false;
  c_write : v_shW v = false -> v_enW v = true;
  c_goes : v_shW v = false -> v_output v <> [] \/ v_input v <> [] \/ v_shR v = true -> v_evw v = true;
  c_back : v_shR v = false -> v_enR v = false -> v_output v <> [];
  c_bound : HALF <= B /\ blen (v_input v) <= B /\ blen (v_output v) < HALF + B }.

Lemma blen_0_nil l : blen l = 0 -> l = [].
Proof. unfold blen. destruct l; cbn; [done|lia]. Qed.
Lemma blen_pos_cons l : l <> [] -> 0 < blen l.
Proof. unfold blen. destruct l; cbn; [done|lia]. Qed.

Lemma readable_inv B i0 d early v s x : ch_inv B i0 d early v -> v_enR v = true -> x <> [] -> blen (v_input v) + blen x <= HALF ->
  ch_inv B i0 (d ++ x) early (ch_step v (Readable s x)).
Proof.
  intros [Hd Hfin Hsh Hi Hid Hr Hw Hg Hb Hbd] He Hx Hle. specialize (Hr He).
  assert (HW : v_shW v = false) by (destruct (v_shW v); [destruct Hsh; [done|congruence]|done]).
  pose proof (blen_pos_cons _ Hx). pose proof (blen_nonneg (v_input v)). specialize (Hw HW). unfold ch_step, ch_put. cbn [v_output].
  destruct (Z.ltb_spec (blen (v_output v)) HALF) as [|Hfull].
  - constructor; unfold ch_move; cbn; rewrite ?Hfin, ?HW, ?Hw, ?app_nil_r; try done.
    + rewrite <- Hd. by rewrite !app_assoc.
    + by left.
    + intros _ _. by rewrite (proj2 (Z.ltb_lt _ _)) by (rewrite blen_app; lia).
    + intros _ Hen. by rewrite Hen in He.
    + rewrite !blen_app, blen_nil. lia.
  - assert (Hne : v_output v <> []) by (intros E; rewrite E, blen_nil in Hfull; unfold HALF, REDSOCKS_RELAY_HALFBUFF in *; lia).
    constructor; unfold ch_hold; cbn; rewrite ?Hfin, ?HW, ?Hw; try done.
    + rewrite <- Hd. by rewrite !app_assoc.
    + right. by left.
    + intros _ _. apply Hg; [done|]. by left.
    + rewrite !blen_app. lia.
Qed.

Lemma eof_inv B i0 d early v s : ch_inv B i0 d early v -> v_enR v = true ->
  ch_inv B i0 d (early || negb (blen (v_input v) =? 0) && (blen (v_output v) =? 0)) (ch_step v (Eof s)).
Proof.
  intros [Hd Hfin Hsh Hi Hid Hr Hw Hg Hb Hbd] He. specialize (Hr He).
  assert (HW : v_shW v = false) by (destruct (v_shW v); [destruct Hsh; [done|congruence]|done]).
  unfold ch_step, ch_end. cbn [v_output]. destruct (Z.eqb_spec (blen (v_output v)) 0) as [E|E].
  - apply blen_0_nil in E. constructor; unfold ch_finish; cbn; rewrite ?HW; try done. intros _. split_and!; [done..|].
    destruct (Z.eqb_spec (blen (v_input v)) 0) as [E0|E0]; [left; by apply blen_0_nil|right]. cbn. by rewrite orb_true_r.
  - constructor; cbn; rewrite ?Hfin, ?HW; try done; [by rewrite Hw|]. intros _ _. apply Hg; [done|]. left. intros E'. rewrite E' in E. by destruct E.
Qed.

Lemma writable_inv B i0 d early v s n : ch_inv B i0 d early v -> v_evw v = true -> 0 <= n <= blen (v_output v) ->
  ch_inv B i0 d early (ch_step v (Writable s n)).
Proof.
  intros [Hd Hfin Hsh Hi Hid Hr Hw Hg Hb Hbd] He Hn.
  assert (HW : v_shW v = false) by (destruct (v_shW v); [by rewrite Hid in He|done]). specialize (Hw HW).
  assert (Hdata : (v_written v ++ btake n (v_output v)) ++ bdrop n (v_output v) ++ v_input v = d).
  { rewrite <- Hd, <- app_assoc. f_equal. by rewrite app_assoc, btake_bdrop. }
  unfold ch_step, ch_take. cbn [v_output v_input v_shR]. destruct (Z.eqb_spec (blen (bdrop n (v_output v))) 0) as [E|E].
  - apply blen_0_nil in E. rewrite E in *. destruct ((blen (v_input v) =? 0) && v_shR v) eqn:E1.
    + apply andb_true_iff in E1 as [E1 E2]. apply Z.eqb_eq, blen_0_nil in E1. rewrite E1 in *.
      constructor; unfold ch_finish; cbn; rewrite ?E1; try done; [by rewrite E2; auto|by left|by rewrite E2|]. rewrite !blen_nil; unfold HALF, REDSOCKS_RELAY_HALFBUFF in *; lia.
    + constructor; unfold ch_resume, ch_move; cbn; rewrite ?Hfin, ?HW, ?Hw, ?app_nil_r, ?E; try done.
      * by left.
      * destruct (v_shR v) eqn:Es; [|done]. cbn. intros Hen. by specialize (Hr Hen).
      * rewrite andb_true_r. intros _ [Hx|[Hx|Hx]]; [|done|].
        -- by rewrite (proj2 (Z.ltb_lt _ _)) by (by apply blen_pos_cons).
        -- rewrite Hx, andb_true_r in E1. apply Z.eqb_neq in E1. pose proof (blen_nonneg (v_input v)). by rewrite (proj2 (Z.ltb_lt _ _)) by lia.
      * intros ->. done.
      * rewrite blen_nil. unfold HALF, REDSOCKS_RELAY_HALFBUFF in *; lia.
  - assert (Hne : bdrop n (v_output v) <> []) by (intros E'; rewrite E' in E; by destruct E).
    constructor; cbn; rewrite ?Hfin, ?HW, ?Hw; try done.
    + right. by left.
    + rewrite blen_bdrop by lia. lia.
Qed.

(** * Runs *)

Definition both_done (c : redsocks_client) : bool := ch_done (view c Client) && ch_done (view c Relay).

(** [d f] is all that came to be relayed from the side [f], [i0 f] what waited of it at
    the beginning, [eof f] whether it has ended and [early f] whether too early. *)
Record pump_inv (B : Z) (i0 d : side -> bytes) (eof early : side -> bool) (c : redsocks_client) : Prop := {
  p_wired : wired c;
  p_dir : forall f, ch_inv B (i0 f) (d f) (early f) (view c f);
  p_eof : forall f, v_shR (view c f) = eof f }.

Lemma ch_inv_open B i0 d early v : ch_inv B i0 d early v -> ch_open v.
Proof. intros H. split; [|apply (c_read _ _ _ _ _ H)]. intros E. by destruct (c_shut _ _ _ _ _ H E). Qed.

Lemma ch_done_fin B i0 d early v : ch_inv B i0 d early v -> ch_done v = v_fin v.
Proof.
  intros H. unfold ch_done. rewrite (c_fin _ _ _ _ _ H). destruct (v_shW v) eqn:E; [|apply andb_false_r].
  by destruct (c_shut _ _ _ _ _ H E) as [-> _].
Qed.

Lemma step_goes B i0 d eof early c e : pump_inv B i0 d eof early c -> both_done c = false -> pump_allowed c e -> step_ok c e.
Proof.
  intros [W I _] Hnd Ha. destruct e as [s x|s|s n|s].
  - apply step_readable; try done. eapply ch_inv_open, I.
  - apply step_eof; try done. eapply ch_inv_open, I.
  - by apply step_writable.
  - by apply step_error.
Qed.

Lemma allowed_inv B i0 d eof early c e : pump_inv B i0 d eof early c -> pump_allowed c e -> let f := about e in
  ch_inv B (i0 f) (d f ++ received f [e]) (early f || ends_early f c e) (ch_step (view c f) e).
Proof.
  intros [W I _] (Hf & Ha). unfold ends_early. destruct e as [s x|s|s n|s]; cbn [about] in *.
  - destruct Ha as (Hr & Hx & Hle). unfold reads in Hr. apply andb_true_iff in Hr as [Hr _]. rewrite (w_read _ W) in Hle.
    replace (received s [Readable s x]) with x by (destruct s; cbn; by rewrite app_nil_r). cbn [is_eof andb]. rewrite orb_false_r. by apply readable_inv.
  - unfold reads in Ha. apply andb_true_iff in Ha as [Hr _]. cbn [received]. rewrite app_nil_r.
    replace (is_eof s (Eof s)) with true by (by destruct s). exact (eof_inv _ _ _ _ _ s (I s) Hr).
  - destruct Ha as (He & Hle & _). cbn [received is_eof andb]. rewrite app_nil_r, orb_false_r. apply writable_inv; [done|by destruct s|by destruct s].
  - cbn. rewrite app_nil_r, orb_false_r. apply I.
Qed.

Lemma received_other e : received (other (about e)) [e] = [].
Proof. by destruct e as [[]|[]|[]|[]]. Qed.

Lemma eof_step v e : v_shR (ch_step v e) = v_shR v || is_eof (about e) e.
Proof.
  destruct e as [[]|[]|[]|[]]; unfold ch_step; repeat case_match; unfold ch_put, ch_move, ch_hold, ch_end, ch_finish, ch_take, ch_resume; cbn;
    by rewrite ?orb_false_r, ?orb_true_r.
Qed.
Lemma eof_other e : is_eof (other (about e)) e = false.
Proof. by destruct e as [[]|[]|[]|[]]. Qed.

Lemma by_sides (P : side -> Prop) s : P s -> P (other s) -> forall f, P f.
Proof. destruct s; intros ? ? []; done. Qed.

Lemma early_other c e : ends_early (other (about e)) c e = false.
Proof. unfold ends_early. by rewrite eof_other. Qed.

Lemma pump_step_inv B i0 d eof early c e : pump_inv B i0 d eof early c -> both_done c = false -> pump_allowed c e ->
  exists c', pump_step c e = Some c' /\
    pump_inv B i0 (fun f => d f ++ received f [e]) (fun f => eof f || is_eof f e) (fun f => early f || ends_early f c e) c' /\
    freed c' = is_error e || both_done c'.
Proof.
  intros Hi Hnd Ha. destruct (step_goes _ _ _ _ _ _ _ Hi Hnd Ha) as (c' & E & W & V1 & V2 & Hfr).
  exists c'. split; [done|]. split; [|done]. constructor; [done| |].
  - apply (by_sides _ (about e)); [rewrite V1; by eapply allowed_inv|]. rewrite V2, received_other, app_nil_r, early_other, orb_false_r. apply Hi.
  - apply (by_sides _ (about e)); [by rewrite V1, eof_step, (p_eof _ _ _ _ _ _ Hi)|]. by rewrite V2, eof_other, orb_false_r, (p_eof _ _ _ _ _ _ Hi).
Qed.

Lemma received_app f es es' : received f (es ++ es') = received f es ++ received f es'.
Proof. induction es as [|[[]|[]|[]|[]] es IH]; cbn; rewrite ?IH, <- ?app_assoc; done. Qed.

(** The invariant depends on the values of its functions only. *)
Lemma pump_inv_ext B i0 d d' eof eof' early early' c : pump_inv B i0 d eof early c ->
  (forall f, d f = d' f) -> (forall f, eof f = eof' f) -> (forall f, early f = early' f) -> pump_inv B i0 d' eof' early' c.
Proof. intros [W I E] H1 H2 H3. constructor; [done|intros f; rewrite <- H1, <- H3; apply I|intros f; by rewrite <- H2]. Qed.

Lemma pump_run_inv B i0 es : forall d eof early c, pump_inv B i0 d eof early c -> both_done c = false -> freed c = false -> pump_allowed_run c es ->
  exists c', pump_run c es = Some c' /\
    pump_inv B i0 (fun f => d f ++ received f es) (fun f => eof f || ended f es) (fun f => early f || ended_early f c es) c' /\
    freed c' = failed es || both_done c'.
Proof.
  induction es as [|e es IH]; intros d eof early c Hi Hnd Hf Ha; cbn [pump_run].
  - exists c. split; [done|]. split; [|by rewrite Hf, Hnd].
    eapply pump_inv_ext; [exact Hi|intros f; cbn; by rewrite ?app_nil_r, ?orb_false_r..].
  - destruct Ha as (Ha & Hrest). destruct (pump_step_inv _ _ _ _ _ _ _ Hi Hnd Ha) as (c1 & E & Hi1 & Hf1). cbn [ended_early]. rewrite E in *. cbn [mbind option_bind].
    assert (Hrec : forall f, (d f ++ received f [e]) ++ received f es = d f ++ received f (e :: es)).
    { intros f. change (e :: es) with ([e] ++ es). by rewrite received_app, app_assoc. }
    destruct (freed c1) eqn:Ef.
    + destruct es as [|e' es]; [|by destruct Hrest as ((? & _) & _); congruence].
      exists c1. split; [done|]. split.
      * eapply pump_inv_ext; [exact Hi1|done|intros f; cbn; by rewrite ?orb_false_r..].
      * cbn [failed existsb]. rewrite orb_false_r. congruence.
    + symmetry in Hf1. apply orb_false_iff in Hf1 as [He Hb].
      destruct (IH _ _ _ _ Hi1 Hb Ef Hrest) as (c2 & E2 & Hi2 & Hf2). exists c2. split; [done|]. split; [|cbn [failed existsb]; by rewrite He].
      eapply pump_inv_ext; [exact Hi2|exact Hrec|intros f; cbn; by rewrite orb_assoc..].
Qed.

(** * The relaying *)

(** The connection when the dialog with the proxy is over: nothing was told the end
    yet, a side may have ended and is then not read. *)
Record before_relay (B : Z) (c : redsocks_client) : Prop := {
  b_freed : freed c = false;
  b_fin : forall s, fin (be c s) = false;
  b_shut : forall s, evshut c s = 0 \/ evshut c s = EV_READ /\ has (enabled (be c s)) EV_READ = false;
  b_bound : HALF <= B /\ forall s, blen (input (be c s)) <= B /\ blen (output (be c s)) < HALF + B }.

Lemma start_relay_inv B c0 c : before_relay B c0 -> redsocks_start_relay c0 = Some c ->
  pump_inv B (fun f => input (be c0 f)) (fun f => written (be c0 (other f)) ++ output (be c0 (other f)) ++ input (be c0 f))
    (fun f => has (evshut c0 f) EV_READ) (fun _ => false) c /\
  both_done c = false /\ freed c = false.
Proof.
  intros [Hf Hfin Hsh [HB Hb]] E. unfold redsocks_start_relay in E. rewrite Hf in E. injection E as <-.
  assert (Hm : forall s, mask (evshut c0 s)) by (intros s; unfold mask; destruct (Hsh s) as [->|[-> _]]; auto).
  pose proof (Hsh Client) as HC. pose proof (Hsh Relay) as HR. pose proof (Hfin Client) as FC. pose proof (Hfin Relay) as FR.
  destruct c0 as [[ci co ce cw crh cwh cwr cf] [ri ro re rw rrh rwh rwr rf] cs rs pa fr]; cbn in *.
  split; [constructor|split; [|done]].
  - constructor; [exact Hm|by intros []|by intros []|done].
  - intros f. specialize (Hb f) as Hbf. specialize (Hb (other f)) as Hbo.
    constructor; destruct f; destruct HC as [->|[-> HC]], HR as [->|[-> HR]]; cbn in *; subst;
      rewrite ?has_lor, ?HC, ?HR, ?orb_true_r; try done; try (by intros; discriminate); try (split; [done|]; lia); try (right; by right).
  - intros []; done.
  - unfold both_done, ch_done; cbn. destruct HC as [->|[-> HC]], HR as [->|[-> HR]]; done.
Qed.

(** What is seen of the direction from [f] after the events [es]. *)
Record relayed (B : Z) (c0 c1 : redsocks_client) (es : list pump_event) (f : side) (c : redsocks_client) : Prop := {
  (* nothing is lost, repeated or reordered *)
  r_data : written (be c (other f)) ++ output (be c (other f)) ++ input (be c f) =
    written (be c0 (other f)) ++ output (be c0 (other f)) ++ input (be c0 f) ++ received f es;
  (* the receiver is told the end only after all the data of a sender that ended,
     unless it ended early: then what waited at the beginning is not sent *)
  r_fin : fin (be c (other f)) = true ->
    has (evshut c0 f) EV_READ || ended f es = true /\ output (be c (other f)) = [] /\
    (input (be c f) = [] \/ ended_early f c1 es = true /\ input (be c f) = input (be c0 f));
  (* what is left to do has its write event pending *)
  r_goes : fin (be c (other f)) = false ->
    output (be c (other f)) <> [] \/ input (be c f) <> [] \/ has (evshut c0 f) EV_READ || ended f es = true -> ev_write (be c (other f)) = true;
  (* reading stops only at the end or while the receiver has something to take *)
  r_reads : has (evshut c0 f) EV_READ || ended f es = false ->
    has (enabled (be c f)) EV_READ = true \/ output (be c (other f)) <> [];
  r_bound : blen (input (be c f)) <= B /\ blen (output (be c (other f))) < HALF + B }.

(** C11. Whatever the sockets do, the callbacks fail no assertion and use no released
    client; both directions relay their streams and their ends, in bounded buffers;
    and the client is released exactly on an error or when both receivers were told
    the end.  The one thing a receiver may miss when it is told the end is what was
    in the input buffer when the relaying began, and only if the end of that stream
    was reported while it still waited there and nothing was left in the output. *)
Theorem pump_relays B c0 c1 es :
  before_relay B c0 -> redsocks_start_relay c0 = Some c1 -> pump_allowed_run c1 es ->
  exists c, pump_run c1 es = Some c /\ (forall f, relayed B c0 c1 es f c) /\
    freed c = failed es || (fin (client c) && fin (relay c)).
Proof.
  intros Hb Hs Ha. destruct (start_relay_inv _ _ _ Hb Hs) as (Hi & Hnd & Hf).
  destruct (pump_run_inv _ _ _ _ _ _ _ Hi Hnd Hf Ha) as (c & E & [W I EE] & Hfr).
  exists c. split; [done|]. split.
  - intros f. destruct (I f) as [Hd Hfin Hsh Hin Hid Hr Hw Hg Hbk Hbd].
    constructor.
    + etransitivity; [exact Hd|]. cbn. by rewrite <- !app_assoc.
    + intros Hfn. change (fin (be c (other f))) with (v_fin (view c f)) in Hfn. rewrite Hfin in Hfn. rewrite <- (EE f).
      destruct (Hsh Hfn) as (Hs1 & Hs2 & Hs3). split; [done|]. split; [done|]. destruct Hin as [Hin|[Hin|Hin]]; [by left|done|].
      destruct Hs3 as [Hs3|Hs3]; [by left|by right].
    + intros Hfn Hx. change (fin (be c (other f))) with (v_fin (view c f)) in Hfn. rewrite Hfin in Hfn. rewrite <- (EE f) in Hx. by apply Hg.
    + intros He. rewrite <- (EE f) in He. destruct (has (enabled (be c f)) EV_READ) eqn:Er; [by left|right; by apply Hbk].
    + tauto.
  - rewrite Hfr. unfold both_done. rewrite (ch_done_fin _ _ _ _ _ (I Client)), (ch_done_fin _ _ _ _ _ (I Relay)). cbn. by rewrite (andb_comm (fin (relay c))).
Qed.

(** A connection whose client sent a request during the dialog. *)
Definition ex_side (i : bytes) : bufferevent :=
  {| input := i; output := []; enabled := EV_READ; ev_write := false; wm_read_high := 0; wm_write_high := 0; written := []; fin := false |}.
Definition ex_client (i : bytes) : redsocks_client :=
  {| client := ex_side i; relay := ex_side []; client_evshut := 0; relay_evshut := 0; pump_active := false; freed := false |}.

Definition ex_started (i : bytes) : redsocks_client := default (ex_client i) (redsocks_start_relay (ex_client i)).

Definition ex_events : list pump_event :=
  [Writable Relay 0; Readable Relay [7; 8; 9]; Writable Relay 2; Writable Client 3; Eof Client; Writable Relay 1; Eof Relay].

Lemma pump_relays_witness : exists c, pump_run (ex_started [1; 2; 3]) ex_events = Some c /\
  (forall f, relayed HALF (ex_client [1; 2; 3]) (ex_started [1; 2; 3]) ex_events f c) /\ freed c = failed ex_events || (fin (client c) && fin (relay c)).
Proof.
  apply (pump_relays HALF (ex_client [1; 2; 3]) (ex_started [1; 2; 3]) ex_events).
  - constructor; [done|by intros []|by intros []; left|]. split; [done|]. by intros [].
  - reflexivity.
  - vm_compute. repeat split; try (intros; discriminate); auto. intros H. by destruct H.
Defined.

Example ex_relayed : match pump_run (ex_started [1; 2; 3]) ex_events with
  | Some c => written (relay c) = [1; 2; 3] /\ written (client c) = [7; 8; 9] /\ freed c = true | None => False end.
Proof. vm_compute. auto. Qed.

(** C39. When the client's data of the time before the relaying still waits and its end is
    reported before the first write event of the proxy's socket, the proxy is told the
    end without the data, which is never sent. *)
Theorem pump_loses_early_data d : d <> [] -> blen d < HALF ->
  pump_allowed (ex_started d) (Eof Client) /\
  exists c, pump_step (ex_started d) (Eof Client) = Some c /\ freed c = false /\
    fin (relay c) = true /\ written (relay c) = [] /\ input (client c) = d /\ has (enabled (relay c)) EV_WRITE = false.
Proof.
  intros Hd Hl. split.
  - split; [done|]. unfold reads. cbn. apply andb_true_iff. split; [done|]. by apply Z.ltb_lt.
  - eexists; split; [reflexivity|]. done.
Qed.

Lemma pump_loses_early_data_witness : exists c, pump_step (ex_started [1]) (Eof Client) = Some c /\ freed c = false /\
    fin (relay c) = true /\ written (relay c) = [] /\ input (client c) = [1] /\ has (enabled (relay c)) EV_WRITE = false.
Proof. apply (pump_loses_early_data [1]); [discriminate|reflexivity]. Defined.

(** Before the relaying the end of both streams does not release the client. *)
Example ends_before_relay : forall c1 c2, redsocks_event_error (ex_client []) Relay true = Some c1 ->
  redsocks_event_error c1 Client true = Some c2 -> freed c2 = false /\ enabled (client c2) = 0 /\ enabled (relay c2) = 0.
Proof. intros c1 c2 E1 E2. vm_compute in E1. injection E1 as <-. vm_compute in E2. injection E2 as <-. auto. Qed.
